(* ===== verification/_CoqProject ===== *)
-Q . S2P
Prelude.v
PyStr.v
Regex.v
Paths.v
AstIndexer.v
TreeSitter.v
EmbedCache.v
Models.v
Utils.v
Redis.v
Interfaces.v
Dag.v
TaskQueue.v
TaskQueueFacts.v
TaskQueueExec.v
TaskQueueProps.v
TaskLease.v
AgentBus.v
ExecutorClient.v
PatchQueue.v
PatchQueueProps.v
SessionManager.v
SessionRace.v
ContextManager.v
Sanitize.v
Memory.v
MemoryProps.v
MemoryIndex.v
SessionHooks.v
FileWatcher.v
FineTune.v
SkillLoader.v
CommandParser.v
Metrics.v
Executor.v
AgentManager.v
AgentManagerProps.v
ModelRegistry.v
RoutingPolicy.v
Config.v
Router.v
Gateway.v
Debate.v
Webhook.v
Api.v
ServiceApi.v
System.v
PromptGuard.v
Lifespan.v
TuiState.v
TuiClient.v
TuiStore.v
TuiServices.v
Status.v
TuiScreens.v
TuiUtils.v
TuiPanes.v
TuiWidgets.v
TuiApp.v
TuiPalette.v
TuiView.v
TuiMain.v
TuiChat.v
TuiSystem.v
TuiRefresh.v
TuiExecute.v
TuiModels.v
TuiEvents.v
