(* ===== verification/Prelude.v ===== *)
(** * Verification of the AI coding agent factory

    The program is an orchestrator (src/orchestrator) that runs language-model
    agents, an executor (src/executor) that applies patches and runs commands
    in a sandbox, and a terminal client (src/tui).  A request reaches the
    orchestrator over HTTP (main.py).  The agent manager runs an agent: the
    routing policy and the router choose a model server, the context manager
    builds the prompt, the answer streams into the agent's outbox.  The task
    queue executes a DAG of tasks kept in Redis, one agent per task, and hands
    the diffs in the agents' answers to the patch queue, which checks and
    applies them through the executor.  Components tell each other what
    happened over the agent bus; sessions with their models live in Redis.

    ** How the code is represented

    A function of the program that mutates state or raises is a computation
    [M S A] of this file, a state transformer whose result is a value or an
    exception; what was mutated before an exception stays.  An [await] is a
    call: one call of an operation is modelled at a time, and where the code
    runs several at once ([asyncio.gather] over a batch of tasks) the model
    takes them in order.  A dict is a [gmap], or an association list where
    its order matters ([dict_get], [dict_set] below).  Objects that two places
    share, the patches of the queue and the queues of the bus, live in a heap
    and are referred to by address.  Strings are lists of characters; the
    string functions of Python the code uses are in PyStr.v.  Integers of
    Python are unbounded ([Z], or [nat] for lengths and counters).
    Times, random ids and configuration constants are parameters, under
    the names of config.py where they have one; Config.v reads them.

    Code outside src/ is a parameter: Redis is the class of Redis.v, whose laws
    are the documented behaviour of its commands, with an implementation by a
    finite map for concrete runs; HTTP requests, processes, JSON text, SHA-256
    and HMAC are operations of small classes or arguments.

    ** The files

    - Prelude.v, PyStr.v: exceptions, the monad, dicts, lists; strings.
    - Models.v (models.py and the dicts between components), Utils.v (utils.py),
      Redis.v (Redis), Interfaces.v (what the task queue and the patch queue
      call: the agent runner, the patch sink, the bus).
    - Dag.v ([_validate_dag] of task_queue.py): Kahn's algorithm as written; it
      accepts exactly the acyclic task lists with distinct ids.
    - TaskQueue.v (task_queue.py), TaskQueueFacts.v (storage, scheduling,
      propagation), TaskQueueExec.v (the execution loop against a map from ids
      to statuses), TaskLease.v (the executions of a task in every interleaving
      of their commands) and TaskQueueProps.v: plans execute in dependency
      order, the loop ends, failures block exactly the dependents, leases exclude
      and are released.
    - PatchQueue.v, PatchQueueProps.v (patch_queue.py): every branch of the
      application of a patch, conflicts by hash, the queue, the test-fix loop.
      The instance [PatchQueueSink] is the patch sink of the task queue.
    - ExecutorClient.v (executor_client.py), Executor.v (executor/main.py): the
      path check, the commands and the patches of the sandbox.
    - AgentManager.v, AgentManagerProps.v (agent_manager.py): runs, streaming,
      decomposition of plans.  [AgentManagerRunner] and its laws are the agent
      runner of the task queue; a decomposed plan is accepted by Dag.v.
    - AgentBus.v (agent_bus.py): a transition system with an invariant of the
      reachable states.
    - SessionManager.v (session_manager.py), SessionRace.v (its updates in every
      interleaving of their reads and writes), ContextManager.v
      (context_manager.py), Regex.v (the part of [re] the filter uses) and
      Sanitize.v (the injection filter of utils.py: what it replaces, and that
      no prompt has a part it would replace; PromptGuard.v follows the chat
      requests of a plan to the model servers; what the memory searches send to
      be embedded is the raw text, as its concrete run shows), CommandParser.v (command_parser.py), Metrics.v
      (metrics.py), Debate.v (debate_engine.py), Webhook.v (webhook_handler.py).
    - ModelRegistry.v (config.py, model_registry.py), RoutingPolicy.v
      (routing_policy.py), Router.v and Gateway.v (router.py, gateway.py): a
      configured model is the one that is routed; what Ollama or LiteLLM streams
      is what the agent assembles.  Config.v (config.py, executor/main.py): what the environment
      sets and which starts fail, and which commands the executor then runs.
    - Api.v (main.py): the endpoints and the slash commands over the components;
      ServiceApi.v: those over the services, with the token streams and the
      webhooks; Status.v: the reports, whose counts are complete, and the
      schema of a response.
    - System.v ([lifespan] of main.py): the components wired together, the laws
      of their interfaces discharged, the order of execution for the
      orchestrator as a whole, and concrete runs of it.  Lifespan.v
      ([lifespan] and the [init_*] functions): a start-up leaves every component
      with the same connection, agent manager and bus, or raises what a service
      raised; a run that ends well closes that connection last.

    - Paths.v (pathlib as the code uses it), AstIndexer.v (ast_indexer.py):
      chunks that cover every line with text; TreeSitter.v: its lazy table of
      parsers.
    - EmbedCache.v, Memory.v, MemoryProps.v, MemoryIndex.v
      (memory_manager.py): the cache against the list of keys by recency, the
      searches, failures and their clusters, the incremental index.
    - SessionHooks.v (session_hooks.py): recall, skills and anti-patterns; its
      instance [HooksEnv] is what the session manager calls.
    - FileWatcher.v (file_watcher.py): events, debounce timers and the hash
      registry as a step relation with an invariant.  The task of an event
      starts, reads the file in the executor and stores the hash in three
      steps, between which anything may happen; the registry is right once all
      is drained when the steps of one path do not overlap ([hashed_in_turn]),
      and a run in which they do shows what is lost otherwise.
    - FineTune.v (fine_tune_collector.py), SkillLoader.v (skill_loader.py).
    - The terminal client: TuiState.v (state.py) with the type invariant of the
      reachable states; TuiClient.v (client.py): requests, event streams, the
      connection supervisor; TuiStore.v (store.py): the two files and the
      restart; TuiServices.v (services/): routing, inline commands, events,
      projects; TuiScreens.v (session.py, command_palette.py, input_bar.py,
      model_config.py), TuiPanes.v (session_layout.py, agent_pane.py),
      TuiUtils.v (utils/); TuiWidgets.v (theme.py, widgets/, logs.py): the texts
      of bars, cards, sidebar and panes; TuiChat.v (chat.py): the log, in which
      a write can fail, the history, the keys pressed while an answer
      arrives, and the chat behind the orchestrator and Ollama; TuiApp.v
      (app.py, launcher.py, project.py, new_project.py, new_session.py): the
      stack of screens and its router, the forms, and a project created in a
      form opened again after a restart; TuiPalette.v (command_palette.py): what
      is marked, what Enter runs and what it does; TuiView.v (help.py,
      launcher.py, project.py): their texts, and that the marked card is the one
      Enter opens; TuiMain.v (main.py): the
      command line, from the files to the first screen.
    - The client in front of the orchestrator: TuiSystem.v (the agent endpoints
      answering the requests of the client), TuiRefresh.v (opening and refreshing
      a session, up to the rows of the sidebar, and a message typed for a role
      up to the inbox of its agent), TuiExecute.v (the command that runs the
      plan, up to the rows it leaves in the sidebar, and what the client shows
      when the plan outlasts its read timeout), TuiModels.v (model_panel.py,
      model_config.py): a choice of models through its endpoint to the routing
      policy; TuiEvents.v follows an event from the bus through the socket of
      the session to the screen, and a token from the stream of a model through
      the outbox, the endpoint and the client to the log of the session.

    ** Fuel

    Loops without a structural measure take fuel and raise [Diverges] when it
    runs out; the theorems show how much is enough.  [kahn] takes as many steps
    as there are tasks; [block_loop] one more than the tasks of the session;
    [execute_loop] at most as many rounds as there are pending tasks, when at
    least one task may run at a time (with MAX_PARALLEL_AGENTS = 0 it
    never ends, as Config.v shows); [process_all] twice the queue and one; [windows]
    (AstIndexer.v) the number of lines.

    ** Limits

    Interleavings at await points inside one operation are modelled only for
    the lease of a task, the updates of a session, the file watcher, the keys
    of the chat during an answer and the stream buffer of a pane.  Logging, the
    locks (one call at a time makes them vacuous) and the sockets behind streams
    are not modelled.  The client waits 30 seconds for a server that says
    nothing ([READ_TIMEOUT] of TuiClient.v): a request or a stream whose silence
    is longer ends with a connection error.  The duration of /v1/tasks/execute
    is a parameter, like the silences of an Ollama stream; the endpoints that
    only read the state of the orchestrator answer at once.  How Rich renders markup is a
    parameter (the class [Markup]); what is kept is the text given to the
    log, and whether its rendering raises.
    The depth of Python's stack is not limited: a syntax tree nested about a
    thousand deep, on which [visit] of ast_indexer.py raises RecursionError and
    ends the indexing run, is chunked like any other in AstIndexer.v.
    Floats are rationals ([Q]) or whole numbers.  Case, white space and the
    characters that [repr] escapes are those of ASCII.  The parsing
    of the vector store's URL, the validation of request bodies by the framework,
    and the layout, focus and scrolling of the terminal screens are left out.
    tree-sitter, ChromaDB and the embedding and reranking servers are
    parameters with their documented laws. *)

From stdpp Require Export base decidable option list list_numbers gmap strings pretty sorting.
From Stdlib Require Export Lia ZArith.
From Stdlib Require Export Bool.

#[global] Set Default Goal Selector "!".
#[global] Set Warnings "-clear-no-such-hyp,-level-tolerance".

(** ** Exceptions and results

    A Python call either returns a value or raises.  The message carried by an
    exception is kept where the code computes with it or returns it. *)

Inductive exn :=
  | ValueError (msg : string)
  | KeyError (msg : string)
  | RuntimeError (msg : string)
  | IndexError (msg : string)
  | PatchValidationError (msg : string)
  | HTTPException (code : Z) (detail : string)
  | TimeoutError
  | AicafConnectionError (msg : string)
  | WebhookSignatureError (msg : string)
  | TypeError (msg : string)
  | OtherError (msg : string)
  | Diverges (** the fuel of a loop ran out: shown never to be returned *).

#[export] Instance exn_eq_dec : EqDecision exn.
Proof. solve_decision. Defined.

(** [str(e)]. *)
Definition exn_str (e : exn) : string :=
  match e with
  | ValueError m | KeyError m | RuntimeError m | IndexError m
  | PatchValidationError m | AicafConnectionError m | WebhookSignatureError m | TypeError m | OtherError m => m
  | HTTPException _ d => d
  | TimeoutError | Diverges => ""
  end.

Inductive res (A : Type) :=
  | Ok (a : A)
  | Raise (e : exn).
Arguments Ok {A} a.
Arguments Raise {A} e.

#[export] Instance res_eq_dec {A} `{EqDecision A} : EqDecision (res A).
Proof. solve_decision. Defined.

Definition res_map {A B} (f : A → B) (r : res A) : res B :=
  match r with Ok a => Ok (f a) | Raise e => Raise e end.

Definition is_ok {A} (r : res A) : bool :=
  match r with Ok _ => true | Raise _ => false end.

(** ** A state and exception monad

    [M S A] is a computation that may mutate a state [S] and may raise; the
    mutations made before a [raise] stay, as they do in Python. *)

Definition M (S A : Type) : Type := S → S * res A.

Section monad.
Context {S : Type}.

Definition mret {A} (a : A) : M S A := λ s, (s, Ok a).
Definition mraise {A} (e : exn) : M S A := λ s, (s, Raise e).
Definition mbind {A B} (m : M S A) (k : A → M S B) : M S B :=
  λ s, match m s with
       | (s', Ok a) => k a s'
       | (s', Raise e) => (s', Raise e)
       end.
Definition mget : M S S := λ s, (s, Ok s).
Definition mmodify (f : S → S) : M S unit := λ s, (f s, Ok tt).
Definition mgets {A} (f : S → A) : M S A := λ s, (s, Ok (f s)).

(** [try: m except Exception as e: h e]. *)
Definition mtry {A} (m : M S A) (h : exn → M S A) : M S A :=
  λ s, match m s with
       | (s', Ok a) => (s', Ok a)
       | (s', Raise e) => h e s'
       end.

(** [try: m finally: f], for a cleanup [f] that does not raise. *)
Definition mfinally {A} (m : M S A) (f : S → S) : M S A :=
  λ s, let '(s', r) := m s in (f s', r).

(** [for x in l: f x], in order; the first exception stops the loop. *)
Fixpoint mfor {A} (l : list A) (f : A → M S unit) : M S unit :=
  match l with
  | [] => mret tt
  | x :: l' => mbind (f x) (λ _, mfor l' f)
  end.

(** [[f x for x in l]]. *)
Fixpoint mmap {A B} (f : A → M S B) (l : list A) : M S (list B) :=
  match l with
  | [] => mret []
  | x :: l' => mbind (f x) (λ y, mbind (mmap f l') (λ ys, mret (y :: ys)))
  end.

(** [await asyncio.gather(...)], the calls taken in order: each runs, whatever
    the others do, and the first exception is raised. *)
Fixpoint gather {A} (l : list (M S A)) : M S (list A) := λ s,
  match l with
  | [] => (s, Ok [])
  | m :: l' =>
      let '(s1, r) := m s in
      let '(s2, rs) := gather l' s1 in
      (s2, match r, rs with
           | Ok a, Ok l => Ok (a :: l)
           | Raise e, _ | _, Raise e => Raise e
           end)
  end.
End monad.

(** A computation only changes the state the way [P] allows. *)
Definition respects {S A : Type} (P : relation S) (m : M S A) : Prop := ∀ s, P s (m s).1.

Section monad_lemmas.
Context {S : Type}.

Section respects.
Context (P : relation S) `{!PreOrder P}.

Lemma respects_ret {A} (a : A) : respects P (mret a).
Proof. intros s. reflexivity. Qed.

Lemma respects_raise {A} e : respects P (mraise e : M S A).
Proof. intros s. reflexivity. Qed.

Lemma respects_bind {A B} (m : M S A) (k : A → M S B) :
  respects P m → (∀ a, respects P (k a)) → respects P (mbind m k).
Proof.
  intros Hm Hk s. unfold mbind. specialize (Hm s). destruct (m s) as [s1 [a|e]]; [|done].
  etrans; [exact Hm|apply Hk].
Qed.

Lemma respects_try {A} (m : M S A) h : respects P m → (∀ e, respects P (h e)) → respects P (mtry m h).
Proof.
  intros Hm Hk s. unfold mtry. specialize (Hm s). destruct (m s) as [s1 [a|e]]; [done|].
  etrans; [exact Hm|apply Hk].
Qed.
End respects.

(** A preorder every element of the loop respects, the whole loop does. *)
Lemma mmap_rel {A B} (P : relation S) `{!PreOrder P} (f : A → M S B) l s :
  (∀ x s, x ∈ l → P s (f x s).1) → P s (mmap f l s).1.
Proof.
  revert s. induction l as [|x l IH]; intros s Hf; simpl; [done|]. unfold mbind.
  pose proof (Hf x s ltac:(set_solver)) as Hx. destruct (f x s) as [s1 [y|e]]; [|done].
  specialize (IH s1 ltac:(set_solver)). simpl in *.
  destruct (mmap f l s1) as [s2 [ys|e]]; simpl in *; by etrans.
Qed.

Lemma gather_rel {A} (P : relation S) `{!PreOrder P} (l : list (M S A)) :
  Forall (respects P) l → respects P (gather l).
Proof.
  induction 1 as [|m l Hm Hl IH]; intros s; cbn; [done|]. specialize (Hm s). destruct (m s) as [s1 r].
  specialize (IH s1). destruct (gather l s1) as [s2 rs]. cbn in *. by etrans.
Qed.

Lemma gather_ok {A} (l : list (M S A)) s :
  Forall (λ m, ∀ s, ∃ s' a, m s = (s', Ok a)) l → ∃ s' rs, gather l s = (s', Ok rs) ∧ length rs = length l.
Proof.
  intros Hl. revert s. induction Hl as [|m l Hm Hl IH]; intros s; cbn; [by eexists _, []|].
  destruct (Hm s) as (s1 & a & ->). destruct (IH s1) as (s2 & rs & -> & Hlen). eexists _, (a :: rs).
  split; [done|]. cbn. by rewrite Hlen.
Qed.

Lemma mmap_ok {A B} (f : A → M S B) l s :
  (∀ x s, ∃ s' y, f x s = (s', Ok y)) →
  ∃ s' ys, mmap f l s = (s', Ok ys) ∧ length ys = length l.
Proof.
  intros Hf. revert s. induction l as [|x l IH]; intros s; simpl; [by eexists _, _|].
  unfold mbind. destruct (Hf x s) as (s1 & y & ->). destruct (IH s1) as (s2 & ys & -> & Hl).
  eexists _, (y :: ys). simpl. by rewrite Hl.
Qed.
End monad_lemmas.

Declare Scope py_scope.
Delimit Scope py_scope with py.
Notation "'let!' x ':=' m 'in' k" := (mbind m (λ x, k))
  (at level 10, x name, m at level 100, k at level 200) : py_scope.
Notation "'do!' m 'in' k" := (mbind m (λ _, k))
  (at level 10, m at level 100, k at level 200) : py_scope.

(** ** Tactics *)

(** Splits one goal per branch of the first conditional or match in sight. *)
Ltac branch :=
  match goal with
  | |- context [ match ?x with _ => _ end ] => destruct x eqn:?
  | H : context [ match ?x with _ => _ end ] |- _ => destruct x eqn:?
  end; simplify_eq/=; try done.

(** Turns boolean tests into the propositions they decide. *)
Ltac breflect :=
  repeat match goal with
  | H : bool_decide _ = true |- _ => apply bool_decide_eq_true_1 in H
  | H : bool_decide _ = false |- _ => apply bool_decide_eq_false_1 in H
  | H : andb _ _ = true |- _ => apply andb_true_iff in H as [? ?]
  | H : orb _ _ = false |- _ => apply orb_false_iff in H as [? ?]
  | H : negb _ = true |- _ => apply negb_true_iff in H
  | H : negb _ = false |- _ => apply negb_false_iff in H
  end.

(** ** Hint database of the development *)

Create HintDb aicaf discriminated.

(** ** Lists *)

(** [l[-n:]], the last [n] elements. *)
Definition last_n {A} (n : nat) (l : list A) : list A := drop (length l - n) l.

(** [l[:-n]], everything but the last [n] elements (for [n > 0]). *)
Definition but_last_n {A} (n : nat) (l : list A) : list A := take (length l - n) l.

(** The keys of [{k: _ for k in l}] in insertion order: the first occurrence
    of a duplicate fixes its position. *)
Definition dict_keys {A} `{EqDecision A} (l : list A) : list A :=
  reverse (remove_dups (reverse l)).

(** [sum(1 for x in l if p x)]. *)
Definition count_if {A} (p : A → bool) (l : list A) : nat :=
  length (List.filter p l).

#[global] Arguments count_if : simpl never.

(** [l.count(x)]. *)
Definition occ {A} `{EqDecision A} (x : A) (l : list A) : nat :=
  count_if (λ y, bool_decide (y = x)) l.

(** A dict as an association list in insertion order. *)
Section dicts.
Context {K V : Type} `{EqDecision K}.

Fixpoint dict_get (k : K) (d : list (K * V)) : option V :=
  match d with
  | [] => None
  | (k', v) :: d' => if decide (k' = k) then Some v else dict_get k d'
  end.

(** [d[k] = v]: an existing key keeps its place. *)
Fixpoint dict_set (k : K) (v : V) (d : list (K * V)) : list (K * V) :=
  match d with
  | [] => [(k, v)]
  | (k', v') :: d' => if decide (k' = k) then (k', v) :: d' else (k', v') :: dict_set k v d'
  end.

Fixpoint dict_del (k : K) (d : list (K * V)) : list (K * V) :=
  match d with
  | [] => []
  | (k', v) :: d' => if decide (k' = k) then d' else (k', v) :: dict_del k d'
  end.

Lemma dict_get_set k v d k' :
  dict_get k' (dict_set k v d) = if decide (k' = k) then Some v else dict_get k' d.
Proof.
  induction d as [|[k0 v0] d IH]; simpl; repeat case_decide; simplify_eq/=; try done;
    repeat case_decide; simplify_eq/=; done || (rewrite IH; by rewrite decide_False || by rewrite decide_True).
Qed.

Lemma dict_get_None k d : dict_get k d = None ↔ k ∉ d.*1.
Proof. induction d as [|[k0 v0] d IH]; cbn; [set_solver|]. case_decide; set_solver. Qed.

Lemma elem_of_dict_set_keys k v d k' : k' ∈ (dict_set k v d).*1 ↔ k' = k ∨ k' ∈ d.*1.
Proof. induction d as [|[k0 v0] d IH]; cbn; [set_solver|]. case_decide; set_solver. Qed.

Lemma NoDup_dict_set k v d : NoDup d.*1 → NoDup (dict_set k v d).*1.
Proof.
  induction d as [|[k0 v0] d IH]; cbn; [intros; apply NoDup_singleton|].
  intros [Hn Hd]%NoDup_cons. case_decide; cbn; apply NoDup_cons; [done|].
  split; [|auto]. rewrite elem_of_dict_set_keys. naive_solver.
Qed.

Lemma dict_get_elem k v d : dict_get k d = Some v → (k, v) ∈ d.
Proof. induction d as [|[k0 v0] d IH]; cbn; [done|]. case_decide; set_solver. Qed.

Lemma dict_get_NoDup k v d : NoDup d.*1 → (k, v) ∈ d → dict_get k d = Some v.
Proof.
  induction d as [|[k0 v0] d IH]; cbn; [set_solver|]. intros [Hn Hd]%NoDup_cons.
  intros [[= -> ->]|Hin]%elem_of_cons; [by rewrite decide_True|].
  rewrite decide_False; [auto|]. intros ->. apply Hn, list_elem_of_fmap. by exists (k, v).
Qed.
End dicts.

Section lists.
Context {A : Type}.
Implicit Types l : list A.

Lemma last_n_length n l : length (last_n n l) = Nat.min n (length l).
Proof. unfold last_n. rewrite length_drop. lia. Qed.

Lemma but_last_n_last_n n l : but_last_n n l ++ last_n n l = l.
Proof. apply take_drop. Qed.

Lemma last_n_all n l : length l ≤ n → last_n n l = l.
Proof. intros. unfold last_n. by replace (length l - n) with 0 by lia. Qed.

Lemma take_take_app n l k : take n (take n l ++ k) = take n (l ++ k).
Proof.
  destruct (decide (length l ≤ n)); [by rewrite (take_ge l) by lia|].
  rewrite !take_app_le by (rewrite ?length_take; lia). by rewrite take_take, Nat.min_id.
Qed.

Lemma last_n_suffix n l : last_n n l `suffix_of` l.
Proof. exists (but_last_n n l). by rewrite but_last_n_last_n. Qed.

Lemma count_if_cons p x l :
  count_if p (x :: l) = (if p x then 1 else 0) + count_if p l.
Proof. unfold count_if. simpl. by destruct (p x). Qed.

Lemma count_if_app p l1 l2 :
  count_if p (l1 ++ l2) = count_if p l1 + count_if p l2.
Proof. induction l1 as [|x l1 IH]; [done|]. simpl. rewrite !count_if_cons, IH. lia. Qed.

Lemma count_if_le_length p l : count_if p l ≤ length l.
Proof. induction l as [|x l IH]; [done|]. rewrite count_if_cons. simpl. destruct (p x); lia. Qed.

Lemma count_if_ext p q l :
  (∀ x, x ∈ l → p x = q x) → count_if p l = count_if q l.
Proof.
  induction l as [|x l IH]; [done|]. intros H. rewrite !count_if_cons.
  rewrite (H x) by set_solver. rewrite IH; [done|]. set_solver.
Qed.

Lemma count_if_mono p q l :
  (∀ x, x ∈ l → p x = true → q x = true) → count_if p l ≤ count_if q l.
Proof.
  induction l as [|x l IH]; [done|]. intros H. rewrite !count_if_cons.
  specialize (IH ltac:(set_solver)).
  specialize (H x ltac:(set_solver)).
  destruct (p x); [rewrite H by done|]; destruct (q x); lia.
Qed.

Lemma count_if_lt p q l x :
  (∀ y, y ∈ l → p y = true → q y = true) → x ∈ l → p x = false → q x = true →
  count_if p l < count_if q l.
Proof.
  induction l as [|y l IH]; [set_solver|]. intros Hpq Hx Hp Hq. rewrite !count_if_cons.
  pose proof (count_if_mono p q l ltac:(set_solver)) as Hle.
  apply elem_of_cons in Hx as [->|Hx]; [rewrite Hp, Hq; lia|].
  specialize (IH ltac:(set_solver) Hx Hp Hq).
  specialize (Hpq y ltac:(set_solver)). destruct (p y); [rewrite Hpq by done|]; destruct (q y); lia.
Qed.

Lemma count_if_zero p l : count_if p l = 0 ↔ ∀ x, x ∈ l → p x = false.
Proof.
  induction l as [|x l IH]; [set_solver|]. rewrite count_if_cons. split.
  - intros H y. rewrite elem_of_cons. intros [->|Hy]; [by destruct (p x)|].
    destruct IH as [IH _]. apply IH; [destruct (p x); lia|done].
  - intros H. rewrite (H x) by set_solver. apply IH. set_solver.
Qed.

Lemma count_if_all p l : (∀ x, x ∈ l → p x = true) → count_if p l = length l.
Proof.
  induction l as [|x l IH]; [done|]. intros H. rewrite count_if_cons, IH by set_solver.
  by rewrite (H x) by set_solver.
Qed.

Lemma count_if_pos p l x : x ∈ l → p x = true → 0 < count_if p l.
Proof.
  intros Hx Hp. destruct (decide (count_if p l = 0)) as [H|]; [|lia].
  rewrite count_if_zero in H. specialize (H x Hx). congruence.
Qed.

(** Two disjoint tests, each below a third. *)
Lemma count_if_disjoint_le p q r l :
  (∀ x, x ∈ l → q x = true → p x = true ∧ r x = false) →
  (∀ x, x ∈ l → r x = true → p x = true) →
  count_if q l + count_if r l ≤ count_if p l.
Proof.
  induction l as [|x l IH]; [done|]. intros Hq Hr. rewrite !count_if_cons.
  specialize (IH ltac:(set_solver) ltac:(set_solver)).
  specialize (Hq x ltac:(set_solver)). specialize (Hr x ltac:(set_solver)).
  destruct (q x); [destruct Hq as [-> ->]; [done|lia]|]. destruct (r x); [|destruct (p x); lia].
  rewrite Hr by done. lia.
Qed.

Lemma existsb_false_forall (p : A → bool) l : existsb p l = false ↔ ∀ x, x ∈ l → p x = false.
Proof.
  induction l as [|x l IH]; cbn; [set_solver|]. rewrite orb_false_iff, IH. set_solver.
Qed.

Lemma filter_sublist (p : A → bool) l : List.filter p l `sublist_of` l.
Proof. induction l as [|x l IH]; cbn; [done|]. case_match; by constructor. Qed.

Lemma filter_In_elem (p : A → bool) l x :
  x ∈ List.filter p l ↔ x ∈ l ∧ p x = true.
Proof. by rewrite !list_elem_of_In, filter_In. Qed.
End lists.

Lemma sum_list_with_lt {A} (f g : A → nat) (l : list A) a :
  a ∈ l → f a < g a → (∀ x, x ∈ l → f x ≤ g x) → sum_list_with f l < sum_list_with g l.
Proof.
  intros Ha Hlt. assert (Hle : ∀ l', (∀ x, x ∈ l' → f x ≤ g x) → sum_list_with f l' ≤ sum_list_with g l').
  { induction l' as [|x l' IH]; cbn; [done|]. intros Hx. specialize (IH ltac:(set_solver)).
    specialize (Hx x ltac:(set_solver)). lia. }
  induction l as [|x l IH]; cbn; [set_solver|]. intros Hx.
  apply elem_of_cons in Ha as [->|Ha].
  - specialize (Hle l ltac:(set_solver)). lia.
  - specialize (IH Ha ltac:(set_solver)). specialize (Hx x ltac:(set_solver)). lia.
Qed.

(** [sorted(l)], stable, by [le x y]: [x] may stay before [y]. *)
Section sort_by.
Context {A : Type} (le : A → A → bool).

Fixpoint insert_by (x : A) (l : list A) : list A :=
  match l with
  | [] => [x]
  | y :: l' => if le x y then x :: l else y :: insert_by x l'
  end.

Definition sort_by (l : list A) : list A := foldr insert_by [] l.

Lemma insert_by_perm x l : Permutation (insert_by x l) (x :: l).
Proof. induction l as [|y l IH]; cbn; [done|]. case_match; [done|]. rewrite IH. apply perm_swap. Qed.

Lemma sort_by_perm l : Permutation (sort_by l) l.
Proof. induction l as [|x l IH]; cbn; [done|]. by rewrite insert_by_perm, IH. Qed.

Context (le_total : ∀ x y, le x y = true ∨ le y x = true) (le_trans : ∀ x y z, le x y = true → le y z = true → le x z = true).

Lemma sort_by_sorted l : StronglySorted (λ x y, le x y = true) (sort_by l).
Proof.
  induction l as [|x l IH]; [constructor|]. change (sort_by (x :: l)) with (insert_by x (sort_by l)).
  revert IH. generalize (sort_by l) as k. intros k Hk.
  induction Hk as [|y k Hk IH Hy]; cbn; [repeat constructor|].
  destruct (le x y) eqn:E.
  - constructor; [by constructor|]. constructor; [done|]. eapply Forall_impl; [exact Hy|]. eauto.
  - constructor; [done|]. rewrite insert_by_perm. constructor; [|done]. destruct (le_total x y); congruence.
Qed.
End sort_by.

(** [sorted(l, key=key, reverse=True)]: stable, largest key first. *)
Section sort_desc.
Context {A : Type} (key : A → Z).

Fixpoint insert_desc (x : A) (l : list A) : list A :=
  match l with
  | [] => [x]
  | y :: l' => if (key y <=? key x)%Z then x :: l else y :: insert_desc x l'
  end.

Definition sort_desc (l : list A) : list A := foldr insert_desc [] l.

Lemma insert_desc_perm x l : Permutation (insert_desc x l) (x :: l).
Proof. induction l as [|y l IH]; cbn; [done|]. case_match; [done|]. rewrite IH. apply perm_swap. Qed.

Lemma sort_desc_perm l : Permutation (sort_desc l) l.
Proof. induction l as [|x l IH]; cbn; [done|]. by rewrite insert_desc_perm, IH. Qed.

Lemma insert_desc_sorted x l :
  StronglySorted (λ a b, key b ≤ key a)%Z l → StronglySorted (λ a b, key b ≤ key a)%Z (insert_desc x l).
Proof.
  induction l as [|y l IH]; cbn; [intros; constructor; [done|constructor]|].
  intros [Hl Hy]%StronglySorted_inv. destruct (Z.leb_spec (key y) (key x)) as [Hle|Hgt].
  - constructor; [by constructor|]. constructor; [done|]. eapply Forall_impl; [done|]. cbn. lia.
  - constructor; [auto|]. rewrite insert_desc_perm. constructor; [lia|done].
Qed.

Lemma sort_desc_sorted l : StronglySorted (λ a b, key b ≤ key a)%Z (sort_desc l).
Proof. induction l as [|x l IH]; cbn; [constructor|by apply insert_desc_sorted]. Qed.
End sort_desc.

Section occ.
Context {A : Type} `{EqDecision A}.
Implicit Types l : list A.

Lemma occ_nil (x : A) : occ x [] = 0.
Proof. done. Qed.

Lemma occ_cons x y l : occ x (y :: l) = (if decide (y = x) then 1 else 0) + occ x l.
Proof. unfold occ. rewrite count_if_cons. by do 2 case_decide || case_bool_decide. Qed.

Lemma occ_app x l1 l2 : occ x (l1 ++ l2) = occ x l1 + occ x l2.
Proof. apply count_if_app. Qed.

Lemma occ_zero x l : occ x l = 0 ↔ x ∉ l.
Proof.
  unfold occ. rewrite count_if_zero. split.
  - intros H Hx. specialize (H x Hx). breflect. done.
  - intros H y Hy. case_bool_decide; naive_solver.
Qed.

Lemma occ_pos x l : 0 < occ x l ↔ x ∈ l.
Proof.
  destruct (decide (x ∈ l)) as [Hx|Hx].
  - split; [done|]. destruct (occ x l) eqn:E; [|lia]. by apply occ_zero in E.
  - split; [|done]. apply occ_zero in Hx. lia.
Qed.

Lemma elem_of_dict_keys x l : x ∈ dict_keys l ↔ x ∈ l.
Proof. unfold dict_keys. by rewrite elem_of_reverse, elem_of_remove_dups, elem_of_reverse. Qed.

Lemma NoDup_dict_keys l : NoDup (dict_keys l).
Proof. unfold dict_keys. rewrite reverse_Permutation. apply NoDup_remove_dups. Qed.

Lemma dict_keys_NoDup_id l : NoDup l → Permutation (dict_keys l) l.
Proof.
  intros H. apply NoDup_Permutation; [apply NoDup_dict_keys|done|].
  intros x. apply elem_of_dict_keys.
Qed.

Lemma dict_keys_length l : length (dict_keys l) ≤ length l.
Proof.
  apply submseteq_length, NoDup_submseteq; [apply NoDup_dict_keys|].
  intros x. by rewrite elem_of_dict_keys.
Qed.
End occ.

#[export] Hint Resolve last_n_suffix NoDup_dict_keys count_if_le_length : aicaf.

(** ** Labelled transition systems *)

Section traces.
Context {W E : Type} (step : W → E → W → Prop).

Inductive trace : W → list E → W → Prop :=
  | trace_nil w : trace w [] w
  | trace_cons w e w' es w'' : step w e w' → trace w' es w'' → trace w (e :: es) w''.

Lemma trace_nil_inv w w' : trace w [] w' → w' = w.
Proof. by inversion 1. Qed.

Lemma trace_app w es w' es' w'' : trace w es w' → trace w' es' w'' → trace w (es ++ es') w''.
Proof. induction 1; [done|]. intros. econstructor; eauto. Qed.

(** Rule induction for an invariant of the steps whose labels satisfy [Q]. *)
Lemma trace_invariant (P : W → Prop) (Q : E → Prop) w es w' :
  (∀ w e w', step w e w' → Q e → P w → P w') → trace w es w' → Forall Q es → P w → P w'.
Proof. intros Hs Ht. induction Ht; [done|]. intros [Hq Hqs]%Forall_cons Hw. eauto. Qed.
End traces.
