(* ===== verification/PyStr.v ===== *)
(** * Python strings

    The methods of [str] the program uses, on [string].  A character is a code
    point below 256 (Latin-1); code points above have no counterpart in
    [ascii], so the classes of white space, line breaks and letters below are
    Python's restricted to that range. *)

From S2P Require Import Prelude.
From Stdlib Require Export Ascii.
From Stdlib Require Import String.
From stdpp Require Import strings.

Local Open Scope nat_scope.
Local Open Scope string_scope.

(** ** Characters *)

(** [str.isspace]. *)
Definition is_space (c : ascii) : bool :=
  let n := nat_of_ascii c in
  ((9 <=? n) && (n <=? 13) || (28 <=? n) && (n <=? 32) || (n =? 133) || (n =? 160))%nat.

(** The line boundaries of [str.splitlines]. *)
Definition is_linebreak (c : ascii) : bool :=
  let n := nat_of_ascii c in
  ((10 <=? n) && (n <=? 13) || (28 <=? n) && (n <=? 30) || (n =? 133))%nat.

(** [\d] in a [re] pattern. *)
Definition is_digit (c : ascii) : bool :=
  let n := nat_of_ascii c in ((48 <=? n) && (n <=? 57))%nat.

Definition lower_char (c : ascii) : ascii :=
  let n := nat_of_ascii c in
  if ((65 <=? n) && (n <=? 90) || (192 <=? n) && (n <=? 222) && negb (n =? 215))%nat
  then ascii_of_nat (n + 32) else c.

(** [str.upper], but for the three characters whose capital is not one
    character of the range. *)
Definition upper_char (c : ascii) : ascii :=
  let n := nat_of_ascii c in
  if ((97 <=? n) && (n <=? 122) || (224 <=? n) && (n <=? 254) && negb (n =? 247))%nat
  then ascii_of_nat (n - 32) else c.

Definition LF : ascii := "010"%char.
Definition CR : ascii := "013"%char.
Definition nl : string := String LF "".
Definition crlf : string := String CR nl.
Definition cr : string := String CR "".

(** ** Methods *)

Fixpoint startswith (p s : string) : bool :=
  match p, s with
  | "", _ => true
  | String a p', String b s' => bool_decide (a = b) && startswith p' s'
  | _, "" => false
  end.

(** [sub in s]. *)
Fixpoint contains (sub s : string) : bool :=
  startswith sub s ||
  match s with "" => false | String _ s' => contains sub s' end.

(** [s[n:]] for [n >= 0]. *)
Fixpoint sdrop (n : nat) (s : string) : string :=
  match n, s with
  | 0, _ => s
  | S n', String _ s' => sdrop n' s'
  | _, "" => ""
  end.

(** [s[:n]] for [n >= 0]. *)
Fixpoint stake (n : nat) (s : string) : string :=
  match n, s with
  | 0, _ => ""
  | S n', String c s' => String c (stake n' s')
  | _, "" => ""
  end.

Fixpoint smap (f : ascii → ascii) (s : string) : string :=
  match s with "" => "" | String c s' => String (f c) (smap f s') end.

Definition lower (s : string) : string := smap lower_char s.

Definition upper (s : string) : string := smap upper_char s.

Fixpoint lstrip (s : string) : string :=
  match s with
  | "" => ""
  | String c s' => if is_space c then lstrip s' else s
  end.

Fixpoint rstrip (s : string) : string :=
  match s with
  | "" => ""
  | String c s' =>
      match rstrip s' with
      | "" => if is_space c then "" else String c ""
      | t => String c t
      end
  end.

Definition strip (s : string) : string := rstrip (lstrip s).

(** [s.rstrip(c)] for one character. *)
Fixpoint rstrip_char (x : ascii) (s : string) : string :=
  match s with
  | "" => ""
  | String c s' =>
      match rstrip_char x s' with
      | "" => if bool_decide (c = x) then "" else String c ""
      | t => String c t
      end
  end.

(** [s.replace(old, new)] for a non-empty [old]: left to right, without
    overlap.  [skip] counts the characters of a match still to be passed. *)
Fixpoint replace_go (old new : string) (skip : nat) (s : string) : string :=
  match s with
  | "" => ""
  | String c s' =>
      match skip with
      | S k => replace_go old new k s'
      | 0 => if startswith old s
             then new +:+ replace_go old new (String.length old - 1) s'
             else String c (replace_go old new 0 s')
      end
  end.

Definition replace (old new s : string) : string := replace_go old new 0 s.

(** [s.splitlines(keepends=keep)]: a CRLF pair is one boundary, and a final
    boundary opens no further line. *)
Definition push_char (c : ascii) (ls : list string) : list string :=
  match ls with
  | [] => [String c ""]
  | l :: ls' => String c l :: ls'
  end.

Fixpoint splitlines_keep (keep : bool) (s : string) : list string :=
  match s with
  | "" => []
  | String c s' =>
      if bool_decide (c = CR) then
        match s' with
        | String d s'' =>
            if bool_decide (d = LF)
            then (if keep then crlf else "") :: splitlines_keep keep s''
            else (if keep then cr else "") :: splitlines_keep keep s'
        | "" => [if keep then cr else ""]
        end
      else if is_linebreak c
      then (if keep then String c "" else "") :: splitlines_keep keep s'
      else push_char c (splitlines_keep keep s')
  end.

Definition splitlines : string → list string := splitlines_keep false.

(** [sep.join(l)]. *)
Fixpoint join (sep : string) (l : list string) : string :=
  match l with
  | [] => ""
  | [x] => x
  | x :: l' => x +:+ sep +:+ join sep l'
  end.

(** [repr] of a string: between single quotes, unless it has some and no double
    ones; the quote, the backslash and what cannot be printed escaped. *)
Definition squote : ascii := "'"%char.
Definition dquote : ascii := Ascii.ascii_of_nat 34.
Definition hex_digit (n : nat) : ascii := Ascii.ascii_of_nat (if (n <? 10)%nat then 48 + n else 87 + n).
Definition repr_char (q c : ascii) : string :=
  let n := nat_of_ascii c in
  if bool_decide (c = q) || bool_decide (c = "\"%char) then String "\" (String c "")
  else if (n =? 9)%nat then "\t" else if (n =? 10)%nat then "\n" else if (n =? 13)%nat then "\r"
  else if (n <? 32)%nat || (n =? 127)%nat
  then "\x" +:+ String (hex_digit (n / 16)) (String (hex_digit (n mod 16)) "")
  else String c "".
Fixpoint repr_chars (q : ascii) (s : string) : string :=
  match s with "" => "" | String c s' => repr_char q c +:+ repr_chars q s' end.
Definition has_char (x : ascii) (s : string) : bool := contains (String x "") s.
Definition repr (s : string) : string :=
  let q := if has_char squote s && negb (has_char dquote s) then dquote else squote in
  String q (repr_chars q s) +:+ String q "".

Example repr_texts :
  map repr ["ab"; "it's"; String "a" (String dquote "'"); "\"; String LF ""; String (Ascii.ascii_of_nat 1) ""] =
  ["'ab'"; String dquote ("it's" +:+ String dquote ""); "'a" +:+ String dquote "\''"; "'\\'"; "'\n'"; "'\x01'"].
Proof. vm_compute. reflexivity. Qed.

(** A text between double quotes, as in JSON. *)
Definition quoted (s : string) : string :=
  let q := String (Ascii.ascii_of_nat 34) "" in q +:+ s +:+ q.

(** [f"{l}"] of a list of strings. *)
Definition list_repr (l : list string) : string :=
  "[" +:+ join ", " (repr <$> l) +:+ "]".

(** [s.split(sep, 1)] for one separator character: [None] when it is absent. *)
Fixpoint split_once (x : ascii) (s : string) : option (string * string) :=
  match s with
  | "" => None
  | String c s' =>
      if bool_decide (c = x) then Some ("", s')
      else '(a, b) ← split_once x s'; Some (String c a, b)
  end.

(** [s.split()]: the maximal runs of non-space characters. *)
Fixpoint words_go (s : string) : list string * bool :=
  match s with
  | "" => ([], false)
  | String c s' =>
      let '(ws, open) := words_go s' in
      if is_space c then (ws, false)
      else if open then (push_char c ws, true) else (String c "" :: ws, true)
  end.
Definition words (s : string) : list string := fst (words_go s).

(** Truth value of a string. *)
Definition truthy (s : string) : bool := match s with "" => false | _ => true end.

(** [a or b] on strings. *)
Definition py_or (a b : string) : string := if truthy a then a else b.

(** ** Regular-expression helpers *)

(** [re.search("^p", s, re.MULTILINE)] for a pattern whose matches from a
    position are decided by [m]: [^] holds at the start and after every LF. *)
Fixpoint search_lines (m : string → bool) (at_bol : bool) (s : string) : bool :=
  (at_bol && m s) ||
  match s with
  | "" => false
  | String c s' => search_lines m (bool_decide (c = LF)) s'
  end.
Definition search_multiline (m : string → bool) (s : string) : bool :=
  search_lines m true s.

(** [\s+] followed by [k]: at least one space, then [k] after some number of
    further ones. *)
Fixpoint spaces_then (k : string → bool) (s : string) : bool :=
  match s with
  | "" => false
  | String c s' => is_space c && (k s' || spaces_then k s')
  end.

Fixpoint all_chars (p : ascii → bool) (s : string) : bool :=
  match s with "" => true | String c s' => p c && all_chars p s' end.

Definition starts_with_digit (s : string) : bool :=
  match s with String c _ => is_digit c | "" => false end.

(** ** Numbers *)
Definition digit_value (c : ascii) : Z := (Z.of_nat (nat_of_ascii c) - 48)%Z.

(** [int(s)] of a word: one sign, digits, and single underscores between digits. *)
Fixpoint int_digits (acc : Z) (after_digit : bool) (s : string) : option Z :=
  match s with
  | "" => if after_digit then Some acc else None
  | String c s' =>
      if is_digit c then int_digits (10 * acc + digit_value c)%Z true s'
      else if bool_decide (c = "_"%char) && after_digit then int_digits acc false s'
      else None
  end.
Definition unsigned_int (s : string) : option Z := int_digits 0 false s.
Definition parse_int (s : string) : option Z :=
  match s with
  | "" => None
  | String c s' =>
      if bool_decide (c = "-"%char) then Z.opp <$> unsigned_int s'
      else if bool_decide (c = "+"%char) then unsigned_int s' else unsigned_int s
  end.

(** [int(s)]: spaces around the number do not matter. *)
Definition py_int (s : string) : option Z := parse_int (strip s).

(** ** Lemmas *)

(* stdpp blocks the reduction of append; the lemmas of this file need it. *)
#[local] Arguments String.append !_ _ / : simpl nomatch.

Lemma sapp_cons (c : ascii) (a b : string) : String c a +:+ b = String c (a +:+ b).
Proof. done. Qed.

Lemma sapp_assoc (a b c : string) : (a +:+ b) +:+ c = a +:+ (b +:+ c).
Proof. induction a; simpl; [done|]. by f_equal. Qed.

Lemma sapp_nil_r (a : string) : a +:+ "" = a.
Proof. induction a; simpl; [done|]. by f_equal. Qed.

Lemma sapp_length (a b : string) :
  String.length (a +:+ b) = String.length a + String.length b.
Proof. induction a; simpl; [done|]. by f_equal. Qed.

#[export] Instance sapp_inj_r (a : string) : Inj (=) (=) (String.append a).
Proof. intros b c. induction a; simpl; [done|]. intros [=]. auto. Qed.

Lemma sapp_inj_l (a b c : string) : a +:+ c = b +:+ c → a = b.
Proof.
  revert b. induction a as [|x a IH]; intros [|y b]; simpl; [done| | |].
  - intros H. exfalso. apply (f_equal String.length) in H. simpl in H.
    rewrite sapp_length in H. lia.
  - intros H. exfalso. apply (f_equal String.length) in H. simpl in H.
    rewrite sapp_length in H. lia.
  - intros [= -> ?]. f_equal. auto.
Qed.

(** Two ways to cut a text: one first part is a prefix of the other. *)
Lemma sapp_eq_cases (a b c d : string) : a +:+ b = c +:+ d →
  (∃ x, c = a +:+ x ∧ b = x +:+ d) ∨ (∃ y x, a = c +:+ String y x ∧ d = String y x +:+ b).
Proof.
  revert c. induction a as [|y a IH]; intros c H; [left; by exists c|]. destruct c as [|z c].
  - right. exists y, a. by split.
  - rewrite !sapp_cons in H. injection H as -> H. destruct (IH c H) as [(x & -> & ->)|(y & x & -> & ->)].
    + left. by exists x.
    + right. by exists y, x.
Qed.

Lemma snoc_cases (s : string) : s = "" ∨ ∃ t c, s = t +:+ String c "".
Proof.
  induction s as [|c s [->|(t & d & ->)]]; [by left|right; by exists "", c|right; by exists (String c t), d].
Qed.

Lemma startswith_spec (p s : string) : startswith p s = true ↔ ∃ t, s = p +:+ t.
Proof.
  revert s. induction p as [|a p IH]; intros s; simpl.
  { split; [|done]. by exists s. }
  destruct s as [|b s]; [split; [done|intros [? [=]]]|].
  rewrite andb_true_iff, bool_decide_eq_true, IH. split.
  - intros [-> [t ->]]. by exists t.
  - intros [t [= -> ->]]. eauto.
Qed.

Lemma startswith_app (p t : string) : startswith p (p +:+ t) = true.
Proof. apply startswith_spec. by exists t. Qed.

Lemma startswith_refl (p : string) : startswith p p = true.
Proof. apply startswith_spec. exists "". by rewrite sapp_nil_r. Qed.

Lemma contains_spec (p s : string) : contains p s = true ↔ ∃ a b, s = a +:+ p +:+ b.
Proof.
  induction s as [|c s IH].
  - simpl. rewrite orb_false_r, startswith_spec. split.
    + intros [t Ht]. by exists "", t.
    + intros (a & b & H). destruct a; [|done]. eauto.
  - simpl. rewrite orb_true_iff, startswith_spec, IH. split.
    + intros [[t Ht]|(a & b & ->)]; [by exists "", t|by exists (String c a), b].
    + intros ([|x a] & b & H); [left; eauto|]. right.
      cbn in H. injection H. intros -> ->. eauto.
Qed.

Lemma truthy_true (s : string) : truthy s = true ↔ s ≠ "".
Proof. by destruct s. Qed.

Lemma truthy_false (s : string) : truthy s = false ↔ s = "".
Proof. by destruct s. Qed.

Lemma stake_length (n : nat) (s : string) :
  String.length (stake n s) = Nat.min n (String.length s).
Proof. revert s. induction n as [|n IH]; intros [|c s]; simpl; [done..|]. by rewrite IH. Qed.

Lemma stake_sdrop (n : nat) (s : string) : stake n s +:+ sdrop n s = s.
Proof. revert s. induction n as [|n IH]; intros [|c s]; simpl; [done..|]. by rewrite IH. Qed.

Lemma lstrip_head (s : string) :
  match lstrip s with "" => True | String c _ => is_space c = false end.
Proof. induction s as [|c s IH]; simpl; [done|]. destruct (is_space c) eqn:E; done. Qed.

Lemma lstrip_id (s : string) :
  match s with "" => True | String c _ => is_space c = false end → lstrip s = s.
Proof. destruct s as [|c s]; simpl; [done|]. by intros ->. Qed.

Lemma rstrip_idem (s : string) : rstrip (rstrip s) = rstrip s.
Proof.
  induction s as [|c s IH]; simpl; [done|].
  destruct (rstrip s) as [|d t] eqn:E.
  - destruct (is_space c) eqn:Ec; simpl; [done|]. by rewrite Ec.
  - change (rstrip (String c (String d t)))
      with (match rstrip (String d t) with
            | "" => if is_space c then "" else String c ""
            | u => String c u end).
    by rewrite IH.
Qed.

Lemma rstrip_head (s : string) :
  match s with "" => True | String c _ => is_space c = false end →
  match rstrip s with "" => True | String c _ => is_space c = false end.
Proof.
  destruct s as [|c s]; simpl; [done|]. intros Hc.
  destruct (rstrip s) as [|d t]; [by rewrite Hc|done].
Qed.

(** [s.strip().strip() == s.strip()]. *)
Lemma rstrip_nonempty s : rstrip s = "" ↔ lstrip s = "".
Proof.
  induction s as [|c s IH]; [done|]. cbn. destruct (is_space c) eqn:E.
  - destruct (rstrip s) eqn:Er; [naive_solver|]. split; [done|]. rewrite <-IH. done.
  - by destruct (rstrip s).
Qed.

Lemma rstrip_app a b : rstrip b ≠ "" → rstrip (a +:+ b) = a +:+ rstrip b.
Proof.
  intros Hb. induction a as [|c a IH]; [done|]. rewrite !sapp_cons. cbn [rstrip]. rewrite IH.
  destruct a as [|d a]; [|done]. by destruct (rstrip b).
Qed.

Lemma lstrip_rstrip s : lstrip (rstrip s) = rstrip (lstrip s).
Proof.
  induction s as [|c s IH]; [done|]. cbn [rstrip lstrip].
  destruct (rstrip s) as [|d t] eqn:Er; destruct (is_space c) eqn:Ec.
  - cbn in IH. by rewrite <-IH.
  - cbn. by rewrite Ec, Er.
  - cbn [lstrip] in *. by rewrite Ec.
  - cbn [lstrip rstrip]. by rewrite Ec, Er.
Qed.

Lemma strip_strip_r s : strip (rstrip s) = strip s.
Proof. unfold strip. by rewrite lstrip_rstrip, rstrip_idem. Qed.

Lemma strip_idem (s : string) : strip (strip s) = strip s.
Proof.
  unfold strip. rewrite (lstrip_id (rstrip (lstrip s))).
  - apply rstrip_idem.
  - apply rstrip_head, lstrip_head.
Qed.

Lemma lower_app (a b : string) : lower (a +:+ b) = lower a +:+ lower b.
Proof. unfold lower. induction a; simpl; [done|]. by f_equal. Qed.

Lemma lower_char_idem (c : ascii) : lower_char (lower_char c) = lower_char c.
Proof. destruct c as [[] [] [] [] [] [] [] []]; vm_compute; reflexivity. Qed.

Lemma lower_idem (s : string) : lower (lower s) = lower s.
Proof. unfold lower. induction s; simpl; [done|]. by rewrite lower_char_idem, IHs. Qed.

Lemma join_nil_cons x l : join "" (x :: l) = x +:+ join "" l.
Proof. destruct l; cbn; [by rewrite sapp_nil_r|done]. Qed.

Lemma join_nil_app l k : join "" (l ++ k) = join "" l +:+ join "" k.
Proof.
  induction l as [|x l IH]; [done|]. rewrite <- app_comm_cons, !join_nil_cons, IH. by rewrite sapp_assoc.
Qed.

Create Rewrite HintDb aicaf_str.
#[export] Hint Rewrite sapp_cons sapp_assoc sapp_nil_r sapp_length : aicaf_str.

Example splitlines_ex :
  splitlines ("a" +:+ crlf +:+ nl +:+ "b" +:+ cr) = ["a"; ""; "b"].
Proof. reflexivity. Qed.
Example words_ex : words "  ab  c " = ["ab"; "c"].
Proof. reflexivity. Qed.
Example strip_ex : strip "  a b  " = "a b".
Proof. reflexivity. Qed.
Example replace_ex : replace "aa" "b" "aaaxa" = "baxa".
Proof. reflexivity. Qed.
