(* ===== verification/Regex.v ===== *)
(** * Regular expressions

    The part of [re] that utils.py uses: classes, concatenation, alternatives
    tried in order and greedy repetition of a class, matched by backtracking;
    [re.search] and [re.sub].  The words of an expression are an inductive
    predicate; the matcher finds a word exactly when there is one.  An automaton
    over approximates what the words of an expression have in common. *)

From S2P Require Import Prelude PyStr.
Local Open Scope string_scope.
Local Open Scope list_scope.
Local Open Scope nat_scope.

Inductive regex :=
  | Empty | Class (p : ascii → bool) | Then (a b : regex) | Either (a b : regex) | Many (p : ascii → bool).

(** ** Matching *)

(** [p*] before [k], greedily. *)
Fixpoint many {A} (p : ascii → bool) (k : string → option A) (s : string) : option A :=
  match s with
  | String c s' =>
      if p c then match many p k s' with Some x => Some x | None => k s end else k s
  | "" => k s
  end.

Fixpoint match_then {A} (r : regex) (k : string → option A) (s : string) : option A :=
  match r with
  | Empty => k s
  | Class p => match s with String c s' => if p c then k s' else None | "" => None end
  | Then a b => match_then a (match_then b k) s
  | Either a b => match match_then a k s with Some x => Some x | None => match_then b k s end
  | Many p => many p k s
  end.

(** [re.match]: the rest after the first match found. *)
Definition match_prefix (r : regex) (s : string) : option string := match_then r Some s.

(** [re.search] finds something. *)
Fixpoint search (r : regex) (s : string) : bool :=
  match match_prefix r s, s with
  | Some _, _ => true
  | None, String _ s' => search r s'
  | None, "" => false
  end.

(** [re.sub] for an expression that does not match the empty string; [skip]
    counts the characters of a match still to be passed. *)
Fixpoint sub_go (r : regex) (new : string) (skip : nat) (s : string) : string :=
  match s with
  | "" => ""
  | String c s' =>
      match skip with
      | S n => sub_go r new n s'
      | 0 =>
          match match_prefix r s with
          | Some rest => new +:+ sub_go r new (String.length s - String.length rest - 1) s'
          | None => String c (sub_go r new 0 s')
          end
      end
  end.
Definition sub (r : regex) (new s : string) : string := sub_go r new 0 s.

(** ** Words *)
Inductive word : regex → string → Prop :=
  | word_empty : word Empty ""
  | word_class p c : p c = true → word (Class p) (String c "")
  | word_then a b u v : word a u → word b v → word (Then a b) (u +:+ v)
  | word_left a b u : word a u → word (Either a b) u
  | word_right a b u : word b u → word (Either a b) u
  | word_many_nil p : word (Many p) ""
  | word_many_cons p c u : p c = true → word (Many p) u → word (Many p) (String c u).

Definition occurs (r : regex) (s : string) : Prop := ∃ a w b, s = a +:+ w +:+ b ∧ word r w.

#[export] Hint Constructors word : core.

Lemma many_sound {A} p (k : string → option A) s x : many p k s = Some x →
  ∃ u t, s = u +:+ t ∧ word (Many p) u ∧ k t = Some x.
Proof.
  induction s as [|c s IH]; cbn; [intros; by exists "", ""|].
  destruct (p c) eqn:Ec; [|intros; by exists "", (String c s)].
  destruct (many p k s) as [y|] eqn:E; [|intros; by exists "", (String c s)].
  intros [= ->]. destruct (IH eq_refl) as (u & t & -> & Hu & Hk). exists (String c u), t. auto.
Qed.

Lemma many_complete {A} p (k : string → option A) u t : word (Many p) u → k t ≠ None → many p k (u +:+ t) ≠ None.
Proof.
  intros Hu Hk. remember (Many p) as r eqn:Er. induction Hu; try discriminate; injection Er as ->.
  - destruct t as [|c t]; [done|]. cbn [many String.append]. change ("" +:+ String c t) with (String c t). cbn.
    destruct (p c); [|done]. by destruct (many p k t).
  - rewrite sapp_cons. cbn. rewrite H. destruct (many p k (u +:+ t)) eqn:E; [done|]. by destruct (IHHu eq_refl).
Qed.

Lemma match_sound {A} r (k : string → option A) s x : match_then r k s = Some x →
  ∃ u t, s = u +:+ t ∧ word r u ∧ k t = Some x.
Proof.
  revert k s. induction r as [|p|a IHa b IHb|a IHa b IHb|p]; intros k s; cbn [match_then].
  - intros. by exists "", s.
  - destruct s as [|c s]; [done|]. destruct (p c) eqn:Ec; [|done]. intros. exists (String c ""), s. auto.
  - intros (u & t & -> & Hu & (v & t' & -> & Hv & Hk)%IHb)%IHa. exists (u +:+ v), t'. rewrite sapp_assoc. auto.
  - destruct (match_then a k s) as [y|] eqn:E.
    + intros [= ->]. apply IHa in E as (u & t & ? & ? & ?). eauto 6.
    + intros (u & t & ? & ? & ?)%IHb. eauto 6.
  - apply many_sound.
Qed.

Lemma match_complete {A} r (k : string → option A) u t : word r u → k t ≠ None → match_then r k (u +:+ t) ≠ None.
Proof.
  intros Hu. revert k t. induction Hu as [|p c Hc|a b u v Hu IHu Hv IHv|a b u Hu IH|a b u Hu IH|p|p c u Hc Hu IH];
    intros k t Hk; cbn [match_then].
  - done.
  - rewrite sapp_cons. by rewrite Hc.
  - rewrite sapp_assoc. by apply IHu, IHv.
  - specialize (IH k t Hk). by destruct (match_then a k (u +:+ t)).
  - destruct (match_then a k (u +:+ t)); [done|]. by apply IH.
  - by apply many_complete.
  - apply many_complete; auto.
Qed.

(** A prefix is matched exactly when it is a word. *)
Lemma match_prefix_spec r s : (∃ rest, match_prefix r s = Some rest) ↔ ∃ w t, s = w +:+ t ∧ word r w.
Proof.
  unfold match_prefix. split.
  - intros [rest (u & t & -> & Hu & _)%match_sound]. eauto.
  - intros (w & t & -> & Hw). destruct (match_then r Some (w +:+ t)) eqn:E; [eauto|].
    by destruct (match_complete r Some w t Hw).
Qed.

Lemma match_prefix_rest r s rest : match_prefix r s = Some rest → ∃ w, s = w +:+ rest ∧ word r w.
Proof. intros (u & t & -> & Hu & [= ->])%match_sound. eauto. Qed.

(** [search] decides whether a word occurs. *)
Lemma search_spec r s : search r s = true ↔ occurs r s.
Proof.
  unfold occurs. induction s as [|c s IH]; cbn [search]; destruct (match_prefix r _) as [rest|] eqn:E.
  - split; [|done]. intros _. apply match_prefix_rest in E as (w & Hw & Hr). exists "", w, rest. auto.
  - split; [done|]. intros (a & w & b & Hs & Hw). destruct a; [|by rewrite sapp_cons in Hs].
    destruct (proj2 (match_prefix_spec r "")) as [? ?]; [by exists w, b|congruence].
  - split; [|done]. intros _. apply match_prefix_rest in E as (w & Hw & Hr). exists "", w, rest. auto.
  - rewrite IH. split.
    + intros (a & w & b & -> & Hw). by exists (String c a), w, b.
    + intros ([|d a] & w & b & Hs & Hw).
      * destruct (proj2 (match_prefix_spec r (String c s))) as [? ?]; [by exists w, b|congruence].
      * rewrite sapp_cons in Hs. injection Hs as <- ->. eauto.
Qed.

(** ** Replacing *)

(** The text with some words of [r] replaced, and the rest kept. *)
Inductive redacted (r : regex) (new : string) : string → string → Prop :=
  | red_nil : redacted r new "" ""
  | red_char c s t : redacted r new s t → redacted r new (String c s) (String c t)
  | red_word w s t : word r w → redacted r new s t → redacted r new (w +:+ s) (new +:+ t).

Lemma sdrop_length_app (w t : string) : sdrop (String.length w) (w +:+ t) = t.
Proof. induction w as [|c w IH]; [done|]. rewrite sapp_cons. exact IH. Qed.

Lemma sub_go_skip r new n s : sub_go r new n s = sub r new (sdrop n s).
Proof. revert n. induction s as [|c s IH]; intros [|n]; cbn [sub_go sdrop]; done. Qed.

Section sub.
Context (r : regex) (new : string) (r_nonempty : ∀ w, word r w → w ≠ "").

Lemma match_prefix_nil : match_prefix r "" = None.
Proof.
  destruct (match_prefix r "") as [rest|] eqn:E; [|done]. apply match_prefix_rest in E as (w & Hw & Hr).
  destruct w; [by destruct (r_nonempty "" Hr)|]. by rewrite sapp_cons in Hw.
Qed.

(** The two cases of a step at the head of the text. *)
Lemma sub_match s rest : match_prefix r s = Some rest → sub r new s = new +:+ sub r new rest.
Proof.
  intros E. destruct (match_prefix_rest r s rest E) as (w & -> & Hr).
  destruct w as [|c w]; [by destruct (r_nonempty "" Hr)|]. unfold sub at 1. rewrite sapp_cons in *. cbn [sub_go].
  rewrite E, sub_go_skip. f_equal. f_equal.
  replace (String.length (String c (w +:+ rest)) - String.length rest - 1) with (String.length w); [apply sdrop_length_app|].
  cbn [String.length]. rewrite sapp_length. lia.
Qed.

Lemma sub_no_match c s : match_prefix r (String c s) = None → sub r new (String c s) = String c (sub r new s).
Proof. intros E. unfold sub. cbn [sub_go]. by rewrite E. Qed.

Lemma match_prefix_shorter s rest : match_prefix r s = Some rest → String.length rest < String.length s.
Proof.
  intros (w & -> & Hr)%match_prefix_rest. rewrite sapp_length. destruct w; [by destruct (r_nonempty "" Hr)|]. cbn. lia.
Qed.

(** Induction on a text along the matches that [re.sub] finds. *)
Lemma sub_ind (P : string → Prop) :
  P "" →
  (∀ c s, match_prefix r (String c s) = None → P s → P (String c s)) →
  (∀ s rest, match_prefix r s = Some rest → P rest → P s) →
  ∀ s, P s.
Proof.
  intros H0 Hc Hm s. remember (String.length s) as n eqn:En. revert s En.
  induction (lt_wf n) as [n _ IH]. intros s ->.
  destruct (match_prefix r s) as [rest|] eqn:E.
  - apply (Hm s rest E), (IH (String.length rest)); [by apply match_prefix_shorter|done].
  - destruct s as [|c s]; [done|]. apply (Hc c s E), (IH (String.length s)); [cbn; lia|done].
Qed.

Lemma sub_redacted s : redacted r new s (sub r new s).
Proof.
  induction s as [|c s E IH|s rest E IH] using sub_ind.
  - constructor.
  - rewrite sub_no_match by done. by constructor.
  - rewrite (sub_match s rest E). destruct (match_prefix_rest r s rest E) as (w & -> & Hw). by constructor.
Qed.

(** A text without words is kept. *)
Lemma sub_id s : ¬ occurs r s → sub r new s = s.
Proof.
  induction s as [|c s E IH|s rest E IH] using sub_ind; intros Hn; [done| |].
  - rewrite sub_no_match by done. f_equal. apply IH. intros (a & w & b & -> & Hw). apply Hn. by exists (String c a), w, b.
  - destruct Hn. destruct (match_prefix_rest r s rest E) as (w & -> & Hw). by exists "", w, rest.
Qed.
End sub.

(** ** What the words have in common *)

Section automaton.
Context {Q : Type} `{!EqDecision Q} (next : Q → ascii → Q).

Fixpoint run (q : Q) (s : string) : Q := match s with "" => q | String c s' => run (next q c) s' end.

Lemma run_app q u v : run q (u +:+ v) = run (run q u) v.
Proof. revert q. induction u as [|c u IH]; intros q; [done|]. rewrite sapp_cons. apply IH. Qed.

Definition all_ascii : list ascii := ascii_of_nat <$> seq 0 256.
Lemma elem_of_all_ascii c : c ∈ all_ascii.
Proof.
  unfold all_ascii. apply list_elem_of_fmap. exists (nat_of_ascii c). rewrite ascii_nat_embedding. split; [done|].
  apply elem_of_seq. pose proof (nat_ascii_bounded c). lia.
Qed.

Definition insert_new (q : Q) (l : list Q) : list Q := if bool_decide (q ∈ l) then l else q :: l.
Definition steps_of (q : Q) (cs : list ascii) (l : list Q) : list Q :=
  foldr (λ c l, insert_new (next q c) l) l cs.
Definition step_class (p : ascii → bool) (qs : list Q) : list Q :=
  let cs := List.filter p all_ascii in foldr (λ q l, steps_of q cs l) [] qs.
Definition union (l k : list Q) : list Q := foldr insert_new k l.

Fixpoint close (n : nat) (p : ascii → bool) (qs : list Q) : list Q :=
  match n with 0 => qs | S n => close n p (union (step_class p qs) qs) end.

(** The states after a word, from those in [qs]; [None] when [fuel] does not
    close a repetition. *)
Fixpoint post (fuel : nat) (r : regex) (qs : list Q) : option (list Q) :=
  match r with
  | Empty => Some qs
  | Class p => Some (step_class p qs)
  | Then a b => match post fuel a qs with Some qs' => post fuel b qs' | None => None end
  | Either a b =>
      match post fuel a qs, post fuel b qs with Some l, Some k => Some (union l k) | _, _ => None end
  | Many p =>
      let qs' := close fuel p qs in
      if forallb (λ q, bool_decide (q ∈ qs')) (step_class p qs') then Some qs' else None
  end.

Lemma elem_of_insert_new x q l : x ∈ insert_new q l ↔ x = q ∨ x ∈ l.
Proof. unfold insert_new. case_bool_decide; [|by rewrite elem_of_cons]. split; [auto|]. by intros [->|]. Qed.

Lemma elem_of_union x l k : x ∈ union l k ↔ x ∈ l ∨ x ∈ k.
Proof. induction l as [|q l IH]; cbn; [set_solver|]. rewrite elem_of_insert_new, IH, elem_of_cons. tauto. Qed.

Lemma elem_of_steps_of q cs l x : x ∈ steps_of q cs l ↔ x ∈ l ∨ ∃ c, c ∈ cs ∧ x = next q c.
Proof.
  induction cs as [|c cs IH]; cbn.
  - split; [auto|]. intros [?|(c & H & _)]; [done|by apply elem_of_nil in H].
  - fold (steps_of q cs l). rewrite elem_of_insert_new, IH. setoid_rewrite elem_of_cons. naive_solver.
Qed.

Lemma step_class_sound p qs q c : q ∈ qs → p c = true → next q c ∈ step_class p qs.
Proof.
  intros Hq Hc. unfold step_class. assert (c ∈ List.filter p all_ascii) as Hin.
  { apply list_elem_of_In, filter_In. split; [apply list_elem_of_In, elem_of_all_ascii|done]. }
  revert Hin. generalize (List.filter p all_ascii). cbv zeta. intros cs Hin.
  induction qs as [|q' qs IH]; [by apply elem_of_nil in Hq|]. cbn.
  apply elem_of_steps_of. apply elem_of_cons in Hq as [->|Hq]; [right|left; by apply IH]. by exists c.
Qed.

Lemma close_incl n p qs q : q ∈ qs → q ∈ close n p qs.
Proof. revert qs. induction n as [|n IH]; intros qs Hq; [done|]. apply IH, elem_of_union. auto. Qed.

Lemma post_sound fuel r qs qs' q w : post fuel r qs = Some qs' → word r w → q ∈ qs → run q w ∈ qs'.
Proof.
  intros Hp Hw. revert q qs qs' Hp.
  induction Hw as [|p c Hc|a b u v Hu IHu Hv IHv|a b u Hu IH|a b u Hu IH|p|p c u Hc Hu IH]; intros q qs qs' Hp Hq;
    cbn [post] in Hp.
  - by injection Hp as <-.
  - injection Hp as <-. by apply step_class_sound.
  - destruct (post fuel a qs) as [k|] eqn:Ea; [|done]. rewrite run_app. eapply IHv; [exact Hp|]. by eapply IHu.
  - destruct (post fuel a qs) as [l|] eqn:Ea, (post fuel b qs) as [k|] eqn:Eb; try done. injection Hp as <-.
    apply elem_of_union. left. by eapply IH.
  - destruct (post fuel a qs) as [l|] eqn:Ea, (post fuel b qs) as [k|] eqn:Eb; try done. injection Hp as <-.
    apply elem_of_union. right. by eapply IH.
  - destruct (forallb _ _); [|done]. injection Hp as <-. by apply close_incl.
  - (* the closed set is its own closure *)
    destruct (forallb _ _) eqn:Ef; [|done]. injection Hp as <-. cbn [run].
    assert (∀ u q, word (Many p) u → q ∈ close fuel p qs → run q u ∈ close fuel p qs) as Hrun; [|].
    { clear -Ef EqDecision0. intros u q Hu. remember (Many p) as r eqn:Er. revert q.
      induction Hu; try discriminate; injection Er as ->; intros q Hq; [done|]. cbn [run]. apply IHHu; [done|].
      rewrite forallb_forall in Ef. specialize (Ef (next q c)). rewrite bool_decide_eq_true in Ef. apply Ef.
      apply list_elem_of_In. by apply step_class_sound. }
    apply (Hrun (String c u) q); [by constructor|by apply close_incl].
Qed.
End automaton.
