(* ===== verification/Paths.v ===== *)
(** * Paths (pathlib)

    What the program uses of [pathlib] on POSIX: a path is the list of its
    components, absolute paths without the root. *)

From S2P Require Import Prelude PyStr.
Local Open Scope string_scope.
Local Open Scope list_scope.
Local Open Scope nat_scope.

Abbreviation path := (list string).

(** [s.split("/")]. *)
Fixpoint split_slash (s : string) : list string :=
  match s with
  | "" => [""]
  | String c s' =>
      if bool_decide (c = "/"%char) then "" :: split_slash s' else push_char c (split_slash s')
  end.

(** The components of [Path(s)]: empty ones and [.] disappear. *)
Definition path_components (s : string) : path :=
  List.filter (λ c, negb (bool_decide (c = "")) && negb (bool_decide (c = "."))) (split_slash s).

(** [str(p)] of an absolute path. *)
Definition path_str (p : path) : string := "/" +:+ join "/" p.

(** [Path(s).name]. *)
Definition path_name (s : string) : string := default "" (last (path_components s)).

(** [p.relative_to(ws)]; [ValueError] when [ws] is not a prefix. *)
Fixpoint relative_to (ws p : path) : option path :=
  match ws, p with
  | [], _ => Some p
  | w :: ws', c :: p' => if bool_decide (w = c) then relative_to ws' p' else None
  | _ :: _, [] => None
  end.

(** What is before and after the last [x] of a string. *)
Fixpoint rsplit_char (x : ascii) (s : string) : option (string * string) :=
  match s with
  | "" => None
  | String c s' =>
      match rsplit_char x s' with
      | Some (a, b) => Some (String c a, b)
      | None => if bool_decide (c = x) then Some ("", s') else None
      end
  end.

(** The stem and the suffix of a file name: the dot may be neither its first
    nor its last character. *)
Definition stem_suffix (name : string) : string * string :=
  match rsplit_char "."%char name with
  | Some (a, b) => if truthy a && truthy b then (a, "." +:+ b) else (name, "")
  | None => (name, "")
  end.
Definition stem_of (name : string) : string := (stem_suffix name).1.
Definition suffix_of (name : string) : string := (stem_suffix name).2.

(** ** Lemmas *)

#[local] Arguments String.append !_ _ / : simpl nomatch.

Lemma relative_to_spec ws p q : relative_to ws p = Some q ↔ p = ws ++ q.
Proof.
  revert p. induction ws as [|w ws IH]; intros p; cbn; [naive_solver|].
  destruct p as [|c p]; [naive_solver|]. case_bool_decide; [subst; rewrite IH; naive_solver|naive_solver].
Qed.

Lemma rsplit_char_spec x s a b :
  rsplit_char x s = Some (a, b) → s = a +:+ String x b ∧ rsplit_char x b = None.
Proof.
  revert a b. induction s as [|c s IH]; cbn; intros a b; [done|].
  destruct (rsplit_char x s) as [[a' b']|] eqn:E.
  - intros [= <- <-]. destruct (IH _ _ eq_refl) as [-> ?]. done.
  - case_bool_decide; [|done]. intros [= <- <-]. by subst.
Qed.

Lemma stem_suffix_app name : stem_of name +:+ suffix_of name = name.
Proof.
  unfold stem_of, suffix_of, stem_suffix. destruct (rsplit_char _ name) as [[a b]|] eqn:E; cbn; [|apply sapp_nil_r].
  destruct (rsplit_char_spec _ _ _ _ E) as [-> _]. destruct (truthy a && truthy b); cbn; [done|apply sapp_nil_r].
Qed.

(** A suffix has one dot, its first character. *)
Lemma suffix_one_dot name t : suffix_of name = "." +:+ t → rsplit_char "."%char t = None.
Proof.
  unfold suffix_of, stem_suffix. destruct (rsplit_char _ name) as [[a b]|] eqn:E; cbn; [|done].
  destruct (rsplit_char_spec _ _ _ _ E) as [_ Hb]. destruct (truthy a && truthy b); cbn; [|done].
  by intros [= <-].
Qed.

Example suffix_ex : suffix_of "a.tar.gz" = ".gz" ∧ suffix_of ".bashrc" = "" ∧ stem_of "a.b.md" = "a.b".
Proof. done. Qed.
