(* ===== verification/AstIndexer.v ===== *)
(** * Chunking of source files (orchestrator/ast_indexer.py)

    Symbol chunks by a syntax tree, and windows of lines where there is none.
    The parser of a language (tree-sitter, the grammars that are installed) and
    the encoding of a text are parameters.  What is shown: no line with text is
    lost, the windows terminate, and where the rows of the parser and the lines
    of Python disagree. *)

From S2P Require Import Prelude PyStr Paths.
Local Open Scope string_scope.
Local Open Scope list_scope.
Local Open Scope nat_scope.

(** ** Tables *)

Definition _EXT_TO_LANG : list (string * string) :=
  [(".py", "python"); (".js", "javascript"); (".jsx", "javascript"); (".ts", "typescript");
   (".tsx", "typescript"); (".go", "go"); (".rs", "rust"); (".java", "java"); (".c", "c");
   (".cpp", "cpp"); (".h", "c"); (".hpp", "cpp")].

Definition _SYMBOL_NODES : list (string * list string) :=
  [("python", ["function_definition"; "class_definition"; "decorated_definition"; "async_function_definition"]);
   ("javascript", ["function_declaration"; "class_declaration"; "method_definition"; "arrow_function";
                   "lexical_declaration"; "variable_declaration"]);
   ("typescript", ["function_declaration"; "class_declaration"; "method_definition"; "arrow_function";
                   "interface_declaration"; "type_alias_declaration"]);
   ("go", ["function_declaration"; "method_declaration"; "type_declaration"]);
   ("rust", ["function_item"; "impl_item"; "struct_item"; "enum_item"; "trait_item"]);
   ("java", ["class_declaration"; "method_declaration"; "interface_declaration"; "enum_declaration"]);
   ("c", ["function_definition"; "struct_specifier"; "declaration"]);
   ("cpp", ["function_definition"; "class_specifier"; "struct_specifier"; "namespace_definition"])].

(** A chunk dict. *)
Record chunk := Chunk {
  ch_content : string; ch_symbol : string; ch_symbol_type : string;
  ch_start_line : nat; ch_end_line : nat; ch_language : string
}.

#[local] Set Warnings "-register-all".

(** A node of a tree-sitter tree, with what the code reads of it. *)
Inductive ts_node := TsNode {
  tn_type : string;
  tn_start_row : nat; tn_end_row : nat;
  tn_start_byte : nat; tn_end_byte : nat;
  tn_children : list ts_node
}.

Definition _node_symbol_type (node_type : string) : string :=
  if contains "function" node_type || contains "method" node_type || contains "arrow" node_type then "function"
  else if contains "class" node_type || contains "struct" node_type || contains "impl" node_type then "class"
  else if contains "interface" node_type || contains "trait" node_type || contains "type" node_type
       then "interface"
  else "declaration".

(** [not line.strip()]. *)
Definition blank (s : string) : bool := negb (truthy (strip s)).

(** [l[i:j]] for [0 <= i]. *)
Definition slice {A} (i j : nat) (l : list A) : list A := take (j - i) (drop i l).

(** The lines from [start] to [end_] of 0-based rows, both included. *)
Definition rows (lines : list string) (start end_ : nat) : string := join "" (slice start (S end_) lines).

(** Induction over the tree. *)
Section ts_node_ind.
Context (P : ts_node → Prop).
Context (Hnode : ∀ t sr er sb eb cs, Forall P cs → P (TsNode t sr er sb eb cs)).

Fixpoint ts_node_rect_all (n : ts_node) : P n :=
  match n with
  | TsNode t sr er sb eb cs =>
      Hnode t sr er sb eb cs
        ((fix go l : Forall P l :=
            match l with [] => Forall_nil_2 P | x :: l' => Forall_cons_2 P x l' (ts_node_rect_all x) (go l') end) cs)
  end.
End ts_node_ind.

(** ** Blank text *)

Lemma truthy_lstrip_app a b : truthy (lstrip (a +:+ b)) = truthy (lstrip a) || truthy (lstrip b).
Proof. induction a as [|c a IH]; [done|]. rewrite sapp_cons. cbn. by destruct (is_space c). Qed.

Lemma blank_lstrip s : blank s = negb (truthy (lstrip s)).
Proof.
  unfold blank, strip. f_equal. destruct (rstrip (lstrip s)) as [|c t] eqn:E.
  - apply rstrip_nonempty in E. rewrite lstrip_id in E by apply lstrip_head. by rewrite E.
  - symmetry. apply truthy_true. intros Hl. by rewrite Hl in E.
Qed.

Lemma blank_app a b : blank (a +:+ b) = blank a && blank b.
Proof. rewrite !blank_lstrip, truthy_lstrip_app. apply negb_orb. Qed.

Lemma join_contains x l : x ∈ l → contains x (join "" l) = true.
Proof.
  intros Hx. apply contains_spec. induction l as [|y l IH]; [set_solver|]. rewrite join_nil_cons.
  apply elem_of_cons in Hx as [->|Hx]; [by exists "", (join "" l)|].
  destruct (IH Hx) as (a & b & ->). exists (y +:+ a), b. by rewrite sapp_assoc.
Qed.

Lemma contains_blank x s : contains x s = true → blank x = false → blank s = false.
Proof.
  rewrite contains_spec. intros (a & b & ->) Hx. rewrite !blank_app, Hx. by destruct (blank a).
Qed.

Lemma slice_elem {A} i j k (l : list A) x : l !! k = Some x → i ≤ k < j → x ∈ slice i j l.
Proof.
  intros Hk Hi. unfold slice. apply list_elem_of_lookup. exists (k - i).
  rewrite lookup_take_lt by lia. rewrite lookup_drop. by replace (i + (k - i)) with k by lia.
Qed.

(** The first and the last of a list in order bound its elements. *)
Lemma sorted_bounds (l : list (nat * string)) u x :
  StronglySorted (λ p q, p.1 ≤ q.1) (u :: l) → x ∈ u :: l →
  u.1 ≤ x.1 ≤ from_option fst 0 (last (u :: l)).
Proof.
  revert u x. induction l as [|v l IH]; intros u x Hs Hx.
  - apply list_elem_of_singleton in Hx as ->. cbn. lia.
  - apply StronglySorted_inv in Hs as [Hs Hu]. rewrite last_cons_cons.
    apply elem_of_cons in Hx as [->|Hx].
    + specialize (IH v v Hs ltac:(by left)). rewrite Forall_forall in Hu.
      specialize (Hu v ltac:(by left)). lia.
    + specialize (IH v x Hs Hx). rewrite Forall_forall in Hu. specialize (Hu x Hx). lia.
Qed.

Lemma StronglySorted_sublist {A} (R : relation A) l k :
  l `sublist_of` k → StronglySorted R k → StronglySorted R l.
Proof.
  induction 1; [done| |]; intros [Hk HF]%StronglySorted_inv; [|auto].
  constructor; [auto|]. rewrite Forall_forall in *. intros y Hy. apply HF. by eapply elem_of_sublist.
Qed.

Lemma numbered_sorted (k : nat) (lines : list string) :
  StronglySorted (λ p q : nat * string, p.1 ≤ q.1) (imap (λ i line, (S (k + i), line)) lines).
Proof.
  revert k. induction lines as [|x l IH]; intros k; cbn; [constructor|]. constructor.
  - rewrite (imap_ext _ (λ i line, (S (S k + i), line))); [apply IH|]. intros i y _. cbn. f_equal. lia.
  - rewrite Forall_forall. intros p Hp. apply elem_of_lookup_imap in Hp as (i & y & -> & _). cbn. lia.
Qed.

Section indexer.
(** [_get_parser] and [Parser.parse]: the root of the tree; [None] without
    grammar.  [str.encode] and [bytes.decode]. *)
Context (get_parser : string → option (string → res ts_node)) (encode decode : string → string).

Definition name_types : list string :=
  ["identifier"; "name"; "property_identifier"; "type_identifier"; "field_identifier"].

(** [source_bytes[i:j]]. *)
Definition byte_slice (i j : nat) (s : string) : string := stake (j - i) (sdrop i s).

Definition _extract_name (node : ts_node) (source : string) : string :=
  match List.find (λ c, bool_decide (tn_type c ∈ name_types)) (tn_children node) with
  | Some c => decode (byte_slice (tn_start_byte c) (tn_end_byte c) source)
  | None => ""
  end.

(** The chunk of a node whose type is a symbol. *)
Definition node_chunk (lines : list string) (source lang : string) (node : ts_node) : list chunk :=
  let content := rows lines (tn_start_row node) (tn_end_row node) in
  if blank content then []
  else [Chunk content (_extract_name node source) (_node_symbol_type (tn_type node))
          (S (tn_start_row node)) (S (tn_end_row node)) lang].

(** The tree may be of any depth; in Python one nested deeper than the recursion
    limit makes [visit] raise. *)
Fixpoint visit (targets lines : list string) (source lang : string) (node : ts_node) : list chunk :=
  if bool_decide (tn_type node ∈ targets) then node_chunk lines source lang node
  else flat_map (visit targets lines source lang) (tn_children node).

(** [line in covered_lines]. *)
Definition covered (chunks : list chunk) (n : nat) : bool :=
  existsb (λ c, (ch_start_line c <=? n) && (n <=? ch_end_line c)) chunks.

Definition uncovered_lines (chunks : list chunk) (lines : list string) : list (nat * string) :=
  List.filter (λ p, negb (covered chunks p.1) && negb (blank p.2)) (imap (λ i line, (S i, line)) lines).

Definition module_chunk (lang : string) (uncovered : list (nat * string)) : list chunk :=
  match uncovered with
  | [] => []
  | u :: _ =>
      [Chunk (join "" uncovered.*2) "" "module" u.1 (from_option fst 0 (last uncovered)) lang]
  end.

Definition _ast_chunk (text lang : string) : list chunk :=
  match get_parser lang with
  | None => []
  | Some parse =>
      let source := encode text in
      match parse source with
      | Raise _ => []
      | Ok root =>
          match default [] (dict_get lang _SYMBOL_NODES) with
          | [] => []
          | targets =>
              let lines := splitlines_keep true text in
              let chunks := visit targets lines source lang root in
              chunks ++ module_chunk lang (uncovered_lines chunks lines)
          end
      end
  end.

Definition lang_of (path : string) : option string :=
  dict_get (lower (suffix_of (path_name path))) _EXT_TO_LANG.

(** The loop of [_line_chunk]. *)
Definition line_window (lang : string) (size i : nat) (lines : list string) : list chunk :=
  let window := join "" (slice i (i + size) lines) in
  if blank window then []
  else [Chunk window "" "lines" (S i) (Nat.min (i + size) (length lines)) lang].

Fixpoint windows (fuel : nat) (lang : string) (size overlap i : nat) (lines : list string) : res (list chunk) :=
  if i <? length lines then
    match fuel with
    | 0 => Raise Diverges
    | S fuel' =>
        res_map (λ cs, line_window lang size i lines ++ cs)
          (windows fuel' lang size overlap (i + (size - overlap)) lines)
    end
  else Ok [].

(** [size >= overlap] at every call; a smaller size would walk backwards. *)
Definition _line_chunk (path text : string) (size overlap : nat) : res (list chunk) :=
  let lines := splitlines_keep true text in
  res_map (λ chunks, match chunks with
                     | [] => [Chunk text "" "lines" 1 (length lines) "unknown"]
                     | _ => chunks
                     end)
    (windows (length lines) (default "unknown" (lang_of path)) size overlap 0 lines).

Definition chunk_file (path text : string) : res (list chunk) :=
  match lang_of path with
  | Some lang =>
      match _ast_chunk text lang with
      | [] => _line_chunk path text 100 10
      | chunks => Ok chunks
      end
  | None => _line_chunk path text 100 10
  end.

(** ** No line is lost *)

(** A line is in a chunk: its text is, and its number is between the bounds. *)
Definition in_chunk (n : nat) (line : string) (c : chunk) : Prop :=
  ch_start_line c ≤ n ≤ ch_end_line c ∧ contains line (ch_content c) = true.

Definition complete_chunks (lines : list string) (chunks : list chunk) : Prop :=
  ∀ i line, lines !! i = Some line → blank line = false → ∃ c, c ∈ chunks ∧ in_chunk (S i) line c.

Lemma visit_rows targets lines source lang node c :
  c ∈ visit targets lines source lang node →
  ∃ s e, ch_start_line c = S s ∧ ch_end_line c = S e ∧ ch_content c = rows lines s e.
Proof.
  revert c. induction node as [t sr er sb eb cs IH] using ts_node_rect_all. intros c. cbn [visit].
  case_bool_decide.
  - unfold node_chunk. cbn. case_match; [set_solver|]. intros ->%list_elem_of_singleton. eauto.
  - rewrite list_elem_of_In, in_flat_map. intros (n & Hn & Hc). apply list_elem_of_In in Hn, Hc.
    rewrite Forall_forall in IH. eauto.
Qed.

Lemma ast_chunks_complete targets lines source lang root :
  let chunks := visit targets lines source lang root in
  complete_chunks lines (chunks ++ module_chunk lang (uncovered_lines chunks lines)).
Proof.
  intros chunks i line Hi Hb. destruct (covered chunks (S i)) eqn:Hc.
  - unfold covered in Hc. apply existsb_exists in Hc as (c & Hc & Hr). rewrite <-list_elem_of_In in Hc.
    destruct (visit_rows _ _ _ _ _ _ Hc) as (s & e & Hs & He & Hco). breflect. rewrite !Nat.leb_le in *.
    exists c. split; [set_solver|]. split; [lia|]. rewrite Hco. apply join_contains.
    eapply slice_elem; [done|lia].
  - assert (Hu : (S i, line) ∈ uncovered_lines chunks lines).
    { unfold uncovered_lines. apply filter_In_elem. cbn. rewrite Hc, Hb. split; [|done].
      apply elem_of_lookup_imap. eauto. }
    assert (Hsort : StronglySorted (λ p q : nat * string, p.1 ≤ q.1) (uncovered_lines chunks lines)).
    { eapply StronglySorted_sublist; [apply filter_sublist|apply (numbered_sorted 0)]. }
    destruct (uncovered_lines chunks lines) as [|u l]; [set_solver|].
    eexists. split; [apply elem_of_app; right; by apply list_elem_of_singleton|].
    pose proof (sorted_bounds l u _ Hsort Hu) as Hbd. split; [done|]. cbn [ch_content].
    apply (join_contains _ (u :: l).*2). change line with (S i, line).2. by apply list_elem_of_fmap_2.
Qed.

Lemma windows_complete lang size overlap lines fuel i :
  overlap < size → length lines - i ≤ fuel →
  ∃ cs, windows fuel lang size overlap i lines = Ok cs ∧
    (∀ c, c ∈ cs → ch_end_line c < ch_start_line c + size) ∧
    ∀ j line, i ≤ j → lines !! j = Some line → blank line = false → ∃ c, c ∈ cs ∧ in_chunk (S j) line c.
Proof.
  intros Hsz. revert i. induction fuel as [|fuel IH]; intros i Hf; cbn [windows]; destruct (Nat.ltb_spec i (length lines)).
  1: lia.
  1, 3: exists []; split; [done|]; split; [set_solver|]; intros j line Hj Hl%lookup_lt_Some; lia.
  destruct (IH (i + (size - overlap)) ltac:(lia)) as (cs & -> & Hlen & Hcs). eexists. split; [done|]. split.
  { intros c [Hc|Hc]%elem_of_app; [|auto]. unfold line_window in Hc. case_match; [set_solver|].
    apply list_elem_of_singleton in Hc as ->. cbn. lia. }
  intros j line Hj Hl Hb. destruct (decide (j < i + size)) as [Hlt|].
  - pose proof (slice_elem i (i + size) j lines line Hl ltac:(lia)) as Hin.
    pose proof (join_contains _ _ Hin) as Hc. unfold line_window. rewrite (contains_blank _ _ Hc Hb).
    eexists. split; [apply elem_of_app; left; by left|]. split; [|done]. cbn.
    apply lookup_lt_Some in Hl. lia.
  - destruct (Hcs j line ltac:(lia) Hl Hb) as (c & ? & ?). exists c. split; [set_solver|done].
Qed.

Lemma line_chunk_complete path text size overlap :
  overlap < size →
  ∃ chunks, _line_chunk path text size overlap = Ok chunks ∧ chunks ≠ [] ∧
    complete_chunks (splitlines_keep true text) chunks.
Proof.
  intros Hsz. unfold _line_chunk.
  destruct (windows_complete (default "unknown" (lang_of path)) size overlap (splitlines_keep true text)
              (length (splitlines_keep true text)) 0 Hsz ltac:(lia)) as (cs & -> & _ & Hcs). cbn.
  eexists. split; [done|]. destruct cs as [|c cs]; (split; [done|]).
  - intros i line Hi Hb. destruct (Hcs i line ltac:(lia) Hi Hb) as (? & Hc & _). set_solver.
  - intros i line. apply Hcs. lia.
Qed.

(** C33: Chunking any file, by its syntax tree or by windows of lines, ends with at
    least one chunk, and every line that is not blank is in one of them: its
    text is in the content, its number between the bounds. *)
Theorem chunk_file_complete path text :
  ∃ chunks, chunk_file path text = Ok chunks ∧ chunks ≠ [] ∧
    complete_chunks (splitlines_keep true text) chunks.
Proof.
  unfold chunk_file. destruct (lang_of path) as [lang|]; [|apply (line_chunk_complete path text 100 10); lia].
  destruct (_ast_chunk text lang) as [|c cs] eqn:E; [apply (line_chunk_complete path text 100 10); lia|].
  eexists. split; [done|]. split; [done|]. rewrite <-E. unfold _ast_chunk in *.
  repeat case_match; try done. apply ast_chunks_complete.
Qed.
End indexer.

(** ** Rows of the parser, lines of Python *)

Module Concrete.
(** tree-sitter counts rows by line feeds: in a text that starts with a form
    feed and a line feed, the function is on row 1. *)
Definition ff_text : string := String "012"%char (nl +:+ "def f(): pass" +:+ nl).

Definition parse (_ : string) : res ts_node :=
  Ok (TsNode "module" 0 2 0 15
        [TsNode "function_definition" 1 1 2 15 [TsNode "identifier" 1 1 6 7 []]]).
Definition python (lang : string) : option (string → res ts_node) :=
  if bool_decide (lang = "python") then Some parse else None.

(** Two functions on their rows. *)
Definition two_text : string := "def f():" +:+ nl +:+ "  return 1" +:+ nl +:+ "x = 2" +:+ nl.
Definition parse_two (_ : string) : res ts_node :=
  Ok (TsNode "module" 0 3 0 26
        [TsNode "function_definition" 0 1 0 19 [TsNode "identifier" 0 0 4 5 []];
         TsNode "expression_statement" 2 2 20 25 []]).

Example chunks_ex :
  chunk_file (λ _, Some parse_two) (λ s, s) (λ s, s) "pkg/m.py" two_text
  = Ok [Chunk ("def f():" +:+ nl +:+ "  return 1" +:+ nl) "f" "function" 1 2 "python";
        Chunk ("x = 2" +:+ nl) "" "module" 3 3 "python"].
Proof. done. Qed.

(** [str.splitlines] breaks at the form feed too, so row 1 is the empty line
    after it: the function gets no chunk of its own and no symbol. *)
Theorem form_feed_loses_symbol :
  chunk_file python (λ s, s) (λ s, s) "m.py" ff_text
  = Ok [Chunk ("def f(): pass" +:+ nl) "" "module" 3 3 "python"].
Proof. done. Qed.
End Concrete.
