(* ===== verification/TreeSitter.v ===== *)
(** * The parsers of the indexer (orchestrator/ast_indexer.py: [_get_parser])

    The lazy table of tree-sitter parsers.  The modules of the grammars, in the
    three shapes their packages have had, and the constructors [Language] and
    [Parser] are parameters. *)

From S2P Require Import Prelude PyStr.
Local Open Scope string_scope.
Local Open Scope list_scope.

Section parsers.
Context {G L P : Type}.
Context (Language : G → res L) (Parser : L → res P).

(** A module is called when it can be; otherwise its [language] is called when
    it has one; otherwise it is the grammar itself. *)
Inductive grammar_module := Callable (call : res G) | WithLanguage (language : res G) | Itself (g : G).

(** [_ts_available] and [_LANG_MODULES]. *)
Context (ts_available : bool) (LANG_MODULES : list (string * grammar_module)).

Definition bind_res {A B} (r : res A) (k : A → res B) : res B := match r with Ok a => k a | Raise e => Raise e end.

Definition language_of (m : grammar_module) : res L :=
  match m with
  | Callable r | WithLanguage r => bind_res r Language
  | Itself g => Language g
  end.

(** The table [_parsers] after the call, and what is returned; what is raised is
    logged and not kept. *)
Definition _get_parser (lang : string) (parsers : list (string * P)) : list (string * P) * option P :=
  if negb ts_available then (parsers, None)
  else match dict_get lang parsers with
       | Some p => (parsers, Some p)
       | None =>
           match dict_get lang LANG_MODULES with
           | None => (parsers, None)
           | Some m =>
               match bind_res (language_of m) Parser with
               | Ok p => (dict_set lang p parsers, Some p)
               | Raise _ => (parsers, None)
               end
           end
       end.

Fixpoint get_parsers (langs : list string) (parsers : list (string * P)) : list (string * P) :=
  match langs with [] => parsers | l :: langs' => get_parsers langs' (_get_parser l parsers).1 end.

(** The table holds, for a language, what the constructors make of its module. *)
Definition table_ok (parsers : list (string * P)) : Prop := ∀ lang p, dict_get lang parsers = Some p →
  ∃ m, dict_get lang LANG_MODULES = Some m ∧ bind_res (language_of m) Parser = Ok p.

Lemma get_parser_step lang parsers : table_ok parsers →
  let r := _get_parser lang parsers in
  table_ok r.1 ∧ (∀ k p, dict_get k parsers = Some p → dict_get k r.1 = Some p) ∧
  r.2 = (if ts_available then
           match dict_get lang LANG_MODULES with
           | Some m => match bind_res (language_of m) Parser with Ok p => Some p | Raise _ => None end
           | None => None
           end
         else None).
Proof.
  intros Hok. unfold _get_parser. destruct ts_available; cbn [negb]; [|by cbn].
  destruct (dict_get lang parsers) as [p|] eqn:Ep.
  - destruct (Hok lang p Ep) as (m & -> & ->). by cbn.
  - destruct (dict_get lang LANG_MODULES) as [m|] eqn:Em; [|by cbn].
    destruct (bind_res (language_of m) Parser) as [p|e] eqn:Eb; [|by cbn]. cbn. split; [|split; [|done]].
    + intros k q. rewrite dict_get_set. case_decide as Hk; [|apply Hok]. subst k. intros [= <-]. by exists m.
    + intros k q Hq. rewrite dict_get_set. case_decide as Hk; [|done]. subst k. congruence.
Qed.

(** Whatever languages were asked for before, a language gets the parser made
    from its module, or none; so the order of the files does not matter. *)
Theorem get_parser_any_time langs lang :
  (_get_parser lang (get_parsers langs [])).2 = (_get_parser lang []).2.
Proof.
  assert (∀ ps, table_ok ps → table_ok (get_parsers langs ps)) as Ht.
  { induction langs as [|l langs IH]; intros ps Hps; [done|]. apply IH, get_parser_step, Hps. }
  assert (table_ok []) as Hnil by done.
  destruct (get_parser_step lang [] Hnil) as (_ & _ & ->). by destruct (get_parser_step lang _ (Ht _ Hnil)) as (_ & _ & ->).
Qed.
End parsers.
