(* ===== verification/EmbedCache.v ===== *)
(** * The cache of embeddings (orchestrator/memory_manager.py, [_LRUEmbedCache])

    An [OrderedDict] of bounded size, oldest entry first.  The specification is
    the history of the keys in use: the cache holds the most recent ones. *)

From S2P Require Import Prelude.
Local Open Scope list_scope.
Local Open Scope nat_scope.

(** ** Generic lemmas *)

Lemma filter_id {A} (p : A → bool) l : (∀ x, x ∈ l → p x = true) → List.filter p l = l.
Proof.
  induction l as [|x l IH]; cbn; [done|]. intros Hp. rewrite (Hp x) by set_solver. f_equal. apply IH. set_solver.
Qed.

(** [x not in (k,)], the test that removes a key. *)
Definition other {K} `{EqDecision K} (k j : K) : bool := negb (bool_decide (j = k)).

Lemma other_true {K} `{EqDecision K} (k j : K) : other k j = true ↔ j ≠ k.
Proof. unfold other. by rewrite negb_true_iff, bool_decide_eq_false. Qed.

Lemma other_self {K} `{EqDecision K} (k : K) : other k k = false.
Proof. unfold other. by rewrite bool_decide_true. Qed.

Lemma fst_dict_del {K V} `{EqDecision K} (k : K) (d : list (K * V)) :
  NoDup d.*1 → (dict_del k d).*1 = List.filter (other k) d.*1.
Proof.
  induction d as [|[j v] d IH]; cbn; [done|]. intros [Hj Hd]%NoDup_cons. destruct (decide (j = k)) as [->|Hjk].
  - rewrite other_self, filter_id; [done|]. intros i Hi. apply other_true. congruence.
  - rewrite (proj2 (other_true k j) Hjk). cbn. by rewrite IH.
Qed.

Lemma dict_get_del {K V} `{EqDecision K} (k j : K) (d : list (K * V)) :
  NoDup d.*1 → dict_get j (dict_del k d) = if decide (j = k) then None else dict_get j d.
Proof.
  induction d as [|[i v] d IH]; cbn; [by case_decide|]. intros [Hi Hd]%NoDup_cons. specialize (IH Hd).
  destruct (decide (i = k)) as [->|Hik]; cbn.
  - destruct (decide (j = k)) as [->|]; [by apply dict_get_None|]. by rewrite decide_False by congruence.
  - rewrite IH. by destruct (decide (i = j)), (decide (j = k)); simplify_eq.
Qed.

Lemma dict_del_elem {K V} `{EqDecision K} (k : K) (d : list (K * V)) e : e ∈ dict_del k d → e ∈ d.
Proof. induction d as [|[j u] d IH]; cbn; [done|]. case_decide; set_solver. Qed.

Lemma dict_set_elem {K V} `{EqDecision K} (k : K) (v : V) (d : list (K * V)) e : e ∈ dict_set k v d → e = (k, v) ∨ e ∈ d.
Proof. induction d as [|[j u] d IH]; cbn; [set_solver|]. case_decide; subst; set_solver. Qed.

Lemma dict_get_app {K V} `{EqDecision K} (k : K) (d e : list (K * V)) :
  dict_get k (d ++ e) = match dict_get k d with Some v => Some v | None => dict_get k e end.
Proof. induction d as [|[j v] d IH]; cbn; [done|]. by case_decide. Qed.

Lemma dict_set_new {K V} `{EqDecision K} (k : K) (v : V) (d : list (K * V)) :
  k ∉ d.*1 → dict_set k v d = d ++ [(k, v)].
Proof. induction d as [|[j u] d IH]; cbn; [done|]. intros Hk. rewrite decide_False by set_solver. rewrite IH by set_solver. done. Qed.

Lemma last_n_app_r {A} n (l k : list A) : length k ≤ n → last_n n (l ++ k) = last_n (n - length k) l ++ k.
Proof.
  intros Hk. unfold last_n. rewrite length_app. destruct (decide (n - length k ≤ length l)).
  - rewrite drop_app_le by lia. do 2 f_equal. lia.
  - replace (length l + length k - n) with 0 by lia. by replace (length l - (n - length k)) with 0 by lia.
Qed.

(** ** The cache *)

Section cache.
Context {K V : Type} `{EqDecision K}.

(** [_LRUEmbedCache]: the entries of the [OrderedDict], oldest first. *)
Abbreviation lru := (list (K * V)).

(** [OrderedDict.move_to_end]. *)
Definition move_to_end (k : K) (d : lru) : lru :=
  match dict_get k d with Some v => dict_del k d ++ [(k, v)] | None => d end.

Definition lru_get (k : K) (d : lru) : lru * option V :=
  match dict_get k d with
  | None => (d, None)
  | Some v => (move_to_end k d, Some v)
  end.

Definition lru_set (max_size : nat) (k : K) (v : V) (d : lru) : lru :=
  let d := if bool_decide (k ∈ d.*1) then move_to_end k d else d in
  let d := dict_set k v d in
  if max_size <? length d then drop 1 d else d.

(** ** The history of the keys *)

(** Using a key makes it the most recent one. *)
Definition use (k : K) (h : list K) : list K := List.filter (other k) h ++ [k].

(** The distinct keys of a sequence of uses, least recent first. *)
Definition recency (ks : list K) : list K := foldl (λ h k, use k h) [] ks.

Lemma elem_of_use k h j : j ∈ use k h ↔ j = k ∨ j ∈ h.
Proof.
  unfold use. rewrite elem_of_app, filter_In_elem, list_elem_of_singleton. rewrite other_true.
  destruct (decide (j = k)); naive_solver.
Qed.

Lemma NoDup_use k h : NoDup h → NoDup (use k h).
Proof.
  intros Hh. apply NoDup_app. split; [by eapply sublist_NoDup; [|apply filter_sublist]|]. split; [|apply NoDup_singleton].
  intros j [_ Hj]%filter_In_elem ->%list_elem_of_singleton. by rewrite other_self in Hj.
Qed.

Lemma use_length k h : NoDup h → k ∈ h → length (use k h) = length h.
Proof.
  intros Hn Hk. apply Nat.le_antisymm; apply submseteq_length, NoDup_submseteq; try by auto using NoDup_use.
  all: intros j; rewrite elem_of_use; naive_solver.
Qed.

(** The bounded history of a use is that of the bounded history. *)
Lemma last_n_use n k h : NoDup h → last_n n (use k (last_n n h)) = last_n n (use k h).
Proof.
  intros Hh. destruct n as [|n]; [unfold last_n; by rewrite !drop_ge by lia|].
  unfold use. rewrite !last_n_app_r by (cbn; lia). f_equal. cbn [length]. rewrite Nat.sub_succ, Nat.sub_0_r.
  rewrite <-(but_last_n_last_n (S n) h) at 2. rewrite List.filter_app.
  assert (Hl : n ≤ length (List.filter (other k) (last_n (S n) h)) ∨ length h ≤ S n).
  { destruct (decide (length h ≤ S n)); [by right|]. left.
    assert (Hd : NoDup (last_n (S n) h)).
    { eapply sublist_NoDup; [exact Hh|apply sublist_drop]. }
    pose proof (last_n_length (S n) h) as Hlen. rewrite Nat.min_l in Hlen by lia.
    destruct (decide (k ∈ last_n (S n) h)) as [Hk|Hk].
    - pose proof (use_length _ _ Hd Hk) as Hu. unfold use in Hu. rewrite length_app in Hu. cbn in Hu. lia.
    - rewrite filter_id; [lia|]. intros j Hj. apply other_true. congruence. }
  unfold last_n at 1 3. rewrite length_app. destruct Hl as [Hl|Hl].
  - rewrite drop_app_ge by lia. f_equal. lia.
  - unfold but_last_n. replace (length h - S n) with 0 by lia. done.
Qed.

(** ** The operations against the history *)

Definition cache_ok (max_size : nat) (d : lru) : Prop := NoDup d.*1 ∧ length d ≤ max_size.

Lemma move_to_end_keys k d : NoDup d.*1 → k ∈ d.*1 → (move_to_end k d).*1 = use k d.*1.
Proof.
  intros Hd Hk. unfold move_to_end. destruct (dict_get k d) as [v|] eqn:E; [|by apply dict_get_None in E].
  rewrite fmap_app, fst_dict_del by done. done.
Qed.

Lemma lru_get_keys k d v : NoDup d.*1 → dict_get k d = Some v → (lru_get k d).1.*1 = use k d.*1.
Proof.
  intros Hd Hk. unfold lru_get. rewrite Hk. apply move_to_end_keys; [done|].
  apply dict_get_elem in Hk. change k with (k, v).1. by apply list_elem_of_fmap_2.
Qed.

Lemma move_to_end_elem k d e : e ∈ move_to_end k d → e ∈ d.
Proof.
  unfold move_to_end. destruct (dict_get k d) as [v|] eqn:E; [|done].
  rewrite elem_of_app, list_elem_of_singleton. intros [He| ->]; [|by apply dict_get_elem].
  by apply dict_del_elem in He.
Qed.

Lemma dict_set_keys_in (k : K) (v : V) (d : lru) : k ∈ d.*1 → (dict_set k v d).*1 = d.*1.
Proof.
  induction d as [|[j u] d IH]; cbn; [set_solver|]. intros Hk. case_decide; [done|]. cbn.
  rewrite IH; [done|]. set_solver.
Qed.

Lemma drop_over {A} n (l : list A) : length l ≤ S n → (if n <? length l then drop 1 l else l) = last_n n l.
Proof.
  intros Hl. unfold last_n. destruct (Nat.ltb_spec n (length l)).
  - f_equal. lia.
  - by replace (length l - n) with 0 by lia.
Qed.

(** Storing a key is a use of it in the bounded history. *)
Lemma lru_set_keys n k v d : cache_ok n d → (lru_set n k v d).*1 = last_n n (use k d.*1).
Proof.
  intros [Hd Hl]. unfold lru_set. case_bool_decide as Hk.
  - assert (Hm : k ∈ (move_to_end k d).*1) by (rewrite move_to_end_keys by done; apply elem_of_use; by left).
    assert (Hlen : length (dict_set k v (move_to_end k d)) = length d).
    { rewrite <-(length_fmap fst), dict_set_keys_in, move_to_end_keys, use_length, length_fmap by done. done. }
    rewrite drop_over by lia. unfold last_n at 1. rewrite fmap_drop, dict_set_keys_in, move_to_end_keys by done.
    rewrite Hlen. unfold last_n. by rewrite use_length, length_fmap by done.
  - rewrite dict_set_new by done. rewrite drop_over by (rewrite length_app; cbn; lia).
    unfold last_n at 1. rewrite fmap_drop, fmap_app. unfold last_n, use.
    rewrite (filter_id (other k)); [by rewrite !length_app, length_fmap|].
    intros j Hj. apply other_true. congruence.
Qed.

Lemma lru_set_elem n k v d e : e ∈ lru_set n k v d → e = (k, v) ∨ e ∈ d.
Proof.
  unfold lru_set. intros He. assert (He' : e ∈ dict_set k v (if bool_decide (k ∈ d.*1) then move_to_end k d else d)).
  { destruct (_ <? _); [|done]. by eapply elem_of_sublist, sublist_drop. }
  apply dict_set_elem in He' as [->|He']; [by left|]. right. case_bool_decide; [|done]. by eapply move_to_end_elem.
Qed.

Lemma keys_cache_ok n d h : NoDup h → d.*1 = last_n n h → cache_ok n d.
Proof.
  intros Hh Hd. split.
  - rewrite Hd. eapply sublist_NoDup; [exact Hh|apply sublist_drop].
  - rewrite <-(length_fmap fst), Hd, last_n_length. lia.
Qed.

(** A cache that holds the last [n] keys of a history. *)
Definition recent (n : nat) (h : list K) (d : lru) : Prop := NoDup h ∧ d.*1 = last_n n h.

Lemma recent_ok n h d : recent n h d → cache_ok n d.
Proof. intros [? ?]. by eapply keys_cache_ok. Qed.

Lemma recent_hit n h d k v : recent n h d → dict_get k d = Some v → recent n (use k h) (lru_get k d).1.
Proof.
  intros Hr Hk. destruct (recent_ok _ _ _ Hr) as [Hd Hl]. destruct Hr as [Hh Heq]. split; [by apply NoDup_use|].
  rewrite (lru_get_keys _ _ _ Hd Hk), <-last_n_use by done. rewrite <-Heq. symmetry. apply last_n_all.
  rewrite use_length, length_fmap; [done|done|]. apply dict_get_elem in Hk. change k with (k, v).1.
  by apply list_elem_of_fmap_2.
Qed.

Lemma recent_set n h d k v : recent n h d → recent n (use k h) (lru_set n k v d).
Proof.
  intros Hr. pose proof (recent_ok _ _ _ Hr) as Hok. destruct Hr as [Hh Heq]. split; [by apply NoDup_use|].
  by rewrite lru_set_keys, Heq, last_n_use.
Qed.

Lemma NoDup_recency ks : NoDup (recency ks).
Proof.
  unfold recency. generalize (NoDup_nil_2 (A:=K)). generalize (@nil K) as h.
  induction ks as [|k ks IH]; cbn; [done|]. intros h Hh. by apply IH, NoDup_use.
Qed.
End cache.
