(* ===== verification/Models.v ===== *)
(** * Wire types (orchestrator/models.py and the dicts the components exchange)

    The pydantic schemas and the dicts that cross component boundaries, as
    records.  A dict key that may be absent, or whose value may be [None], is
    an [option], where the code treats both alike. *)

From S2P Require Import Prelude PyStr.
Local Open Scope string_scope.
Local Open Scope list_scope.
Local Open Scope nat_scope.

(** ** Chat messages *)

(** A block of a list-valued [content]: a plain string, or a dict with an
    optional ["text"]. *)
Inductive block :=
  | BStr (s : string)
  | BDict (text : option string).

Inductive content :=
  | CNone
  | CText (s : string)
  | CList (l : list block).

Record message := Message { m_role : string; m_content : content }.

Record chat_request := ChatRequest {
  cr_model : string;
  cr_messages : list message;
  cr_stream : bool;
  cr_temperature : option Z;
  cr_max_tokens : option Z;
  cr_top_p : option Z
}.

(** ** Model responses *)

(** The token counts of a model response: its "usage" object, and the flat
    Ollama fields. *)
Record usage_response := UsageResponse {
  ur_usage : option (list (string * Z));
  ur_prompt_eval_count : option Z;
  ur_eval_count : option Z
}.

(** A response is a dict, each choice with the content of its message ([None]
    when the message is no object; a null content is not represented), or the
    lines of a stream and the exception that cuts it short. *)
Inductive raw_response :=
  | RDict (choices : list (option string)) (usage : usage_response)
  | RStream (lines : list string) (failure : option exn).

(** ** Bus events *)

Inductive ws_event_type :=
  | TOKEN | WORK_COMPLETE | WORK_FAILED | PATCH_APPLIED
  | TEST_RESULT | INTERRUPT | STATUS | DEBATE_POINT.

#[export] Instance ws_event_type_eq_dec : EqDecision ws_event_type.
Proof. solve_decision. Defined.

(** The string values of the enum. *)
Definition ws_event_value (t : ws_event_type) : string :=
  match t with
  | TOKEN => "token"
  | WORK_COMPLETE => "work_complete"
  | WORK_FAILED => "work_failed"
  | PATCH_APPLIED => "patch_applied"
  | TEST_RESULT => "test_result"
  | INTERRUPT => "interrupt"
  | STATUS => "status"
  | DEBATE_POINT => "debate_point"
  end.

(** The payload entries the program reads back. *)
Record ws_payload := Payload {
  pl_lifecycle : option string;
  pl_patch_id : option string;
  pl_description : option string;
  pl_files : list string;
  pl_error : option string;
  pl_reason : option string;
  pl_result_preview : option string;
  pl_tokens_in : Z;
  pl_tokens_out : Z
}.
Definition empty_payload : ws_payload := Payload None None None [] None None None 0 0.

Record ws_event := WSEvent {
  ev_type : ws_event_type;
  ev_session_id : string;
  ev_agent_id : option string;
  ev_payload : ws_payload
}.

#[export] Instance ws_payload_eq_dec : EqDecision ws_payload.
Proof. solve_decision. Defined.
#[export] Instance ws_event_eq_dec : EqDecision ws_event.
Proof. solve_decision. Defined.

(** ** Tasks (task_queue.py, the task dict) *)

Inductive task_status := Pending | Running | Complete | Failed | Blocked.

#[export] Instance task_status_eq_dec : EqDecision task_status.
Proof. solve_decision. Defined.

(** The key "deps": absent, null, or a list. *)
Inductive deps_field := DepsAbsent | DepsNull | DepsList (l : list string).

#[export] Instance deps_field_eq_dec : EqDecision deps_field.
Proof. solve_decision. Defined.

(** [None]: the key "role" or "desc" is absent. *)
Record task := Task {
  t_id : string;
  t_role : option string;
  t_desc : option string;
  t_deps : deps_field;
  t_status : task_status;
  t_result : option string
}.

#[export] Instance task_eq_dec : EqDecision task.
Proof. solve_decision. Defined.

(** [t.get("deps", [])] for the loops over it: [None] raises, where it can occur
    ([_validate_dag]); a stored task has passed that. *)
Definition deps_of (t : task) : option (list string) :=
  match t_deps t with DepsAbsent => Some [] | DepsNull => None | DepsList l => Some l end.
Definition task_deps (t : task) : list string := default [] (deps_of t).

Definition with_status (s : task_status) (t : task) : task :=
  Task (t_id t) (t_role t) (t_desc t) (t_deps t) s (t_result t).
Definition with_result (r : string) (t : task) : task :=
  Task (t_id t) (t_role t) (t_desc t) (t_deps t) (t_status t) (Some r).

(** ** Patches (patch_queue.py, [Patch.to_dict()]) *)

Inductive patch_status := PPending | PProcessing | PApplied | PRejected | PConflict.

#[export] Instance patch_status_eq_dec : EqDecision patch_status.
Proof. solve_decision. Defined.

Record patch_dict := PatchDict {
  pd_patch_id : string;
  pd_agent_id : string;
  pd_task_id : string;
  pd_session_id : string;
  pd_description : string;
  pd_status : patch_status;
  pd_retries : nat;
  pd_error : option string;
  pd_files : list string;
  pd_diff_lines : nat;
  pd_created_at : Z
}.

(** The keys of the dict, in the order [to_dict] writes them. *)
Definition patch_dict_keys : list string :=
  ["patch_id"; "agent_id"; "task_id"; "session_id"; "description"; "status";
   "retries"; "error"; "files"; "diff_lines"; "created_at"].

(** ** Sessions (session_manager.py, [SessionState]) *)

Inductive session_status := Active | Paused | Ended.

#[export] Instance session_status_eq_dec : EqDecision session_status.
Proof. solve_decision. Defined.

Record session_state := SessionState {
  ss_session_id : string;
  ss_status : session_status;
  ss_created_at : Z;
  ss_updated_at : Z;
  ss_task : string;
  ss_models : gmap string string;
  ss_agent_ids : list string;
  ss_task_ids : list string;
  ss_metadata : gmap string string
}.

(** ** Results of an agent run ([AgentManager.spawn_and_run]) *)

Inductive agent_status := Idle | ARunning | Done | AFailed | Killed.

#[export] Instance agent_status_eq_dec : EqDecision agent_status.
Proof. solve_decision. Defined.

Record agent_result := AgentResult {
  ar_agent_id : string;
  ar_role : string;
  ar_model : option string;
  ar_result : option string;
  ar_status : agent_status;
  ar_error : option string
}.

(** An entry of the failures a session ends with. *)
Record failure_report := FailureReport {
  fl_task_id : option string;
  fl_description : option string;
  fl_error : option string;
  fl_approach : option string
}.
