(* ===== verification/Utils.v ===== *)
(** * Shared utilities (orchestrator/utils.py)

    Token estimates, line counts and file paths of a unified diff, and the
    extraction of diffs from the text of an agent. *)

From S2P Require Import Prelude PyStr Models.
Local Open Scope string_scope.
Local Open Scope list_scope.
Local Open Scope nat_scope.

(** ** Token counting *)

Definition count_tokens (text : string) : nat := Nat.max 1 (String.length text / 4).

(** [m.get("content") or ""], with the dict blocks of a list joined. *)
Definition content_text (c : content) : string :=
  match c with
  | CNone => ""
  | CText s => s
  | CList l => join " " (omap (λ b, match b with
                                    | BDict t => Some (default "" t)
                                    | BStr _ => None
                                    end) l)
  end.

Definition message_tokens (m : message) : nat := count_tokens (content_text (m_content m)) + 4.

Definition count_messages_tokens (messages : list message) : nat :=
  sum_list_with message_tokens messages.

(** ** Diff helpers *)

Definition is_changed_line (line : string) : bool :=
  (startswith "+" line || startswith "-" line)
  && negb (startswith "+++" line || startswith "---" line).

Definition count_diff_lines (diff : string) : nat :=
  count_if is_changed_line (splitlines diff).

Definition extract_file_paths_from_diff (diff : string) : list string :=
  (λ line, strip (sdrop 6 line)) <$> List.filter (startswith "+++ b/") (splitlines diff).

(** ** Diff extraction from agent output *)

Definition fence : string := "```".

(** The shortest prefix before the first occurrence of [sub]. *)
Fixpoint cut_at (sub s : string) : option (string * string) :=
  if startswith sub s then Some ("", sdrop (String.length sub) s)
  else match s with
       | "" => None
       | String c s' => '(a, b) ← cut_at sub s'; Some (String c a, b)
       end.

Fixpoint skip_blanks (s : string) : string :=
  match s with
  | String c s' =>
      if bool_decide (c = " "%char) || bool_decide (c = "009"%char)
      then skip_blanks s' else s
  | "" => ""
  end.

(** [s] without the prefix [p], if it starts with it. *)
Definition eat (p s : string) : option string :=
  if startswith p s then Some (sdrop (String.length p) s) else None.

(** [eat] ignoring the case of letters; [p] is in lower case. *)
Definition eat_nocase (p s : string) : option string :=
  if startswith p (lower s) then Some (sdrop (String.length p) s) else None.

Definition eat_tag (s : string) : option string :=
  match eat_nocase "diff" s with
  | Some r => Some r
  | None => match eat_nocase "patch" s with
            | Some r => Some r
            | None => eat_nocase "udiff" s
            end
  end.

(** [\\r?\\n]. *)
Definition eat_newline (s : string) : option string :=
  match eat crlf s with Some r => Some r | None => eat nl s end.

(** [_FENCED_DIFF_RE] at a position: the group and the text after the match. *)
Definition match_fenced (s : string) : option (string * string) :=
  s1 ← eat fence s;
  s2 ← eat_tag (skip_blanks s1);
  s3 ← eat_newline s2;
  cut_at fence s3.

(** The text up to the next LF, and the text from that LF on. *)
Fixpoint take_line (s : string) : string * string :=
  match s with
  | "" => ("", "")
  | String c s' =>
      if bool_decide (c = LF) then ("", s)
      else let '(a, b) := take_line s' in (String c a, b)
  end.

Definition starts_nonspace (s : string) : bool :=
  match s with String c _ => negb (is_space c) | "" => false end.

(** [mark[ \\t]+\\S[^\\n]*] at a position. *)
Definition match_header (mark s : string) : option (string * string) :=
  s1 ← eat mark s;
  if negb (startswith " " s1 || startswith (String "009"%char "") s1) then None
  else if negb (starts_nonspace (skip_blanks s1)) then None
  else Some (take_line s).

(** [(?:\\n(?!```).* )*]: whole lines until one that opens with a fence. *)
Fixpoint take_body (fuel : nat) (s : string) : string * string :=
  match fuel with
  | 0 => ("", s)
  | S f =>
      match eat nl s with
      | None => ("", s)
      | Some s1 =>
          if startswith fence s1 then ("", s)
          else let '(l, r) := take_line s1 in
               let '(b, r') := take_body f r in (nl +:+ l +:+ b, r')
      end
  end.

(** [_BARE_DIFF_RE] at a position. *)
Definition match_bare (s : string) : option (string * string) :=
  '(h1, r1) ← match_header "---" s;
  s2 ← eat nl r1;
  '(h2, r2) ← match_header "+++" s2;
  let '(b, r3) := take_body (String.length r2) r2 in
  Some (h1 +:+ nl +:+ h2 +:+ b, r3).

(** [re.finditer]: the groups of the non-overlapping matches, left to right.
    Every step consumes a character, so [String.length s] steps suffice. *)
Fixpoint finditer (m : string → option (string * string)) (fuel : nat) (s : string)
    : list string :=
  match fuel with
  | 0 => []
  | S f =>
      match m s with
      | Some (g, r) => g :: finditer m f r
      | None => match s with "" => [] | String _ s' => finditer m f s' end
      end
  end.

(** The loop over the matches: a stripped group with a hunk marker that was
    not seen before is appended. *)
Definition collect_diff (results : list string) (g : string) : list string :=
  let diff := strip g in
  if contains "@@" diff && bool_decide (diff ∉ results)
  then results ++ [diff] else results.

Definition collect_diffs (groups : list string) : list string :=
  foldl collect_diff [] groups.

Definition extract_diffs_from_result (text : string) : list string :=
  let fuel := S (String.length text) in
  match collect_diffs (finditer match_fenced fuel text) with
  | [] => collect_diffs (finditer match_bare fuel text)
  | results => results
  end.

(** ** Lemmas *)

Lemma count_tokens_pos (s : string) : 1 ≤ count_tokens s.
Proof. unfold count_tokens. lia. Qed.

Lemma message_tokens_pos (m : message) : 5 ≤ message_tokens m.
Proof. unfold message_tokens. pose proof (count_tokens_pos (content_text (m_content m))). lia. Qed.

Lemma count_messages_tokens_app (l1 l2 : list message) :
  count_messages_tokens (l1 ++ l2) = count_messages_tokens l1 + count_messages_tokens l2.
Proof. apply sum_list_with_app. Qed.

(** What [results] and [seen] maintain together. *)
Definition diffs_ok (l : list string) : Prop :=
  NoDup l ∧ Forall (λ d, contains "@@" d = true ∧ strip d = d) l.

Lemma collect_diff_ok (results : list string) (g : string) :
  diffs_ok results → diffs_ok (collect_diff results g).
Proof.
  intros [Hnd Hall]. unfold collect_diff. destruct (contains _ _ && _) eqn:E; [|done].
  breflect. split.
  - apply NoDup_app. split_and!; [done|set_solver|apply NoDup_singleton].
  - rewrite Forall_app, Forall_singleton. split_and!; [done..|apply strip_idem].
Qed.

Lemma collect_diffs_ok (groups acc : list string) :
  diffs_ok acc → diffs_ok (foldl collect_diff acc groups).
Proof. revert acc. induction groups as [|g l IH]; simpl; auto using collect_diff_ok. Qed.

Example extract_fenced_ex :
  extract_diffs_from_result
    ("text ```diff" +:+ nl +:+ "@@ -1 +1 @@" +:+ nl +:+ "-a" +:+ nl +:+ "```" +:+ " tail ``` x")
  = ["@@ -1 +1 @@" +:+ nl +:+ "-a"].
Proof. vm_compute. reflexivity. Qed.

Example extract_bare_ex :
  extract_diffs_from_result
    ("see:" +:+ nl +:+ "--- a/x" +:+ nl +:+ "+++ b/x" +:+ nl +:+ "@@ -1 +1 @@" +:+ nl +:+ "-a")
  = ["--- a/x" +:+ nl +:+ "+++ b/x" +:+ nl +:+ "@@ -1 +1 @@" +:+ nl +:+ "-a"].
Proof. vm_compute. reflexivity. Qed.

Example extract_paths_ex :
  extract_file_paths_from_diff ("--- a/x" +:+ nl +:+ "+++ b/src/x.py " +:+ nl +:+ "+y") = ["src/x.py"].
Proof. vm_compute. reflexivity. Qed.

(** ** Properties *)

Lemma extract_diffs_ok (text : string) : diffs_ok (extract_diffs_from_result text).
Proof.
  unfold extract_diffs_from_result, collect_diffs.
  assert (diffs_ok []) as H0 by (split; constructor).
  pose proof (collect_diffs_ok (finditer match_fenced (S (String.length text)) text) [] H0).
  destruct (foldl collect_diff [] _); [|done]. by apply collect_diffs_ok.
Qed.
