(* ===== verification/Redis.v ===== *)
(** * The Redis interface

    Redis is a service the program calls: its commands are the operations of a
    class, and what the code relies on is the documented behaviour of each
    command, stated as equations on the observations [r_key] (type and content
    of a key) and [r_ttl] (its time to live).  The text of a JSON value is
    represented by the value itself, so reading a key of another shape is a
    failed parse.  [StoreRedis] is an implementation of the interface by a
    finite map, used to evaluate the model on concrete inputs. *)

From S2P Require Import Prelude PyStr Models.
Local Open Scope string_scope.
Local Open Scope list_scope.
Local Open Scope nat_scope.

Inductive rvalue :=
  | VStr (s : string)
  | VTask (t : task)
  | VPatch (p : patch_dict)
  | VSession (s : session_state).

Inductive rdata :=
  | DString (v : rvalue)
  | DList (l : list string)
  | DHash (h : gmap string string).

Class Redis (R : Type) := {
  r_key : R → string → option rdata;
  r_ttl : R → string → option Z;
  r_keys : string → R → list string;            (* KEYS prefix* *)
  r_set : string → rvalue → option Z → R → R;   (* SET k v [EX n] *)
  r_setnx : string → rvalue → Z → R → R * bool; (* SET k v NX EX n *)
  r_del : string → R → R;
  r_rpush : string → string → R → R;
  r_hset : string → gmap string string → R → R; (* HSET k mapping *)
  r_hdel : string → string → R → R;
  r_expire : string → Z → R → R;
  r_elapse : Z → R → R                          (* that many seconds pass *)
}.

(** The list, or hash, a command finds at a key; [None] when the key holds
    another type (Redis answers WRONGTYPE). *)
Definition as_list (o : option rdata) : option (list string) :=
  match o with None => Some [] | Some (DList l) => Some l | _ => None end.
Definition as_hash (o : option rdata) : option (gmap string string) :=
  match o with None => Some ∅ | Some (DHash h) => Some h | _ => None end.

Class RedisLaws (R : Type) `{Redis R} : Prop := {
  key_set k v ex r k' :
    r_key (r_set k v ex r) k' = if decide (k' = k) then Some (DString v) else r_key r k';
  ttl_set k v ex r k' :
    r_ttl (r_set k v ex r) k' = if decide (k' = k) then ex else r_ttl r k';
  setnx_result k v n r :
    (r_setnx k v n r).2 = bool_decide (r_key r k = None);
  key_setnx k v n r k' :
    r_key (r_setnx k v n r).1 k' =
      if decide (k' = k ∧ r_key r k = None) then Some (DString v) else r_key r k';
  ttl_setnx k v n r k' :
    r_ttl (r_setnx k v n r).1 k' =
      if decide (k' = k ∧ r_key r k = None) then Some n else r_ttl r k';
  key_del k r k' :
    r_key (r_del k r) k' = if decide (k' = k) then None else r_key r k';
  ttl_del k r k' :
    r_ttl (r_del k r) k' = if decide (k' = k) then None else r_ttl r k';
  key_rpush k x l r k' :
    as_list (r_key r k) = Some l →
    r_key (r_rpush k x r) k' = if decide (k' = k) then Some (DList (l ++ [x])) else r_key r k';
  key_hset k m h r k' :
    as_hash (r_key r k) = Some h →
    r_key (r_hset k m r) k' = if decide (k' = k) then Some (DHash (m ∪ h)) else r_key r k';
  ttl_hset k m h r k' :
    as_hash (r_key r k) = Some h → r_ttl (r_hset k m r) k' = r_ttl r k';
  key_hdel k f h r k' :
    r_key r k = Some (DHash h) →
    as_hash (r_key (r_hdel k f r) k') =
      if decide (k' = k) then Some (delete f h) else as_hash (r_key r k');
  key_expire k n r k' :
    (0 < n)%Z → r_key (r_expire k n r) k' = r_key r k';
  ttl_expire k n r k' :
    (0 < n)%Z →
    r_ttl (r_expire k n r) k' =
      if decide (k' = k ∧ r_key r k ≠ None) then Some n else r_ttl r k';
  key_elapse n r k :
    (0 ≤ n)%Z →
    r_key (r_elapse n r) k =
      match r_ttl r k with
      | Some d => if decide (d ≤ n)%Z then None else r_key r k
      | None => r_key r k
      end;
  ttl_elapse n r k :
    (0 ≤ n)%Z →
    r_ttl (r_elapse n r) k =
      match r_ttl r k with
      | Some d => if decide (d ≤ n)%Z then None else Some (d - n)%Z
      | None => None
      end;
  ttl_absent r k : r_key r k = None → r_ttl r k = None;
  elem_of_keys p r k :
    k ∈ r_keys p r ↔ startswith p k = true ∧ r_key r k ≠ None;
  NoDup_keys p r : NoDup (r_keys p r)
}.

(** ** Derived commands *)

Section commands.
Context {R : Type} `{Redis R}.

Definition r_get (r : R) (k : string) : option rvalue :=
  match r_key r k with Some (DString v) => Some v | _ => None end.
Definition r_lrange (r : R) (k : string) : list string :=
  match r_key r k with Some (DList l) => l | _ => [] end.
Definition r_hgetall (r : R) (k : string) : gmap string string :=
  match r_key r k with Some (DHash h) => h | _ => ∅ end.
Definition r_hget (r : R) (k f : string) : option string := r_hgetall r k !! f.
End commands.

Section command_lemmas.
Context {R : Type} `{RedisLaws R}.
Implicit Types r : R.

Lemma key_set_eq k v ex r : r_key (r_set k v ex r) k = Some (DString v).
Proof. rewrite key_set. by case_decide. Qed.
Lemma key_set_ne k v ex r k' : k' ≠ k → r_key (r_set k v ex r) k' = r_key r k'.
Proof. intros. rewrite key_set. by case_decide. Qed.
Lemma key_del_ne k r k' : k' ≠ k → r_key (r_del k r) k' = r_key r k'.
Proof. intros. rewrite key_del. by case_decide. Qed.
Lemma key_setnx_ne k v n r k' : k' ≠ k → r_key (r_setnx k v n r).1 k' = r_key r k'.
Proof. intros. rewrite key_setnx. by case_decide as Hd; [destruct Hd|]. Qed.

(** SET NX twice: the second call fails, whatever it would have written. *)
Lemma setnx_excludes k v v' n n' r :
  (r_setnx k v' n' (r_setnx k v n r).1).2 = false.
Proof.
  rewrite setnx_result, key_setnx. apply bool_decide_eq_false_2.
  case_decide as Hd; [done|]. naive_solver.
Qed.
End command_lemmas.

(** ** An implementation by a finite map *)

Abbreviation store := (gmap string (rdata * option Z)).

Definition store_put (k : string) (d : rdata) (s : store) : store :=
  <[k := (d, s !! k ≫= snd)]> s.

#[export] Instance StoreRedis : Redis store := {
  r_key s k := fst <$> s !! k;
  r_ttl s k := s !! k ≫= snd;
  r_keys p s := List.filter (startswith p) (map_to_list s).*1;
  r_set k v ex s := <[k := (DString v, ex)]> s;
  r_setnx k v n s :=
    match s !! k with
    | None => (<[k := (DString v, Some n)]> s, true)
    | Some _ => (s, false)
    end;
  r_del k s := delete k s;
  r_rpush k x s :=
    match as_list (fst <$> s !! k) with
    | Some l => store_put k (DList (l ++ [x])) s
    | None => s
    end;
  r_hset k m s :=
    match as_hash (fst <$> s !! k) with
    | Some h => store_put k (DHash (m ∪ h)) s
    | None => s
    end;
  r_hdel k f s :=
    match fst <$> s !! k with
    | Some (DHash h) => store_put k (DHash (delete f h)) s
    | _ => s
    end;
  r_expire k n s := alter (λ e, (fst e, Some n)) k s;
  r_elapse n s :=
    omap (λ e, match snd e with
               | Some d => if decide (d ≤ n)%Z then None else Some (fst e, Some (d - n)%Z)
               | None => Some e
               end) s
}.

Lemma store_keys_elem (p : string) (s : store) (k : string) :
  k ∈ List.filter (startswith p) (map_to_list s).*1 ↔
  startswith p k = true ∧ fst <$> s !! k ≠ None.
Proof.
  rewrite filter_In_elem, list_elem_of_fmap. split.
  - intros [([k' e] & -> & Hin%elem_of_map_to_list) Hp]. simpl. split; [done|].
    by rewrite Hin.
  - intros [Hp Hne]. split; [|done]. destruct (s !! k) as [e|] eqn:E; [|done].
    exists (k, e). split; [done|]. by apply elem_of_map_to_list.
Qed.

(** Computes the lookups of one command and closes the goal by cases. *)
Ltac store_tac :=
  intros; cbn [r_key r_ttl r_keys r_set r_setnx r_del r_rpush r_hset r_hdel
               r_expire r_elapse StoreRedis fst snd] in *;
  repeat match goal with
  | H : as_list _ = Some _ |- _ => progress rewrite H in *
  | H : as_hash _ = Some _ |- _ => progress rewrite H in *
  | H : _ <$> ?s !! ?k = Some (DHash _) |- _ => progress rewrite H in *
  end; unfold store_put; rewrite ?lookup_insert, ?lookup_delete, ?lookup_alter, ?lookup_omap;
  repeat case_decide; simplify_eq/=; try done;
  repeat match goal with
  | |- context [?s !! ?k] => destruct (s !! k) as [[? []]|] eqn:?; simplify_eq/=
  end; repeat case_decide; simplify_eq/=; try done; try naive_solver.

#[export] Instance StoreRedisLaws : RedisLaws store.
Proof.
  split; try (store_tac; fail).
  - intros; simpl. destruct (r !! k) as [[]|] eqn:E; store_tac.
  - intros; simpl. destruct (r !! k) as [[]|] eqn:E; store_tac.
  - intros. apply store_keys_elem.
  - intros. apply NoDup_ListNoDup, List.NoDup_filter, NoDup_ListNoDup, NoDup_fst_map_to_list.
Qed.
