(* ===== verification/Interfaces.v ===== *)
(** * Interfaces between the components

    What a component calls of another one, as classes: the agent manager and
    the patch queue seen from the task queue, the event bus seen from its
    publishers.  The laws are what the caller relies on; AgentManager.v and
    PatchQueue.v give the instances. *)

From S2P Require Import Prelude PyStr Models Redis.
Local Open Scope string_scope.
Local Open Scope list_scope.
Local Open Scope nat_scope.

(** What the queue calls: [AgentManager.spawn_and_run] and
    [PatchQueue.enqueue], on the Redis store and the rest [A] of the process. *)
Class AgentRunner (R A : Type) := {
  spawn_and_run : string → string → string → M (R * A) agent_result
}.

Class PatchSink (R A : Type) := {
  pq_wired : bool;   (* [set_patch_queue] was called *)
  pq_enqueue : string → string → string → string → string → M (R * A) patch_dict
}.

Definition is_task_key (k : string) : bool := startswith "task" k.

#[global] Arguments is_task_key : simpl never.

Class AgentRunnerLaws (R A : Type) `{Redis R} `{AgentRunner R A} : Prop := {
  spawn_frame role desc sid w k :
    is_task_key k = true →
    r_key (spawn_and_run role desc sid w).1.1 k = r_key w.1 k
}.

Class PatchSinkLaws (R A : Type) `{Redis R} `{PatchSink R A} : Prop := {
  enqueue_frame diff aid tid sid desc w k :
    is_task_key k = true →
    r_key (pq_enqueue diff aid tid sid desc w).1.1 k = r_key w.1 k
}.

(** [AgentBus.publish], which logs its failures and never raises. *)
Class EventBus (E : Type) := {
  bus_publish : string → ws_event → E → E
}.
