(* ===== verification/Dag.v ===== *)
(** * Validation of a task DAG (orchestrator/task_queue.py, [_validate_dag])

    The dependency check and Kahn's algorithm as the code runs them, on dicts
    of in-degrees and adjacency lists and a stack of ready nodes, with the
    proof that the function accepts a list exactly when its ids are distinct,
    its dependencies are lists of ids that exist and the dependency relation has
    no cycle. *)

From S2P Require Import Prelude PyStr Models.
From stdpp Require Import relations.
Local Open Scope string_scope.
Local Open Scope list_scope.
Local Open Scope nat_scope.

(** ** The code *)

Definition task_ids (ts : list task) : list string := t_id <$> ts.

(** The pairs (dep, task) in the order the nested loops visit them. *)
Definition edges (ts : list task) : list (string * string) :=
  mjoin ((λ t, (λ d, (d, t_id t)) <$> task_deps t) <$> ts).

(** [f"Task {t['id']!r} depends on {dep!r} which doesn't exist"]. *)
Definition missing_dep_msg (dep tid : string) : string :=
  "Task " +:+ repr tid +:+ " depends on " +:+ repr dep +:+ " which doesn't exist".

Definition cycle_msg : string := "Task DAG contains a cycle".

Fixpoint check_deps (ids : list string) (es : list (string * string)) : res unit :=
  match es with
  | [] => Ok tt
  | (dep, tid) :: es' =>
      if bool_decide (dep ∈ ids) then check_deps ids es'
      else Raise (ValueError (missing_dep_msg dep tid))
  end.

(** The first loop: a null "deps" cannot be iterated. *)
Definition null_deps : exn := TypeError "'NoneType' object is not iterable".
Fixpoint check_tasks (ids : list string) (ts : list task) : res unit :=
  match ts with
  | [] => Ok tt
  | t :: ts' =>
      match deps_of t with
      | None => Raise null_deps
      | Some ds =>
          match check_deps ids ((λ d, (d, t_id t)) <$> ds) with
          | Ok _ => check_tasks ids ts'
          | Raise e => Raise e
          end
      end
  end.

(** [in_degree = {t["id"]: 0 for t in tasks}], then [+= 1] per edge. *)
Definition init_in_degree (ts : list task) : gmap string Z :=
  foldl (λ m e, <[e.2 := (default 0 (m !! e.2) + 1)%Z]> m)
    (list_to_map ((λ k, (k, 0%Z)) <$> task_ids ts)) (edges ts).

(** [adj = {t["id"]: [] for t in tasks}], then [append] per edge. *)
Definition init_adj (ts : list task) : gmap string (list string) :=
  foldl (λ m e, <[e.1 := default [] (m !! e.1) ++ [e.2]]> m)
    (list_to_map ((λ k, (k, [])) <$> task_ids ts)) (edges ts).

(** The work list holds the end of Python's list first: [pop()] takes the head
    and [append] conses. *)
Record kahn_state := KState {
  k_deg : gmap string Z;
  k_queue : list string;
  k_visited : nat
}.

(** [in_degree[v]]; every [v] looked up is a key. *)
Definition deg (m : gmap string Z) (v : string) : Z := default 0%Z (m !! v).

(** [for nb in adj[node]: ...]. *)
Fixpoint relax (nbs : list string) (m : gmap string Z) (queue : list string)
    : gmap string Z * list string :=
  match nbs with
  | [] => (m, queue)
  | nb :: nbs' =>
      let m' := <[nb := (deg m nb - 1)%Z]> m in
      relax nbs' m' (if bool_decide (deg m' nb = 0%Z) then nb :: queue else queue)
  end.

(** [while queue: ...]. *)
Fixpoint kahn (adj : gmap string (list string)) (fuel : nat) (st : kahn_state)
    : option nat :=
  match k_queue st with
  | [] => Some (k_visited st)
  | node :: queue =>
      match fuel with
      | 0 => None
      | S f =>
          let '(m, q) := relax (default [] (adj !! node)) (k_deg st) queue in
          kahn adj f (KState m q (S (k_visited st)))
      end
  end.

Definition kahn_init (ts : list task) : kahn_state :=
  let m := init_in_degree ts in
  KState m
    (reverse (List.filter (λ v, bool_decide (deg m v = 0%Z)) (dict_keys (task_ids ts)))) 0.

Definition _validate_dag (ts : list task) : res unit :=
  match check_tasks (task_ids ts) ts with
  | Raise e => Raise e
  | Ok _ =>
      match kahn (init_adj ts) (length ts) (kahn_init ts) with
      | Some visited =>
          if visited =? length ts then Ok tt else Raise (ValueError cycle_msg)
      | None => Raise Diverges
      end
  end.

(** ** Specification *)

(** [dep_edge ts u v]: task [v] waits for task [u]. *)
Definition dep_edge (ts : list task) : relation string := λ u v, (u, v) ∈ edges ts.

Definition deps_exist (ts : list task) : Prop :=
  ∀ t d, t ∈ ts → d ∈ task_deps t → d ∈ task_ids ts.

Definition acyclic (ts : list task) : Prop := ∀ v, ¬ tc (dep_edge ts) v v.

Definition deps_listed (ts : list task) : Prop := ∀ t, t ∈ ts → is_Some (deps_of t).

Definition valid_dag (ts : list task) : Prop :=
  NoDup (task_ids ts) ∧ deps_exist ts ∧ acyclic ts ∧ deps_listed ts.

(** ** Edges and the initial dicts *)

Lemma elem_of_edges ts u v :
  (u, v) ∈ edges ts ↔ ∃ t, t ∈ ts ∧ t_id t = v ∧ u ∈ task_deps t.
Proof.
  unfold edges. rewrite list_elem_of_join. setoid_rewrite list_elem_of_fmap. split.
  - intros (l & Hin & t & -> & Ht). apply list_elem_of_fmap in Hin as (d & [= -> ->] & ?). eauto.
  - intros (t & Ht & <- & Hu). eexists. split; [|by exists t].
    apply list_elem_of_fmap. eauto.
Qed.

Lemma edge_target ts u v : (u, v) ∈ edges ts → v ∈ task_ids ts.
Proof.
  rewrite elem_of_edges. intros (t & Ht & <- & _). apply list_elem_of_fmap. eauto.
Qed.

Lemma check_deps_ok ids es :
  check_deps ids es = Ok tt ↔ ∀ u v, (u, v) ∈ es → u ∈ ids.
Proof.
  induction es as [|[d t] es IH]; simpl; [set_solver|].
  case_bool_decide; [rewrite IH; set_solver|].
  split; [done|]. intros Hall. exfalso. set_solver.
Qed.

Lemma check_tasks_ok ids ts :
  check_tasks ids ts = Ok tt ↔ deps_listed ts ∧ ∀ u v, (u, v) ∈ edges ts → u ∈ ids.
Proof.
  unfold deps_listed. induction ts as [|t ts IH]; cbn [check_tasks].
  - split; [|done]. intros _. split; [by intros ? ?%elem_of_nil|]. by intros ?? ?%elem_of_nil.
  - assert (∀ ds, deps_of t = Some ds → edges (t :: ts) = ((λ d, (d, t_id t)) <$> ds) ++ edges ts) as He.
    { intros ds Hd. unfold edges. cbn. unfold task_deps. by rewrite Hd. }
    destruct (deps_of t) as [ds|] eqn:Ed.
    + rewrite (He ds eq_refl). destruct (check_deps ids _) as [[]|e] eqn:Ec.
      * rewrite check_deps_ok in Ec. rewrite IH. split.
        -- intros [Hl Hu]. split; [intros t' [->|?]%elem_of_cons; [by rewrite Ed|auto]|]. set_solver.
        -- intros [Hl Hu]. split; [intros; apply Hl; by right|]. set_solver.
      * split; [done|]. intros [_ Hu]. assert (check_deps ids ((λ d, (d, t_id t)) <$> ds) = Ok tt) as Hc; [|congruence].
        apply check_deps_ok. set_solver.
    + split; [done|]. intros [Hl _]. destruct (Hl t ltac:(by left)) as [? ?]. congruence.
Qed.

(** What the first loop raises. *)
Lemma check_tasks_raise ids ts e : check_tasks ids ts = Raise e →
  (e = null_deps ∧ ∃ t, t ∈ ts ∧ deps_of t = None) ∨
  ∃ dep tid, e = ValueError (missing_dep_msg dep tid) ∧ dep ∉ ids ∧ (dep, tid) ∈ edges ts.
Proof.
  induction ts as [|t ts IH]; cbn [check_tasks]; [done|]. destruct (deps_of t) as [ds|] eqn:Ed.
  - assert (edges (t :: ts) = ((λ d, (d, t_id t)) <$> ds) ++ edges ts) as ->.
    { unfold edges. cbn. unfold task_deps. by rewrite Ed. }
    destruct (check_deps ids _) as [[]|e'] eqn:Ec.
    + intros [[-> (t' & ? & ?)]|(dep & tid & -> & ? & ?)]%IH; [left; split; [done|]; exists t'; by split; [right|]|right].
      exists dep, tid. set_solver.
    + intros [= <-]. right. clear Ed IH. revert Ec. induction ds as [|d ds IHd]; cbn; [done|]. case_bool_decide.
      * intros (dep & tid & -> & ? & ?)%IHd. exists dep, tid. set_solver.
      * intros [= <-]. exists d, (t_id t). set_solver.
  - intros [= <-]. left. split; [done|]. exists t. by split; [left|].
Qed.

Lemma deps_exist_edges ts :
  deps_exist ts ↔ ∀ u v, (u, v) ∈ edges ts → u ∈ task_ids ts.
Proof.
  unfold deps_exist. setoid_rewrite elem_of_edges. naive_solver.
Qed.

Lemma foldl_deg (es : list (string * string)) (m : gmap string Z) v :
  deg (foldl (λ m e, <[e.2 := (default 0 (m !! e.2) + 1)%Z]> m) m es) v
  = (deg m v + Z.of_nat (occ v es.*2))%Z.
Proof.
  revert m. induction es as [|[u w] es IH]; intros m; simpl; [rewrite occ_nil; lia|].
  rewrite IH, occ_cons. unfold deg. rewrite lookup_insert.
  repeat case_decide; simplify_eq/=; lia.
Qed.

Lemma deg_zero_map (l : list string) v :
  deg (list_to_map ((λ k, (k, 0%Z)) <$> l)) v = 0%Z.
Proof.
  unfold deg. induction l as [|x l IH]; simpl; [by rewrite lookup_empty|].
  rewrite lookup_insert. by case_decide.
Qed.

Lemma deg_init ts v : deg (init_in_degree ts) v = Z.of_nat (occ v (edges ts).*2).
Proof. unfold init_in_degree. rewrite foldl_deg, deg_zero_map. lia. Qed.

(** The adjacency list of [u]: the targets of its edges, in order. *)
Definition targets (es : list (string * string)) (u : string) : list string :=
  (List.filter (λ e, bool_decide (e.1 = u)) es).*2.

Lemma targets_app es1 es2 u : targets (es1 ++ es2) u = targets es1 u ++ targets es2 u.
Proof. unfold targets. by rewrite List.filter_app, fmap_app. Qed.

Lemma foldl_adj (es : list (string * string)) (m : gmap string (list string)) u :
  default [] (foldl (λ m e, <[e.1 := default [] (m !! e.1) ++ [e.2]]> m) m es !! u)
  = default [] (m !! u) ++ targets es u.
Proof.
  revert m. induction es as [|[x w] es IH]; intros m; simpl; [by rewrite app_nil_r|].
  rewrite IH. unfold targets. simpl. rewrite lookup_insert.
  repeat (case_decide || case_bool_decide); simplify_eq/=; [|done].
  by rewrite <-app_assoc.
Qed.

Lemma adj_init ts u : default [] (init_adj ts !! u) = targets (edges ts) u.
Proof.
  unfold init_adj. rewrite foldl_adj.
  assert (default [] ((list_to_map ((λ k, (k, [])) <$> task_ids ts)
    : gmap string (list string)) !! u) = []) as ->; [|done].
  induction (task_ids ts) as [|x l IH]; simpl; [by rewrite lookup_empty|].
  rewrite lookup_insert. by case_decide.
Qed.

(** ** The inner loop *)

Lemma relax_spec nbs m q m' q' :
  relax nbs m q = (m', q') →
  (∀ v, v ∈ nbs → (Z.of_nat (occ v nbs) ≤ deg m v)%Z) →
  (∀ v, deg m' v = (deg m v - Z.of_nat (occ v nbs))%Z) ∧
  ∃ new, q' = new ++ q ∧ NoDup new ∧
    ∀ v, v ∈ new ↔ v ∈ nbs ∧ deg m v = Z.of_nat (occ v nbs).
Proof.
  revert m q. induction nbs as [|nb nbs IH]; intros m q; simpl.
  - intros [= <- <-] _. split; [intros; rewrite occ_nil; lia|].
    exists []. split_and!; [done|constructor|set_solver].
  - set (m1 := <[nb := (deg m nb - 1)%Z]> m). intros Hr Hge.
    assert (Hm1 : ∀ v, deg m1 v = (deg m v - if decide (nb = v) then 1 else 0)%Z).
    { intros v. unfold m1, deg. rewrite lookup_insert.
      destruct (decide (nb = v)); simplify_eq/=; lia. }
    assert (Hge1 : ∀ v, v ∈ nbs → (Z.of_nat (occ v nbs) ≤ deg m1 v)%Z).
    { intros v Hv. specialize (Hge v ltac:(set_solver)). rewrite occ_cons in Hge.
      rewrite Hm1. destruct (decide (nb = v)); lia. }
    destruct (IH _ _ Hr Hge1) as (Hdeg & new & -> & Hnd & Hnew). split.
    { intros v. rewrite Hdeg, Hm1, occ_cons. destruct (decide (nb = v)); lia. }
    pose proof (Hge nb ltac:(set_solver)) as Hnb. rewrite occ_cons, decide_True in Hnb by done.
    case_bool_decide as H0.
    + rewrite Hm1, decide_True in H0 by done.
      assert (Hn : nb ∉ nbs). { apply occ_zero. lia. }
      exists (new ++ [nb]). rewrite <-app_assoc. split_and!; [done| |].
      * apply NoDup_app. split_and!; [done| |apply NoDup_singleton].
        intros x Hx ->%list_elem_of_singleton. apply Hnew in Hx. naive_solver.
      * intros v. rewrite elem_of_app, list_elem_of_singleton, Hnew, elem_of_cons, Hm1, occ_cons.
        destruct (decide (nb = v)); [|naive_solver lia]. subst v. apply occ_zero in Hn. naive_solver lia.
    + rewrite Hm1, decide_True in H0 by done.
      exists new. split_and!; [done..|]. intros v.
      rewrite Hnew, elem_of_cons, Hm1, occ_cons.
      destruct (decide (nb = v)); [|naive_solver lia]. subst v. split; [naive_solver lia|].
      intros [_ He]. split; [|lia]. apply occ_pos. lia.
Qed.

(** ** The outer loop *)

(** The edges into [v] whose source was not popped. *)
Definition pending_in (es : list (string * string)) (P : list string) (v : string) : nat :=
  count_if (λ e, bool_decide (e.2 = v) && bool_decide (e.1 ∉ P)) es.

(** The popped nodes, latest first: the sources of the edges into a node were
    popped before it. *)
Fixpoint topo (es : list (string * string)) (P : list string) : Prop :=
  match P with
  | [] => True
  | v :: P' => (∀ u, (u, v) ∈ es → u ∈ P') ∧ topo es P'
  end.

Record kahn_inv (ts : list task) (P : list string) (st : kahn_state) : Prop := {
  ki_nodup : NoDup (P ++ k_queue st);
  ki_ready v : v ∈ P ++ k_queue st ↔ v ∈ task_ids ts ∧ deg (k_deg st) v = 0%Z;
  ki_deg v : deg (k_deg st) v = Z.of_nat (pending_in (edges ts) P v);
  ki_visited : k_visited st = length P;
  ki_topo : topo (edges ts) P
}.

Lemma pending_in_nil es v : pending_in es [] v = occ v es.*2.
Proof.
  unfold pending_in. induction es as [|[x w] es IH]; [done|].
  rewrite count_if_cons, IH. cbn [fmap list_fmap fst snd]. rewrite occ_cons.
  rewrite (bool_decide_eq_true_2 (x ∉ [])) by set_solver. rewrite andb_true_r.
  case_bool_decide; destruct (decide (w = v)); done.
Qed.

Lemma pending_in_zero es P v : pending_in es P v = 0 ↔ ∀ u, (u, v) ∈ es → u ∈ P.
Proof.
  unfold pending_in. rewrite count_if_zero. split.
  - intros H u Hu. specialize (H _ Hu). simpl in H.
    rewrite bool_decide_eq_true_2 in H by done. simpl in H. breflect.
    by destruct (decide (u ∈ P)).
  - intros H [u w] Hin. simpl. destruct (decide (w = v)) as [->|]; [|by rewrite bool_decide_eq_false_2].
    rewrite bool_decide_eq_true_2 by done. apply bool_decide_eq_false_2. auto.
Qed.

Lemma pending_in_cons es P u v :
  u ∉ P → pending_in es (u :: P) v + occ v (targets es u) = pending_in es P v.
Proof.
  intros Hu. unfold pending_in, targets. induction es as [|[x w] es IH]; [done|].
  cbn [List.filter]. rewrite !count_if_cons. cbn [fst snd].
  destruct (decide (x = u)) as [->|Hx].
  - rewrite (bool_decide_eq_true_2 (u = u)) by done. cbn [fmap list_fmap fst snd]. rewrite occ_cons.
    rewrite (bool_decide_eq_false_2 (u ∉ u :: P)) by set_solver.
    rewrite (bool_decide_eq_true_2 (u ∉ P)) by done.
    destruct (decide (w = v)); case_bool_decide; simplify_eq/=; lia.
  - rewrite (bool_decide_eq_false_2 (x = u)) by done.
    assert (bool_decide (x ∉ u :: P) = bool_decide (x ∉ P)) as ->; [|lia].
    apply bool_decide_ext. set_solver.
Qed.

Lemma kahn_inv_init ts : kahn_inv ts [] (kahn_init ts).
Proof.
  split; simpl; [| | |done|done].
  - rewrite reverse_Permutation. apply NoDup_ListNoDup, List.NoDup_filter, NoDup_ListNoDup.
    apply NoDup_dict_keys.
  - intros v. rewrite elem_of_reverse, filter_In_elem, elem_of_dict_keys.
    by rewrite bool_decide_eq_true.
  - intros v. by rewrite deg_init, pending_in_nil.
Qed.

Lemma kahn_inv_step ts P m node queue n m' q' :
  kahn_inv ts P (KState m (node :: queue) n) →
  relax (default [] (init_adj ts !! node)) m queue = (m', q') →
  kahn_inv ts (node :: P) (KState m' q' (S n)).
Proof.
  intros [Hnd Hready Hdeg Hvis Htopo] Hr. simpl in *.
  rewrite adj_init in Hr.
  assert (HnP : node ∉ P). { apply NoDup_app in Hnd. set_solver. }
  assert (Hnode : node ∈ task_ids ts ∧ deg m node = 0%Z). { apply Hready. set_solver. }
  pose proof (pending_in_cons (edges ts) P node) as Hcons.
  assert (Hsum : ∀ v, (deg m v = Z.of_nat (pending_in (edges ts) (node :: P) v)
                        + Z.of_nat (occ v (targets (edges ts) node)))%Z).
  { intros v. rewrite Hdeg. specialize (Hcons v HnP). lia. }
  destruct (relax_spec _ _ _ _ _ Hr) as (Hdeg' & new & -> & Hndn & Hnew).
  { intros v _. rewrite Hsum. lia. }
  assert (Hnew' : ∀ v, v ∈ new → 0 < occ v (targets (edges ts) node)).
  { intros v Hv%Hnew. apply occ_pos, Hv. }
  split; simpl.
  - change (NoDup ((node :: P) ++ new ++ queue)). rewrite Permutation_app_comm.
    apply NoDup_app in Hnd as (HP & Hdisj & [Hnq Hq]%NoDup_cons).
    cut (NoDup (new ++ (queue ++ node :: P))).
    { intros. by rewrite <-app_assoc. }
    apply NoDup_app. split_and!; [done| |].
    + intros v Hv Hin. assert (deg m v = 0%Z) as H0.
      { apply Hready. set_solver. }
      specialize (Hnew' v Hv). rewrite Hsum in H0. lia.
    + rewrite Permutation_app_comm. apply NoDup_cons. split; [set_solver|].
      apply NoDup_app. set_solver.
  - intros v. rewrite Hdeg', elem_of_cons, !elem_of_app.
    assert (v ∈ new ↔ v ∈ task_ids ts ∧ 0 < occ v (targets (edges ts) node)
                      ∧ deg m v = Z.of_nat (occ v (targets (edges ts) node))) as ->.
    { rewrite Hnew, occ_pos. split; [|naive_solver]. intros [Hv ?]. split_and!; [|done..].
      apply list_elem_of_fmap in Hv as ([u w] & -> & Hin%filter_In_elem).
      eapply edge_target. naive_solver. }
    specialize (Hready v). rewrite elem_of_app, elem_of_cons in Hready.
    pose proof (Hsum v). split; [|].
    + intros [Hv|[Hv|[Hv|Hv]]]; [..|naive_solver lia|];
        assert (v ∈ task_ids ts ∧ deg m v = 0%Z) by naive_solver; naive_solver lia.
    + intros [Hid H0]. destruct (occ v (targets (edges ts) node)) eqn:E; [|naive_solver lia].
      assert (v ∈ P ∨ v = node ∨ v ∈ queue) by (apply Hready; naive_solver lia). naive_solver.
  - intros v. rewrite Hdeg', Hsum. lia.
  - by rewrite Hvis.
  - split; [|done]. apply pending_in_zero. destruct Hnode as [_ Hn]. rewrite Hdeg in Hn. lia.
Qed.

Lemma kahn_popped_length ts P st :
  kahn_inv ts P st → length (P ++ k_queue st) ≤ length ts.
Proof.
  intros Hinv. transitivity (length (task_ids ts)); [|unfold task_ids; by rewrite length_fmap].
  apply submseteq_length, NoDup_submseteq; [apply Hinv|].
  intros v Hv. by apply Hinv in Hv as [? _].
Qed.

(** Enough fuel for the nodes not yet popped is enough for the loop to end. *)
Lemma kahn_terminates ts P st fuel :
  kahn_inv ts P st → length ts ≤ fuel + length P →
  ∃ P' st', kahn_inv ts P' st' ∧ k_queue st' = [] ∧
    kahn (init_adj ts) fuel st = Some (k_visited st').
Proof.
  revert P st. induction fuel as [|fuel IH]; intros P [m [|node queue] n] Hinv Hle; simpl in *.
  1, 3: by exists P, (KState m [] n).
  - pose proof (kahn_popped_length _ _ _ Hinv) as Hlen. rewrite length_app in Hlen.
    simpl in Hlen. lia.
  - destruct (relax _ m queue) as [m' q'] eqn:Hr.
    eapply (IH (node :: P)); [by eapply kahn_inv_step|simpl; lia].
Qed.

(** ** Acyclicity *)

Lemma topo_closed es P u v : topo es P → (u, v) ∈ es → v ∈ P → u ∈ P.
Proof.
  induction P as [|w P IH]; simpl; [set_solver|].
  intros [Hw Ht] He [->|Hv]%elem_of_cons; [set_solver|]. apply elem_of_cons. auto.
Qed.

Lemma topo_closed_rtc es P u v :
  topo es P → rtc (λ a b, (a, b) ∈ es) u v → v ∈ P → u ∈ P.
Proof.
  intros Ht. induction 1 as [|a b c Hab Hbc IH]; [done|]. eauto using topo_closed.
Qed.

Lemma tc_last {A} (R : relation A) x y : tc R x y → ∃ z, rtc R x z ∧ R z y.
Proof.
  induction 1 as [a b Hab|a b c Hab Hbc (z & ? & ?)]; [by exists a|].
  exists z. split; [by eapply rtc_l|done].
Qed.

Lemma tc_flip {A} (R : relation A) x y : tc (flip R) x y → tc R y x.
Proof.
  induction 1 as [a b Hab|a b c Hab Hbc IH]; [by apply tc_once|]. by eapply tc_r.
Qed.

(** No cycle goes through a topologically ordered list. *)
Lemma topo_acyclic es P v :
  topo es P → NoDup P → v ∈ P → ¬ tc (λ a b, (a, b) ∈ es) v v.
Proof.
  induction P as [|w P IH]; simpl; [set_solver|].
  intros [Hw Ht] [HwP Hnd]%NoDup_cons [->|Hv]%elem_of_cons Hcyc; [|by apply IH].
  apply tc_last in Hcyc as (z & Hz & He). apply HwP.
  eapply topo_closed_rtc; [done|done|]. auto.
Qed.

(** An acyclic relation on the ids has no infinite descent. *)
Lemma acyclic_sn ts v : deps_exist ts → acyclic ts → sn (flip (dep_edge ts)) v.
Proof.
  intros Hex Hac. apply tc_finite_sn.
  - intros x Hx. apply (Hac x). by apply tc_flip in Hx.
  - exists (task_ids ts). intros x Hx%tc_flip. rewrite deps_exist_edges in Hex.
    inversion Hx; subst; unfold flip, dep_edge in *; eauto.
Qed.

Lemma kahn_done_all ts P m n :
  kahn_inv ts P (KState m [] n) → deps_exist ts → acyclic ts →
  ∀ v, v ∈ task_ids ts → v ∈ P.
Proof.
  intros Hinv Hex Hac v. induction (acyclic_sn ts v Hex Hac) as [v _ IH]. intros Hv.
  cut (v ∈ P ++ []); [by rewrite app_nil_r|].
  apply (ki_ready _ _ _ Hinv). split; [done|]. rewrite (ki_deg _ _ _ Hinv).
  cut (pending_in (edges ts) P v = 0); [simpl; lia|].
  apply pending_in_zero. intros u Hu. apply IH; [done|].
  rewrite deps_exist_edges in Hex. eauto.
Qed.

(** The number of popped nodes equals the number of tasks exactly for a list of
    distinct ids without a cycle. *)
Lemma kahn_done_iff ts P m n :
  kahn_inv ts P (KState m [] n) → deps_exist ts →
  n = length ts ↔ NoDup (task_ids ts) ∧ acyclic ts.
Proof.
  intros Hinv Hex.
  pose proof (ki_visited _ _ _ Hinv) as Hn. pose proof (ki_nodup _ _ _ Hinv) as Hnd.
  simpl in Hn, Hnd. rewrite app_nil_r in Hnd.
  assert (Hsub : P ⊆ task_ids ts).
  { intros v Hv. apply (ki_ready _ _ _ Hinv). by rewrite app_nil_r. }
  assert (Hlen : length (task_ids ts) = length ts) by apply length_fmap.
  split.
  - intros ->. assert (HP : P ≡ₚ task_ids ts).
    { apply submseteq_length_Permutation; [by apply NoDup_submseteq|]. lia. }
    split; [by rewrite <-HP|]. intros v Hc.
    assert (v ∈ P) as Hv.
    { rewrite HP. apply tc_last in Hc as (u & _ & Hu). by eapply edge_target. }
    eapply topo_acyclic in Hc; [done|apply Hinv|done..].
  - intros [Hids Hac]. rewrite Hn, <-Hlen. apply Permutation_length, NoDup_Permutation; [done..|].
    intros v. split; [apply Hsub|]. by eapply kahn_done_all.
Qed.

(** The answer of [_validate_dag], by cases. *)
Lemma validate_dag_spec (ts : list task) :
  (valid_dag ts ∧ _validate_dag ts = Ok tt) ∨
  (¬ valid_dag ts ∧ ∃ msg, _validate_dag ts = Raise (ValueError msg) ∨ _validate_dag ts = Raise (TypeError msg)).
Proof.
  unfold _validate_dag, valid_dag. destruct (check_tasks _ _) as [[]|e] eqn:Hck.
  - rewrite check_tasks_ok, <-deps_exist_edges in Hck. destruct Hck as [Hl Hck].
    destruct (kahn_terminates ts [] (kahn_init ts) (length ts) (kahn_inv_init ts) ltac:(simpl; lia))
      as (P & [m q n] & Hinv & Hq & ->). simpl in *. subst q.
    pose proof (kahn_done_iff _ _ _ _ Hinv Hck).
    destruct (Nat.eqb_spec n (length ts)); [left|right]; naive_solver.
  - right. split.
    + intros (_ & Hex & _ & Hl). rewrite deps_exist_edges in Hex.
      assert (check_tasks (task_ids ts) ts = Ok tt) by (by apply check_tasks_ok). congruence.
    + apply check_tasks_raise in Hck as [[-> _]|(dep & tid & -> & _)]; eauto.
Qed.

Lemma validate_ok (ts : list task) : _validate_dag ts = Ok tt ↔ valid_dag ts.
Proof. destruct (validate_dag_spec ts) as [[? ->]|(? & ? & [->| ->])]; naive_solver. Qed.

(** ** Properties *)

(** C2: [_validate_dag] accepts a task list exactly when the ids are pairwise
    distinct, every "deps" that is there is a list and names tasks of the list,
    and the dependency relation has no cycle (self-dependencies included). *)
Theorem validate_dag_ok_iff (ts : list task) :
  _validate_dag ts = Ok tt ↔ valid_dag ts.
Proof. apply validate_ok. Qed.

(** [_validate_dag] always terminates: it answers, or raises the [TypeError] of a
    null "deps" or one of its two [ValueError]s, a missing dependency before a
    cycle. *)
Lemma validate_dag_total (ts : list task) :
  _validate_dag ts = Ok tt ∨
  (_validate_dag ts = Raise null_deps ∧ ¬ deps_listed ts) ∨
  (∃ dep tid, (dep ∉ task_ids ts) ∧ (dep, tid) ∈ edges ts ∧
     _validate_dag ts = Raise (ValueError (missing_dep_msg dep tid))) ∨
  (deps_exist ts ∧ _validate_dag ts = Raise (ValueError cycle_msg)).
Proof.
  unfold _validate_dag. destruct (check_tasks (task_ids ts) ts) as [[]|e] eqn:Hck.
  - rewrite check_tasks_ok, <-deps_exist_edges in Hck. destruct Hck as [_ Hck].
    destruct (kahn_terminates ts [] (kahn_init ts) (length ts) (kahn_inv_init ts) ltac:(simpl; lia))
      as (P & st' & _ & _ & ->). destruct (_ =? _); auto.
  - apply check_tasks_raise in Hck as [[-> (t & Ht & Hn)]|(dep & tid & -> & ? & ?)].
    + right; left. split; [done|]. intros Hl. destruct (Hl t Ht). congruence.
    + right; right; left. by exists dep, tid.
Qed.
