(* ===== verification/TaskQueue.v ===== *)
(** * The task queue (orchestrator/task_queue.py)

    Tasks live in Redis: a JSON dict per task, the list of ids of the session,
    and a lease per running task.  [load_plan], [get_ready_tasks],
    [update_status], [_propagate_blocked], [_run_single_task] and
    [execute_plan] are transcribed over the Redis interface.  The agent manager
    and the patch queue are reached through the classes [AgentRunner] and
    [PatchSink]: what the task queue relies on is that they leave the task keys
    alone. *)

From S2P Require Import Prelude PyStr Models Utils Redis Interfaces Dag.
Local Open Scope string_scope.
Local Open Scope list_scope.
Local Open Scope nat_scope.
Local Open Scope py_scope.

(** ** Results *)

Inductive exec_status := ExComplete | ExFailed | ExSkipped.

#[export] Instance exec_status_eq_dec : EqDecision exec_status.
Proof. solve_decision. Defined.

(** [{**task, "status": ..., "patches_applied": ..., "patches_failed": ...}]. *)
Record exec_record := ExecRecord {
  er_task : task;
  er_status : exec_status;
  er_patches_applied : nat;
  er_patches_failed : nat
}.

(** An entry of the list [_auto_apply_patches] returns: the dict of an enqueued
    patch, or [{"error": str(exc)}]. *)
Inductive auto_patch := APatch (d : patch_dict) | AError (msg : string).

Definition auto_patch_keys (p : auto_patch) : list string :=
  match p with APatch _ => patch_dict_keys | AError _ => ["error"] end.

(** ["error" not in r]. *)
Definition patch_ok (p : auto_patch) : bool := bool_decide ("error" ∉ auto_patch_keys p).

Record session_counts := SessionCounts {
  sc_total : nat;
  sc_pending : nat;
  sc_running : nat;
  sc_complete : nat;
  sc_failed : nat;
  sc_blocked : nat;
  sc_tasks : list task
}.

Record plan_result := PlanResult {
  pr_executed : nat;
  pr_complete : nat;
  pr_failed : nat;
  pr_blocked : nat;
  pr_remaining : nat;
  pr_tasks : list exec_record
}.

(** [_PATCH_ROLES]. *)
Definition is_patch_role (role : option string) : bool :=
  bool_decide (role = Some "coder") || bool_decide (role = Some "tester").

Section task_queue.
Context {R A : Type} `{Redis R} `{!AgentRunner R A} `{!PatchSink R A}.
(** [config.TASK_LEASE_TTL], [config.MAX_PARALLEL_AGENTS], and the
    [uuid4().hex[:12]] of the worker that runs a task. *)
Context (TASK_LEASE_TTL : Z) (MAX_PARALLEL_AGENTS : nat) (worker_id : string → string).

(** ** Keys and task storage *)

Definition _task_key (sid tid : string) : string := "tasks:" +:+ sid +:+ ":" +:+ tid.
Definition _list_key (sid : string) : string := "tasklist:" +:+ sid.
Definition _lease_key (sid tid : string) : string :=
  "task:" +:+ sid +:+ ":" +:+ tid +:+ ":lease".

Definition _save_task (sid : string) (t : task) (r : R) : R :=
  r_set (_task_key sid (t_id t)) (VTask t) None r.

Definition _load_task (r : R) (sid tid : string) : option task :=
  match r_get r (_task_key sid tid) with Some (VTask t) => Some t | _ => None end.

Definition _all_task_ids (r : R) (sid : string) : list string :=
  r_lrange r (_list_key sid).

Definition _all_tasks (r : R) (sid : string) : list task :=
  omap (_load_task r sid) (_all_task_ids r sid).

(** ** Leases *)

Definition _acquire_task_lease (sid tid worker : string) (r : R) : R * bool :=
  r_setnx (_lease_key sid tid) (VStr worker) TASK_LEASE_TTL r.

Definition _release_task_lease (sid tid : string) (r : R) : R :=
  r_del (_lease_key sid tid) r.

(** ** Loading a plan *)

Definition clear_plan (sid : string) (r : R) : R :=
  r_del (_list_key sid)
    (foldl (λ r tid, r_del (_lease_key sid tid) (r_del (_task_key sid tid) r))
       r (_all_task_ids r sid)).

Definition push_task (sid : string) (r : R) (t : task) : R :=
  r_rpush (_list_key sid) (t_id t) (_save_task sid (with_status Pending t) r).

Definition load_plan (sid : string) (tasks : list task) : M R nat := λ r,
  let r1 := clear_plan sid r in
  match _validate_dag tasks with
  | Raise e => (r1, Raise e)
  | Ok _ => (foldl (push_task sid) r1 tasks, Ok (length tasks))
  end.

(** ** Scheduling *)

Definition done_ids (ts : list task) : list string :=
  t_id <$> List.filter (λ t, bool_decide (t_status t = Complete)) ts.

Definition is_ready (done : list string) (t : task) : bool :=
  bool_decide (t_status t = Pending) && forallb (λ d, bool_decide (d ∈ done)) (task_deps t).

Definition get_ready_tasks (sid : string) (r : R) : list task :=
  let ts := _all_tasks r sid in List.filter (is_ready (done_ids ts)) ts.

Definition count_status (s : task_status) (ts : list task) : nat :=
  count_if (λ t, bool_decide (t_status t = s)) ts.

Definition get_session_status (sid : string) (r : R) : session_counts :=
  let ts := _all_tasks r sid in
  SessionCounts (length ts) (count_status Pending ts) (count_status Running ts)
    (count_status Complete ts) (count_status Failed ts) (count_status Blocked ts) ts.

(** ** Status updates *)

Definition blockable (t : task) : bool :=
  bool_decide (t_status t = Pending) || bool_decide (t_status t = Running).

(** The body of [for t in tasks] in [_propagate_blocked]: the local dicts,
    the set [blocked] and [changed] are threaded with the store. *)
Definition block_task (sid : string) (t : task) (blocked : gset string) (changed : bool) (r : R)
    : task * gset string * bool * R :=
  if blockable t && bool_decide (t_id t ∉ blocked)
     && existsb (λ d, bool_decide (d ∈ blocked)) (task_deps t)
  then let t' := with_status Blocked t in
       (t', {[t_id t]} ∪ blocked, true, _save_task sid t' r)
  else (t, blocked, changed, r).

Fixpoint block_pass (sid : string) (ts : list task) (blocked : gset string)
    (changed : bool) (r : R) : list task * gset string * bool * R :=
  match ts with
  | [] => ([], blocked, changed, r)
  | t :: ts' =>
      let '(t1, blocked1, changed1, r1) := block_task sid t blocked changed r in
      let '(ts2, blocked2, changed2, r2) := block_pass sid ts' blocked1 changed1 r1 in
      (t1 :: ts2, blocked2, changed2, r2)
  end.

(** [while changed]: each pass but the last adds an id to [blocked]. *)
Fixpoint block_loop (fuel : nat) (sid : string) (ts : list task) (blocked : gset string)
    : M R unit := λ r,
  match fuel with
  | 0 => (r, Raise Diverges)
  | S f =>
      let '(ts', blocked', changed, r') := block_pass sid ts blocked false r in
      if changed then block_loop f sid ts' blocked' r' else (r', Ok tt)
  end.

Definition _propagate_blocked (sid failed_id : string) : M R unit := λ r,
  let ts := _all_tasks r sid in
  block_loop (S (length ts)) sid ts {[failed_id]} r.

Definition update_status (sid tid : string) (status : task_status) (result : string)
    : M R unit := λ r,
  match _load_task r sid tid with
  | None => (r, Ok tt)
  | Some t =>
      let t1 := with_status status t in
      let t2 := if truthy result then with_result result t1 else t1 in
      let r1 := _save_task sid t2 r in
      if bool_decide (status = Failed) then _propagate_blocked sid tid r1 else (r1, Ok tt)
  end.

(** ** Running tasks *)

(** A computation on the store, in the process. *)
Definition on_redis {B} (m : M R B) : M (R * A) B := λ w,
  let '(r, b) := m w.1 in ((r, w.2), b).

Definition patch_description (t : task) (role : string) : string :=
  "Auto-patch from task " +:+ t_id t +:+ " (" +:+ role +:+ ")".

Definition _auto_apply_patches (sid : string) (t : task) (output : string)
    : M (R * A) (list auto_patch) :=
  if negb pq_wired then mret []
  else if negb (is_patch_role (t_role t)) then mret []
  else mmap (λ diff,
               mtry (let! enq := pq_enqueue diff (t_id t) (t_id t) sid
                                   (patch_description t (default "None" (t_role t))) in
                     mret (APatch enq))
                    (λ e, mret (AError (exn_str e))))
         (extract_diffs_from_result output).

(** The body of the [try] of [_run_single_task]. *)
Definition run_leased_task (sid : string) (t : task) (role desc : string)
    : M (R * A) exec_record :=
  let! result := spawn_and_run role desc sid in
  let output := default "" (ar_result result) in
  let! patch_results := _auto_apply_patches sid t output in
  let patches_ok := count_if patch_ok patch_results in
  let patches_fail := length patch_results - patches_ok in
  if bool_decide (ar_status result = Done) then
    do! on_redis (update_status sid (t_id t) Complete output) in
    mret (ExecRecord t ExComplete patches_ok patches_fail)
  else
    do! on_redis (update_status sid (t_id t) Failed
                    (default "unknown error" (ar_error result))) in
    mret (ExecRecord t ExFailed patches_ok patches_fail).

(** [task["role"]] and [task["desc"]] are read by the log line before the
    [try]: without them the exception leaves the lease in place. *)
Definition _run_single_task (sid : string) (t : task) : M (R * A) exec_record :=
  let! acquired := on_redis (λ r,
    let '(r', b) := _acquire_task_lease sid (t_id t) (worker_id (t_id t)) r in (r', Ok b)) in
  if negb acquired then mret (ExecRecord t ExSkipped 0 0)
  else match t_role t, t_desc t with
       | None, _ => mraise (KeyError "'role'")
       | _, None => mraise (KeyError "'desc'")
       | Some role, Some desc =>
           mfinally (run_leased_task sid t role desc)
             (λ w, (_release_task_lease sid (t_id t) w.1, w.2))
       end.

(** ** Executing a plan *)

Definition mark_running (sid : string) (batch : list task) : M (R * A) unit :=
  mfor batch (λ t, on_redis (update_status sid (t_id t) Running "")).

(** [asyncio.gather(..., return_exceptions=True)] over the batch, the tasks
    taken in batch order. *)
Definition run_batch (sid : string) (batch : list task)
    : M (R * A) (list (res exec_record)) :=
  mmap (λ t, mtry (let! rec := _run_single_task sid t in mret (Ok rec)) (λ e, mret (Raise e))) batch.

(** The loop over [zip(batch, batch_results)]. *)
Definition settle (sid : string) (t : task) (res : res exec_record) : M (R * A) exec_record :=
  match res with
  | Ok rec => mret rec
  | Raise e =>
      do! on_redis (update_status sid (t_id t) Failed (exn_str e)) in
      mret (ExecRecord t ExFailed 0 0)
  end.

Definition run_round (sid : string) (batch : list task) : M (R * A) (list exec_record) :=
  do! mark_running sid batch in
  let! results := run_batch sid batch in
  mmap (λ p, settle sid p.1 p.2) (zip batch results).

Fixpoint execute_loop (fuel : nat) (sid : string) (executed : list exec_record)
    : M (R * A) (list exec_record) := λ w,
  match get_ready_tasks sid w.1 with
  | [] => (w, Ok executed)
  | ready =>
      match fuel with
      | 0 => (w, Raise Diverges)
      | S f => (let! recs := run_round sid (take MAX_PARALLEL_AGENTS ready) in
                execute_loop f sid (executed ++ recs)) w
      end
  end.

Definition execute_plan (fuel : nat) (sid : string) : M (R * A) plan_result :=
  let! executed := execute_loop fuel sid [] in
  let! final := mgets (λ w, get_session_status sid w.1) in
  mret (PlanResult (length executed) (sc_complete final) (sc_failed final)
          (sc_blocked final) (sc_pending final) executed).
End task_queue.
