(* ===== verification/TaskQueueFacts.v ===== *)
(** * The task queue: storage, blocking and status updates

    What each operation of TaskQueue.v does to the stored tasks, stated on
    [_load_task], and the specification of the propagation of failures. *)

From S2P Require Import Prelude PyStr Models Utils Redis Interfaces Dag TaskQueue.
Local Open Scope string_scope.
Local Open Scope list_scope.
Local Open Scope nat_scope.

#[global] Instance task_key_inj sid : Inj (=) (=) (_task_key sid).
Proof. intros x y Hxy. unfold _task_key in Hxy. by do 3 apply (inj _) in Hxy. Qed.

#[global] Instance lease_key_inj sid : Inj (=) (=) (_lease_key sid).
Proof.
  intros x y Hxy. unfold _lease_key in Hxy. do 3 apply (inj _) in Hxy.
  by apply sapp_inj_l in Hxy.
Qed.

Lemma list_key_ne_task_key sid sid' tid : _list_key sid ≠ _task_key sid' tid.
Proof. discriminate. Qed.
Lemma task_key_ne_list_key sid tid sid' : _task_key sid tid ≠ _list_key sid'.
Proof. discriminate. Qed.
Lemma task_key_ne_lease_key sid tid sid' tid' : _task_key sid tid ≠ _lease_key sid' tid'.
Proof. discriminate. Qed.
Lemma lease_key_ne_task_key sid tid sid' tid' : _lease_key sid tid ≠ _task_key sid' tid'.
Proof. discriminate. Qed.
Lemma lease_key_ne_list_key sid tid sid' : _lease_key sid tid ≠ _list_key sid'.
Proof. discriminate. Qed.

Lemma task_key_is_task sid tid : is_task_key (_task_key sid tid) = true.
Proof. done. Qed.
Lemma list_key_is_task sid : is_task_key (_list_key sid) = true.
Proof. done. Qed.
Lemma lease_key_is_task sid tid : is_task_key (_lease_key sid tid) = true.
Proof. done. Qed.

#[export] Hint Resolve list_key_ne_task_key lease_key_ne_task_key lease_key_ne_list_key
  task_key_is_task list_key_is_task lease_key_is_task : aicaf.

Section storage.
Context {R : Type} `{RedisLaws R}.
Implicit Types r : R.

Lemma load_save sid t r tid :
  _load_task (_save_task sid t r) sid tid
  = if decide (tid = t_id t) then Some t else _load_task r sid tid.
Proof.
  unfold _load_task, _save_task, r_get. rewrite key_set.
  destruct (decide (tid = t_id t)) as [->|Hne]; [by rewrite decide_True|].
  rewrite decide_False; [done|]. by intros ?%(inj _).
Qed.

Lemma ids_save sid t r : _all_task_ids (_save_task sid t r) sid = _all_task_ids r sid.
Proof.
  unfold _all_task_ids, r_lrange, _save_task. by rewrite key_set_ne by auto with aicaf.
Qed.

(** Two stores with the same task and list keys for a session. *)
Definition same_tasks (sid : string) (r r' : R) : Prop :=
  (∀ tid, _load_task r' sid tid = _load_task r sid tid) ∧
  _all_task_ids r' sid = _all_task_ids r sid.

Lemma same_tasks_keys sid r r' :
  (∀ k, is_task_key k = true → (∀ tid, k ≠ _lease_key sid tid) → r_key r' k = r_key r k) →
  same_tasks sid r r'.
Proof.
  intros Hk. split.
  - intros tid. unfold _load_task, r_get. rewrite Hk; [done| |]; auto with aicaf.
  - unfold _all_task_ids, r_lrange. rewrite Hk; [done| |]; auto with aicaf.
Qed.

Lemma same_tasks_acquire TTL sid tid w r :
  same_tasks sid r (_acquire_task_lease TTL sid tid w r).1.
Proof.
  apply same_tasks_keys. intros k _ Hk. unfold _acquire_task_lease.
  by rewrite key_setnx_ne by auto.
Qed.

Lemma same_tasks_release sid tid r : same_tasks sid r (_release_task_lease sid tid r).
Proof.
  apply same_tasks_keys. intros k _ Hk. unfold _release_task_lease.
  by rewrite key_del_ne by auto.
Qed.

Lemma all_tasks_same sid r r' : same_tasks sid r r' → _all_tasks r' sid = _all_tasks r sid.
Proof.
  intros [Hl Hi]. unfold _all_tasks. rewrite Hi. clear Hi. induction (_all_task_ids r sid) as [|x l IH]; [done|].
  cbn. rewrite Hl. case_match; [f_equal|]; exact IH.
Qed.

(** ** Well-formed stores *)

(** A task is stored under its own id, and the ids listed are distinct. *)
Record plan_wf (sid : string) (r : R) : Prop := {
  wf_ids : NoDup (_all_task_ids r sid);
  wf_load tid t : _load_task r sid tid = Some t → t_id t = tid
}.

Lemma elem_of_all_tasks sid r t :
  t ∈ _all_tasks r sid ↔ ∃ tid, tid ∈ _all_task_ids r sid ∧ _load_task r sid tid = Some t.
Proof. unfold _all_tasks. by rewrite list_elem_of_omap. Qed.

Lemma all_tasks_ids_NoDup sid r : plan_wf sid r → NoDup (task_ids (_all_tasks r sid)).
Proof.
  intros [Hnd Hload]. unfold _all_tasks, task_ids. revert Hnd.
  induction (_all_task_ids r sid) as [|tid l IH]; intros Hnd; [constructor|].
  apply NoDup_cons in Hnd as [Hnin Hnd]. simpl.
  destruct (_load_task r sid tid) as [t|] eqn:E; [|auto]. simpl. apply NoDup_cons.
  split; [|auto]. apply Hload in E as ->.
  rewrite list_elem_of_fmap. intros (t' & Heq & Ht'). apply list_elem_of_omap in Ht' as (y & Hy & Hl).
  apply Hload in Hl. congruence.
Qed.

Lemma plan_wf_save sid t r : plan_wf sid r → plan_wf sid (_save_task sid t r).
Proof.
  intros [Hnd Hload]. split; [by rewrite ids_save|].
  intros tid t'. rewrite load_save. case_decide; [naive_solver|apply Hload].
Qed.

Lemma plan_wf_same sid r r' : same_tasks sid r r' → plan_wf sid r → plan_wf sid r'.
Proof.
  intros [Hl Hi] [Hnd Hload]. split; [by rewrite Hi|]. intros tid t. rewrite Hl. apply Hload.
Qed.
End storage.

(** ** Ready tasks *)

Section ready.
Context {R : Type} `{RedisLaws R}.
Implicit Types r : R.

Lemma elem_of_ready sid r t :
  t ∈ get_ready_tasks sid r ↔
  t ∈ _all_tasks r sid ∧ t_status t = Pending ∧
  ∀ d, d ∈ task_deps t → ∃ t', t' ∈ _all_tasks r sid ∧ t_id t' = d ∧ t_status t' = Complete.
Proof.
  unfold get_ready_tasks, is_ready. rewrite filter_In_elem, andb_true_iff, bool_decide_eq_true,
    forallb_forall. setoid_rewrite bool_decide_eq_true. unfold done_ids.
  setoid_rewrite list_elem_of_fmap. setoid_rewrite filter_In_elem.
  setoid_rewrite bool_decide_eq_true. setoid_rewrite <-list_elem_of_In. naive_solver.
Qed.

Lemma ready_NoDup sid r : plan_wf sid r → NoDup (task_ids (get_ready_tasks sid r)).
Proof.
  intros Hwf. unfold task_ids, get_ready_tasks.
  pose proof (all_tasks_ids_NoDup _ _ Hwf) as Hnd. unfold task_ids in Hnd.
  revert Hnd. generalize (is_ready (done_ids (_all_tasks r sid))) as p.
  induction (_all_tasks r sid) as [|t l IH]; intros p; [done|].
  cbn. intros [Hn Hnd]%NoDup_cons. destruct (p t); [|auto]. cbn. apply NoDup_cons. split; [|auto].
  intros (t' & He & Ht'%filter_In_elem)%list_elem_of_fmap. apply Hn, list_elem_of_fmap. naive_solver.
Qed.

Lemma ready_sublist_NoDup sid r batch :
  plan_wf sid r → batch `sublist_of` get_ready_tasks sid r → NoDup (task_ids batch).
Proof.
  intros Hwf Hs. eapply sublist_NoDup; [by apply ready_NoDup|].
  unfold task_ids. by apply fmap_sublist.
Qed.
End ready.
#[export] Hint Resolve same_tasks_acquire same_tasks_release : aicaf.

(** ** Propagation of a failure *)

(** The tasks a failure of [f] blocks: those pending or running that depend on
    it, directly or through other such tasks. *)
Inductive blocked_by (ts : list task) (f : string) : string → Prop :=
  | blocked_direct t :
      t ∈ ts → blockable t = true → t_id t ≠ f → f ∈ task_deps t →
      blocked_by ts f (t_id t)
  | blocked_through t d :
      t ∈ ts → blockable t = true → t_id t ≠ f → d ∈ task_deps t →
      blocked_by ts f d → blocked_by ts f (t_id t).

(** The failed task itself does not matter. *)
Lemma blocked_by_ext ts ts' f x :
  (∀ t, t_id t ≠ f → t ∈ ts ↔ t ∈ ts') → blocked_by ts f x ↔ blocked_by ts' f x.
Proof.
  intros Hts. split; induction 1.
  1, 3: eapply blocked_direct; [by apply Hts|done..].
  all: eapply blocked_through; [by apply Hts|done..].
Qed.

(** One pass, on the ids alone. *)
Definition blocks (B : gset string) (t : task) : bool :=
  blockable t && bool_decide (t_id t ∉ B) && existsb (λ d, bool_decide (d ∈ B)) (task_deps t).

Definition block_ids (ts : list task) (B : gset string) : gset string :=
  foldl (λ B t, if blocks B t then {[t_id t]} ∪ B else B) B ts.

(** The dict of a task once the ids in [B] other than [f] are blocked. *)
Definition view (f : string) (B : gset string) (t : task) : task :=
  if decide (t_id t ∈ B ∧ t_id t ≠ f) then with_status Blocked t else t.

Lemma view_id f B t : t_id (view f B t) = t_id t.
Proof. unfold view. by case_decide. Qed.

Lemma view_ext f B B' t : (t_id t ∈ B ↔ t_id t ∈ B') → view f B t = view f B' t.
Proof. intros HB. unfold view. repeat case_decide; naive_solver. Qed.

Lemma blocks_view f B t : f ∈ B → blocks B (view f B t) = blocks B t.
Proof.
  intros Hf. unfold view. case_decide as Hd; [|done]. unfold blocks, blockable. simpl.
  destruct Hd as [Hd _]. rewrite (bool_decide_eq_false_2 (t_id t ∉ B)) by set_solver.
  by rewrite !andb_false_r.
Qed.

Lemma blocks_true B t :
  blocks B t = true ↔ blockable t = true ∧ t_id t ∉ B ∧ ∃ d, d ∈ task_deps t ∧ d ∈ B.
Proof.
  unfold blocks. rewrite !andb_true_iff, bool_decide_eq_true, existsb_exists.
  setoid_rewrite bool_decide_eq_true. setoid_rewrite list_elem_of_In. naive_solver.
Qed.

Lemma block_ids_subseteq ts B : B ⊆ block_ids ts B.
Proof.
  unfold block_ids. revert B. induction ts as [|t ts IH]; intros B; simpl; [done|].
  destruct (blocks B t); [|done]. etrans; [|apply IH]. set_solver.
Qed.

Lemma block_ids_elem ts B x : x ∈ block_ids ts B → x ∈ B ∨ x ∈ task_ids ts.
Proof.
  unfold block_ids, task_ids. revert B. induction ts as [|t ts IH]; intros B; simpl; [auto|].
  intros Hx%IH. destruct (blocks B t); set_solver.
Qed.

Lemma block_ids_fixed ts B :
  block_ids ts B = B → ∀ t, t ∈ ts → blocks B t = false.
Proof.
  revert B. induction ts as [|t ts IH]; intros B HB t' Ht'; [set_solver|].
  unfold block_ids in HB. simpl in HB. destruct (blocks B t) eqn:E.
  - exfalso. apply blocks_true in E as (_ & Hnin & _). apply Hnin. rewrite <-HB.
    apply (block_ids_subseteq ts). set_solver.
  - apply elem_of_cons in Ht' as [->|Ht']; [done|]. by apply (IH B).
Qed.

Lemma block_ids_sound ts0 ts f B :
  ts ⊆ ts0 → f ∈ B → (∀ x, x ∈ B → x = f ∨ blocked_by ts0 f x) →
  ∀ x, x ∈ block_ids ts B → x = f ∨ blocked_by ts0 f x.
Proof.
  unfold block_ids. revert B. induction ts as [|t ts IH]; intros B Hsub Hf HB; simpl; [done|].
  apply IH; [set_solver|destruct (blocks B t); set_solver|].
  destruct (blocks B t) eqn:E; [|done]. apply blocks_true in E as (Hb & Hnin & d & Hd & HdB).
  intros x [->%elem_of_singleton|Hx]%elem_of_union; [|auto]. right.
  destruct (HB d HdB) as [->|Hdb].
  - apply blocked_direct; [set_solver|done|set_solver|done].
  - eapply blocked_through; [set_solver|done|set_solver|done|done].
Qed.

Lemma blocked_by_closed ts f B :
  f ∈ B → (∀ t, t ∈ ts → blocks B t = false) → ∀ x, blocked_by ts f x → x ∈ B.
Proof.
  intros Hf Hfix. assert (Hin : ∀ t d, t ∈ ts → blockable t = true → d ∈ task_deps t → d ∈ B → t_id t ∈ B).
  { intros t d Ht Hb Hd HdB. destruct (decide (t_id t ∈ B)); [done|].
    exfalso. specialize (Hfix t Ht). apply not_true_iff_false in Hfix. apply Hfix, blocks_true. eauto. }
  induction 1; eauto.
Qed.

(** The flag [changed] of a pass says that the set has grown. *)
Definition block_id (B : gset string) (t : task) : gset string :=
  if blocks B t then {[t_id t]} ∪ B else B.

Lemma changed_flag ts t B :
  blocks B t || bool_decide (block_ids ts (block_id B t) ≠ block_id B t)
  = bool_decide (block_ids (t :: ts) B ≠ B).
Proof.
  change (block_ids (t :: ts) B) with (block_ids ts (block_id B t)).
  unfold block_id. destruct (blocks B t) eqn:E; simpl; [|done].
  symmetry. apply bool_decide_eq_true_2. intros Heq.
  apply blocks_true in E as (_ & Hnin & _). apply Hnin. rewrite <-Heq.
  apply block_ids_subseteq. set_solver.
Qed.

Section propagate.
Context {R : Type} `{RedisLaws R}.
Implicit Types r : R.

(** The local dicts, the set and the store during a pass over [ts]. *)
Definition in_sync (sid f : string) (ts : list task) (B : gset string) (r : R) : Prop :=
  ∀ t, t ∈ ts → _load_task r sid (t_id t) = Some (view f B t).

Lemma view_other f B t t' : t_id t' ≠ t_id t → view f B t' = view f (block_id B t) t'.
Proof. intros Hne. apply view_ext. unfold block_id. destruct (blocks B t); set_solver. Qed.

Lemma block_task_spec sid f t B c r :
  f ∈ B → _load_task r sid (t_id t) = Some (view f B t) →
  ∃ r', block_task sid (view f B t) B c r
        = (view f (block_id B t) t, block_id B t, c || blocks B t, r') ∧
    _load_task r' sid (t_id t) = Some (view f (block_id B t) t) ∧
    (∀ tid, tid ≠ t_id t → _load_task r' sid tid = _load_task r sid tid) ∧
    _all_task_ids r' sid = _all_task_ids r sid.
Proof.
  intros Hf Hl. unfold block_task, block_id.
  assert (blockable (view f B t) && bool_decide (t_id (view f B t) ∉ B)
    && existsb (λ d, bool_decide (d ∈ B)) (task_deps (view f B t)) = blocks B t) as ->.
  { by rewrite <-(blocks_view f B t Hf). }
  destruct (blocks B t) eqn:Eb; [|exists r; rewrite orb_false_r; done].
  apply blocks_true in Eb as (_ & Hnin & _). rewrite view_id, orb_true_r.
  assert (view f B t = t) as ->. { unfold view. rewrite decide_False; [done|naive_solver]. }
  assert (view f ({[t_id t]} ∪ B) t = with_status Blocked t) as ->.
  { unfold view. rewrite decide_True; [done|]. set_solver. }
  eexists. split; [done|]. split_and!.
  - rewrite load_save. by rewrite decide_True.
  - intros tid Hne. rewrite load_save. by rewrite decide_False.
  - apply ids_save.
Qed.

Lemma block_pass_spec sid f ts B c r :
  NoDup (task_ids ts) → f ∈ B → in_sync sid f ts B r →
  ∃ r', block_pass sid (view f B <$> ts) B c r
        = (view f (block_ids ts B) <$> ts, block_ids ts B,
           c || bool_decide (block_ids ts B ≠ B), r') ∧
    in_sync sid f ts (block_ids ts B) r' ∧
    (∀ tid, tid ∉ task_ids ts → _load_task r' sid tid = _load_task r sid tid) ∧
    _all_task_ids r' sid = _all_task_ids r sid.
Proof.
  revert B c r. induction ts as [|t ts IH]; intros B c r Hnd Hf Hs.
  { exists r. simpl. rewrite bool_decide_eq_false_2, orb_false_r; [done|]. naive_solver. }
  apply NoDup_cons in Hnd as [Hnin Hnd]. fold (task_ids ts) in Hnin, Hnd.
  assert (Hne : ∀ t', t' ∈ ts → t_id t' ≠ t_id t).
  { intros t' Ht' He. apply Hnin. rewrite <-He. apply list_elem_of_fmap. eauto. }
  destruct (block_task_spec sid f t B c r Hf (Hs t ltac:(set_solver)))
    as (r1 & Hb & Hl1 & Ho1 & Hi1).
  assert (Hfmap : view f B <$> ts = view f (block_id B t) <$> ts).
  { apply list_fmap_ext. intros i t' Ht'%list_elem_of_lookup_2. auto using view_other. }
  destruct (IH (block_id B t) (c || blocks B t) r1 Hnd) as (r2 & Hp & Hs2 & Ho2 & Hi2).
  { unfold block_id. destruct (blocks B t); set_solver. }
  { intros t' Ht'. rewrite Ho1 by auto. rewrite <-view_other by auto. apply Hs. set_solver. }
  assert (HB : block_ids (t :: ts) B = block_ids ts (block_id B t)) by done.
  assert (Hv : view f (block_ids ts (block_id B t)) t = view f (block_id B t) t).
  { apply view_ext. split; [|apply block_ids_subseteq].
    intros [?|?]%block_ids_elem; [done|]. by destruct Hnin. }
  exists r2. rewrite HB. cbn [fmap list_fmap block_pass]. rewrite Hb, Hfmap.
  fold (list_fmap task task (view f (block_id B t)) ts).
  change (list_fmap task task (view f (block_id B t)) ts) with (view f (block_id B t) <$> ts).
  rewrite Hp, Hv. split_and!.
  - do 2 f_equal. rewrite <-orb_assoc. f_equal. apply (changed_flag ts t B).
  - intros t' [->|Ht']%elem_of_cons; [|auto]. rewrite Hv, Ho2 by done. done.
  - intros tid Htid. unfold task_ids in Htid. cbn in Htid.
    rewrite Ho2, Ho1; [done|set_solver|unfold task_ids; set_solver].
  - by rewrite Hi2.
Qed.
(** The ids of [ts] still outside the set bound the passes to come. *)
Definition unblocked (ts : list task) (B : gset string) : nat :=
  count_if (λ t, bool_decide (t_id t ∉ B)) ts.

Lemma unblocked_decreases ts B :
  block_ids ts B ≠ B → unblocked ts (block_ids ts B) < unblocked ts B.
Proof.
  intros Hne. assert (∃ x, x ∈ block_ids ts B ∧ x ∉ B) as (x & Hx & HxB).
  { destruct (decide (set_Exists (λ x, x ∉ B) (block_ids ts B))) as [(x & ? & ?)|Hn]; [eauto|].
    exfalso. apply Hne. apply leibniz_equiv. intros x. split; [|apply block_ids_subseteq].
    intros Hx. destruct (decide (x ∈ B)); [done|]. exfalso. apply Hn. by exists x. }
  pose proof (block_ids_elem _ _ _ Hx) as [?|(t & -> & Ht)%list_elem_of_fmap]; [done|].
  unfold unblocked. apply count_if_lt with t; [|done|..].
  - intros t' _ Hn. apply bool_decide_eq_true in Hn. apply bool_decide_eq_true.
    intros HB. apply Hn. by apply block_ids_subseteq.
  - by apply bool_decide_eq_false_2; intros [].
  - by apply bool_decide_eq_true_2.
Qed.

Lemma block_loop_spec fuel sid f ts B r :
  NoDup (task_ids ts) → f ∈ B → in_sync sid f ts B r → unblocked ts B < fuel →
  (∀ x, x ∈ B → x = f ∨ blocked_by ts f x) →
  ∃ r' B', block_loop fuel sid (view f B <$> ts) B r = (r', Ok tt) ∧
    f ∈ B' ∧ (∀ x, x ∈ B' ↔ x = f ∨ blocked_by ts f x) ∧ in_sync sid f ts B' r' ∧
    (∀ tid, tid ∉ task_ids ts → _load_task r' sid tid = _load_task r sid tid) ∧
    _all_task_ids r' sid = _all_task_ids r sid.
Proof.
  revert B r. induction fuel as [|fuel IH]; intros B r Hnd Hf Hs Hfuel Hsound; [lia|].
  cbn [block_loop].
  destruct (block_pass_spec sid f ts B false r Hnd Hf Hs) as (r1 & Hp & Hs1 & Ho1 & Hi1).
  rewrite Hp. simpl. pose proof (block_ids_subseteq ts B) as Hsub.
  pose proof (block_ids_sound ts ts f B (reflexivity _) Hf Hsound) as Hsound1.
  case_bool_decide as Hch.
  - destruct (IH (block_ids ts B) r1) as (r' & B' & Hl & Hf' & HB' & Hs' & Ho' & Hi');
      [done|set_solver|done| |done|].
    { pose proof (unblocked_decreases ts B Hch). lia. }
    exists r', B'. split_and!; [done..| |].
    + intros tid Htid. by rewrite Ho', Ho1.
    + by rewrite Hi'.
  - exists r1, (block_ids ts B).
    split_and!; [done|set_solver| |done..]. intros x. split; [apply Hsound1|].
    intros [->|Hx]; [set_solver|]. rewrite Hch.
    eapply blocked_by_closed; [done|by apply block_ids_fixed|done].
Qed.
(** [_propagate_blocked] ends, and blocks exactly the tasks [blocked_by]
    describes: the others, and the tasks that are not listed, keep their
    state. *)
Lemma propagate_spec sid f r :
  plan_wf sid r →
  ∃ r' (B : gset string), _propagate_blocked sid f r = (r', Ok tt) ∧
    (∀ x, x ∈ B ↔ blocked_by (_all_tasks r sid) f x) ∧
    (∀ tid, _load_task r' sid tid =
       if decide (tid ∈ B) then with_status Blocked <$> _load_task r sid tid
       else _load_task r sid tid) ∧
    _all_task_ids r' sid = _all_task_ids r sid.
Proof.
  intros Hwf. unfold _propagate_blocked. set (ts := _all_tasks r sid).
  assert (Hv : view f {[f]} <$> ts = ts).
  { rewrite <-(list_fmap_id ts) at 2. apply list_fmap_ext. intros i t _.
    unfold view. rewrite decide_False; [done|]. set_solver. }
  assert (Hs : in_sync sid f ts {[f]} r).
  { intros t Ht. apply elem_of_all_tasks in Ht as (tid & _ & Hl).
    rewrite (wf_load _ _ Hwf _ _ Hl), Hl. f_equal. unfold view.
    rewrite decide_False; [done|]. set_solver. }
  destruct (block_loop_spec (S (length ts)) sid f ts {[f]} r) as (r' & B & Hl & _ & HB & Hs' & Ho & Hi);
    [by apply all_tasks_ids_NoDup|set_solver|done| |set_solver|].
  { unfold unblocked. pose proof (count_if_le_length (λ t, bool_decide (t_id t ∉ ({[f]} : gset string))) ts).
    lia. }
  rewrite Hv in Hl. exists r', (B ∖ {[f]}).
  assert (HBf : ∀ x, x ∈ B ∖ {[f]} ↔ blocked_by ts f x).
  { intros x. rewrite elem_of_difference, not_elem_of_singleton, HB. split; [naive_solver|].
    intros Hx. split; [auto|]. by inversion Hx. }
  split_and!; [done..| |done]. intros tid.
  destruct (decide (tid ∈ task_ids ts)) as [(t & -> & Ht)%list_elem_of_fmap|Hn].
  - rewrite (Hs' t Ht), (Hs t Ht). unfold view. repeat case_decide; set_solver.
  - rewrite (Ho tid Hn), decide_False; [done|]. rewrite HBf. intros Hb. apply Hn.
    inversion Hb; subst; apply list_elem_of_fmap; eauto.
Qed.
End propagate.
