(* ===== verification/TaskQueueExec.v ===== *)
(** * The task queue: execution of a plan

    The loop of [execute_plan] terminates, leaves no task ready, runs a task at
    most once and only after its dependencies completed; leases exclude a
    second worker; and what a crash leaves behind. *)

From S2P Require Import Prelude PyStr Models Utils Redis Interfaces Dag TaskQueue TaskQueueFacts.
Local Open Scope string_scope.
Local Open Scope list_scope.
Local Open Scope nat_scope.
Local Open Scope py_scope.

(** The dict of a task after [update_status]. *)
Definition updated (s : task_status) (result : string) (t : task) : task :=
  if truthy result then with_result result (with_status s t) else with_status s t.

(** [t'] is [t] later in the execution of the plan: the plan fields are the
    same, a pending task is untouched, and only a task of [C] completed. *)
Definition later (C : list string) (x : string) (t t' : task) : Prop :=
  t_id t' = t_id t ∧ t_role t' = t_role t ∧ t_desc t' = t_desc t ∧ t_deps t' = t_deps t ∧
  (t_status t' = Pending → t' = t) ∧
  (t_status t' = Complete → t_status t = Complete ∨ x ∈ C) ∧
  (t_status t = Complete → t_status t' = Complete ∨ x ∈ C).

Definition later_opt (C : list string) (x : string) (o o' : option task) : Prop :=
  match o, o' with
  | None, None => True
  | Some t, Some t' => later C x t t'
  | _, _ => False
  end.

Lemma later_refl x t : later [] x t t.
Proof. unfold later. naive_solver. Qed.

Lemma later_trans C C' x t t' t'' : later C x t t' → later C' x t' t'' → later (C ++ C') x t t''.
Proof.
  unfold later. setoid_rewrite elem_of_app. intros (?&?&?&?&Hp&Hc&Hc') (?&?&?&?&Hp'&Hd&Hd').
  split_and!; [congruence..| | |].
  - intros Hs. specialize (Hp' Hs). subst t''. auto.
  - intros Hs. destruct (Hd Hs) as [Hs'|]; [|auto]. destruct (Hc Hs'); auto.
  - intros Hs. destruct (Hc' Hs) as [Hs'|]; [|auto]. destruct (Hd' Hs'); auto.
Qed.

Section execution.
Context {R A : Type} `{RedisLaws R} `{!AgentRunner R A} `{!PatchSink R A}
        `{!AgentRunnerLaws R A} `{!PatchSinkLaws R A}.
Implicit Types (r : R).

(** The stores before and after a part of the execution. *)
Record advances (sid : string) (C : list string) (r r' : R) : Prop := {
  adv_ids : _all_task_ids r' sid = _all_task_ids r sid;
  adv_task x : later_opt C x (_load_task r sid x) (_load_task r' sid x);
  adv_wf : plan_wf sid r → plan_wf sid r'
}.

Lemma advances_same sid r r' : same_tasks sid r r' → advances sid [] r r'.
Proof.
  intros Hs. split; [apply Hs| |by apply plan_wf_same].
  intros x. destruct Hs as [-> _]. destruct (_load_task r sid x); simpl; auto using later_refl.
Qed.

Lemma advances_trans sid C C' r r' r'' :
  advances sid C r r' → advances sid C' r' r'' → advances sid (C ++ C') r r''.
Proof.
  intros [Hi Ht Hw] [Hi' Ht' Hw']. split; [congruence| |auto].
  intros x. specialize (Ht x). specialize (Ht' x). unfold later_opt in *.
  destruct (_load_task r sid x), (_load_task r' sid x), (_load_task r'' sid x); try done.
  by eapply later_trans.
Qed.

Lemma advances_length sid C r r' :
  advances sid C r r' → length (_all_tasks r' sid) = length (_all_tasks r sid).
Proof.
  intros Ha. unfold _all_tasks. rewrite (adv_ids _ _ _ _ Ha).
  induction (_all_task_ids r sid) as [|x l IH]; [done|]. cbn.
  pose proof (adv_task _ _ _ _ Ha x) as Hx.
  destruct (_load_task r sid x), (_load_task r' sid x); try done. cbn. by f_equal.
Qed.

(** ** Status updates *)

Lemma update_status_spec sid tid s result r :
  plan_wf sid r →
  ∃ r' (B : gset string), update_status sid tid s result r = (r', Ok tt) ∧
    plan_wf sid r' ∧ _all_task_ids r' sid = _all_task_ids r sid ∧
    (∀ x, _load_task r' sid x =
       if decide (x = tid) then updated s result <$> _load_task r sid x
       else if decide (x ∈ B) then with_status Blocked <$> _load_task r sid x
       else _load_task r sid x) ∧
    (s ≠ Failed → B = ∅) ∧
    (∀ x t, x ∈ B → _load_task r sid x = Some t → x ≠ tid → blockable t = true).
Proof.
  intros Hwf. unfold update_status. destruct (_load_task r sid tid) as [t|] eqn:Hl.
  2: { exists r, ∅. split_and!; [done..| |done|set_solver].
       intros x. destruct (decide (x = tid)) as [->|]; [by rewrite Hl|].
       by rewrite decide_False by set_solver. }
  fold (updated s result t). set (r1 := _save_task sid (updated s result t) r).
  assert (Hid : t_id (updated s result t) = tid).
  { unfold updated. apply (wf_load _ _ Hwf) in Hl. by destruct (truthy result). }
  assert (Hwf1 : plan_wf sid r1) by by apply plan_wf_save.
  assert (Hl1 : ∀ x, _load_task r1 sid x =
            if decide (x = tid) then updated s result <$> _load_task r sid x
            else _load_task r sid x).
  { intros x. unfold r1. rewrite load_save, Hid. case_decide; [|done]. subst x. by rewrite Hl. }
  case_bool_decide as Hs.
  2: { exists r1, ∅. split_and!; [done|done|apply ids_save| |done|set_solver].
       intros x. rewrite Hl1. case_decide; [done|]. by rewrite decide_False by set_solver. }
  destruct (propagate_spec sid tid r1 Hwf1) as (r2 & B & Hp & HB & Hl2 & Hi2).
  assert (HBt : ∀ x, x ∈ B → x ≠ tid ∧ ∃ t', _load_task r sid x = Some t' ∧ blockable t' = true).
  { intros x Hx. apply HB in Hx. assert (∃ t', t' ∈ _all_tasks r1 sid ∧ x = t_id t' ∧
      blockable t' = true ∧ t_id t' ≠ tid) as (t' & Ht' & -> & Hb & Hne).
    { inversion Hx; eauto. }
    split; [done|]. apply elem_of_all_tasks in Ht' as (y & _ & Hy).
    rewrite (wf_load _ _ Hwf1 _ _ Hy) in Hne |- *. rewrite Hl1, decide_False in Hy by done.
    eauto. }
  exists r2, B. split_and!; [done| |by rewrite Hi2; apply ids_save| |done|].
  - split; [rewrite Hi2; apply Hwf1|]. intros x t'. rewrite Hl2.
    destruct (decide (x ∈ B)); [|apply Hwf1].
    destruct (_load_task r1 sid x) as [t1|] eqn:E; [|done]. simpl. intros [= <-].
    by apply Hwf1 in E.
  - intros x. rewrite Hl2, Hl1. destruct (decide (x = tid)) as [->|]; [|done].
    rewrite decide_False; [done|]. naive_solver.
  - intros x t' Hx Hxl _. naive_solver.
Qed.

Lemma updated_plan s result t :
  t_id (updated s result t) = t_id t ∧ t_role (updated s result t) = t_role t ∧
  t_desc (updated s result t) = t_desc t ∧ t_deps (updated s result t) = t_deps t ∧
  t_status (updated s result t) = s.
Proof. unfold updated. by destruct (truthy result). Qed.

(** An update to [s] of a task that is not complete, or to [Complete]. *)
Lemma update_status_advances sid tid s result r :
  plan_wf sid r → s ≠ Pending →
  ∃ r', update_status sid tid s result r = (r', Ok tt) ∧ plan_wf sid r' ∧
    advances sid [tid] r r' ∧
    (s ≠ Complete → (∀ t, _load_task r sid tid = Some t → t_status t ≠ Complete) →
     advances sid [] r r') ∧
    (∀ t', _load_task r' sid tid = Some t' → t_status t' = s).
Proof.
  intros Hwf Hs. destruct (update_status_spec sid tid s result r Hwf)
    as (r' & B & Hu & Hwf' & Hi & Hl & _ & HB).
  pose proof (updated_plan s result) as Hup.
  assert (Hother : ∀ x, x ≠ tid → later_opt [] x (_load_task r sid x) (_load_task r' sid x)).
  { intros x Hx. rewrite Hl, decide_False by done.
    destruct (_load_task r sid x) as [t|] eqn:E; [|by destruct (decide (x ∈ B))].
    destruct (decide (x ∈ B)) as [HxB|]; [|apply later_refl].
    specialize (HB x t HxB E Hx). unfold later. simpl. split_and!; try done.
    intros Hc. unfold blockable in HB. by rewrite Hc in HB. }
  assert (Htid : ∀ t, _load_task r sid tid = Some t → _load_task r' sid tid = Some (updated s result t)).
  { intros t E. by rewrite Hl, decide_True, E. }
  exists r'. split_and!; [done..| | |].
  - split; [done| |done]. intros x. destruct (decide (x = tid)) as [->|Hx].
    + destruct (_load_task r sid tid) as [t|] eqn:E; [rewrite (Htid t) by done|].
      * simpl. destruct (Hup t) as (?&?&?&?&Hst). unfold later. rewrite Hst. set_solver.
      * rewrite Hl, decide_True, E by done. done.
    + specialize (Hother x Hx). unfold later_opt, later in *.
      destruct (_load_task r sid x), (_load_task r' sid x); naive_solver set_solver.
  - intros Hnc Hc. split; [done| |done]. intros x. destruct (decide (x = tid)) as [->|Hx]; [|auto].
    destruct (_load_task r sid tid) as [t|] eqn:E; [rewrite (Htid t) by done|].
    + simpl. destruct (Hup t) as (?&?&?&?&Hst). unfold later. rewrite Hst.
      specialize (Hc t eq_refl). naive_solver.
    + rewrite Hl, decide_True, E by done. done.
  - intros t'. rewrite Hl, decide_True by done. destruct (_load_task r sid tid) as [t|]; [|done].
    simpl. intros [= <-]. apply Hup.
Qed.

(** ** Tasks that are not complete, not pending *)

Definition not_in (s : task_status) (sid x : string) (r : R) : Prop :=
  ∀ t, _load_task r sid x = Some t → t_status t ≠ s.

Lemma advances_not_complete sid C r r' x :
  advances sid C r r' → x ∉ C → not_in Complete sid x r → not_in Complete sid x r'.
Proof.
  intros Ha Hx Hn t' Hl Hs. pose proof (adv_task _ _ _ _ Ha x) as Hx'. rewrite Hl in Hx'.
  unfold not_in in Hn. destruct (_load_task r sid x) as [t|] eqn:E; [|done].
  unfold later_opt, later in Hx'. naive_solver.
Qed.

Lemma advances_not_pending sid C r r' x :
  advances sid C r r' → not_in Pending sid x r → not_in Pending sid x r'.
Proof.
  intros Ha Hn t' Hl Hs. pose proof (adv_task _ _ _ _ Ha x) as Hx'. rewrite Hl in Hx'.
  unfold not_in in Hn. destruct (_load_task r sid x) as [t|] eqn:E; [|done].
  unfold later_opt, later in Hx'. naive_solver.
Qed.

Lemma advances_incl sid C C' r r' : C ⊆ C' → advances sid C r r' → advances sid C' r r'.
Proof.
  intros HC [Hi Ht Hw]. split; [done| |done]. intros x. specialize (Ht x).
  unfold later_opt, later in *. destruct (_load_task r sid x), (_load_task r' sid x); set_solver.
Qed.

(** A failure, or a start, of a task that did not complete. *)
Lemma update_status_incomplete sid tid s result r :
  plan_wf sid r → s ≠ Pending → s ≠ Complete → not_in Complete sid tid r →
  ∃ r', update_status sid tid s result r = (r', Ok tt) ∧ plan_wf sid r' ∧
    advances sid [] r r' ∧ not_in Pending sid tid r' ∧ not_in Complete sid tid r'.
Proof.
  intros Hwf Hp Hc Hn. destruct (update_status_advances sid tid s result r Hwf Hp)
    as (r' & Hu & Hwf' & _ & Ha & Hst).
  exists r'. unfold not_in. naive_solver.
Qed.

(** ** One task *)

Implicit Types (w : R * A).

#[local] Instance same_tasks_preorder sid : PreOrder (same_tasks (R:=R) sid).
Proof. split; [done|]. unfold same_tasks. intros r1 r2 r3 [] []. split; [intros|]; congruence. Qed.

Lemma spawn_same sid role desc sid' w :
  same_tasks sid w.1 (spawn_and_run role desc sid' w).1.1.
Proof. apply same_tasks_keys. intros. by apply spawn_frame. Qed.

#[local] Instance fst_preorder (P : relation R) `{!PreOrder P} :
  PreOrder (λ w w' : R * A, P w.1 w'.1).
Proof. split; [by intros ?|]. intros ????. by etrans. Qed.

Lemma auto_apply_same sid t output w :
  same_tasks sid w.1 (_auto_apply_patches sid t output w).1.1.
Proof.
  unfold _auto_apply_patches. do 2 (case_match; [done|]).
  apply (mmap_rel (λ w w', same_tasks sid w.1 w'.1)). intros diff w' _.
  unfold mtry, mbind, mret. pose proof (λ a b c d e, enqueue_frame a b c d e w') as Hf.
  specialize (Hf diff (t_id t) (t_id t) sid (patch_description t (default "None" (t_role t)))).
  destruct (pq_enqueue _ _ _ _ _ w') as [w'' [d|e]]; simpl in *;
    apply same_tasks_keys; intros; by apply Hf.
Qed.

Lemma auto_apply_ok sid t output w :
  ∃ w' l, _auto_apply_patches sid t output w = (w', Ok l).
Proof.
  unfold _auto_apply_patches. do 2 (case_match; [by eexists _, _|]).
  match goal with |- ∃ _ _, mmap ?f ?xs ?w = _ =>
    cut (∃ w' ys, mmap f xs w = (w', Ok ys) ∧ length ys = length xs); [naive_solver|]
  end.
  apply mmap_ok.
  intros diff w'. unfold mtry, mbind, mret. destruct (pq_enqueue _ _ _ _ _ w') as [? []]; eauto.
Qed.

(** The ids a result adds to the completed ones. *)
Definition done_of (t : task) (x : res exec_record) : list string :=
  match x with
  | Ok rec => if decide (er_status rec = ExComplete) then [t_id t] else []
  | Raise _ => []
  end.

Definition of_task (t : task) (x : res exec_record) : Prop :=
  match x with Ok rec => er_task rec = t | Raise _ => True end.

Lemma run_leased_spec sid t role desc w :
  plan_wf sid w.1 → not_in Complete sid (t_id t) w.1 →
  ∃ w' x, run_leased_task sid t role desc w = (w', x) ∧ plan_wf sid w'.1 ∧
    advances sid (done_of t x) w.1 w'.1 ∧ of_task t x.
Proof.
  intros Hwf Hn. unfold run_leased_task, mbind.
  pose proof (spawn_same sid role desc sid w) as Hs.
  destruct (spawn_and_run role desc sid w) as [w1 [result|e]]; simpl in Hs.
  2: { eexists _, _. split_and!; [done|by eapply plan_wf_same|by apply advances_same|done]. }
  set (output := default "" (ar_result result)).
  pose proof (auto_apply_same sid t output w1) as Hs'.
  destruct (auto_apply_ok sid t output w1) as (w2 & l & Hl). rewrite Hl in *. simpl in Hs'.
  assert (Ha : advances sid [] w.1 w2.1) by (apply advances_same; by etrans).
  assert (Hwf2 : plan_wf sid w2.1) by (by apply (adv_wf _ _ _ _ Ha)).
  case_bool_decide; unfold on_redis.
  - destruct (update_status_advances sid (t_id t) Complete output w2.1 Hwf2) as (r3 & -> & Hwf3 & Ha3 & _); [done|].
    eexists _, _. split_and!; [done..| |done]. by apply (advances_trans _ [] [t_id t] _ w2.1).
  - edestruct (update_status_incomplete sid (t_id t) Failed (default "unknown error" (ar_error result)) w2.1 Hwf2)
      as (r3 & -> & Hwf3 & Ha3 & _); [done..|by eapply advances_not_complete; [done|set_solver|]|].
    eexists _, _. split_and!; [done..| |done]. by apply (advances_trans _ [] [] _ w2.1).
Qed.

Context (TTL : Z) (worker_id : string → string).
Local Abbreviation run_single := (_run_single_task TTL worker_id).
Local Abbreviation round := (run_round TTL worker_id).

Lemma run_single_spec sid t w :
  plan_wf sid w.1 → not_in Complete sid (t_id t) w.1 →
  ∃ w' x, run_single sid t w = (w', x) ∧ plan_wf sid w'.1 ∧
    advances sid (done_of t x) w.1 w'.1 ∧ of_task t x.
Proof.
  intros Hwf Hn. unfold _run_single_task, mbind, on_redis.
  pose proof (same_tasks_acquire TTL sid (t_id t) (worker_id (t_id t)) w.1) as Hs.
  destruct (_acquire_task_lease _ _ _ _ w.1) as [r1 b]. simpl in Hs.
  assert (Ha : advances sid [] w.1 r1) by by apply advances_same.
  assert (Hwf1 : plan_wf sid r1) by (by apply (adv_wf _ _ _ _ Ha)).
  destruct b; simpl; [|by eexists _, _].
  destruct (t_role t) as [role|]; [|by eexists _, _].
  destruct (t_desc t) as [desc|]; [|by eexists _, _]. unfold mfinally.
  destruct (run_leased_spec sid t role desc (r1, w.2) Hwf1) as (w2 & x & -> & Hwf2 & Ha2 & Hx).
  { by eapply advances_not_complete; [done|set_solver|]. }
  pose proof (same_tasks_release sid (t_id t) w2.1) as Hr.
  eexists _, _. split_and!; [done|by eapply plan_wf_same| |done]. simpl in *.
  rewrite <-(app_nil_r (done_of t x)). eapply (advances_trans _ ([] ++ done_of t x)).
  - by eapply advances_trans.
  - by apply advances_same.
Qed.

(** ** One batch *)

Definition batch_done (batch : list task) (xs : list (res exec_record)) : list string :=
  mjoin (zip_with done_of batch xs).

Lemma batch_done_subseteq batch xs : batch_done batch xs ⊆ task_ids batch.
Proof.
  unfold batch_done. revert xs. induction batch as [|t batch IH]; intros [|x xs]; simpl; [set_solver..|].
  specialize (IH xs). unfold task_ids, done_of in *. cbn. destruct x; [case_decide|]; set_solver.
Qed.

Lemma run_batch_spec sid batch w :
  plan_wf sid w.1 → NoDup (task_ids batch) →
  (∀ t, t ∈ batch → not_in Complete sid (t_id t) w.1) →
  ∃ w' xs, run_batch TTL worker_id sid batch w = (w', Ok xs) ∧ plan_wf sid w'.1 ∧
    advances sid (batch_done batch xs) w.1 w'.1 ∧ Forall2 of_task batch xs.
Proof.
  unfold run_batch. revert w. induction batch as [|t batch IH]; intros w Hwf Hnd Hn.
  { exists w, []. split_and!; [done..| |constructor]. by apply advances_same. }
  cbn in Hnd. apply NoDup_cons in Hnd as [Ht Hnd]. cbn [mmap]. unfold mbind at 1, mtry, mbind at 1.
  destruct (run_single_spec sid t w Hwf (Hn t ltac:(set_solver))) as (w1 & x & -> & Hwf1 & Ha & Hx).
  destruct (IH w1 Hwf1 Hnd) as (w2 & xs & Hr & Hwf2 & Ha2 & Hxs).
  { intros t' Ht'. eapply advances_not_complete; [done| |apply Hn; set_solver].
    assert (t_id t' ∈ t_id <$> batch) by (apply list_elem_of_fmap; eauto).
    unfold done_of. destruct x; [case_decide|]; set_solver. }
  unfold mtry, mbind, mret in *. exists w2, (x :: xs).
  destruct x; rewrite Hr; (split_and!; [done|done|by eapply advances_trans|by constructor]).
Qed.

Definition complete_ids (recs : list exec_record) : list string :=
  (t_id ∘ er_task) <$> List.filter (λ e, bool_decide (er_status e = ExComplete)) recs.

Lemma complete_ids_app l1 l2 : complete_ids (l1 ++ l2) = complete_ids l1 ++ complete_ids l2.
Proof. unfold complete_ids. by rewrite List.filter_app, fmap_app. Qed.

Lemma settle_spec sid batch xs w :
  plan_wf sid w.1 → Forall2 of_task batch xs →
  (∀ t, t ∈ batch → t_id t ∉ batch_done batch xs → not_in Complete sid (t_id t) w.1) →
  NoDup (task_ids batch) →
  ∃ w' recs, mmap (λ p, settle sid p.1 p.2) (zip batch xs) w = (w', Ok recs) ∧
    plan_wf sid w'.1 ∧ advances sid [] w.1 w'.1 ∧ er_task <$> recs = batch ∧
    complete_ids recs = batch_done batch xs.
Proof.
  intros Hwf HF. revert w Hwf. induction HF as [|t x batch xs Hx HF IH]; intros w Hwf Hn Hnd.
  { exists w, []. split_and!; try done. by apply advances_same. }
  cbn in Hnd. apply NoDup_cons in Hnd as [Ht Hnd]. fold (task_ids batch) in Ht, Hnd.
  cbn [zip zip_with mmap fst snd]. unfold mbind at 1.
  assert (∃ w1 rec, settle sid t x w = (w1, Ok rec) ∧ plan_wf sid w1.1 ∧
            advances sid [] w.1 w1.1 ∧ er_task rec = t ∧ complete_ids [rec] = done_of t x)
    as (w1 & rec & Hs & Hwf1 & Ha & Hr & Hc).
  { destruct x as [rec|e]; cbn [settle done_of of_task] in *.
    - exists w, rec. split_and!; [done..|by apply advances_same|done|].
      unfold complete_ids. cbn. rewrite <-Hx. case_bool_decide; case_decide; done.
    - unfold mbind, on_redis. destruct (update_status_incomplete sid (t_id t) Failed (exn_str e) w.1)
        as (r1 & -> & Hwf1 & Ha & _); [done..| |by eexists _, _].
      apply Hn; [set_solver|]. unfold batch_done. cbn. by intros ?%batch_done_subseteq. }
  rewrite Hs. destruct (IH w1 Hwf1) as (w2 & recs & Hm & Hwf2 & Ha2 & Hrs & Hcs); [|done|].
  { intros t' Ht' Hd. eapply advances_not_complete; [done|set_solver|]. apply Hn; [set_solver|].
    unfold batch_done. cbn. rewrite elem_of_app. intros [Hd'|]; [|done].
    assert (t_id t' ∈ task_ids batch) by (apply list_elem_of_fmap; eauto).
    unfold done_of in Hd'. destruct x; [case_decide|]; set_solver. }
  exists w2, (rec :: recs). unfold mbind. rewrite Hm. split_and!; [done|done| |by rewrite fmap_cons, Hr, Hrs|].
  - by apply (advances_trans _ [] [] _ w1.1).
  - change (rec :: recs) with ([rec] ++ recs). by rewrite complete_ids_app, Hc, Hcs.
Qed.

Lemma mark_running_spec sid batch w :
  plan_wf sid w.1 → NoDup (task_ids batch) →
  (∀ t, t ∈ batch → not_in Complete sid (t_id t) w.1) →
  ∃ w', mark_running sid batch w = (w', Ok tt) ∧ plan_wf sid w'.1 ∧ advances sid [] w.1 w'.1 ∧
    (∀ t, t ∈ batch → not_in Complete sid (t_id t) w'.1 ∧ not_in Pending sid (t_id t) w'.1).
Proof.
  unfold mark_running. revert w. induction batch as [|t batch IH]; intros w Hwf Hnd Hn.
  { exists w. split_and!; [done..|by apply advances_same|set_solver]. }
  cbn in Hnd. apply NoDup_cons in Hnd as [Ht Hnd].
  cbn [mfor]. unfold mbind, on_redis at 1.
  destruct (update_status_incomplete sid (t_id t) Running "" w.1) as (r1 & -> & Hwf1 & Ha & Hp & Hc);
    [done..|apply Hn; set_solver|].
  destruct (IH (r1, w.2) Hwf1 Hnd) as (w2 & -> & Hwf2 & Ha2 & Hb).
  { intros t' Ht'. eapply advances_not_complete; [done|set_solver|]. apply Hn. set_solver. }
  exists w2. split_and!; [done..| |].
  - by apply (advances_trans _ [] [] _ r1).
  - intros t' [->|]%elem_of_cons; [|auto]. split.
    + eapply advances_not_complete; [done|set_solver|done].
    + by eapply advances_not_pending.
Qed.

Lemma run_round_spec sid batch w :
  plan_wf sid w.1 → NoDup (task_ids batch) →
  (∀ t, t ∈ batch → not_in Complete sid (t_id t) w.1) →
  ∃ w' recs, round sid batch w = (w', Ok recs) ∧ plan_wf sid w'.1 ∧ er_task <$> recs = batch ∧
    advances sid (complete_ids recs) w.1 w'.1 ∧
    (∀ t, t ∈ batch → not_in Pending sid (t_id t) w'.1).
Proof.
  intros Hwf Hnd Hn. unfold run_round, mbind.
  destruct (mark_running_spec sid batch w Hwf Hnd Hn) as (w1 & -> & Hwf1 & Ha1 & Hb1).
  destruct (run_batch_spec sid batch w1 Hwf1 Hnd) as (w2 & xs & -> & Hwf2 & Ha2 & Hxs);
    [naive_solver|].
  destruct (settle_spec sid batch xs w2 Hwf2 Hxs) as (w3 & recs & -> & Hwf3 & Ha3 & Hr & Hc); [|done|].
  { intros t Ht Hd. eapply advances_not_complete; [done..|]. naive_solver. }
  exists w3, recs. split_and!; [done..| |].
  - rewrite Hc, <-(app_nil_r (batch_done batch xs)). eapply (advances_trans _ ([] ++ batch_done batch xs)); [|done].
    by eapply advances_trans.
  - intros t Ht. eapply advances_not_pending; [done|]. eapply advances_not_pending; [done|]. naive_solver.
Qed.

(** ** The loop *)

(** The tasks still pending bound the rounds to come. *)
Definition pending (sid : string) (r : R) : nat := count_status Pending (_all_tasks r sid).

Lemma pending_count sid r :
  pending sid r =
  count_if (λ x, bool_decide (t_status <$> _load_task r sid x = Some Pending)) (_all_task_ids r sid).
Proof.
  unfold pending, count_status, _all_tasks. induction (_all_task_ids r sid) as [|x l IH]; [done|].
  cbn. rewrite count_if_cons. destruct (_load_task r sid x) as [t|]; cbn.
  - rewrite count_if_cons, IH. repeat case_bool_decide; simplify_eq/=; congruence.
  - done.
Qed.

Lemma not_pending_spec sid x r :
  not_in Pending sid x r ↔ t_status <$> _load_task r sid x ≠ Some Pending.
Proof.
  unfold not_in. destruct (_load_task r sid x) as [t|]; cbn; [|done]. split.
  - intros Hn [= Hs]. by apply (Hn t).
  - intros Hn t' [= <-] Hs. apply Hn. congruence.
Qed.

(** A round takes every task of its batch out of the pending ones. *)
Lemma pending_round sid C r r' batch :
  plan_wf sid r → advances sid C r r' → NoDup (task_ids batch) →
  (∀ t, t ∈ batch → t ∈ _all_tasks r sid ∧ t_status t = Pending) →
  (∀ t, t ∈ batch → not_in Pending sid (t_id t) r') →
  length batch + pending sid r' ≤ pending sid r.
Proof.
  intros Hwf Ha Hnd Hin Hn. rewrite !pending_count, (adv_ids _ _ _ _ Ha).
  set (p := λ r x, bool_decide (t_status <$> _load_task r sid x = Some Pending)).
  replace (length batch) with (length (task_ids batch)) by apply length_fmap.
  set (q := λ x, bool_decide (x ∈ task_ids batch)).
  transitivity (count_if q (_all_task_ids r sid) + count_if (p r') (_all_task_ids r sid)).
  - apply Nat.add_le_mono_r. unfold count_if, q.
    apply submseteq_length, NoDup_submseteq; [done|]. intros x Hx. apply filter_In_elem.
    split; [|by apply bool_decide_eq_true]. apply list_elem_of_fmap in Hx as (t & -> & Ht).
    destruct (Hin t Ht) as [(y & Hy & Hl)%elem_of_all_tasks _]. by rewrite (wf_load _ _ Hwf _ _ Hl).
  - apply count_if_disjoint_le; intros x Hx; unfold p, q; intros Hb; breflect.
    + apply list_elem_of_fmap in Hb as (t & -> & Ht). split.
      * destruct (Hin t Ht) as [(y & Hy & Hl)%elem_of_all_tasks Hs]. apply bool_decide_eq_true.
        rewrite (wf_load _ _ Hwf _ _ Hl), Hl. cbn. by rewrite Hs.
      * apply bool_decide_eq_false. rewrite <-not_pending_spec. auto.
    + apply bool_decide_eq_true.
      destruct (decide (t_status <$> _load_task r sid x = Some Pending)) as [|Hny]; [done|].
      rewrite <-not_pending_spec in Hny. eapply advances_not_pending in Hny; [|done].
      by rewrite not_pending_spec in Hny.
Qed.

(** Every dependency of an executed task was complete before it ran: in the
    store the loop started from, or by an earlier record. *)
Definition ordered (sid : string) (r0 : R) (recs : list exec_record) : Prop :=
  ∀ i rec d, recs !! i = Some rec → d ∈ task_deps (er_task rec) →
    (∃ t, t ∈ _all_tasks r0 sid ∧ t_id t = d ∧ t_status t = Complete) ∨
    ∃ j rec', j < i ∧ recs !! j = Some rec' ∧ t_id (er_task rec') = d ∧ er_status rec' = ExComplete.

Definition executed_ids (recs : list exec_record) : list string := (t_id ∘ er_task) <$> recs.

Lemma complete_ids_lookup recs d :
  d ∈ complete_ids recs →
  ∃ j rec, recs !! j = Some rec ∧ t_id (er_task rec) = d ∧ er_status rec = ExComplete.
Proof.
  intros (rec & -> & [Hr Hs]%filter_In_elem)%list_elem_of_fmap. breflect.
  apply list_elem_of_lookup in Hr as [j Hj]. eauto.
Qed.

Lemma ordered_app sid r0 r recs new :
  ordered sid r0 recs → advances sid (complete_ids recs) r0 r → plan_wf sid r →
  (∀ rec, rec ∈ new → er_task rec ∈ get_ready_tasks sid r) → ordered sid r0 (recs ++ new).
Proof.
  intros Ho Ha Hwf Hnew i rec d Hi Hd. apply lookup_app_Some in Hi as [Hi|[Hle Hi]].
  - destruct (Ho i rec d Hi Hd) as [|(j & rec' & ? & Hj & ?)]; [auto|]. right.
    exists j, rec'. split_and!; [done| |naive_solver..]. by apply lookup_app_l_Some.
  - apply list_elem_of_lookup_2 in Hi. apply Hnew, elem_of_ready in Hi as (_ & _ & Hdeps).
    destruct (Hdeps d Hd) as (t' & Ht' & Hid & Hs). apply elem_of_all_tasks in Ht' as (x & Hx & Hl).
    rewrite (wf_load _ _ Hwf _ _ Hl) in Hid. subst x.
    pose proof (adv_task _ _ _ _ Ha d) as Hlt. rewrite Hl in Hlt.
    destruct (_load_task r0 sid d) as [t0|] eqn:E; [|done]. destruct Hlt as (Hid0&_&_&_&_&Hc&_).
    rewrite (adv_ids _ _ _ _ Ha) in Hx. rewrite (wf_load _ _ Hwf _ _ Hl) in Hid0.
    destruct (Hc Hs) as [|Hin].
    { left. exists t0. split_and!; [apply elem_of_all_tasks; eauto|done|done]. }
    right.
    apply complete_ids_lookup in Hin as (j & rec' & Hj & ? & ?).
    exists j, rec'. split_and!; [|by apply lookup_app_l_Some|done..].
    apply lookup_lt_Some in Hj. lia.
Qed.

Record loop_inv (sid : string) (r0 : R) (recs : list exec_record) (r : R) : Prop := {
  li_wf : plan_wf sid r;
  li_adv : advances sid (complete_ids recs) r0 r;
  li_ordered : ordered sid r0 recs;
  li_once : NoDup (executed_ids recs);
  li_pending x : x ∈ executed_ids recs → not_in Pending sid x r;
  li_fresh x : x ∈ executed_ids recs → ¬ not_in Pending sid x r0
}.

Lemma loop_inv_init sid r : plan_wf sid r → loop_inv sid r [] r.
Proof.
  intros Hwf. split; [done|by apply advances_same|by intros ? ? ? ?|constructor|..];
    intros x Hx; by apply not_elem_of_nil in Hx.
Qed.

Lemma loop_inv_round sid r0 recs new batch w w' :
  loop_inv sid r0 recs w.1 → batch `sublist_of` get_ready_tasks sid w.1 →
  er_task <$> new = batch → plan_wf sid w'.1 →
  advances sid (complete_ids new) w.1 w'.1 →
  (∀ t, t ∈ batch → not_in Pending sid (t_id t) w'.1) →
  loop_inv sid r0 (recs ++ new) w'.1.
Proof.
  intros [Hwf Ha Ho Hnd Hp Hfr] Hsub Hb Hwf' Ha' Hnp.
  assert (Hready : ∀ t, t ∈ batch → t ∈ get_ready_tasks sid w.1).
  { intros t Ht. eapply elem_of_submseteq; [done|]. by apply sublist_submseteq. }
  assert (Hids : executed_ids new = task_ids batch).
  { unfold executed_ids, task_ids. rewrite <-Hb. by rewrite list_fmap_compose. }
  assert (Hpend : ∀ t, t ∈ batch → _load_task w.1 sid (t_id t) = Some t ∧ t_status t = Pending).
  { intros t Ht%Hready. apply elem_of_ready in Ht as (Ht & Hs & _).
    apply elem_of_all_tasks in Ht as (y & _ & Hl). by rewrite (wf_load _ _ Hwf _ _ Hl), Hl. }
  split; [done| | | | |].
  - rewrite complete_ids_app. by eapply advances_trans.
  - eapply ordered_app; [done..|]. intros rec Hrec. apply Hready. rewrite <-Hb.
    by apply list_elem_of_fmap_2.
  - unfold executed_ids in *. rewrite fmap_app. rewrite Hids. apply NoDup_app. split_and!; [done| |].
    + intros x Hx (t & -> & Ht)%list_elem_of_fmap.
      destruct (Hpend t Ht). by apply (Hp _ Hx t).
    + by apply (ready_sublist_NoDup sid w.1).
  - intros x. unfold executed_ids in *. rewrite fmap_app, elem_of_app, Hids.
    intros [Hx|(t & -> & Ht)%list_elem_of_fmap]; [|auto].
    eapply advances_not_pending; [done|auto].
  - intros x. unfold executed_ids in *. rewrite fmap_app, elem_of_app, Hids.
    intros [Hx|(t & -> & Ht)%list_elem_of_fmap] Hn; [by apply (Hfr x)|].
    destruct (Hpend t Ht). eapply advances_not_pending in Hn; [|done]. by apply (Hn t).
Qed.

Context (MAXP : nat).
Local Abbreviation loop := (execute_loop TTL MAXP worker_id).

Lemma loop_spec sid r0 fuel recs w :
  1 ≤ MAXP → loop_inv sid r0 recs w.1 → pending sid w.1 ≤ fuel →
  ∃ w' recs', loop fuel sid recs w = (w', Ok recs') ∧ loop_inv sid r0 recs' w'.1 ∧
    get_ready_tasks sid w'.1 = [] ∧ length recs' + pending sid w'.1 ≤ length recs + pending sid w.1.
Proof.
  intros HM. revert recs w. induction fuel as [|fuel IH]; intros recs w Hi Hf;
    pose proof (li_wf _ _ _ _ Hi) as Hwf; cbn [execute_loop];
    destruct (get_ready_tasks sid w.1) as [|t ready] eqn:Hr; [by eauto 10| |by eauto 10|].
  - exfalso. assert (t ∈ get_ready_tasks sid w.1) as (Ht & Hs & _)%elem_of_ready.
    { rewrite Hr. set_solver. }
    assert (0 < pending sid w.1); [|lia]. eapply count_if_pos; [done|by apply bool_decide_eq_true].
  - set (batch := take MAXP (t :: ready)).
    assert (Hsub : batch `sublist_of` get_ready_tasks sid w.1).
    { rewrite Hr. apply sublist_take. }
    assert (Hin : ∀ t', t' ∈ batch → t' ∈ _all_tasks w.1 sid ∧ t_status t' = Pending).
    { intros t' Ht'. assert (t' ∈ get_ready_tasks sid w.1) as (? & ? & _)%elem_of_ready; [|done].
      eapply elem_of_submseteq; [done|]. by apply sublist_submseteq. }
    assert (Ht : t ∈ batch). { unfold batch. destruct MAXP; [lia|]. set_solver. }
    destruct (run_round_spec sid batch w Hwf) as (w1 & new & Hrd & Hwf1 & Hnew & Ha1 & Hnp).
    { by apply (ready_sublist_NoDup sid w.1). }
    { intros t' (Ht' & Hs)%Hin t2 Hl. apply elem_of_all_tasks in Ht' as (x & _ & Hx).
      rewrite (wf_load _ _ Hwf _ _ Hx), Hx in Hl.
      injection Hl as <-. by rewrite Hs. }
    pose proof (loop_inv_round _ _ _ _ _ _ _ Hi Hsub Hnew Hwf1 Ha1 Hnp) as Hi1.
    destruct (Hin t Ht) as [Htt Hs].
    pose proof (pending_round _ _ _ _ _ Hwf Ha1 (ready_sublist_NoDup _ _ _ Hwf Hsub) Hin Hnp) as Hlt.
    assert (Hlen : length new = length batch) by (rewrite <-Hnew; by rewrite length_fmap).
    assert (0 < length batch) by (destruct batch; [set_solver|simpl; lia]).
    destruct (IH (recs ++ new) w1 Hi1) as (w2 & recs' & Hl & Hi2 & Hr2 & Hc2); [lia|].
    exists w2, recs'. unfold mbind. rewrite Hrd, Hl. rewrite length_app in Hc2.
    split_and!; [done..|lia].
Qed.
End execution.
