(* ===== verification/TaskQueueProps.v ===== *)
(** * The task queue: properties

    [load_plan] against the DAG specification, the execution of a loaded plan
    (termination, order, at most one run per task, success), the leases, and
    what is left behind by a failure, a crash and a held lease. *)

From S2P Require Import Prelude PyStr Models Utils Redis Interfaces Dag TaskQueue TaskQueueFacts TaskQueueExec.
Local Open Scope string_scope.
Local Open Scope list_scope.
Local Open Scope nat_scope.
Local Open Scope py_scope.

(** ** Loading *)

Section load.
Context {R : Type} `{RedisLaws R}.
Implicit Types r : R.

Definition stored_under_id (sid : string) (r : R) : Prop :=
  ∀ tid t, _load_task r sid tid = Some t → t_id t = tid.

(** What [clear_plan] leaves of the old plan. *)
Lemma foldl_del_keys sid ids r k :
  r_key (foldl (λ r tid, r_del (_lease_key sid tid) (r_del (_task_key sid tid) r)) r ids) k =
  if decide (k ∈ _task_key sid <$> ids) then None
  else if decide (k ∈ _lease_key sid <$> ids) then None else r_key r k.
Proof.
  revert r. induction ids as [|x ids IH]; intros r; simpl; [done|].
  rewrite IH, !key_del. cbn. repeat case_decide; set_solver.
Qed.

Lemma clear_key sid r k :
  r_key (clear_plan sid r) k =
  if decide (k = _list_key sid) then None
  else if decide (k ∈ _task_key sid <$> _all_task_ids r sid) then None
  else if decide (k ∈ _lease_key sid <$> _all_task_ids r sid) then None else r_key r k.
Proof. unfold clear_plan. by rewrite key_del, foldl_del_keys. Qed.

Lemma clear_load sid r tid :
  _load_task (clear_plan sid r) sid tid =
  if decide (tid ∈ _all_task_ids r sid) then None else _load_task r sid tid.
Proof.
  unfold _load_task, r_get. rewrite clear_key, decide_False by apply task_key_ne_list_key.
  rewrite (decide_ext _ (tid ∈ _all_task_ids r sid)) by apply (list_elem_of_fmap_inj _).
  case_decide; [done|]. rewrite decide_False; [done|].
  intros (x & He & _)%list_elem_of_fmap. by apply task_key_ne_lease_key in He.
Qed.

Lemma clear_ids sid r : _all_task_ids (clear_plan sid r) sid = [].
Proof. unfold _all_task_ids, r_lrange. by rewrite clear_key, decide_True. Qed.

Lemma clear_lease sid r tid :
  r_key (clear_plan sid r) (_lease_key sid tid) =
  if decide (tid ∈ _all_task_ids r sid) then None else r_key r (_lease_key sid tid).
Proof.
  rewrite clear_key, decide_False by apply lease_key_ne_list_key.
  rewrite decide_False.
  - by rewrite (decide_ext _ (tid ∈ _all_task_ids r sid)) by apply (list_elem_of_fmap_inj _).
  - intros (x & He & _)%list_elem_of_fmap. by apply lease_key_ne_task_key in He.
Qed.

Lemma push_key sid t l r k :
  as_list (r_key r (_list_key sid)) = Some l →
  r_key (push_task sid r t) k =
    if decide (k = _list_key sid) then Some (DList (l ++ [t_id t]))
    else if decide (k = _task_key sid (t_id t)) then Some (DString (VTask (with_status Pending t)))
    else r_key r k.
Proof.
  intros Hl. unfold push_task, _save_task. rewrite (key_rpush _ _ l).
  - by rewrite key_set.
  - rewrite key_set, decide_False; [done|]. apply list_key_ne_task_key.
Qed.

(** The first task of the list with an id. *)
Definition find_task (x : string) (ts : list task) : option task :=
  List.find (λ t, bool_decide (t_id t = x)) ts.

Lemma push_all sid ts l r :
  as_list (r_key r (_list_key sid)) = Some l → NoDup (task_ids ts) →
  let r' := foldl (push_task sid) r ts in
  _all_task_ids r' sid = l ++ task_ids ts ∧
  (∀ x, _load_task r' sid x =
     match find_task x ts with Some t => Some (with_status Pending t) | None => _load_task r sid x end) ∧
  (∀ x, r_key r' (_lease_key sid x) = r_key r (_lease_key sid x)).
Proof.
  revert l r. induction ts as [|t ts IH]; intros l r Hl Hnd; cbn [foldl].
  { unfold _all_task_ids, r_lrange, task_ids. cbn. rewrite app_nil_r. split_and!; [|done..].
    destruct (r_key r (_list_key sid)) as [[]|]; by simplify_eq/=. }
  cbn in Hnd. apply NoDup_cons in Hnd as [Ht Hnd].
  destruct (IH (l ++ [t_id t]) (push_task sid r t)) as (Hi & Hld & Hle); [|done|].
  { by rewrite (push_key _ _ l), decide_True. }
  split_and!.
  - rewrite Hi. unfold task_ids. cbn. by rewrite <-app_assoc.
  - intros x. rewrite Hld. unfold find_task. cbn [List.find].
    destruct (List.find _ ts) as [t'|] eqn:E.
    + apply List.find_some in E as [Hin Hx]. breflect. rewrite bool_decide_eq_false_2; [done|].
      intros <-. apply Ht, list_elem_of_fmap. exists t'. by rewrite list_elem_of_In.
    + unfold _load_task, r_get. rewrite (push_key _ _ l) by done.
      rewrite decide_False by apply task_key_ne_list_key.
      case_bool_decide as Hx; [by rewrite Hx, decide_True|].
      rewrite decide_False; [done|]. by intros ?%(inj _).
  - intros x. rewrite Hle, (push_key _ _ l) by done.
    rewrite !decide_False; [done|apply lease_key_ne_task_key|apply lease_key_ne_list_key].
Qed.

Lemma find_task_some x ts t : find_task x ts = Some t → t ∈ ts ∧ t_id t = x.
Proof. intros [? ?]%List.find_some. breflect. by rewrite list_elem_of_In. Qed.

Lemma omap_find ts ts0 (f : task → task) :
  NoDup (task_ids ts0) → ts ⊆ ts0 →
  omap (λ x, f <$> find_task x ts0) (task_ids ts) = f <$> ts.
Proof.
  intros Hnd. induction ts as [|t ts IH]; intros Hsub; [done|].
  cbn. assert (Hf : find_task (t_id t) ts0 = Some t).
  { assert (t ∈ ts0) as Hin by set_solver. clear -Hnd Hin. unfold find_task.
    induction ts0 as [|t0 ts0 IH]; [set_solver|]. cbn in *. apply NoDup_cons in Hnd as [Ht Hnd].
    apply elem_of_cons in Hin as [->|Hin]; [by rewrite bool_decide_eq_true_2|].
    rewrite bool_decide_eq_false_2; [auto|]. intros He. apply Ht. rewrite He.
    by apply list_elem_of_fmap_2. }
  rewrite Hf. cbn. f_equal. apply IH. set_solver.
Qed.

(** The store after a plan was accepted. *)
Lemma load_plan_ok sid ts r :
  stored_under_id sid r → valid_dag ts →
  ∃ r', load_plan sid ts r = (r', Ok (length ts)) ∧ plan_wf sid r' ∧
    _all_tasks r' sid = (with_status Pending <$> ts) ∧
    (∀ x, r_key r' (_lease_key sid x) =
       if decide (x ∈ _all_task_ids r sid) then None else r_key r (_lease_key sid x)) ∧
    (∀ x, _load_task r' sid x =
       match find_task x ts with
       | Some t => Some (with_status Pending t)
       | None => if decide (x ∈ _all_task_ids r sid) then None else _load_task r sid x
       end).
Proof.
  intros Hst Hv. unfold load_plan.
  assert (_validate_dag ts = Ok tt) as -> by (apply validate_ok; done).
  destruct Hv as (Hnd & _ & _ & _).
  destruct (push_all sid ts [] (clear_plan sid r)) as (Hi & Hl & Hle); [|done|].
  { by rewrite clear_key, decide_True. }
  eexists. split_and!; [done| | | |].
  - split; [by rewrite Hi|]. intros x t. rewrite Hl. destruct (find_task x ts) as [t'|] eqn:E.
    + apply find_task_some in E as [_ <-]. by intros [= <-].
    + rewrite clear_load. case_decide; [done|]. apply Hst.
  - unfold _all_tasks. rewrite Hi, <-(omap_find ts ts) by done. cbn.
    apply list_omap_ext, Forall_Forall2_diag, Forall_forall. intros x Hx. rewrite Hl.
    destruct (find_task x ts) eqn:E; [done|]. exfalso.
    apply list_elem_of_fmap in Hx as (t & -> & Ht). apply list_elem_of_In in Ht.
    eapply List.find_none in E; [|done]. by case_bool_decide.
  - intros x. by rewrite Hle, clear_lease.
  - intros x. by rewrite Hl, clear_load.
Qed.
End load.

(** ** Executing a plan when every agent succeeds *)

Section success.
Context {R A : Type} `{RedisLaws R} `{!AgentRunner R A} `{!PatchSink R A}
        `{!AgentRunnerLaws R A} `{!PatchSinkLaws R A}.
Context (TTL : Z) (MAXP : nat) (worker_id : string → string).
Implicit Types (r : R) (w : R * A).

Definition agents_succeed : Prop :=
  ∀ role desc sid w, ∃ w' x, spawn_and_run role desc sid w = (w', Ok x) ∧ ar_status x = Done.

Definition runnable (t : task) : Prop := is_Some (t_role t) ∧ is_Some (t_desc t).

(** The store after the tasks of [ids] went to status [s], nothing else of
    the session having changed, leases included. *)
Record moved (sid : string) (s : task_status) (ids : list string) (r r' : R) : Prop := {
  mv_ids : _all_task_ids r' sid = _all_task_ids r sid;
  mv_other x : x ∉ ids → _load_task r' sid x = _load_task r sid x;
  mv_in x : x ∈ ids →
    match _load_task r sid x, _load_task r' sid x with
    | Some t, Some t' => t_status t' = s ∧ t_id t' = t_id t ∧ t_role t' = t_role t ∧
                         t_desc t' = t_desc t ∧ t_deps t' = t_deps t
    | None, None => True
    | _, _ => False
    end;
  mv_lease x : r_key r' (_lease_key sid x) = r_key r (_lease_key sid x)
}.

Lemma moved_nil sid s r : moved sid s [] r r.
Proof. split; try done. set_solver. Qed.

Lemma moved_trans sid s s' ids ids' r r' r'' :
  moved sid s ids r r' → moved sid s' ids' r' r'' → ids ⊆ ids' → moved sid s' ids' r r''.
Proof.
  intros [Hi Ho Hin Hl] [Hi' Ho' Hin' Hl'] Hsub. split; [congruence| | |congruence].
  - intros x Hx. rewrite Ho', Ho; [done|set_solver|done].
  - intros x Hx. specialize (Hin' x Hx). destruct (decide (x ∈ ids)) as [Hx'|Hx'].
    + specialize (Hin x Hx'). destruct (_load_task r sid x), (_load_task r' sid x),
        (_load_task r'' sid x); try done. naive_solver congruence.
    + rewrite <-(Ho x Hx'). done.
Qed.

Lemma moved_cons sid s x ids r r' r'' :
  moved sid s [x] r r' → moved sid s ids r' r'' → x ∉ ids → moved sid s (x :: ids) r r''.
Proof.
  intros [Hi Ho Hin Hl] [Hi' Ho' Hin' Hl'] Hx. split; [congruence| | |congruence].
  - intros y Hy. rewrite Ho', Ho; [done|set_solver..].
  - intros y [->|Hy]%elem_of_cons.
    + rewrite Ho' by done. apply Hin. set_solver.
    + rewrite <-(Ho y) by set_solver. by apply Hin'.
Qed.

(** Only the lease of [tid] may differ. *)
Lemma moved_update sid tid s result r :
  plan_wf sid r → s ≠ Failed →
  ∃ r', update_status sid tid s result r = (r', Ok tt) ∧ moved sid s [tid] r r'.
Proof.
  intros Hwf Hs. destruct (update_status_spec sid tid s result r Hwf)
    as (r' & B & Hu & _ & Hi & Hl & HB & _). rewrite HB in Hl by done.
  exists r'. split; [done|]. split; [done| | |].
  - intros x Hx. rewrite Hl, decide_False by set_solver. by rewrite decide_False by set_solver.
  - intros x ->%list_elem_of_singleton. rewrite Hl, decide_True by done.
    destruct (_load_task r sid tid) as [t|]; [|done]. cbn.
    pose proof (updated_plan s result t). naive_solver.
  - intros x. unfold update_status in Hu. destruct (_load_task r sid tid) as [t|]; [|by simplify_eq].
    rewrite bool_decide_eq_false_2 in Hu by done. injection Hu as <-. unfold _save_task.
    apply key_set_ne, lease_key_ne_task_key.
Qed.

(** Equal tasks and equal leases. *)
Lemma moved_frame sid s r r' :
  (∀ k, is_task_key k = true → r_key r' k = r_key r k) → moved sid s [] r r'.
Proof.
  intros Hk. destruct (same_tasks_keys sid r r') as [Hl Hi]; [auto|].
  split; [done|auto|set_solver|]. intros x. apply Hk, lease_key_is_task.
Qed.

Lemma auto_apply_frame sid t output w k :
  is_task_key k = true →
  r_key (_auto_apply_patches sid t output w).1.1 k = r_key w.1 k.
Proof.
  intros Hk. unfold _auto_apply_patches. do 2 (case_match; [done|]).
  assert (HP : PreOrder (λ w w' : R * A, r_key w'.1 k = r_key w.1 k)).
  { split; [done|]. intros ???. congruence. }
  apply (mmap_rel (λ w w', r_key w'.1 k = r_key w.1 k)). intros diff w' _.
  unfold mtry, mbind, mret.
  pose proof (enqueue_frame diff (t_id t) (t_id t) sid
                (patch_description t (default "None" (t_role t))) w' k Hk) as Hf.
  by destruct (pq_enqueue _ _ _ _ _ w') as [w'' [d|e]].
Qed.

Lemma run_single_success sid t w :
  agents_succeed → plan_wf sid w.1 → runnable t →
  r_key w.1 (_lease_key sid (t_id t)) = None → not_in Complete sid (t_id t) w.1 →
  ∃ w' rec, _run_single_task TTL worker_id sid t w = (w', Ok rec) ∧
    er_status rec = ExComplete ∧ er_task rec = t ∧ moved sid Complete [t_id t] w.1 w'.1.
Proof.
  intros Hd Hwf [[role Hrole] [desc Hdesc]] Hlease Hn. unfold _run_single_task, mbind, on_redis.
  pose proof (setnx_result (_lease_key sid (t_id t)) (VStr (worker_id (t_id t))) TTL w.1) as Hres.
  pose proof (same_tasks_acquire TTL sid (t_id t) (worker_id (t_id t)) w.1) as Hs.
  unfold _acquire_task_lease in *.
  pose proof (λ k, key_setnx (_lease_key sid (t_id t)) (VStr (worker_id (t_id t))) TTL w.1 k) as Hk.
  destruct (r_setnx _ _ _ w.1) as [r1 b]. cbn in Hres, Hs, Hk.
  rewrite bool_decide_eq_true_2 in Hres by done. subst b. cbn. rewrite Hrole, Hdesc.
  assert (Hwf1 : plan_wf sid r1) by by eapply plan_wf_same.
  unfold mfinally, run_leased_task, mbind.
  destruct (Hd role desc sid (r1, w.2)) as (w2 & x & Hsp & Hdone).
  pose proof (spawn_frame role desc sid (r1, w.2)) as Hf. rewrite Hsp in *. cbn in Hf.
  pose proof (auto_apply_frame sid t (default "" (ar_result x)) w2) as Hf'.
  destruct (auto_apply_ok sid t (default "" (ar_result x)) w2) as (w3 & l & Hl). rewrite Hl in *.
  cbn in Hf'. rewrite (bool_decide_eq_true_2 _ Hdone). unfold on_redis.
  assert (H13 : moved sid Complete [] r1 w3.1).
  { apply moved_frame. intros k Hkk. by rewrite Hf', Hf. }
  assert (Hwf3 : plan_wf sid w3.1).
  { eapply plan_wf_same; [|done]. split; [|apply H13]. intros y. apply H13. set_solver. }
  destruct (moved_update sid (t_id t) Complete (default "" (ar_result x)) w3.1 Hwf3)
    as (r4 & -> & Hm); [done|]. eexists _, _. split_and!; [done..|]. cbn.
  assert (Hm' : moved sid Complete [t_id t] r1 r4) by (eapply moved_trans; [done..|set_solver]).
  destruct Hm' as [Hi Ho Hin Hle], Hs as [Hs1 Hs2].
  destruct (same_tasks_release sid (t_id t) r4) as [Hr1 Hr2].
  split; [congruence| | |].
  - intros y Hy. by rewrite Hr1, Ho, Hs1.
  - intros y Hy. rewrite Hr1, <-Hs1. by apply Hin.
  - intros y. unfold _release_task_lease. rewrite key_del.
    destruct (decide (y = t_id t)) as [->|Hy]; [by rewrite decide_True|].
    rewrite decide_False by (by intros ?%(inj _)). rewrite Hle, Hk, decide_False; [done|].
    by intros [?%(inj _) _].
Qed.

Lemma moved_not_in sid s s' ids r r' x :
  moved sid s ids r r' → s ≠ s' → not_in s' sid x r → not_in s' sid x r'.
Proof.
  intros Hm Hs Hn t Hl. destruct (decide (x ∈ ids)) as [Hx|Hx].
  - pose proof (mv_in _ _ _ _ _ Hm x Hx) as Hin. rewrite Hl in Hin.
    destruct (_load_task r sid x); naive_solver.
  - rewrite (mv_other _ _ _ _ _ Hm x Hx) in Hl. by apply Hn.
Qed.

Lemma moved_wf sid s ids r r' : moved sid s ids r r' → plan_wf sid r → plan_wf sid r'.
Proof.
  intros Hm [Hnd Hl]. split; [by rewrite (mv_ids _ _ _ _ _ Hm)|]. intros x t Hx.
  destruct (decide (x ∈ ids)) as [Hin|Hin].
  - apply (mv_in _ _ _ _ _ Hm) in Hin. rewrite Hx in Hin.
    destruct (_load_task r sid x) as [t0|] eqn:E; [|done]. apply Hl in E. naive_solver.
  - rewrite (mv_other _ _ _ _ _ Hm x Hin) in Hx. auto.
Qed.

Lemma mark_running_moved sid batch w :
  plan_wf sid w.1 → NoDup (task_ids batch) →
  ∃ w', mark_running sid batch w = (w', Ok tt) ∧ moved sid Running (task_ids batch) w.1 w'.1.
Proof.
  unfold mark_running. revert w. induction batch as [|t batch IH]; intros w Hwf Hnd.
  { exists w. split; [done|apply moved_nil]. }
  cbn in Hnd. apply NoDup_cons in Hnd as [Ht Hnd]. cbn [mfor]. unfold mbind, on_redis at 1.
  destruct (moved_update sid (t_id t) Running "" w.1 Hwf) as (r1 & -> & Hm); [done|].
  destruct (IH (r1, w.2)) as (w2 & -> & Hm2); [by eapply moved_wf|done|].
  exists w2. split; [done|]. by eapply moved_cons.
Qed.

Lemma run_batch_success sid batch w :
  agents_succeed → plan_wf sid w.1 → NoDup (task_ids batch) →
  (∀ t, t ∈ batch → runnable t ∧ r_key w.1 (_lease_key sid (t_id t)) = None ∧
                    not_in Complete sid (t_id t) w.1) →
  ∃ w' recs, run_batch TTL worker_id sid batch w = (w', Ok (Ok <$> recs)) ∧
    er_task <$> recs = batch ∧ Forall (λ e, er_status e = ExComplete) recs ∧
    moved sid Complete (task_ids batch) w.1 w'.1.
Proof.
  unfold run_batch. intros Hd. revert w. induction batch as [|t batch IH]; intros w Hwf Hnd Hb.
  { exists w, []. split_and!; [done..|apply moved_nil]. }
  cbn in Hnd. apply NoDup_cons in Hnd as [Ht Hnd]. cbn [mmap]. unfold mbind at 1, mtry, mbind at 1.
  destruct (Hb t ltac:(set_solver)) as (Hr & Hl & Hc).
  destruct (run_single_success sid t w Hd Hwf Hr Hl Hc) as (w1 & rec & -> & Hst & Hrt & Hm).
  destruct (IH w1) as (w2 & recs & Hrun & Hrs & Hall & Hm2); [by eapply moved_wf|done| |].
  { intros t' Ht'. destruct (Hb t' ltac:(set_solver)) as (? & ? & Hc'). split_and!; [done| |].
    - by rewrite (mv_lease _ _ _ _ _ Hm).
    - intros t2. rewrite (mv_other _ _ _ _ _ Hm); [by apply Hc'|].
      intros He%list_elem_of_singleton. apply Ht. rewrite <-He. by apply list_elem_of_fmap_2. }
  exists w2, (rec :: recs). unfold mret, mtry, mbind in *. rewrite Hrun.
  split_and!; [done|by rewrite fmap_cons, Hrt, Hrs|by constructor|by eapply moved_cons].
Qed.

Lemma settle_ok sid batch recs w :
  length batch = length recs →
  mmap (λ p, settle (A:=A) sid p.1 p.2) (zip batch (Ok <$> recs)) w = (w, Ok recs).
Proof.
  revert batch. induction recs as [|rec recs IH]; intros [|t batch]; try done.
  intros [=Hl]. cbn [fmap list_fmap zip zip_with mmap fst snd settle]. unfold mbind, mret.
  cbn in IH. by rewrite IH.
Qed.

Lemma run_round_success sid batch w :
  agents_succeed → plan_wf sid w.1 → NoDup (task_ids batch) →
  (∀ t, t ∈ batch → runnable t ∧ r_key w.1 (_lease_key sid (t_id t)) = None) →
  ∃ w' recs, run_round TTL worker_id sid batch w = (w', Ok recs) ∧
    moved sid Complete (task_ids batch) w.1 w'.1.
Proof.
  intros Hd Hwf Hnd Hb. unfold run_round, mbind.
  destruct (mark_running_moved sid batch w Hwf Hnd) as (w1 & -> & Hm1).
  destruct (run_batch_success sid batch w1 Hd) as (w2 & recs & -> & Hrs & _ & Hm2);
    [by eapply moved_wf|done| |].
  { intros t Ht. destruct (Hb t Ht) as [? ?]. split_and!; [done|by rewrite (mv_lease _ _ _ _ _ Hm1)|].
    intros t2 Hl. pose proof (mv_in _ _ _ _ _ Hm1 (t_id t)) as Hin. rewrite Hl in Hin.
    destruct (_load_task w.1 sid (t_id t)); [|by destruct Hin; apply list_elem_of_fmap_2].
    destruct Hin as [-> _]; [by apply list_elem_of_fmap_2|done]. }
  rewrite settle_ok by (rewrite <-Hrs; apply length_fmap).
  exists w2, recs. split; [done|]. by eapply moved_trans.
Qed.

(** Between two rounds: every task is pending or complete, can run, and its
    lease is free. *)
Definition settled (sid : string) (r : R) : Prop :=
  ∀ t, t ∈ _all_tasks r sid →
    (t_status t = Pending ∨ t_status t = Complete) ∧ runnable t ∧
    r_key r (_lease_key sid (t_id t)) = None.

Lemma settled_round sid ids r r' :
  plan_wf sid r → settled sid r → moved sid Complete ids r r' → settled sid r'.
Proof.
  intros Hwf Hs Hm t (x & Hx & Hl)%elem_of_all_tasks.
  rewrite (mv_ids _ _ _ _ _ Hm) in Hx.
  rewrite (wf_load _ _ (moved_wf _ _ _ _ _ Hm Hwf) _ _ Hl), (mv_lease _ _ _ _ _ Hm).
  destruct (decide (x ∈ ids)) as [Hin|Hin].
  - pose proof (mv_in _ _ _ _ _ Hm x Hin) as Hi. rewrite Hl in Hi.
    destruct (_load_task r sid x) as [t0|] eqn:E; [|done].
    destruct (Hs t0) as (_ & Hr & Hle); [apply elem_of_all_tasks; eauto|].
    rewrite (wf_load _ _ Hwf _ _ E) in Hle. unfold runnable in *.
    destruct Hi as (-> & _ & -> & -> & _). auto.
  - rewrite (mv_other _ _ _ _ _ Hm x Hin) in Hl.
    destruct (Hs t) as (? & ? & Hle); [apply elem_of_all_tasks; eauto|].
    by rewrite (wf_load _ _ Hwf _ _ Hl) in Hle.
Qed.

Lemma loop_settled sid fuel recs w w' recs' :
  agents_succeed → plan_wf sid w.1 → settled sid w.1 →
  execute_loop TTL MAXP worker_id fuel sid recs w = (w', Ok recs') → settled sid w'.1.
Proof.
  intros Hd. revert recs w. induction fuel as [|fuel IH]; intros recs w Hwf Hs;
    cbn [execute_loop]; destruct (get_ready_tasks sid w.1) as [|t ready] eqn:Hr; try by intros [= <- <-].
  set (batch := take MAXP (t :: ready)).
  assert (Hsub : batch `sublist_of` get_ready_tasks sid w.1) by (rewrite Hr; apply sublist_take).
  destruct (run_round_success sid batch w Hd Hwf) as (w1 & new & Hrd & Hm).
  { by apply (ready_sublist_NoDup sid w.1). }
  { intros t' Ht'. assert (t' ∈ get_ready_tasks sid w.1) as (Hin & _)%elem_of_ready.
    { eapply elem_of_submseteq; [done|]. by apply sublist_submseteq. }
    by apply Hs in Hin as (_ & ? & ?). }
  unfold mbind. rewrite Hrd. apply IH; [by eapply moved_wf|by eapply settled_round].
Qed.

(** With no task ready, acyclic dependencies leave nothing pending. *)
Lemma settled_complete sid ts r0 C r :
  valid_dag ts → plan_wf sid r0 → _all_tasks r0 sid = (with_status Pending <$> ts) →
  advances sid C r0 r → settled sid r → get_ready_tasks sid r = [] →
  ∀ t, t ∈ _all_tasks r sid → t_status t = Complete.
Proof.
  intros (Hnd & Hex & Hac & _) Hwf0 Hts Ha Hs Hready.
  pose proof (adv_wf _ _ _ _ Ha Hwf0) as Hwf.
  assert (Horig : ∀ x t, x ∈ _all_task_ids r sid → _load_task r sid x = Some t →
            ∃ t0, t0 ∈ ts ∧ t_id t0 = x ∧ t_deps t = t_deps t0).
  { intros x t Hx Hl. pose proof (adv_task _ _ _ _ Ha x) as Hlt. rewrite Hl in Hlt.
    destruct (_load_task r0 sid x) as [t1|] eqn:E; [|done].
    assert (t1 ∈ _all_tasks r0 sid) as Hin.
    { apply elem_of_all_tasks. rewrite (adv_ids _ _ _ _ Ha) in Hx. eauto. }
    rewrite Hts in Hin. apply list_elem_of_fmap in Hin as (t0 & -> & Hin).
    exists t0. split_and!; [done| |by apply Hlt]. by apply (wf_load _ _ Hwf0) in E. }
  assert (Hlisted : ∀ x, x ∈ task_ids ts →
            ∃ t, x ∈ _all_task_ids r sid ∧ _load_task r sid x = Some t).
  { intros x (t0 & -> & Ht0)%list_elem_of_fmap.
    assert (with_status Pending t0 ∈ _all_tasks r0 sid) as (x & Hx & Hl)%elem_of_all_tasks.
    { rewrite Hts. by apply list_elem_of_fmap_2. }
    pose proof (wf_load _ _ Hwf0 _ _ Hl) as Hid. cbn in Hid. subst x.
    pose proof (adv_task _ _ _ _ Ha (t_id t0)) as Hlt. rewrite Hl in Hlt.
    destruct (_load_task r sid (t_id t0)) as [t|] eqn:E; [|done].
    exists t. by rewrite (adv_ids _ _ _ _ Ha). }
  assert (Hall : ∀ x, x ∈ task_ids ts → ∃ t, t ∈ _all_tasks r sid ∧ t_id t = x ∧ t_status t = Complete).
  { intros x. induction (acyclic_sn ts x Hex Hac) as [x _ IH]. intros Hx.
    destruct (Hlisted x Hx) as (t & Hxi & Hl).
    assert (Hin : t ∈ _all_tasks r sid) by (apply elem_of_all_tasks; eauto).
    exists t. split_and!; [done|by apply (wf_load _ _ Hwf)|].
    destruct (Hs t Hin) as ([Hp|] & _); [exfalso|done].
    cut (t ∈ get_ready_tasks sid r); [rewrite Hready; set_solver|].
    apply elem_of_ready. split_and!; [done..|]. intros d Hd.
    destruct (Horig x t Hxi Hl) as (t0 & Ht0 & Hid & Hdeps).
    assert (d ∈ task_deps t0) by (unfold task_deps, deps_of in *; by rewrite <-Hdeps).
    apply IH; [|by eapply Hex]. unfold flip, dep_edge. apply elem_of_edges. eauto. }
  intros t Ht. pose proof Ht as (x & Hx & Hl)%elem_of_all_tasks.
  destruct (Horig x t Hx Hl) as (t0 & Ht0 & Hid & _).
  destruct (Hall x) as (t' & Ht' & Hid' & Hc); [subst x; by apply list_elem_of_fmap_2|].
  apply elem_of_all_tasks in Ht' as (y & _ & Hy). rewrite (wf_load _ _ Hwf _ _ Hy) in Hid'.
  subst y. congruence.
Qed.
End success.

Lemma elapse_wf {R} `{RedisLaws R} sid n r :
  (0 ≤ n)%Z → plan_wf sid r → plan_wf sid (r_elapse n r).
Proof.
  intros Hn [Hnd Hl]. assert (Hk : ∀ k, r_key (r_elapse n r) k = r_key r k ∨ r_key (r_elapse n r) k = None).
  { intros k. rewrite key_elapse by done. destruct (r_ttl r k); [case_decide|]; auto. }
  split.
  - unfold _all_task_ids, r_lrange in *. destruct (Hk (_list_key sid)) as [->| ->]; [done|constructor].
  - intros x t. unfold _load_task, r_get in *. destruct (Hk (_task_key sid x)) as [->| ->]; [apply Hl|done].
Qed.

(** The dict of an enqueued patch always has an "error" entry. *)
Lemma patch_ok_false p : patch_ok p = false.
Proof. apply bool_decide_eq_false. destruct p; set_solver. Qed.

Lemma patches_none_ok l : count_if patch_ok l = 0.
Proof. apply count_if_zero. intros x _. apply patch_ok_false. Qed.

(** ** Properties *)

Section properties.
Context {R A : Type} `{RedisLaws R} `{!AgentRunner R A} `{!PatchSink R A}
        `{!AgentRunnerLaws R A} `{!PatchSinkLaws R A}.
Context (TTL : Z) (MAXP : nat) (worker_id : string → string).
Implicit Types (r : R) (w : R * A).

(** Loading a valid plan replaces the session's tasks by the given ones, all
    pending; an invalid plan is refused and leaves the session without
    tasks. *)
Theorem load_plan_correct sid ts r :
  stored_under_id sid r →
  (valid_dag ts →
     ∃ r', load_plan sid ts r = (r', Ok (length ts)) ∧ plan_wf sid r' ∧
       _all_tasks r' sid = (with_status Pending <$> ts)) ∧
  (¬ valid_dag ts →
     ∃ r' msg e, (e = ValueError msg ∨ e = TypeError msg) ∧ load_plan sid ts r = (r', Raise e) ∧ _all_tasks r' sid = []).
Proof.
  intros Hst. split.
  - intros Hv. destruct (load_plan_ok sid ts r Hst Hv) as (r' & ? & ? & ? & _). eauto.
  - intros Hv. destruct (validate_dag_spec ts) as [[? _]|(_ & msg & He)]; [done|].
    exists (clear_plan sid r), msg.
    assert (_all_tasks (clear_plan sid r) sid = []) by (unfold _all_tasks; by rewrite clear_ids).
    unfold load_plan. destruct He as [-> | ->]; eauto.
Qed.

(** C7: The loop of [execute_plan] ends: with at least one worker slot and as
    much fuel as there are pending tasks it returns a result, no task is
    ready any more, and it ran at most one record per pending task. *)
Theorem execute_plan_terminates sid fuel w :
  1 ≤ MAXP → plan_wf sid w.1 → pending sid w.1 ≤ fuel →
  ∃ w' p, execute_plan TTL MAXP worker_id fuel sid w = (w', Ok p) ∧
    get_ready_tasks sid w'.1 = [] ∧ plan_wf sid w'.1 ∧
    pr_executed p + pr_remaining p ≤ pending sid w.1.
Proof.
  intros HM Hwf Hf. destruct (loop_spec TTL worker_id MAXP sid w.1 fuel [] w HM)
    as (w' & recs & Hl & Hi & Hr & Hc); [by apply loop_inv_init|done|].
  eexists w', _. unfold execute_plan, mbind. rewrite Hl. cbn.
  split_and!; [done|done|apply Hi|]. exact Hc.
Qed.

(** The order of execution, and that nothing is left to run. *)
Lemma execute_plan_ordered sid ts r r1 a :
  1 ≤ MAXP → stored_under_id sid r → load_plan sid ts r = (r1, Ok (length ts)) →
  ∃ w' p, execute_plan TTL MAXP worker_id (length ts) sid (r1, a) = (w', Ok p) ∧
    get_ready_tasks sid w'.1 = [] ∧ NoDup (executed_ids (pr_tasks p)) ∧
    ∀ i rec d, pr_tasks p !! i = Some rec → d ∈ task_deps (er_task rec) →
      ∃ j rec', j < i ∧ pr_tasks p !! j = Some rec' ∧
        t_id (er_task rec') = d ∧ er_status rec' = ExComplete.
Proof.
  intros HM Hst Hload. assert (Hv : valid_dag ts).
  { apply validate_ok. unfold load_plan in Hload. by destruct (_validate_dag ts) as [[]|]. }
  destruct (load_plan_ok sid ts r Hst Hv) as (r1' & Hload' & Hwf & Hall & _ & _).
  rewrite Hload in Hload'. injection Hload' as <-.
  assert (Hpend : ∀ t, t ∈ _all_tasks r1 sid → t_status t = Pending).
  { rewrite Hall. by intros t (t0 & -> & _)%list_elem_of_fmap. }
  destruct (loop_spec TTL worker_id MAXP sid r1 (length ts) [] (r1, a) HM)
    as (w' & recs & Hl & Hi & Hr & Hc); [by apply loop_inv_init| |].
  { unfold pending, count_status. cbn. rewrite Hall, <-(length_fmap (with_status Pending)).
    apply count_if_le_length. }
  eexists w', _. unfold execute_plan, mbind. rewrite Hl. cbn. split_and!; [done|done|apply Hi|].
  intros i rec d Hrec Hd. destruct (li_ordered _ _ _ _ Hi i rec d Hrec Hd) as [(t & Hin & _ & Hs)|]; [|done].
  apply Hpend in Hin. congruence.
Qed.

(** C1: A loaded plan is executed in dependency order: a task runs at most once,
    and only when a record of a completed run stands earlier in the trace for
    each of its dependencies. *)
Theorem execute_plan_in_order sid ts r r1 a :
  1 ≤ MAXP → stored_under_id sid r → load_plan sid ts r = (r1, Ok (length ts)) →
  ∃ w' p, execute_plan TTL MAXP worker_id (length ts) sid (r1, a) = (w', Ok p) ∧
    NoDup (executed_ids (pr_tasks p)) ∧
    ∀ i rec d, pr_tasks p !! i = Some rec → d ∈ task_deps (er_task rec) →
      ∃ j rec', j < i ∧ pr_tasks p !! j = Some rec' ∧
        t_id (er_task rec') = d ∧ er_status rec' = ExComplete.
Proof.
  intros HM Hst Hload. destruct (execute_plan_ordered sid ts r r1 a HM Hst Hload) as (w' & p & ? & _ & ? & ?).
  by exists w', p.
Qed.

(** When every agent run succeeds, the leases are free and the tasks carry a
    role and a description, nothing of the plan is left but complete tasks. *)
Lemma loaded_plan_completes sid ts r r1 a :
  1 ≤ MAXP → agents_succeed (R:=R) (A:=A) → stored_under_id sid r →
  load_plan sid ts r = (r1, Ok (length ts)) →
  (∀ t, t ∈ ts → runnable t ∧ r_key r (_lease_key sid (t_id t)) = None) →
  ∃ w' p, execute_plan TTL MAXP worker_id (length ts) sid (r1, a) = (w', Ok p) ∧
    (pr_complete p = length ts ∧ pr_failed p = 0 ∧ pr_blocked p = 0 ∧ pr_remaining p = 0 ∧
     (∀ t, t ∈ _all_tasks w'.1 sid → t_status t = Complete)) ∧
    plan_wf sid w'.1 ∧ (∀ t, t ∈ ts → ∃ t', t' ∈ _all_tasks w'.1 sid ∧ t_id t' = t_id t).
Proof.
  intros HM Hd Hst Hload Hts. assert (Hv : valid_dag ts).
  { apply validate_ok. unfold load_plan in Hload. by destruct (_validate_dag ts) as [[]|]. }
  destruct (load_plan_ok sid ts r Hst Hv) as (r1' & Hload' & Hwf & Hall & Hlease & _).
  rewrite Hload in Hload'. injection Hload' as <-.
  destruct (loop_spec TTL worker_id MAXP sid r1 (length ts) [] (r1, a) HM)
    as (w' & recs & Hl & Hi & Hr & _); [by apply loop_inv_init| |].
  { unfold pending, count_status. cbn. rewrite Hall, <-(length_fmap (with_status Pending)).
    apply count_if_le_length. }
  assert (Hsettled : settled sid w'.1).
  { eapply (loop_settled _ _ _ sid _ _ (r1, a)); [done|exact Hwf| |exact Hl]. cbn. unfold settled. rewrite Hall.
    intros t (t0 & -> & Ht0)%list_elem_of_fmap. destruct (Hts t0 Ht0) as [Hrun Hle].
    cbn. rewrite Hlease. split_and!; [auto|done|by case_decide]. }
  pose proof (settled_complete sid ts r1 _ w'.1 Hv Hwf Hall (li_adv _ _ _ _ Hi) Hsettled Hr) as Hc.
  assert (Hlen : length (_all_tasks w'.1 sid) = length ts).
  { rewrite (advances_length _ _ _ _ (li_adv _ _ _ _ Hi)), Hall. apply length_fmap. }
  eexists w', _. unfold execute_plan, mbind. rewrite Hl. cbn. unfold count_status.
  assert (Hz : ∀ s, s ≠ Complete → count_if (λ t, bool_decide (t_status t = s)) (_all_tasks w'.1 sid) = 0).
  { intros s Hs. apply count_if_zero. intros t Ht. apply bool_decide_eq_false. rewrite (Hc t Ht). congruence. }
  split; [done|]. split; [|split; [apply Hi|]].
  - split_and!; [|by apply Hz..|done]. rewrite <-Hlen. apply count_if_all.
    intros t Ht. by apply bool_decide_eq_true, Hc.
  - intros t Ht. assert (with_status Pending t ∈ _all_tasks r1 sid) as (x & Hx & Hlx)%elem_of_all_tasks.
    { rewrite Hall. apply list_elem_of_fmap. by exists t. }
    pose proof (adv_task _ _ _ _ (li_adv _ _ _ _ Hi) x) as Hlater. rewrite Hlx in Hlater.
    destruct (_load_task w'.1 sid x) as [t'|] eqn:E; [|done]. destruct Hlater as [Hid _].
    exists t'. split; [|by rewrite Hid]. apply elem_of_all_tasks. exists x. split; [|done].
    by rewrite (adv_ids _ _ _ _ (li_adv _ _ _ _ Hi)).
Qed.

(** C6: When every agent run succeeds, the leases are free and the tasks carry a
    role and a description, executing a loaded plan completes every task. *)
Theorem execute_plan_succeeds sid ts r r1 a :
  1 ≤ MAXP → agents_succeed (R:=R) (A:=A) → stored_under_id sid r →
  load_plan sid ts r = (r1, Ok (length ts)) →
  (∀ t, t ∈ ts → runnable t ∧ r_key r (_lease_key sid (t_id t)) = None) →
  ∃ w' p, execute_plan TTL MAXP worker_id (length ts) sid (r1, a) = (w', Ok p) ∧
    pr_complete p = length ts ∧ pr_failed p = 0 ∧ pr_blocked p = 0 ∧ pr_remaining p = 0 ∧
    (∀ t, t ∈ _all_tasks w'.1 sid → t_status t = Complete).
Proof.
  intros HM Hd Hst Hload Hts. destruct (loaded_plan_completes sid ts r r1 a HM Hd Hst Hload Hts) as (w' & p & ? & ? & _).
  by exists w', p.
Qed.

(** C8: A failure blocks exactly the pending or running tasks that depend on the
    failed one, directly or through other such tasks; every other task of
    the session keeps its state, and the propagation ends. *)
Theorem failure_blocks_dependents sid tid t result r :
  plan_wf sid r → _load_task r sid tid = Some t →
  ∃ r' (B : gset string), update_status sid tid Failed result r = (r', Ok tt) ∧
    (∀ x, x ∈ B ↔ blocked_by (_all_tasks r sid) tid x) ∧
    ∀ x, _load_task r' sid x =
      if decide (x = tid) then Some (updated Failed result t)
      else if decide (x ∈ B) then with_status Blocked <$> _load_task r sid x
      else _load_task r sid x.
Proof.
  intros Hwf Hl. unfold update_status. rewrite Hl. fold (updated Failed result t).
  set (r1 := _save_task sid (updated Failed result t) r).
  assert (Hid : t_id (updated Failed result t) = tid).
  { destruct (updated_plan Failed result t) as [-> _]. by apply (wf_load _ _ Hwf) in Hl. }
  assert (Hl1 : ∀ x, _load_task r1 sid x =
            if decide (x = tid) then Some (updated Failed result t) else _load_task r sid x).
  { intros x. unfold r1. by rewrite load_save, Hid. }
  assert (Hwf1 : plan_wf sid r1) by by apply plan_wf_save.
  destruct (propagate_spec sid tid r1 Hwf1) as (r2 & B & Hp & HB & Hl2 & _).
  exists r2, B. split; [by rewrite bool_decide_eq_true_2|].
  assert (HB' : ∀ x, x ∈ B ↔ blocked_by (_all_tasks r sid) tid x).
  { intros x. rewrite HB. apply blocked_by_ext; intros t' Hne; rewrite !elem_of_all_tasks;
      unfold r1; rewrite ids_save; fold r1; split; intros (y & Hy & Hly); exists y; (split; [done|]).
    - assert (y ≠ tid) by (rewrite <-(wf_load _ _ Hwf1 _ _ Hly); done).
      by rewrite Hl1, decide_False in Hly.
    - assert (y ≠ tid) by (rewrite <-(wf_load _ _ Hwf _ _ Hly); done).
      by rewrite Hl1, decide_False. }
  split; [done|]. intros x. rewrite Hl2, Hl1. destruct (decide (x = tid)) as [->|]; [|done].
  rewrite decide_False; [done|]. rewrite HB'. intros Hb. by inversion Hb.
Qed.

(** The lease of a task.  While somebody holds it the task is skipped:
    nothing is spawned and no key changes.  A task with a role and a
    description that gets it runs and gives it back on every path,
    exceptions included.  Without a role or description the exception
    leaves the lease behind, to expire after its time to live. *)
Theorem run_single_lease sid t w :
  let k := _lease_key sid (t_id t) in
  let '(w', x) := _run_single_task TTL worker_id sid t w in
  (r_key w.1 k ≠ None →
     x = Ok (ExecRecord t ExSkipped 0 0) ∧ w'.2 = w.2 ∧ ∀ k', r_key w'.1 k' = r_key w.1 k') ∧
  (r_key w.1 k = None → runnable t → r_key w'.1 k = None) ∧
  (r_key w.1 k = None → ¬ runnable t →
     (∃ m, x = Raise (KeyError m)) ∧ r_key w'.1 k ≠ None ∧ r_ttl w'.1 k = Some TTL).
Proof.
  cbn zeta. unfold _run_single_task, mbind, on_redis, _acquire_task_lease.
  set (k := _lease_key sid (t_id t)). set (v := VStr (worker_id (t_id t))).
  pose proof (setnx_result k v TTL w.1) as Hres.
  pose proof (λ k', key_setnx k v TTL w.1 k') as Hk.
  pose proof (ttl_setnx k v TTL w.1 k) as Ht.
  destruct (r_setnx k v TTL w.1) as [r1 b]. cbn in Hres, Hk, Ht. subst b. cbn.
  destruct (decide (r_key w.1 k = None)) as [Hn|Hn].
  - rewrite bool_decide_eq_true_2 by done. cbn. rewrite decide_True in Ht by done.
    specialize (Hk k). rewrite decide_True in Hk by done. unfold runnable.
    destruct (t_role t) as [role|], (t_desc t) as [desc|]; cbn.
    + unfold mfinally. destruct (run_leased_task _ _ _ _ _) as [w2 x]. cbn.
      split_and!; [done| |intros _ []; by eauto].
      intros _ _. unfold _release_task_lease. by rewrite key_del, decide_True.
    + split_and!; [done|by intros _ [_ [? ?]]|]. intros _ _. rewrite Hk. eauto.
    + split_and!; [done|by intros _ [[? ?] _]|]. intros _ _. rewrite Hk. eauto.
    + split_and!; [done|by intros _ [[? ?] _]|]. intros _ _. rewrite Hk. eauto.
  - rewrite bool_decide_eq_false_2 by done. cbn. split_and!; [|done..].
    intros _. split_and!; [done..|]. intros k'. rewrite Hk, decide_False by naive_solver. done.
Qed.

(** A task left [running] by a crash is never executed again, however long
    the orchestrator waits: its lease expires, but no later execution of the
    plan takes it. *)
Theorem running_task_never_retried sid tid t n fuel r a :
  1 ≤ MAXP → plan_wf sid r → _load_task r sid tid = Some t → t_status t = Running →
  r_ttl r (_task_key sid tid) = None →
  pending sid (r_elapse n r) ≤ fuel → (0 ≤ n)%Z →
  (∀ d, r_ttl r (_lease_key sid tid) = Some d → (d ≤ n)%Z → r_key (r_elapse n r) (_lease_key sid tid) = None) ∧
  ∃ w' p, execute_plan TTL MAXP worker_id fuel sid (r_elapse n r, a) = (w', Ok p) ∧
    (∀ rec, rec ∈ pr_tasks p → t_id (er_task rec) ≠ tid).
Proof.
  intros HM Hwf Hl Hs Httl Hf Hn. split.
  { intros d Hd Hle. rewrite key_elapse by done. rewrite Hd. by rewrite decide_True. }
  destruct (loop_spec TTL worker_id MAXP sid (r_elapse n r) fuel [] (r_elapse n r, a) HM)
    as (w' & recs & Hlp & Hi & _ & _); [by apply loop_inv_init, elapse_wf|done|].
  eexists w', _. unfold execute_plan, mbind. rewrite Hlp. cbn. split; [done|].
  intros rec Hrec Hid. apply (li_fresh _ _ _ _ Hi tid).
  { apply list_elem_of_fmap. exists rec. by rewrite <-Hid. }
  intros t' Hl'. assert (_load_task (r_elapse n r) sid tid = Some t) as He; [|congruence].
  unfold _load_task, r_get in *. rewrite key_elapse, Httl by done. done.
Qed.

(** No executed task ever reports an applied patch: [to_dict] always writes
    an "error" entry, and the counter takes the entry for a failure. *)
Theorem patches_applied_never_counted sid t w w' rec :
  _run_single_task TTL worker_id sid t w = (w', Ok rec) → er_patches_applied rec = 0.
Proof.
  unfold _run_single_task, mbind, on_redis. destruct (_acquire_task_lease _ _ _ _ _) as [r1 []]; cbn.
  2: { by intros [= <- <-]. }
  destruct (t_role t) as [role|]; [|done]. destruct (t_desc t) as [desc|]; [|done].
  unfold mfinally, run_leased_task, mbind.
  destruct (spawn_and_run _ _ _ _) as [w1 [x|]]; [|done].
  destruct (_auto_apply_patches _ _ _ _) as [w2 [l|]]; [|done].
  rewrite patches_none_ok. case_bool_decide; unfold on_redis;
    destruct (update_status _ _ _ _ _) as [r3 [[]|]]; by intros [= <- <-].
Qed.
End properties.

(** ** Concrete runs *)

Module Concrete.
(** An agent that always succeeds and counts its runs, and a patch queue that
    takes everything. *)
Instance runner : AgentRunner store nat :=
  {| spawn_and_run role desc sid w :=
       ((w.1, S w.2), Ok (AgentResult "a" role None (Some desc) Done None)) |}.
Instance sink : PatchSink store nat :=
  {| pq_wired := true;
     pq_enqueue diff aid tid sid desc w :=
       (w, Ok (PatchDict "p" aid tid sid desc PPending 0 None [] 0 0)) |}.
Instance runner_laws : AgentRunnerLaws store nat.
Proof. by split. Defined.
Instance sink_laws : PatchSinkLaws store nat.
Proof. by split. Defined.

Definition wid (t : string) : string := "w".
Definition tk (id : string) (deps : list string) : task :=
  Task id (Some "coder") (Some "do it") (DepsList deps) Pending None.
Definition plan : list task := [tk "b" ["a"]; tk "c" ["b"]; tk "a" []].

Lemma empty_stored sid : stored_under_id sid (∅ : store).
Proof. intros tid t. unfold _load_task, r_get. cbn. by rewrite lookup_empty. Qed.

Lemma empty_wf sid : plan_wf sid (∅ : store).
Proof.
  split; [|apply empty_stored]. unfold _all_task_ids, r_lrange. cbn. rewrite lookup_empty. constructor.
Qed.

Lemma plan_valid : valid_dag plan.
Proof. apply validate_ok. by vm_compute. Qed.

Definition loaded : store := (load_plan "s" plan (∅ : store)).1.
Lemma loaded_eq : load_plan "s" plan (∅ : store) = (loaded, Ok 3).
Proof. unfold loaded. by vm_compute. Qed.
Lemma loaded_wf : plan_wf "s" loaded.
Proof.
  destruct (load_plan_ok "s" plan (∅ : store) (empty_stored _) plan_valid) as (r' & Hl & Hwf & _).
  rewrite loaded_eq in Hl. by injection Hl as <-.
Qed.

Lemma load_plan_witness : stored_under_id "s" (∅ : store) ∧
  (valid_dag plan → ∃ r', load_plan "s" plan (∅ : store) = (r', Ok (length plan)) ∧ plan_wf "s" r' ∧
       _all_tasks r' "s" = (with_status Pending <$> plan)).
Proof. split; [apply empty_stored|apply (load_plan_correct "s" plan ∅ (empty_stored "s"))]. Defined.

Lemma terminates_witness :
  ∃ w' p, execute_plan 600 2 wid 3 "s" (loaded, 0) = (w', Ok p) ∧
    get_ready_tasks "s" w'.1 = [] ∧ plan_wf "s" w'.1 ∧ pr_executed p + pr_remaining p ≤ pending "s" loaded.
Proof.
  apply (execute_plan_terminates 600 2 wid "s" 3 (loaded, 0)); [lia|apply loaded_wf|].
  vm_compute. lia.
Defined.

Lemma in_order_witness :
  ∃ w' p, execute_plan 600 2 wid 3 "s" (loaded, 0) = (w', Ok p) ∧ NoDup (executed_ids (pr_tasks p)) ∧
    ∀ i rec d, pr_tasks p !! i = Some rec → d ∈ task_deps (er_task rec) →
      ∃ j rec', j < i ∧ pr_tasks p !! j = Some rec' ∧
        t_id (er_task rec') = d ∧ er_status rec' = ExComplete.
Proof.
  apply (execute_plan_in_order 600 2 wid "s" plan ∅ loaded 0); [lia|apply empty_stored|apply loaded_eq].
Defined.

Lemma succeeds_witness :
  ∃ w' p, execute_plan 600 2 wid 3 "s" (loaded, 0) = (w', Ok p) ∧ pr_complete p = 3 ∧
    pr_failed p = 0 ∧ pr_blocked p = 0 ∧ pr_remaining p = 0 ∧
    (∀ t, t ∈ _all_tasks w'.1 "s" → t_status t = Complete).
Proof.
  apply (execute_plan_succeeds 600 2 wid "s" plan ∅ loaded 0);
    [lia|intros ????; eauto|apply empty_stored|apply loaded_eq|].
  intros t Ht. unfold plan in Ht. rewrite !elem_of_cons in Ht.
  destruct Ht as [->|[->|[->|Ht]]]; [..|by apply not_elem_of_nil in Ht];
    (split; [split; eexists; reflexivity|reflexivity]).
Defined.

Lemma blocks_witness :
  ∃ r' (B : gset string), update_status "s" "a" Failed "boom" loaded = (r', Ok tt) ∧
    (∀ x, x ∈ B ↔ blocked_by (_all_tasks loaded "s") "a" x) ∧
    ∀ x, _load_task r' "s" x =
      if decide (x = "a") then Some (updated Failed "boom" (tk "a" []))
      else if decide (x ∈ B) then with_status Blocked <$> _load_task loaded "s" x
      else _load_task loaded "s" x.
Proof.
  apply (failure_blocks_dependents "s" "a" (tk "a" []) "boom" loaded loaded_wf). by vm_compute.
Defined.

(** The store of a session whose only task was running when the process died. *)
Definition crashed : store := (update_status "s" "a" Running "" loaded).1.

Lemma running_witness :
  ∃ w' p, execute_plan 600 2 wid 3 "s" (r_elapse 600 crashed, 0) = (w', Ok p) ∧
    (∀ rec, rec ∈ pr_tasks p → t_id (er_task rec) ≠ "a").
Proof.
  assert (Hw : plan_wf "s" crashed).
  { unfold crashed. destruct (update_status_spec "s" "a" Running "" loaded loaded_wf) as (r' & B & -> & ? & _).
    done. }
  apply (running_task_never_retried 600 2 wid "s" "a" (with_status Running (tk "a" [])) 600 3 crashed 0);
    [lia|done|by vm_compute|done|by vm_compute|vm_compute; lia|lia].
Defined.

Lemma lease_witness :
  r_key (_run_single_task 600 wid "s" (tk "a" []) (loaded, 0)).1.1 (_lease_key "s" "a") = None.
Proof.
  pose proof (run_single_lease 600 wid "s" (tk "a" []) (loaded, 0)) as Hl. cbn zeta in Hl.
  destruct (_run_single_task 600 wid "s" (tk "a" []) (loaded, 0)) as [w' x].
  destruct Hl as (_ & Hl & _). apply Hl; [by vm_compute|]. split; eexists; reflexivity.
Defined.

Lemma patches_witness :
  ∃ w' rec, _run_single_task 600 wid "s" (tk "a" []) (loaded, 0) = (w', Ok rec) ∧ er_patches_applied rec = 0.
Proof.
  destruct (_run_single_task 600 wid "s" (tk "a" []) (loaded, 0)) as [w' x] eqn:E.
  destruct x as [rec|e]; [|by vm_compute in E]. exists w', rec. split; [done|].
  by apply (patches_applied_never_counted 600 wid "s" (tk "a" []) (loaded, 0) w').
Defined.
End Concrete.
