(* ===== verification/TaskLease.v ===== *)
(** * Leases under concurrency (orchestrator/task_queue.py)

    Any number of executions of one task, in one process or in several, each
    between the acquisition of its lease and the release at its end, with time
    passing between the commands.  A step is one command of Redis, so the
    commands of the executions interleave in every order. *)

From S2P Require Import Prelude PyStr Models Utils Redis Interfaces Dag TaskQueue TaskQueueFacts.
Local Open Scope string_scope.
Local Open Scope list_scope.
Local Open Scope nat_scope.

(** What happens: an execution asks for the lease, or ends; seconds pass; the
    plan is loaded again; or a command that does not name the lease. *)
Inductive lease_event :=
  | Acquires (worker : string)
  | Releases (worker : string)
  | Elapses (seconds : Z)
  | Reloads
  | Others.

Section lease.
Context {R : Type} `{RedisLaws R} (TASK_LEASE_TTL : Z) (sid tid : string).
Local Abbreviation TTL := TASK_LEASE_TTL.
Local Abbreviation k := (_lease_key sid tid).

(** Redis, and the executions that run with how long they have run. *)
Local Abbreviation world := (R * gmap string Z)%type.

Inductive lease_step : world → lease_event → world → Prop :=
  | step_acquire worker r runs :
      runs !! worker = None → (_acquire_task_lease TTL sid tid worker r).2 = true →
      lease_step (r, runs) (Acquires worker) ((_acquire_task_lease TTL sid tid worker r).1, <[worker := 0%Z]> runs)
  | step_skip worker r runs :
      (_acquire_task_lease TTL sid tid worker r).2 = false →
      lease_step (r, runs) (Acquires worker) ((_acquire_task_lease TTL sid tid worker r).1, runs)
  | step_release worker age r runs :
      runs !! worker = Some age →
      lease_step (r, runs) (Releases worker) (_release_task_lease sid tid r, delete worker runs)
  | step_elapse n r runs :
      (0 ≤ n)%Z → lease_step (r, runs) (Elapses n) (r_elapse n r, (λ age, age + n)%Z <$> runs)
  | step_reload r runs :
      lease_step (r, runs) Reloads (_release_task_lease sid tid r, runs)
  | step_other r r' runs :
      r_key r' k = r_key r k → r_ttl r' k = r_ttl r k → lease_step (r, runs) Others (r', runs).

(** No execution lasts as long as its lease, and no plan is loaded while one
    runs. *)
Definition timely_event (w : world) (e : lease_event) : Prop :=
  match e with
  | Elapses n => map_Forall (λ _ age, (age + n < TTL)%Z) w.2
  | Reloads => w.2 = ∅
  | _ => True
  end.

Definition timely_step (w : world) (e : lease_event) (w' : world) : Prop := lease_step w e w' ∧ timely_event w e.

(** The one execution that runs holds the lease, for the rest of its time. *)
Definition lease_inv (w : world) : Prop :=
  map_Forall (λ worker age,
    w.2 = {[worker := age]} ∧ (0 ≤ age < TTL)%Z ∧
    r_key w.1 k = Some (DString (VStr worker)) ∧ r_ttl w.1 k = Some (TTL - age)%Z) w.2.

Lemma lease_inv_empty r : lease_inv (r, ∅).
Proof. apply map_Forall_empty. Qed.

(** The lease is free only when nothing runs. *)
Lemma lease_free r runs : lease_inv (r, runs) → r_key r k = None → runs = ∅.
Proof.
  intros Hi Hk. apply map_empty. intros worker. destruct (runs !! worker) as [age|] eqn:E; [|done].
  destruct (Hi _ _ E) as (_ & _ & Hk' & _). cbn in Hk'. congruence.
Qed.

Lemma acquire_free worker r :
  (_acquire_task_lease TTL sid tid worker r).2 = true → r_key r k = None.
Proof. unfold _acquire_task_lease. rewrite setnx_result. apply bool_decide_eq_true_1. Qed.

Lemma acquire_taken worker r :
  r_key r k = None →
  let r' := (_acquire_task_lease TTL sid tid worker r).1 in
  r_key r' k = Some (DString (VStr worker)) ∧ r_ttl r' k = Some TTL.
Proof.
  intros Hk. unfold _acquire_task_lease. cbn zeta. rewrite key_setnx, ttl_setnx.
  by rewrite !decide_True.
Qed.

Lemma acquire_refused worker r :
  (_acquire_task_lease TTL sid tid worker r).2 = false →
  let r' := (_acquire_task_lease TTL sid tid worker r).1 in
  r_key r' k = r_key r k ∧ r_ttl r' k = r_ttl r k.
Proof.
  unfold _acquire_task_lease. cbn zeta. rewrite setnx_result, key_setnx, ttl_setnx.
  intros Hk%bool_decide_eq_false_1. by rewrite !decide_False by naive_solver.
Qed.

Lemma lease_step_inv w e w' :
  (0 < TTL)%Z → lease_step w e w' → timely_event w e → lease_inv w → lease_inv w'.
Proof.
  intros Hpos Hs Ht Hi. destruct Hs as [worker r runs Hn Ha|worker r runs Ha|worker age r runs Hw|n r runs Hn|r runs|r r' runs Hk Hl].
  - pose proof (acquire_free _ _ Ha) as Hf. rewrite (lease_free _ _ Hi Hf).
    destruct (acquire_taken worker r Hf) as [Hk Hl].
    intros w' age Hw. cbn [fst snd] in *. rewrite insert_empty in *.
    apply lookup_singleton_Some in Hw as [<- <-]. rewrite Z.sub_0_r. split_and!; [done|lia|lia|done|done].
  - intros w' age Hw. destruct (acquire_refused worker r Ha) as [Hk Hl]. cbn [fst snd] in *.
    rewrite Hk, Hl. by apply Hi.
  - destruct (Hi _ _ Hw) as (Hr & _). cbn [snd] in Hr. subst runs. rewrite delete_singleton_eq. apply lease_inv_empty.
  - intros worker age Hw. cbn [fst snd timely_event] in *. rewrite lookup_fmap in Hw.
    destruct (runs !! worker) as [age0|] eqn:E; [|done]. injection Hw as <-.
    destruct (Hi _ _ E) as (Hr & Hage & Hk & Hl). cbn [fst snd] in *. pose proof (Ht _ _ E) as Hlt. cbn in Hlt.
    rewrite Hr, map_fmap_singleton. rewrite key_elapse, ttl_elapse, Hl by done.
    rewrite !decide_False by lia. split_and!; [done|lia|lia|done|f_equal; lia].
  - cbn in Ht. subst runs. apply lease_inv_empty.
  - intros w' age Hw. cbn [fst snd] in *. rewrite Hk, Hl. by apply Hi.
Qed.

(** C19: however the commands of any number of executions of a task interleave,
    while none lasts as long as its lease and no plan is loaded during one, at
    most one of them runs at a time, and it holds the lease for the rest of its
    time. *)
Theorem lease_mutual_exclusion r es r' runs :
  (0 < TTL)%Z → trace timely_step (r, ∅) es (r', runs) →
  (∀ a b, is_Some (runs !! a) → is_Some (runs !! b) → a = b) ∧
  ∀ worker age, runs !! worker = Some age →
    r_key r' k = Some (DString (VStr worker)) ∧ r_ttl r' k = Some (TTL - age)%Z.
Proof.
  intros Hpos Ht. assert (Hi : lease_inv (r', runs)).
  { eapply (trace_invariant timely_step lease_inv (λ _, True)); [|exact Ht|by apply Forall_true|apply lease_inv_empty].
    intros w e w' [Hs Hev] _. by apply lease_step_inv with (e := e). }
  split.
  - intros a b [x Ha] [y Hb]. destruct (Hi _ _ Ha) as (Hr & _). cbn in Hr. rewrite Hr in Hb.
    by apply lookup_singleton_Some in Hb as [-> _].
  - intros worker age Hw. destruct (Hi _ _ Hw) as (_ & _ & Hk & Hl). done.
Qed.

Lemma two_runs (a b : string) (x y : Z) : a ≠ b → <[b := y]> ({[a := x]} : gmap string Z) = {[a := x; b := y]}.
Proof. intros Hab. by rewrite <- (insert_empty a x), <- (insert_empty b y), insert_insert_ne. Qed.

Lemma acquires worker r runs :
  runs !! worker = None → r_key r k = None →
  ∃ r', lease_step (r, runs) (Acquires worker) (r', <[worker := 0%Z]> runs) ∧
    r_key r' k = Some (DString (VStr worker)) ∧ r_ttl r' k = Some TTL.
Proof.
  intros Hw Hk. eexists. split; [|by apply acquire_taken]. apply step_acquire; [done|].
  unfold _acquire_task_lease. rewrite setnx_result. by apply bool_decide_eq_true_2.
Qed.

(** An execution that lasts as long as its lease breaks it twice: a second
    one starts while it runs, and its end deletes the lease of the second, so
    that a third starts while the second runs. *)
Theorem late_release_frees_anothers_lease r a b c :
  (0 < TTL)%Z → r_key r k = None → a ≠ b → a ≠ c → b ≠ c →
  ∃ r1 r2,
    trace lease_step (r, ∅) [Acquires a; Elapses TTL; Acquires b] (r1, {[a := TTL; b := 0%Z]}) ∧
    trace lease_step (r1, {[a := TTL; b := 0%Z]}) [Releases a; Acquires c] (r2, {[b := 0%Z; c := 0%Z]}).
Proof.
  intros Hpos Hk Hab Hac Hbc.
  destruct (acquires a r ∅ (lookup_empty _) Hk) as (ra & Sa & Ka & La).
  set (re := r_elapse TTL ra). assert (Ke : r_key re k = None).
  { unfold re. rewrite key_elapse, La by lia. by rewrite decide_True by lia. }
  destruct (acquires b re {[a := TTL]}) as (rb & Sb & Kb & Lb); [by rewrite lookup_singleton_ne|done|].
  set (rr := _release_task_lease sid tid rb). assert (Kr : r_key rr k = None).
  { unfold rr, _release_task_lease. by rewrite key_del, decide_True. }
  destruct (acquires c rr {[b := 0%Z]}) as (rc & Sc & _ & _); [by rewrite lookup_singleton_ne|done|].
  exists rb, rc. split.
  - eapply trace_cons; [exact Sa|]. eapply trace_cons; [apply step_elapse; lia|].
    rewrite insert_empty, map_fmap_singleton. cbn [Z.add].
    eapply trace_cons; [exact Sb|]. rewrite two_runs by done. apply trace_nil.
  - eapply trace_cons; [apply (step_release a TTL); by rewrite lookup_insert_eq|].
    rewrite delete_insert_eq. rewrite delete_singleton_ne by done.
    eapply trace_cons; [exact Sc|]. rewrite two_runs by done. apply trace_nil.
Qed.

(** The commands of an execution on its task name other keys. *)
Lemma save_is_other t r runs :
  lease_step (r, runs) Others (_save_task sid t r, runs).
Proof.
  apply step_other; unfold _save_task; rewrite ?key_set, ?ttl_set, decide_False by apply lease_key_ne_task_key; done.
Qed.
End lease.

(** ** Concrete executions *)
Module Concrete.
Definition w1 : store := (_acquire_task_lease 600 "s" "t" "a" ∅).1.
Definition w2 : store := r_elapse 300 w1.
Definition w3 : store := (_acquire_task_lease 600 "s" "t" "b" w2).1.
Definition w4 : store := _release_task_lease "s" "t" w3.
Definition w5 : store := (_acquire_task_lease 600 "s" "t" "b" w4).1.

Lemma older : ({["a" := 300%Z]} : gmap string Z) = (λ age, age + 300)%Z <$> {["a" := 0%Z]}.
Proof. by rewrite map_fmap_singleton. Qed.
Lemma nobody : (∅ : gmap string Z) = delete "a" {["a" := 300%Z]}.
Proof. by rewrite delete_singleton_eq. Qed.

(** The second execution is refused while the first runs, and gets the lease
    afterwards. *)
Lemma exclusion_witness :
  r_key w5 (_lease_key "s" "t") = Some (DString (VStr "b")) ∧ r_ttl w5 (_lease_key "s" "t") = Some 600%Z.
Proof.
  destruct (lease_mutual_exclusion 600 "s" "t" ∅ [Acquires "a"; Elapses 300; Acquires "b"; Releases "a"; Acquires "b"]
              w5 {["b" := 0%Z]}) as [_ H]; [lia| |exact (H "b" 0%Z eq_refl)].
  apply (trace_cons (timely_step 600 "s" "t") _ _ (w1, {["a" := 0%Z]})); [split; [by apply (step_acquire 600 "s" "t" "a" ∅ ∅)|done]|].
  apply (trace_cons (timely_step 600 "s" "t") _ _ (w2, {["a" := 300%Z]})); [split; [rewrite older; by apply (step_elapse 600 "s" "t" 300 w1 {["a" := 0%Z]})|]|].
  { intros x age Hx. cbn [snd] in Hx. by apply lookup_singleton_Some in Hx as [_ <-]. }
  apply (trace_cons (timely_step 600 "s" "t") _ _ (w3, {["a" := 300%Z]})); [split; [by apply (step_skip 600 "s" "t" "b" w2 {["a" := 300%Z]})|done]|].
  apply (trace_cons (timely_step 600 "s" "t") _ _ (w4, ∅)); [split; [rewrite nobody at 1; by apply (step_release 600 "s" "t" "a" 300 w3 {["a" := 300%Z]})|done]|].
  apply (trace_cons (timely_step 600 "s" "t") _ _ (w5, {["b" := 0%Z]})); [split; [by apply (step_acquire 600 "s" "t" "b" w4 ∅)|done]|].
  apply trace_nil.
Defined.

Lemma late_witness :
  ∃ r1 r2 : store,
    trace (lease_step 600 "s" "t") (∅, ∅) [Acquires "a"; Elapses 600; Acquires "b"] (r1, {["a" := 600%Z; "b" := 0%Z]}) ∧
    trace (lease_step 600 "s" "t") (r1, {["a" := 600%Z; "b" := 0%Z]}) [Releases "a"; Acquires "c"] (r2, {["b" := 0%Z; "c" := 0%Z]}).
Proof. by apply (late_release_frees_anothers_lease 600 "s" "t" ∅ "a" "b" "c"). Defined.
End Concrete.
