(* ===== verification/AgentBus.v ===== *)
(** * The agent bus (orchestrator/agent_bus.py)

    The in-process queues of the sessions and the Redis channel.  A queue is an
    object: the dict [_queues] and the architect's generator hold references to
    it, so queues live in a heap and the dict maps a session to an address;
    after [cleanup_session] the generator still reads the old queue. *)

From S2P Require Import Prelude PyStr Models Redis Interfaces.
Local Open Scope string_scope.
Local Open Scope list_scope.
Local Open Scope nat_scope.

Definition _QUEUE_MAXSIZE : nat := 256.

(** [_ARCHITECT_EVENTS]. *)
Definition is_architect_event (t : ws_event_type) : bool :=
  match t with
  | WORK_COMPLETE | WORK_FAILED | PATCH_APPLIED | TEST_RESULT | DEBATE_POINT | INTERRUPT => true
  | TOKEN | STATUS => false
  end.

(** An [asyncio.Queue]; [None] is the sentinel. *)
Abbreviation bus_queue := (list (option ws_event)).

Record agent_bus := AgentBus {
  ab_heap : list bus_queue;
  _queues : gmap string nat;
  ab_channel : list (string * ws_event)   (* published on Redis, in order *)
}.

Definition empty_bus : agent_bus := AgentBus [] ∅ [].

(** ** Operations *)

Definition queue_at (b : agent_bus) (a : nat) : bus_queue := default [] (ab_heap b !! a).

Definition set_queue (a : nat) (q : bus_queue) (b : agent_bus) : agent_bus :=
  AgentBus (<[a := q]> (ab_heap b)) (_queues b) (ab_channel b).

Definition _get_queue (sid : string) (b : agent_bus) : agent_bus * nat :=
  match _queues b !! sid with
  | Some a => (b, a)
  | None =>
      let a := length (ab_heap b) in
      (AgentBus (ab_heap b ++ [[]]) (<[sid := a]> (_queues b)) (ab_channel b), a)
  end.

(** [q.put_nowait(x)]; a full queue drops the item, as both callers do. *)
Definition put_nowait (a : nat) (x : option ws_event) (b : agent_bus) : agent_bus :=
  if length (queue_at b a) <? _QUEUE_MAXSIZE then set_queue a (queue_at b a ++ [x]) b else b.

Section bus.
(** Whether the [PUBLISH] command succeeds; a failure is logged. *)
Context (redis_up : bool).

Definition redis_publish (sid : string) (ev : ws_event) (b : agent_bus) : agent_bus :=
  if redis_up
  then AgentBus (ab_heap b) (_queues b) (ab_channel b ++ [("bus:session:" +:+ sid, ev)])
  else b.

Definition publish (sid : string) (ev : ws_event) (b : agent_bus) : agent_bus :=
  if bool_decide (ev_type ev = TOKEN) then b
  else let '(b1, a) := _get_queue sid b in
       redis_publish sid ev (put_nowait a (Some ev) b1).
End bus.

#[export] Instance AgentBusEvents : EventBus agent_bus := { bus_publish := publish true }.

Definition cleanup_session (sid : string) (b : agent_bus) : agent_bus :=
  match _queues b !! sid with
  | None => b
  | Some a => put_nowait a None (AgentBus (ab_heap b) (delete sid (_queues b)) (ab_channel b))
  end.

(** The generator [subscribe_architect] runs until the queue is empty (it then
    waits in [q.get()]) or a sentinel ends it: what it yields, the queue it
    leaves, and whether it ended. *)
Fixpoint architect_loop (q : bus_queue) : list ws_event * bus_queue * bool :=
  match q with
  | [] => ([], [], false)
  | None :: q' => ([], q', true)
  | Some ev :: q' =>
      let '(out, rest, ended) := architect_loop q' in
      ((if is_architect_event (ev_type ev) then [ev] else []) ++ out, rest, ended)
  end.

Definition subscribe_architect (a : nat) (b : agent_bus) : agent_bus * list ws_event * bool :=
  let '(out, rest, ended) := architect_loop (queue_at b a) in (set_queue a rest b, out, ended).

(** A message of [pubsub.listen()]: its type, and its data when it is a valid
    [WSEvent]. *)
Record raw_msg := RawMsg { rm_type : string; rm_data : option ws_event }.

Definition is_ended_event (ev : ws_event) : bool :=
  bool_decide (ev_type ev = STATUS) && bool_decide (pl_lifecycle (ev_payload ev) = Some "ended").

Fixpoint subscribe_session (msgs : list raw_msg) : list ws_event :=
  match msgs with
  | [] => []
  | m :: msgs' =>
      if negb (bool_decide (rm_type m = "message")) then subscribe_session msgs'
      else match rm_data m with
           | None => subscribe_session msgs'
           | Some ev => ev :: (if is_ended_event ev then [] else subscribe_session msgs')
           end
  end.

(** ** The bus as a transition system *)

Inductive bus_step : agent_bus → agent_bus → Prop :=
  | step_publish up sid ev b : bus_step b (publish up sid ev b)
  | step_get_queue sid b : bus_step b (_get_queue sid b).1
  | step_subscribe a b : bus_step b (subscribe_architect a b).1.1
  | step_cleanup sid b : bus_step b (cleanup_session sid b).

Definition reachable (b : agent_bus) : Prop := rtc bus_step empty_bus b.

(** Sessions own distinct queues of the heap, none holds more than the maximum
    or a token event, and no token was published on Redis. *)
Record bus_inv (b : agent_bus) : Prop := {
  bi_addr sid a : _queues b !! sid = Some a → a < length (ab_heap b);
  bi_inj sid sid' a : _queues b !! sid = Some a → _queues b !! sid' = Some a → sid = sid';
  bi_len a : length (queue_at b a) ≤ _QUEUE_MAXSIZE;
  bi_token a ev : Some ev ∈ queue_at b a → ev_type ev ≠ TOKEN;
  bi_channel c ev : (c, ev) ∈ ab_channel b → ev_type ev ≠ TOKEN
}.

Lemma queue_at_set a q b a' :
  queue_at (set_queue a q b) a' = if decide (a' = a ∧ a < length (ab_heap b)) then q else queue_at b a'.
Proof.
  unfold queue_at, set_queue. cbn. destruct (decide (a < length (ab_heap b))) as [Hlt|Hge].
  - destruct (decide (a' = a)) as [->|Hne].
    + rewrite decide_True, list_lookup_insert_eq by done. done.
    + rewrite decide_False, list_lookup_insert_ne by naive_solver. done.
  - rewrite decide_False by naive_solver. by rewrite list_insert_ge by lia.
Qed.

Lemma queue_at_put a x b a' :
  queue_at (put_nowait a x b) a' =
  if decide (a' = a ∧ a < length (ab_heap b) ∧ length (queue_at b a) < _QUEUE_MAXSIZE)
  then queue_at b a ++ [x] else queue_at b a'.
Proof.
  unfold put_nowait. destruct (Nat.ltb_spec (length (queue_at b a)) _QUEUE_MAXSIZE).
  - rewrite queue_at_set. repeat case_decide; naive_solver.
  - rewrite decide_False; [done|]. naive_solver lia.
Qed.

Lemma put_rest a x b :
  _queues (put_nowait a x b) = _queues b ∧ ab_channel (put_nowait a x b) = ab_channel b ∧
  length (ab_heap (put_nowait a x b)) = length (ab_heap b).
Proof. unfold put_nowait. case_match; [|done]. cbn. by rewrite length_insert. Qed.

Lemma queue_at_get sid b a : queue_at (_get_queue sid b).1 a = queue_at b a.
Proof.
  unfold _get_queue, queue_at. destruct (_queues b !! sid); [done|]. cbn.
  destruct (decide (a < length (ab_heap b))) as [?|Hge]; [by rewrite lookup_app_l|].
  rewrite lookup_app_r, (lookup_ge_None_2 (ab_heap b) a) by lia.
  destruct (a - length (ab_heap b)) as [|[]]; done.
Qed.

Lemma get_queue_spec sid b :
  bus_inv b →
  let '(b1, a) := _get_queue sid b in
  bus_inv b1 ∧ _queues b1 !! sid = Some a ∧ a < length (ab_heap b1) ∧ ab_channel b1 = ab_channel b.
Proof.
  intros Hb. pose proof (queue_at_get sid b) as Hq. unfold _get_queue in *.
  destruct (_queues b !! sid) as [a|] eqn:E; [by pose proof (bi_addr _ Hb _ _ E)|].
  cbn in *. split_and!; [|by rewrite lookup_insert_eq|rewrite length_app; cbn; lia|done].
  split; cbn.
  - intros s a. rewrite length_app. destruct (decide (s = sid)) as [->|]; simpl_map.
    + intros [= <-]. cbn. lia.
    + intros Hs%(bi_addr _ Hb). cbn. lia.
  - intros s s' a. destruct (decide (s = sid)) as [->|], (decide (s' = sid)) as [->|]; simpl_map; try done.
    + intros [= <-] Hs%(bi_addr _ Hb). lia.
    + intros Hs%(bi_addr _ Hb) [= <-]. lia.
    + apply Hb.
  - intros a. rewrite Hq. apply Hb.
  - intros a ev. rewrite Hq. apply Hb.
  - apply Hb.
Qed.

Lemma put_inv a x b :
  bus_inv b → (∀ ev, x = Some ev → ev_type ev ≠ TOKEN) → bus_inv (put_nowait a x b).
Proof.
  intros Hb Hx. destruct (put_rest a x b) as (Hq & Hc & Hl). split.
  - rewrite Hq, Hl. apply Hb.
  - rewrite Hq. apply Hb.
  - intros a'. rewrite queue_at_put. case_decide as Hd; [|apply Hb]. rewrite length_app. cbn [length]. lia.
  - intros a' ev. rewrite queue_at_put. case_decide as Hd; [|apply Hb].
    rewrite elem_of_app, list_elem_of_singleton. intros [Hin|He]; [by apply (bi_token _ Hb a)|auto].
  - rewrite Hc. apply Hb.
Qed.

Lemma architect_loop_rest q :
  let '(_, rest, _) := architect_loop q in
  length rest ≤ length q ∧ ∀ x, x ∈ rest → x ∈ q.
Proof.
  induction q as [|[ev|] q IH]; cbn; [done| |].
  - destruct (architect_loop q) as [[out rest] ended]. split; [lia|set_solver].
  - split; [lia|set_solver].
Qed.

Lemma bus_step_inv b b' : bus_inv b → bus_step b b' → bus_inv b'.
Proof.
  intros Hb Hs. destruct Hs as [up sid ev b|sid b|a b|sid b].
  - unfold publish. case_bool_decide as Ht; [done|].
    pose proof (get_queue_spec sid b Hb) as Hg. destruct (_get_queue sid b) as [b1 a].
    destruct Hg as (Hb1 & _ & _ & _). assert (Hp : bus_inv (put_nowait a (Some ev) b1)).
    { apply put_inv; [done|]. by intros ? [= <-]. }
    unfold redis_publish. destruct up; [|done]. destruct Hp. split; cbn; try done.
    intros c e. rewrite elem_of_app, list_elem_of_singleton. naive_solver.
  - pose proof (get_queue_spec sid b Hb) as Hg. destruct (_get_queue sid b). apply Hg.
  - unfold subscribe_architect. pose proof (architect_loop_rest (queue_at b a)) as Hr.
    destruct (architect_loop (queue_at b a)) as [[out rest] ended]. destruct Hr as [Hl Hin]. cbn.
    split; cbn; try apply Hb.
    + intros s a'. rewrite length_insert. apply Hb.
    + intros a'. rewrite queue_at_set. case_decide; [|apply Hb]. etrans; [done|apply Hb].
    + intros a' ev. rewrite queue_at_set. case_decide; [|apply Hb].
      intros He%Hin. by apply (bi_token _ Hb a).
  - unfold cleanup_session. destruct (_queues b !! sid) as [a|]; [|done]. apply put_inv; [|done].
    split; cbn; try apply Hb.
    + intros s a' [_ ?]%lookup_delete_Some. by apply (bi_addr _ Hb s).
    + intros s s' a' [_ ?]%lookup_delete_Some [_ ?]%lookup_delete_Some. by apply (bi_inj _ Hb s s' a').
Qed.

Lemma empty_bus_inv : bus_inv empty_bus.
Proof.
  assert (Hq : ∀ a, queue_at empty_bus a = []) by (intros []; done).
  split; cbn; intros *; rewrite ?lookup_empty, ?Hq; cbn; [done..|lia|set_solver|set_solver].
Qed.

Lemma reachable_inv b : reachable b → bus_inv b.
Proof.
  unfold reachable. intros Hr. remember empty_bus as b0 eqn:E.
  assert (Hb : bus_inv b0) by (subst; apply empty_bus_inv). clear E.
  induction Hr as [|b1 b2 b3 Hs _ IH]; [done|]. apply IH. by eapply bus_step_inv.
Qed.

(** ** Delivery *)

Definition publish_all (up : bool) (sid : string) (evs : list ws_event) (b : agent_bus) : agent_bus :=
  foldl (λ b ev, publish up sid ev b) b evs.

Definition bus_events (evs : list ws_event) : list ws_event :=
  List.filter (λ ev, negb (bool_decide (ev_type ev = TOKEN))) evs.

Definition architect_events (evs : list ws_event) : list ws_event :=
  List.filter (λ ev, is_architect_event (ev_type ev)) evs.

Lemma redis_publish_rest up sid ev b :
  _queues (redis_publish up sid ev b) = _queues b ∧
  (∀ a, queue_at (redis_publish up sid ev b) a = queue_at b a) ∧
  length (ab_heap (redis_publish up sid ev b)) = length (ab_heap b).
Proof. unfold redis_publish. by destruct up. Qed.

(** One publication to a session whose queue is at [a]. *)
Lemma publish_queue up sid ev b a :
  bus_inv b → _queues b !! sid = Some a →
  let b' := publish up sid ev b in
  bus_inv b' ∧ _queues b' !! sid = Some a ∧
  queue_at b' a = (if bool_decide (ev_type ev = TOKEN) then queue_at b a
                   else take _QUEUE_MAXSIZE (queue_at b a ++ [Some ev])).
Proof.
  intros Hb Ha. cbn zeta. split; [eapply bus_step_inv; [done|constructor]|].
  unfold publish. case_bool_decide as Ht; [done|]. unfold _get_queue. rewrite Ha.
  destruct (redis_publish_rest up sid ev (put_nowait a (Some ev) b)) as (-> & Hq & _).
  destruct (put_rest a (Some ev) b) as (-> & _ & _). split; [done|].
  rewrite Hq, queue_at_put. pose proof (bi_len _ Hb a) as Hlen.
  destruct (decide (length (queue_at b a) < _QUEUE_MAXSIZE)) as [Hlt|Hge].
  - rewrite decide_True by (pose proof (bi_addr _ Hb _ _ Ha); done).
    rewrite take_ge; [done|]. rewrite length_app. cbn [length]. lia.
  - rewrite decide_False by naive_solver. rewrite take_app_le by lia. by rewrite take_ge by lia.
Qed.

Lemma publish_all_queue up sid evs b a :
  bus_inv b → _queues b !! sid = Some a →
  let b' := publish_all up sid evs b in
  bus_inv b' ∧ _queues b' !! sid = Some a ∧
  queue_at b' a = take _QUEUE_MAXSIZE (queue_at b a ++ (Some <$> bus_events evs)).
Proof.
  unfold publish_all. revert b. induction evs as [|ev evs IH]; intros b Hb Ha; cbn [foldl].
  - cbn zeta. cbn [bus_events List.filter fmap list_fmap]. rewrite app_nil_r, take_ge; [done|]. apply Hb.
  - destruct (publish_queue up sid ev b a Hb Ha) as (Hb1 & Ha1 & Hq1).
    destruct (IH _ Hb1 Ha1) as (Hb2 & Ha2 & Hq2). split_and!; [done..|].
    rewrite Hq2, Hq1. unfold bus_events. cbn [List.filter]. case_bool_decide; cbn [negb]; [done|].
    rewrite take_take_app. by rewrite <-app_assoc.
Qed.

Lemma architect_loop_events evs :
  architect_loop ((Some <$> evs) ++ [None]) = (architect_events evs, [], true) ∧
  architect_loop (Some <$> evs) = (architect_events evs, [], false).
Proof.
  induction evs as [|ev evs [IH1 IH2]]; cbn in *; [done|]. rewrite IH1, IH2.
  unfold architect_events. cbn. by destruct (is_architect_event (ev_type ev)).
Qed.

Lemma cleanup_queue sid b a :
  bus_inv b → _queues b !! sid = Some a →
  queue_at (cleanup_session sid b) a = take _QUEUE_MAXSIZE (queue_at b a ++ [None]).
Proof.
  intros Hb Ha. unfold cleanup_session. rewrite Ha, queue_at_put.
  change (queue_at (AgentBus (ab_heap b) (delete sid (_queues b)) (ab_channel b)) a) with (queue_at b a).
  cbn [ab_heap]. pose proof (bi_len _ Hb a) as Hlen. pose proof (bi_addr _ Hb _ _ Ha).
  destruct (decide (length (queue_at b a) < _QUEUE_MAXSIZE)) as [Hlt|Hge].
  - rewrite decide_True by done. rewrite take_ge; [done|]. rewrite length_app. cbn [length]. lia.
  - rewrite decide_False by naive_solver. rewrite take_app_le by lia. by rewrite take_ge by lia.
Qed.

(** ** Properties *)

(** C30: In every reachable state each queue holds at most 256 items, distinct
    sessions own distinct queues, and no token event is in a queue or was
    published on Redis. *)
Theorem bus_reachable_inv b : reachable b → bus_inv b.
Proof. apply reachable_inv. Qed.

(** C31: The architect of a session that starts with an empty queue receives, in
    order, exactly the architect events published to the session, and its loop
    ends when the session is cleaned up, provided fewer than 256 events wait. *)
Theorem architect_receives_in_order up sid evs b a :
  reachable b → _queues b !! sid = Some a → queue_at b a = [] →
  length (bus_events evs) < _QUEUE_MAXSIZE →
  (subscribe_architect a (cleanup_session sid (publish_all up sid evs b))).1.2
    = architect_events (bus_events evs) ∧
  (subscribe_architect a (cleanup_session sid (publish_all up sid evs b))).2 = true.
Proof.
  intros Hb%reachable_inv Ha Hq Hlen.
  destruct (publish_all_queue up sid evs b a Hb Ha) as (Hb1 & Ha1 & Hq1).
  unfold subscribe_architect. rewrite (cleanup_queue sid _ a Hb1 Ha1), Hq1, Hq.
  rewrite (take_ge ([] ++ _)) by (cbn [app]; rewrite length_fmap; lia).
  rewrite take_ge by (cbn [app]; rewrite length_app, length_fmap; cbn [length]; lia).
  cbn [app]. by rewrite (proj1 (architect_loop_events _)).
Qed.

(** When 256 or more events wait, the sentinel of [cleanup_session] is dropped
    with the events that do not fit: the architect's loop receives the first
    256 and never ends. *)
Theorem full_queue_loses_sentinel up sid evs b a :
  reachable b → _queues b !! sid = Some a → queue_at b a = [] →
  _QUEUE_MAXSIZE ≤ length (bus_events evs) →
  (subscribe_architect a (cleanup_session sid (publish_all up sid evs b))).1.2
    = architect_events (take _QUEUE_MAXSIZE (bus_events evs)) ∧
  (subscribe_architect a (cleanup_session sid (publish_all up sid evs b))).2 = false.
Proof.
  intros Hb%reachable_inv Ha Hq Hlen.
  destruct (publish_all_queue up sid evs b a Hb Ha) as (Hb1 & Ha1 & Hq1).
  unfold subscribe_architect. rewrite (cleanup_queue sid _ a Hb1 Ha1), Hq1, Hq. cbn [app].
  rewrite <-fmap_take, take_app_le by (rewrite length_fmap, length_take; lia).
  rewrite take_ge by (rewrite length_fmap, length_take; lia).
  by rewrite (proj2 (architect_loop_events _)).
Qed.

(** The WebSocket side sees the valid events of the channel in order, up to and
    including the event that ends the session. *)
Theorem session_stream_until_ended msgs :
  let valid := omap (λ m, if bool_decide (rm_type m = "message") then rm_data m else None) msgs in
  subscribe_session msgs `prefix_of` valid ∧
  (∀ ev, ev ∈ but_last_n 1 (subscribe_session msgs) → is_ended_event ev = false) ∧
  (Forall (λ ev, is_ended_event ev = false) valid → subscribe_session msgs = valid).
Proof.
  cbn zeta. induction msgs as [|m msgs (IH1 & IH2 & IH3)]; cbn; [split_and!; [done|set_solver|done]|].
  case_bool_decide as Hm; cbn [negb]; [|done]. destruct (rm_data m) as [ev|]; cbn; [|done].
  destruct (is_ended_event ev) eqn:E.
  - split_and!; [by apply prefix_cons, prefix_nil|set_solver|].
    intros [? _]%Forall_cons. congruence.
  - split_and!; [by apply prefix_cons| |intros [_ HF]%Forall_cons; by rewrite IH3].
    intros e. unfold but_last_n in *. cbn. rewrite Nat.sub_0_r.
    destruct (subscribe_session msgs) as [|x l] eqn:El; cbn; [set_solver|].
    intros [->|Hin]%elem_of_cons; [done|]. apply IH2. cbn in *. by rewrite Nat.sub_0_r.
Qed.

(** ** Concrete runs *)

Module Concrete.
Definition ev (t : ws_event_type) : ws_event := WSEvent t "s" None empty_payload.
Definition started : agent_bus := (_get_queue "s" empty_bus).1.
Lemma started_reachable : reachable started.
Proof. apply rtc_once. constructor. Qed.

Lemma inv_witness : bus_inv started.
Proof. apply (bus_reachable_inv started started_reachable). Defined.

Lemma receives_witness :
  (subscribe_architect 0 (cleanup_session "s" (publish_all true "s" [ev STATUS; ev WORK_COMPLETE; ev TOKEN; ev INTERRUPT] started))).1.2
    = [ev WORK_COMPLETE; ev INTERRUPT].
Proof.
  apply (architect_receives_in_order true "s" [ev STATUS; ev WORK_COMPLETE; ev TOKEN; ev INTERRUPT] started 0);
    [apply started_reachable|done|done|vm_compute; lia].
Defined.

Lemma sentinel_witness :
  (subscribe_architect 0 (cleanup_session "s" (publish_all true "s" (replicate 256 (ev INTERRUPT)) started))).2 = false.
Proof.
  apply (full_queue_loses_sentinel true "s" (replicate 256 (ev INTERRUPT)) started 0);
    [apply started_reachable|done|done|vm_compute; lia].
Defined.

Definition msgs : list raw_msg :=
  [RawMsg "subscribe" None; RawMsg "message" (Some (ev INTERRUPT)); RawMsg "message" None;
   RawMsg "message" (Some (ev STATUS))].
Lemma stream_witness : subscribe_session msgs = [ev INTERRUPT; ev STATUS].
Proof. apply (session_stream_until_ended msgs). by repeat constructor. Defined.
End Concrete.
