(* ===== verification/ExecutorClient.v ===== *)
(** * The executor client (orchestrator/executor_client.py)

    The wrappers over the HTTP interface of the executor container.  The
    requests are the operations of a class: a failed transport or an error
    status is an exception ([raise_for_status]).  The semaphore that bounds the
    number of concurrent calls has no effect on the result of one call and is
    left out. *)

From S2P Require Import Prelude PyStr Models.
Local Open Scope string_scope.
Local Open Scope list_scope.
Local Open Scope nat_scope.
Local Open Scope py_scope.

Inductive patch_target := Sandbox | Live.

#[export] Instance patch_target_eq_dec : EqDecision patch_target.
Proof. solve_decision. Defined.

Definition target_name (t : patch_target) : string :=
  match t with Sandbox => "sandbox" | Live => "live" end.

Record apply_response := ApplyResponse { ap_applied : bool; ap_message : option string }.
Record execute_response := ExecuteResponse { ex_stdout : string; ex_stderr : string; ex_exit_code : Z }.
Record read_response := ReadResponse { rd_path : string; rd_content : string; rd_size_bytes : Z }.

(** The requests of the client. *)
Class ExecutorHttp (E : Type) := {
  post_execute : string → option Z → option string → M E execute_response;
  post_apply_patch : string → string → M E apply_response;
  post_read_file : string → M E read_response;
  post_list_files : string → M E (list string);
  get_health : M E Z
}.

(** What [run_tests] returns; the "error" entry is only there on an exception. *)
Record test_result := TestResult {
  tr_passed : bool;
  tr_exit_code : Z;
  tr_stdout : string;
  tr_stderr : string;
  tr_summary : string;
  tr_error : option string
}.

Section executor_client.
Context {E : Type} `{!ExecutorHttp E}.

Definition execute (command : string) (timeout : option Z) (cwd : option string)
    : M E execute_response := post_execute command timeout cwd.

Definition apply_patch (diff : string) (target : patch_target) : M E apply_response :=
  post_apply_patch diff (target_name target).

Definition read_file (path : string) : M E read_response := post_read_file path.

Definition list_files (pattern : string) : M E (list string) := post_list_files pattern.

Definition health : M E bool :=
  mtry (let! code := get_health in mret (code =? 200)%Z) (λ _, mret false).

Definition test_command (pattern : string) : string :=
  "pytest " +:+ pattern +:+ " -v --tb=short --no-header".

(** The last non-blank line. *)
Definition test_summary (stdout : string) : string :=
  default "" (last (List.filter (λ l, truthy (strip l)) (splitlines stdout))).

Definition run_tests (pattern : string) (timeout : Z) : M E test_result :=
  mtry (let! result := execute (test_command pattern) (Some timeout) None in
        mret (TestResult (ex_exit_code result =? 0)%Z (ex_exit_code result)
                (ex_stdout result) (ex_stderr result) (test_summary (ex_stdout result)) None))
       (λ e, mret (TestResult false (-1) "" "" "" (Some (exn_str e)))).

(** [run_tests] never raises; it reports success exactly for exit code 0. *)
Lemma run_tests_total pattern timeout e :
  ∃ e' r, run_tests pattern timeout e = (e', Ok r) ∧
    (tr_passed r = true ↔ tr_exit_code r = 0%Z ∧ tr_error r = None).
Proof.
  unfold run_tests, mtry, mbind, execute, mret.
  destruct (post_execute _ _ _ e) as [e' [r|x]]; eexists _, _; (split; [done|]); cbn.
  - rewrite Z.eqb_eq. naive_solver.
  - naive_solver.
Qed.

Lemma health_total e : ∃ e' b, health e = (e', Ok b).
Proof. unfold health, mtry, mbind, mret. destruct (get_health e) as [? []]; eauto. Qed.
End executor_client.
