(* ===== verification/PatchQueue.v ===== *)
(** * The patch queue (orchestrator/patch_queue.py)

    Patches are objects shared by the deque [_queue], the dict [_patches] and
    the callers: they live in a heap, and the queue and the dict hold their
    addresses.  Redis, the executor client, the event bus and the agent manager
    are reached through their interfaces; sha256, the clock and the random ids
    are parameters (the n-th object created draws the n-th value). *)

From S2P Require Import Prelude PyStr Models Utils Redis Interfaces ExecutorClient.
Local Open Scope string_scope.
Local Open Scope list_scope.
Local Open Scope nat_scope.
Local Open Scope py_scope.

Definition MAX_DIFF_LINES : nat := 1000.
Definition MAX_RETRIES : nat := 2.

(** ** Patches *)

Record patch := Patch {
  p_patch_id : string;
  p_diff : string;
  p_agent_id : string;
  p_task_id : string;
  p_session_id : string;
  p_description : string;
  p_created_at : Z;
  p_status : patch_status;
  p_retries : nat;
  p_error : option string;
  p_file_hashes : list (string * string)
}.

Definition to_dict (p : patch) : patch_dict :=
  PatchDict (p_patch_id p) (p_agent_id p) (p_task_id p) (p_session_id p) (p_description p)
    (p_status p) (p_retries p) (p_error p) (extract_file_paths_from_diff (p_diff p))
    (count_diff_lines (p_diff p)) (p_created_at p).

Definition set_status (s : patch_status) (p : patch) : patch :=
  Patch (p_patch_id p) (p_diff p) (p_agent_id p) (p_task_id p) (p_session_id p) (p_description p)
    (p_created_at p) s (p_retries p) (p_error p) (p_file_hashes p).
Definition set_error (e : string) (p : patch) : patch :=
  Patch (p_patch_id p) (p_diff p) (p_agent_id p) (p_task_id p) (p_session_id p) (p_description p)
    (p_created_at p) (p_status p) (p_retries p) (Some e) (p_file_hashes p).
Definition inc_retries (p : patch) : patch :=
  Patch (p_patch_id p) (p_diff p) (p_agent_id p) (p_task_id p) (p_session_id p) (p_description p)
    (p_created_at p) (p_status p) (S (p_retries p)) (p_error p) (p_file_hashes p).

(** ** Validation *)

Definition normalize_diff (diff : string) : string := replace cr nl (replace crlf nl diff).

(** [(old|new) mode \d+] at the start of a string. *)
Definition mode_change (s : string) : bool :=
  (startswith "old mode " s || startswith "new mode " s) && starts_with_digit (sdrop 9 s).

(** [@@\s+-\d+] at the start of a string. *)
Definition hunk_header (s : string) : bool :=
  startswith "@@" s &&
  spaces_then (λ t, startswith "-" t && starts_with_digit (sdrop 1 t)) (sdrop 2 s).

Definition validate_patch (diff : string) : res unit :=
  if negb (truthy diff) || negb (truthy (strip diff))
  then Raise (PatchValidationError "Empty diff")
  else if (4000000 <? Z.of_nat (String.length diff))%Z
  then Raise (PatchValidationError "Diff exceeds 4 MB raw size limit")
  else if MAX_DIFF_LINES <? count_diff_lines diff
  then Raise (PatchValidationError ("Diff too large: " +:+ pretty (count_diff_lines diff)
                                    +:+ " changed lines (limit 1000)"))
  else if contains "GIT binary patch" diff || contains "Binary files" diff
  then Raise (PatchValidationError "Binary patches are not allowed")
  else if search_multiline mode_change diff
  then Raise (PatchValidationError "Permission-change patches are not allowed")
  else if negb (search_multiline hunk_header diff)
  then Raise (PatchValidationError
                "Does not appear to be a unified diff (no @@ hunk headers found)")
  else Ok tt.

(** ** State *)

Record pqueue := PQ {
  pq_heap : list patch;
  _queue : list nat;
  _patches : list (string * nat)
}.

Definition patch_at (q : pqueue) (a : nat) : option patch := pq_heap q !! a.

Definition put_patch (a : nat) (p : patch) (q : pqueue) : pqueue :=
  PQ (<[a := p]> (pq_heap q)) (_queue q) (_patches q).

(** What [_apply_patch] returns: [{**patch.to_dict(), "action": ...}]. *)
Inductive patch_action := needs_review | requeued | rejected | applied | error_action.

#[export] Instance patch_action_eq_dec : EqDecision patch_action.
Proof. solve_decision. Defined.

Record apply_outcome := ApplyOutcome { ao_patch : patch_dict; ao_action : patch_action }.

(** What [test_fix_loop] returns. *)
Record fix_outcome := FixOutcome {
  fo_patch : patch_dict;
  fo_action : patch_action;
  fo_test_passed : bool;
  fo_attempts : nat;
  fo_test_summary : string
}.

Record depth_counts := DepthCounts {
  dc_total : nat; dc_pending : nat; dc_applied : nat; dc_rejected : nat; dc_conflict : nat
}.

Section patch_queue.
Context {R E : Type} `{Redis R} `{!ExecutorHttp E} `{!EventBus E} `{!AgentRunner R (pqueue * E)}.
Context (sha256 : string → string) (uuid8 : nat → string) (uuid4 : nat → string) (clock : nat → Z).
Context (MAX_PATCH_QUEUE_DEPTH MAX_FIX_ATTEMPTS : nat).
(** Whether [set_redis] and [set_bus] were called. *)
Context (has_redis has_bus : bool).

Local Abbreviation W := (R * (pqueue * E))%type.

Definition on_executor {B} (m : M E B) : M W B := λ w,
  let '(e, b) := m w.2.2 in ((w.1, (w.2.1, e)), b).
Definition the_queue (w : W) : pqueue := w.2.1.
Definition on_queue (f : pqueue → pqueue) : M W unit :=
  mmodify (λ w, (w.1, (f w.2.1, w.2.2))).

(** [self] attributes of a patch object; every address in use is allocated. *)
Definition get_p (a : nat) : M W patch := λ w,
  match patch_at (the_queue w) a with
  | Some p => (w, Ok p)
  | None => (w, Raise (OtherError "no such object"))
  end.
Definition upd_p (a : nat) (f : patch → patch) : M W unit :=
  let! p := get_p a in on_queue (put_patch a (f p)).

(** ** Hashes *)

(** The body of the loop of [snapshot_file_hashes]. *)
Definition hash_file (path : string) : M E string :=
  mtry (let! result := read_file path in mret (sha256 (rd_content result)))
       (λ _, mret "NEW").

Fixpoint snapshot_file_hashes (paths : list string) (hashes : list (string * string))
    : M E (list (string * string)) :=
  match paths with
  | [] => mret hashes
  | path :: paths' =>
      let! h := hash_file path in
      snapshot_file_hashes paths' (dict_set path h hashes)
  end.

Definition check_conflict (p : patch) : M E bool :=
  match p_file_hashes p with
  | [] => mret false
  | hashes =>
      let! current := snapshot_file_hashes hashes.*1 [] in
      mret (existsb (λ ph, negb (bool_decide (default "NEW" (dict_get ph.1 current) = ph.2))) hashes)
  end.

(** ** Redis persistence *)

Definition patch_key (sid pid : string) : string := "patches:" +:+ sid +:+ ":" +:+ pid.

Definition _persist_patch (a : nat) : M W unit :=
  let! p := get_p a in
  mmodify (λ w, (if has_redis
                 then r_set (patch_key (p_session_id p) (p_patch_id p)) (VPatch (to_dict p)) None w.1
                 else w.1, w.2)).

Definition _unpersist_patch (a : nat) : M W unit :=
  let! p := get_p a in
  mmodify (λ w, (if has_redis then r_del (patch_key (p_session_id p) (p_patch_id p)) w.1
                 else w.1, w.2)).

Definition recover_from_redis (sid : string) (r : R) : nat :=
  if negb has_redis then 0
  else count_if (λ k, match r_get r k with
                      | Some (VPatch d) => bool_decide (pd_status d = PPending)
                      | _ => false
                      end) (r_keys ("patches:" +:+ sid +:+ ":") r).

(** ** Enqueue *)

(** The first locked region: only the depth is read. *)
Definition check_depth : M W unit := λ w,
  if MAX_PATCH_QUEUE_DEPTH <=? length (_queue (the_queue w))
  then (w, Raise (PatchValidationError
         ("Patch queue full (" +:+ pretty MAX_PATCH_QUEUE_DEPTH +:+
          " patches pending). Process existing patches before submitting more.")))
  else (w, Ok tt).

(** [Patch(...)]. *)
Definition new_patch (diff aid tid sid desc : string) : M W nat := λ w,
  let q := the_queue w in
  let a := length (pq_heap q) in
  let p := Patch ("patch-" +:+ uuid8 a) (normalize_diff diff) aid (py_or tid (uuid4 a)) sid desc
             (clock a) PPending 0 None [] in
  ((w.1, (PQ (pq_heap q ++ [p]) (_queue q) (_patches q), w.2.2)), Ok a).

Definition snapshot_into (a : nat) (diff : string) : M W unit :=
  match extract_file_paths_from_diff diff with
  | [] => mret tt
  | affected =>
      let! hashes := on_executor (snapshot_file_hashes affected []) in
      upd_p a (λ p, Patch (p_patch_id p) (p_diff p) (p_agent_id p) (p_task_id p) (p_session_id p)
                      (p_description p) (p_created_at p) (p_status p) (p_retries p) (p_error p) hashes)
  end.

(** The second locked region. *)
Definition append_patch (a : nat) : M W unit :=
  let! p := get_p a in
  on_queue (λ q, PQ (pq_heap q) (_queue q ++ [a]) (dict_set (p_patch_id p) a (_patches q))).

Definition enqueue (diff aid tid sid desc : string) : M W nat :=
  match validate_patch diff with
  | Raise e => mraise e
  | Ok _ =>
      do! check_depth in
      let! a := new_patch diff aid tid sid desc in
      do! snapshot_into a diff in
      do! append_patch a in
      do! _persist_patch a in
      mret a
  end.

(** ** Applying *)

Definition applied_event (p : patch) : ws_event :=
  WSEvent PATCH_APPLIED (p_session_id p) (Some (p_agent_id p))
    (Payload None (Some (p_patch_id p)) (Some (p_description p))
       (extract_file_paths_from_diff (p_diff p)) None None None 0 0).

Definition _publish_patch_applied (a : nat) : M W unit :=
  let! p := get_p a in
  mmodify (λ w, (w.1, (w.2.1, if has_bus then bus_publish (p_session_id p) (applied_event p) w.2.2
                              else w.2.2))).

Definition outcome (a : nat) (act : patch_action) : M W apply_outcome :=
  let! p := get_p a in mret (ApplyOutcome (to_dict p) act).

(** The conflict branch. *)
Definition apply_conflict (a : nat) : M W apply_outcome :=
  do! upd_p a inc_retries in
  let! p := get_p a in
  if MAX_RETRIES <=? p_retries p then
    do! upd_p a (set_error "Max retries exceeded — flagged for human review" ∘ set_status PConflict) in
    do! _unpersist_patch a in
    outcome a needs_review
  else
    do! upd_p a (set_status PPending) in
    outcome a requeued.

Definition apply_rejected (a : nat) (msg : string) : M W apply_outcome :=
  do! upd_p a (set_error msg ∘ set_status PRejected) in
  do! _unpersist_patch a in
  outcome a rejected.

(** The body of the [try]. *)
Definition try_apply (a : nat) : M W apply_outcome :=
  let! p := get_p a in
  let! conflict := on_executor (check_conflict p) in
  if conflict then apply_conflict a
  else
    let! sandbox := on_executor (apply_patch (p_diff p) Sandbox) in
    if negb (ap_applied sandbox)
    then apply_rejected a (default "Sandbox check failed" (ap_message sandbox))
    else
      let! live := on_executor (apply_patch (p_diff p) Live) in
      if negb (ap_applied live)
      then apply_rejected a (default "Live apply failed" (ap_message live))
      else
        do! upd_p a (set_status PApplied) in
        do! _unpersist_patch a in
        do! _publish_patch_applied a in
        outcome a applied.

Definition _apply_patch (a : nat) : M W apply_outcome :=
  mtry (try_apply a) (λ e,
    do! upd_p a (set_error (exn_str e) ∘ set_status PRejected) in
    do! _unpersist_patch a in
    outcome a error_action).

(** ** Processing *)

Definition is_pending (q : pqueue) (a : nat) : bool :=
  match patch_at q a with Some p => bool_decide (p_status p = PPending) | None => false end.

Definition process_next : M W (option apply_outcome) := λ w,
  match List.find (is_pending (the_queue w)) (_queue (the_queue w)) with
  | None => (w, Ok None)
  | Some a => (do! upd_p a (set_status PProcessing) in
               let! r := _apply_patch a in
               mret (Some r)) w
  end.

Fixpoint process_all (fuel : nat) (results : list apply_outcome) : M W (list apply_outcome) :=
  match fuel with
  | 0 => mraise Diverges
  | S f =>
      let! r := process_next in
      match r with
      | None => mret results
      | Some x => process_all f (results ++ [x])
      end
  end.

(** ** The test-fix loop *)

Definition fix_task (output : string) : string :=
  "The following tests failed after applying your patch." +:+ nl +:+
  "Produce a unified diff that fixes only the failing tests." +:+ nl +:+ nl +:+
  "Test output:" +:+ nl +:+ "```" +:+ nl +:+ stake 3000 output +:+ nl +:+ "```".

(** The code after the loop. *)
Definition fix_exhausted (attempt cur : nat) (summary : string) : M W fix_outcome :=
  do! upd_p cur (set_error ("Tests still failing after " +:+ pretty attempt +:+
                            " fix attempt(s) — flagged for human review") ∘ set_status PConflict) in
  do! _unpersist_patch cur in
  let! p := get_p cur in
  mret (FixOutcome (to_dict p) needs_review false attempt summary).

(** [remaining] is [max_attempts - attempt]; each [break] goes to the code
    after the loop. *)
Fixpoint fix_loop (remaining attempt cur : nat) (summary orig pattern : string) : M W fix_outcome :=
  match remaining with
  | 0 => fix_exhausted attempt cur summary
  | S rem =>
      let attempt := S attempt in
      let! res := _apply_patch cur in
      if negb (bool_decide (ao_action res = applied))
      then mret (FixOutcome (ao_patch res) (ao_action res) false attempt "")
      else
        let! test := on_executor (run_tests pattern 120) in
        let summary := tr_summary test in
        if tr_passed test
        then mret (FixOutcome (ao_patch res) (ao_action res) true attempt summary)
        else if bool_decide (rem = 0) then fix_exhausted attempt cur summary
        else
          let! p := get_p cur in
          let! fix_result := spawn_and_run "coder" (fix_task (py_or (tr_stderr test) (tr_stdout test)))
                           (p_session_id p) in
          match extract_diffs_from_result (default "" (ar_result fix_result)) with
          | [] => fix_exhausted attempt cur summary
          | d :: _ =>
              let! enq := mtry (let! a := enqueue d "coder-fix" (p_task_id p) (p_session_id p)
                                          ("Auto-fix attempt " +:+ pretty attempt +:+ " for " +:+ orig) in
                                mret (Some a)) (λ _, mret None) in
              match enq with
              | None => fix_exhausted attempt cur summary
              | Some a => fix_loop rem attempt a summary orig pattern
              end
          end
  end.

Definition test_fix_loop (a : nat) (pattern : string) (max_attempts : option nat) : M W fix_outcome :=
  let! p := get_p a in
  fix_loop (default MAX_FIX_ATTEMPTS max_attempts) 0 a "" (p_patch_id p) pattern.

(** ** Queries *)

Definition get_patch (q : pqueue) (pid : string) : option patch :=
  dict_get pid (_patches q) ≫= patch_at q.

Definition list_patches (q : pqueue) (sid : string) : list patch_dict :=
  let ps := omap (patch_at q) (_patches q).*2 in
  to_dict <$> (if truthy sid then List.filter (λ p, bool_decide (p_session_id p = sid)) ps else ps).

Definition queue_depth (q : pqueue) : depth_counts :=
  let st := p_status <$> omap (patch_at q) (_queue q) in
  DepthCounts (length (_queue q)) (occ PPending st) (occ PApplied st) (occ PRejected st)
    (occ PConflict st).

(** The patch queue as the task queue sees it. *)
Definition enqueue_dict (diff aid tid sid desc : string) : M W patch_dict :=
  let! a := enqueue diff aid tid sid desc in
  let! p := get_p a in
  mret (to_dict p).
End patch_queue.
