(* ===== verification/PatchQueueProps.v ===== *)
(** * The patch queue: properties

    Line normalisation against the line-based checks, the outcome of one
    application, the absence of lost updates, termination of [process_all], and
    what bounds the queue. *)

From S2P Require Import Prelude PyStr Models Utils Redis Interfaces ExecutorClient PatchQueue.
Local Open Scope string_scope.
Local Open Scope list_scope.
Local Open Scope nat_scope.
Local Open Scope py_scope.

(** ** Normalisation *)

Lemma normalize_crlf s : normalize_diff (String CR (String LF s)) = String LF (normalize_diff s).
Proof. done. Qed.

Lemma normalize_other c s :
  c ≠ CR → normalize_diff (String c s) = String c (normalize_diff s).
Proof.
  intros Hc. unfold normalize_diff, replace. cbn [replace_go]. unfold crlf, cr. cbn [startswith].
  rewrite (bool_decide_eq_false_2 (CR = c)) by done. cbn [andb replace_go startswith].
  by rewrite (bool_decide_eq_false_2 (CR = c)) by done.
Qed.

Lemma normalize_cr s :
  (∀ t, s ≠ String LF t) → normalize_diff (String CR s) = String LF (normalize_diff s).
Proof.
  intros Hs. unfold normalize_diff, replace. cbn [replace_go]. unfold crlf at 1. cbn [startswith].
  rewrite (bool_decide_eq_true_2 (CR = CR)) by done. cbn [andb].
  replace (startswith nl s) with false; [done|]. destruct s as [|c s]; [done|]. unfold nl. cbn.
  rewrite (bool_decide_eq_false_2 (LF = c)); [done|]. intros <-. by apply (Hs s).
Qed.

(** Induction along the line endings: a CRLF, a bare carriage return, or any
    other character. *)
Lemma line_end_ind (P : string → Prop) :
  P "" → (∀ t, P t → P (String CR (String LF t))) →
  (∀ t, (∀ u, t ≠ String LF u) → P t → P (String CR t)) →
  (∀ c t, c ≠ CR → P t → P (String c t)) → ∀ s, P s.
Proof.
  intros H0 H1 H2 H3. cut (∀ n s, String.length s ≤ n → P s); [intros H s; by apply (H (String.length s))|].
  induction n as [|n IH]; intros [|c s] Hn; cbn in Hn; [done|lia|done|].
  destruct (decide (c = CR)) as [->|Hc]; [|apply H3; [done|apply IH; lia]].
  destruct s as [|e s]; [by apply H2; [|apply H0]|]. cbn in Hn.
  destruct (decide (e = LF)) as [->|He]; [apply H1, IH; lia|].
  apply H2; [by intros u [=]|apply IH; cbn; lia].
Qed.

Lemma splitlines_normalize d : splitlines (normalize_diff d) = splitlines d.
Proof.
  unfold splitlines. induction d as [|t IH|t Ht IH|c t Hc IH] using line_end_ind; [done| | |].
  - rewrite normalize_crlf. cbn -[normalize_diff]. by rewrite IH.
  - rewrite normalize_cr by done. change (splitlines_keep false (String LF ?t))
      with ("" :: splitlines_keep false t). rewrite IH. destruct t as [|e t]; [done|].
    cbn -[normalize_diff]. rewrite (bool_decide_eq_false_2 (e = LF)); [done|]. intros ->. by apply (Ht t).
  - rewrite normalize_other by done. cbn [splitlines_keep].
    rewrite !(bool_decide_eq_false_2 (c = CR)) by done. by rewrite IH.
Qed.

Lemma normalize_length d : String.length (normalize_diff d) ≤ String.length d.
Proof.
  induction d as [|t IH|t Ht IH|c t Hc IH] using line_end_ind; [done| | |].
  - rewrite normalize_crlf. cbn -[normalize_diff]. lia.
  - rewrite normalize_cr by done. cbn -[normalize_diff]. lia.
  - rewrite normalize_other by done. cbn -[normalize_diff]. lia.
Qed.

(** A diff is blank before and after. *)
Lemma strip_normalize d : truthy (strip (normalize_diff d)) = truthy (strip d).
Proof.
  assert (Hs : ∀ s, truthy (strip s) = truthy (lstrip s)).
  { intros s. unfold strip. pose proof (rstrip_nonempty (lstrip s)) as [H1 H2].
    rewrite (lstrip_id (lstrip s)) in H1, H2 by apply lstrip_head.
    destruct (rstrip (lstrip s)), (lstrip s); naive_solver. }
  rewrite !Hs. clear Hs. induction d as [|t IH|t Ht IH|c t Hc IH] using line_end_ind; [done| | |].
  - by rewrite normalize_crlf.
  - by rewrite normalize_cr.
  - rewrite normalize_other by done. cbn [lstrip]. by destruct (is_space c).
Qed.

(** A text without line endings, followed by something normalisation keeps, is
    found at the same places. *)
Lemma pattern_normalize p k d :
  all_chars (λ c, negb (bool_decide (c = CR)) && negb (bool_decide (c = LF))) p = true →
  (∀ s, k (normalize_diff s) = k s) →
  startswith p (normalize_diff d) && k (sdrop (String.length p) (normalize_diff d))
  = startswith p d && k (sdrop (String.length p) d).
Proof.
  intros Hp Hk. revert d. induction p as [|c p IH]; intros d; [apply Hk|].
  cbn in Hp. apply andb_true_iff in Hp as [[Hcr%negb_true_iff Hlf%negb_true_iff]%andb_true_iff Hp].
  specialize (IH Hp). destruct d as [|x t]; [done|]. destruct (decide (x = CR)) as [->|Hx].
  - assert (∃ u, normalize_diff (String CR t) = String LF u) as [u ->].
    { destruct t as [|e t]; [by eexists|]. destruct (decide (e = LF)) as [->|He].
      - rewrite normalize_crlf. by eexists.
      - rewrite normalize_cr by congruence. by eexists. }
    cbn. by rewrite Hcr, Hlf.
  - rewrite normalize_other by done. cbn -[normalize_diff]. by rewrite <-!andb_assoc, IH.
Qed.

Lemma contains_normalize p d :
  truthy p = true →
  all_chars (λ c, negb (bool_decide (c = CR)) && negb (bool_decide (c = LF))) p = true →
  contains p (normalize_diff d) = contains p d.
Proof.
  intros Hne Hp.
  assert (Hs : ∀ d, startswith p (normalize_diff d) = startswith p d).
  { intros s. pose proof (pattern_normalize p (λ _, true) s Hp (λ _, eq_refl)) as H. by rewrite !andb_true_r in H. }
  assert (Hend : ∀ c t, c = CR ∨ c = LF → contains p (String c t) = contains p t).
  { intros c t Hc. destruct p as [|x p]; [done|]. cbn in Hp |- *.
    rewrite (bool_decide_eq_false_2 (x = c)); [done|]. intros ->.
    by destruct Hc as [-> | ->]. }
  induction d as [|t IH|t Ht IH|c t Hc IH] using line_end_ind; [done| | |].
  - rewrite normalize_crlf, !Hend by auto. done.
  - rewrite normalize_cr, !Hend by auto. done.
  - specialize (Hs (String c t)). rewrite normalize_other in Hs |- * by done.
    cbn [contains]. by rewrite Hs, IH.
Qed.

Lemma mode_change_normalize d : mode_change (normalize_diff d) = mode_change d.
Proof.
  assert (Hk : ∀ s, starts_with_digit (normalize_diff s) = starts_with_digit s).
  { intros s. destruct s as [|t|t Ht|c t Hc] using line_end_ind; [done| | |].
    - by rewrite normalize_crlf.
    - by rewrite normalize_cr.
    - by rewrite normalize_other. }
  unfold mode_change. rewrite !andb_orb_distrib_l.
  by rewrite (pattern_normalize "old mode " starts_with_digit), (pattern_normalize "new mode " starts_with_digit).
Qed.

(** Every carriage return of the text is the beginning of a CRLF. *)
Fixpoint crlf_only (s : string) : bool :=
  match s with
  | "" => true
  | String c s' => (negb (bool_decide (c = CR)) || startswith nl s') && crlf_only s'
  end.

Lemma mode_lines_normalize d b :
  crlf_only d = true →
  search_lines mode_change b (normalize_diff d) = search_lines mode_change b d.
Proof.
  revert b. induction d as [|t IH|t Ht IH|c t Hc IH] using line_end_ind; intros b Hd; [done| | |].
  - rewrite normalize_crlf. cbn -[normalize_diff mode_change] in Hd |- *. rewrite IH by done.
    by destruct b.
  - exfalso. destruct t as [|e t]; [done|]. cbn in Hd. apply andb_true_iff in Hd as [Hd _].
    rewrite (bool_decide_eq_false_2 (LF = e)) in Hd; [done|]. intros <-. by apply (Ht t).
  - pose proof (mode_change_normalize (String c t)) as Hm. rewrite normalize_other in Hm |- * by done.
    cbn [crlf_only] in Hd. apply andb_true_iff in Hd as [_ Hd].
    cbn [search_lines]. by rewrite Hm, IH.
Qed.

(** ** Objects *)

Section facts.
Context {R E : Type} `{RedisLaws R} `{!ExecutorHttp E} `{!EventBus E} `{!AgentRunner R (pqueue * E)}.
Context (sha256 : string → string) (uuid8 : nat → string) (uuid4 : nat → string) (clock : nat → Z).
Context (MAXD MAXF : nat) (has_redis has_bus : bool).
Local Abbreviation W := (R * (pqueue * E))%type.
Implicit Types (w : W) (q : pqueue).

Lemma patch_at_put q a p a' :
  is_Some (patch_at q a) →
  patch_at (put_patch a p q) a' = if decide (a' = a) then Some p else patch_at q a'.
Proof.
  unfold patch_at, put_patch. cbn. intros Hp%lookup_lt_is_Some.
  case_decide; subst; [by rewrite list_lookup_insert_eq|by rewrite list_lookup_insert_ne].
Qed.

Lemma patch_at_put_eq q a p : is_Some (patch_at q a) → patch_at (put_patch a p q) a = Some p.
Proof. intros Hp. rewrite patch_at_put by done. by rewrite decide_True. Qed.

Lemma get_p_some a p w : patch_at w.2.1 a = Some p → get_p a w = (w, Ok p).
Proof. unfold get_p, the_queue. by intros ->. Qed.

Lemma upd_p_some a f p w :
  patch_at w.2.1 a = Some p → upd_p a f w = ((w.1, (put_patch a (f p) w.2.1, w.2.2)), Ok tt).
Proof. intros Hp. unfold upd_p, mbind. by rewrite (get_p_some _ _ _ Hp). Qed.

Lemma put_put a p p' q : put_patch a p' (put_patch a p q) = put_patch a p' q.
Proof. unfold put_patch. cbn. by rewrite list_insert_insert_eq. Qed.

(** A state in which only the object at [a] differs. *)
Record only_patch (a : nat) (p' : patch) (q q' : pqueue) : Prop := {
  op_queue : _queue q' = _queue q;
  op_patches : _patches q' = _patches q;
  op_len : length (pq_heap q') = length (pq_heap q);
  op_this : patch_at q' a = Some p';
  op_other a' : a' ≠ a → patch_at q' a' = patch_at q a'
}.

Lemma only_put a p q : is_Some (patch_at q a) → only_patch a p q (put_patch a p q).
Proof.
  intros Hp. split; cbn; [done..|by rewrite length_insert|by apply patch_at_put_eq|].
  intros a' Ha. rewrite patch_at_put by done. by rewrite decide_False.
Qed.

(** The identity of a patch. *)
Definition same_patch (p p' : patch) : Prop :=
  p_patch_id p' = p_patch_id p ∧ p_diff p' = p_diff p ∧ p_agent_id p' = p_agent_id p ∧
  p_task_id p' = p_task_id p ∧ p_session_id p' = p_session_id p ∧
  p_description p' = p_description p ∧ p_created_at p' = p_created_at p ∧
  p_file_hashes p' = p_file_hashes p.

(** How the action of an outcome fits the patch after it. *)
Definition action_fits (act : patch_action) (p p' : patch) : Prop :=
  match act with
  | applied => p_status p' = PApplied
  | rejected | error_action => p_status p' = PRejected ∧ is_Some (p_error p')
  | needs_review => p_status p' = PConflict ∧ MAX_RETRIES ≤ p_retries p'
  | requeued => p_status p' = PPending ∧ p_retries p' = S (p_retries p) ∧ p_retries p' < MAX_RETRIES
  end.

(** The Redis entry of a patch after an outcome: removed unless re-queued. *)
Definition entry_after (act : patch_action) (p : patch) (r r' : R) : Prop :=
  r' = match act with
       | requeued => r
       | _ => if has_redis then r_del (patch_key (p_session_id p) (p_patch_id p)) r else r
       end.

Lemma unpersist_some a p w :
  patch_at w.2.1 a = Some p →
  _unpersist_patch has_redis a w =
  ((if has_redis then r_del (patch_key (p_session_id p) (p_patch_id p)) w.1 else w.1, w.2), Ok tt).
Proof. intros Hp. unfold _unpersist_patch, mbind. by rewrite (get_p_some _ _ _ Hp). Qed.

(** Closing an application with a status and an error. *)
Lemma close_spec a p w e f act :
  patch_at w.2.1 a = Some p →
  (do! upd_p a f in do! _unpersist_patch has_redis a in outcome a act : M W _) (w.1, (w.2.1, e)) =
  ((if has_redis then r_del (patch_key (p_session_id (f p)) (p_patch_id (f p))) w.1 else w.1,
    (put_patch a (f p) w.2.1, e)), Ok (ApplyOutcome (to_dict (f p)) act)).
Proof.
  intros Hp. unfold mbind at 1. rewrite (upd_p_some _ _ p) by done. cbn [fst snd].
  assert (Hp' : patch_at (put_patch a (f p) w.2.1) a = Some (f p)) by (apply patch_at_put_eq; eauto).
  unfold mbind. rewrite (unpersist_some _ (f p)) by done. unfold outcome, mbind.
  by rewrite (get_p_some _ (f p)).
Qed.

(** What [check_conflict] reports. *)
Definition unchanged (hashes current : list (string * string)) : Prop :=
  ∀ f h, (f, h) ∈ hashes → default "NEW" (dict_get f current) = h.

Lemma hash_file_ok x e : ∃ e' h, hash_file sha256 x e = (e', Ok h).
Proof. unfold hash_file, mtry, mbind. destruct (read_file x e) as [e1 [r|ex]]; by eexists _, _. Qed.

Lemma snapshot_ok paths hashes e :
  ∃ e' l, snapshot_file_hashes sha256 paths hashes e = (e', Ok l).
Proof.
  revert hashes e. induction paths as [|x paths IH]; intros hashes e; cbn; [by eexists _, _|].
  unfold mbind. destruct (hash_file_ok x e) as (e1 & h & ->). apply IH.
Qed.

Lemma check_conflict_spec p e :
  (p_file_hashes p = [] ∧ check_conflict sha256 p e = (e, Ok false)) ∨
  ∃ e' cur, snapshot_file_hashes sha256 (p_file_hashes p).*1 [] e = (e', Ok cur) ∧
    ((unchanged (p_file_hashes p) cur ∧ check_conflict sha256 p e = (e', Ok false)) ∨
     (¬ unchanged (p_file_hashes p) cur ∧ check_conflict sha256 p e = (e', Ok true))).
Proof.
  unfold check_conflict. destruct (p_file_hashes p) as [|x l]; [auto|]. right.
  destruct (snapshot_ok (x :: l).*1 [] e) as (e' & cur & Hs). exists e', cur. split; [done|].
  unfold mbind. rewrite Hs. unfold mret.
  set (b := existsb _ (x :: l)). assert (Hb : b = false ↔ unchanged (x :: l) cur).
  { unfold b, unchanged. rewrite existsb_false_forall. split.
    - intros Hall f h Hin. specialize (Hall _ Hin). breflect. done.
    - intros Hu [f h] Hin. apply negb_false_iff, bool_decide_eq_true. by apply Hu. }
  destruct b; [right|left]; (split; [|done]); [intros ?%Hb; done|by apply Hb].
Qed.

(** The conflict test: the files read after one another, and compared with the
    hashes of the submission. *)
Definition conflicting (p : patch) (e e1 : E) : Prop :=
  ∃ cur, p_file_hashes p ≠ [] ∧ snapshot_file_hashes sha256 (p_file_hashes p).*1 [] e = (e1, Ok cur) ∧
    ¬ unchanged (p_file_hashes p) cur.
Definition no_conflict (p : patch) (e e1 : E) : Prop :=
  p_file_hashes p = [] ∧ e1 = e ∨
  ∃ cur, snapshot_file_hashes sha256 (p_file_hashes p).*1 [] e = (e1, Ok cur) ∧ unchanged (p_file_hashes p) cur.

Lemma check_conflict_cases p e :
  (∃ e1, no_conflict p e e1 ∧ check_conflict sha256 p e = (e1, Ok false)) ∨
  (∃ e1, conflicting p e e1 ∧ check_conflict sha256 p e = (e1, Ok true)).
Proof.
  destruct (check_conflict_spec p e) as [[Hh Hc]|(e1 & cur & Hs & [[Hu Hc]|[Hu Hc]])].
  - left. exists e. by split; [left|].
  - left. exists e1. split; [right; eauto|done].
  - right. exists e1. split; [|done]. exists cur. split_and!; [|done..]. intros Hn. apply Hu. rewrite Hn. by intros ?? ?%elem_of_nil.
Qed.

(** What an application decides, from what the executor answers: the action, the
    patch after it and the executor after it (with the event of an applied
    patch). *)
Inductive decided (p : patch) (e : E) : patch_action → patch → E → Prop :=
  | dec_review e1 : conflicting p e e1 → MAX_RETRIES ≤ S (p_retries p) →
      decided p e needs_review
        (set_error "Max retries exceeded — flagged for human review" (set_status PConflict (inc_retries p))) e1
  | dec_requeued e1 : conflicting p e e1 → S (p_retries p) < MAX_RETRIES →
      decided p e requeued (set_status PPending (inc_retries p)) e1
  | dec_sandbox e1 e2 r : no_conflict p e e1 → apply_patch (p_diff p) Sandbox e1 = (e2, Ok r) → ap_applied r = false →
      decided p e rejected (set_error (default "Sandbox check failed" (ap_message r)) (set_status PRejected p)) e2
  | dec_sandbox_error e1 e2 x : no_conflict p e e1 → apply_patch (p_diff p) Sandbox e1 = (e2, Raise x) →
      decided p e error_action (set_error (exn_str x) (set_status PRejected p)) e2
  | dec_live e1 e2 e3 r l : no_conflict p e e1 → apply_patch (p_diff p) Sandbox e1 = (e2, Ok r) → ap_applied r = true →
      apply_patch (p_diff p) Live e2 = (e3, Ok l) → ap_applied l = false →
      decided p e rejected (set_error (default "Live apply failed" (ap_message l)) (set_status PRejected p)) e3
  | dec_live_error e1 e2 e3 r x : no_conflict p e e1 → apply_patch (p_diff p) Sandbox e1 = (e2, Ok r) → ap_applied r = true →
      apply_patch (p_diff p) Live e2 = (e3, Raise x) →
      decided p e error_action (set_error (exn_str x) (set_status PRejected p)) e3
  | dec_applied e1 e2 e3 r l : no_conflict p e e1 → apply_patch (p_diff p) Sandbox e1 = (e2, Ok r) → ap_applied r = true →
      apply_patch (p_diff p) Live e2 = (e3, Ok l) → ap_applied l = true →
      decided p e applied (set_status PApplied p)
        (if has_bus then bus_publish (p_session_id p) (applied_event (set_status PApplied p)) e3 else e3).

Lemma decided_fits p e act p' e' : decided p e act p' e' → same_patch p p' ∧ action_fits act p p'.
Proof. intros []; split; by cbn; eauto. Qed.

(** One application of a patch: it always returns an outcome; the patch keeps
    its identity, the outcome fits its new status, its Redis entry is removed
    unless it is re-queued, and no other patch changes. *)
Lemma apply_patch_spec a p w :
  patch_at w.2.1 a = Some p →
  ∃ w' o p', _apply_patch sha256 has_redis has_bus a w = (w', Ok o) ∧
    ao_patch o = to_dict p' ∧ decided p w.2.2 (ao_action o) p' w'.2.2 ∧
    only_patch a p' w.2.1 w'.2.1 ∧ entry_after (ao_action o) p w.1 w'.1.
Proof.
  intros Hp. unfold _apply_patch, mtry.
  assert (Hsome : is_Some (patch_at w.2.1 a)) by eauto.
  assert (Hfail : ∀ e x, decided p w.2.2 error_action (set_error (exn_str x) (set_status PRejected p)) e → ∃ w' o p',
    (do! upd_p a (set_error (exn_str x) ∘ set_status PRejected) in
     do! _unpersist_patch has_redis a in outcome a error_action : M W _) (w.1, (w.2.1, e)) = (w', Ok o) ∧
    ao_patch o = to_dict p' ∧ decided p w.2.2 (ao_action o) p' w'.2.2 ∧
    only_patch a p' w.2.1 w'.2.1 ∧ entry_after (ao_action o) p w.1 w'.1).
  { intros e x Hd. rewrite (close_spec a p) by done. eexists _, _, _. split; [done|].
    split_and!; [done..|by apply only_put|done]. }
  unfold try_apply. unfold mbind at 1. rewrite (get_p_some _ _ _ Hp).
  unfold mbind at 1, on_executor at 1.
  destruct (check_conflict_cases p w.2.2) as [(e1 & Hc & ->)|(e1 & Hc & ->)].
  2: { unfold apply_conflict. unfold mbind at 1. rewrite (upd_p_some _ _ p) by done. cbn [fst snd].
    assert (Hp1 : patch_at (put_patch a (inc_retries p) w.2.1) a = Some (inc_retries p))
      by by apply patch_at_put_eq.
    unfold mbind at 1. rewrite (get_p_some _ (inc_retries p)) by done.
    destruct (Nat.leb_spec MAX_RETRIES (p_retries (inc_retries p))) as [Hle|Hgt].
    - rewrite (close_spec a (inc_retries p) (w.1, (put_patch a (inc_retries p) w.2.1, e1))) by done.
      eexists _, _, _. split; [done|]. cbn [fst snd]. rewrite put_put.
      split_and!; [done|by apply dec_review|by apply only_put|done].
    - unfold mbind. rewrite (upd_p_some _ _ (inc_retries p)) by done. cbn [fst snd]. rewrite put_put.
      unfold outcome, mbind. rewrite (get_p_some _ (set_status PPending (inc_retries p)))
        by (by apply patch_at_put_eq).
      eexists _, _, _. split; [done|]. split_and!; [done|by apply dec_requeued|by apply only_put|done]. }
  unfold mbind at 1, on_executor at 1. cbn [fst snd].
  destruct (apply_patch (p_diff p) Sandbox e1) as [e2 [r|x]] eqn:Er; [|by eapply Hfail, dec_sandbox_error].
  destruct (ap_applied r) eqn:Ear; cbn [negb].
  2: { unfold apply_rejected. rewrite (close_spec a p) by done. eexists _, _, _. split; [done|].
       split_and!; [done|by eapply dec_sandbox|by apply only_put|done]. }
  unfold mbind at 1, on_executor at 1. cbn [fst snd].
  destruct (apply_patch (p_diff p) Live e2) as [e3 [l|x]] eqn:El; [|by eapply Hfail, dec_live_error].
  destruct (ap_applied l) eqn:Eal; cbn [negb].
  2: { unfold apply_rejected. rewrite (close_spec a p) by done. eexists _, _, _. split; [done|].
       split_and!; [done|by eapply dec_live|by apply only_put|done]. }
  unfold mbind. rewrite (upd_p_some _ _ p) by done. cbn [fst snd].
  assert (Hp1 : patch_at (put_patch a (set_status PApplied p) w.2.1) a = Some (set_status PApplied p))
    by by apply patch_at_put_eq.
  rewrite (unpersist_some _ (set_status PApplied p)) by done. unfold _publish_patch_applied, mbind.
  rewrite (get_p_some _ (set_status PApplied p)) by done. unfold mmodify, outcome, mbind.
  rewrite (get_p_some _ (set_status PApplied p)) by done.
  eexists _, _, _. split; [done|]. split_and!; [done|exact (dec_applied p _ e1 e2 e3 r l Hc Er Ear El Eal)|by apply only_put|done].
Qed.

(** ** Processing the queue *)

(** How many more applications a patch can take. *)
Definition budget_of (o : option patch) : nat :=
  match o with
  | Some p => if bool_decide (p_status p = PPending) then S (1 - p_retries p) else 0
  | None => 0
  end.

Definition budget q : nat := sum_list_with (λ a, budget_of (patch_at q a)) (_queue q).

Lemma budget_only a p p' q q' :
  a ∈ _queue q → patch_at q a = Some p → only_patch a p' q q' →
  budget_of (Some p') < budget_of (Some p) → budget q' < budget q.
Proof.
  intros Ha Hp Ho Hlt. unfold budget. rewrite (op_queue _ _ _ _ Ho).
  apply sum_list_with_lt with a; [done| |].
  - by rewrite (op_this _ _ _ _ Ho), Hp.
  - intros x _. destruct (decide (x = a)) as [->|Hx].
    + rewrite (op_this _ _ _ _ Ho), Hp. lia.
    + by rewrite (op_other _ _ _ _ Ho x Hx).
Qed.

Lemma only_trans a p p' q q' q'' :
  only_patch a p q q' → only_patch a p' q' q'' → only_patch a p' q q''.
Proof.
  intros [] []. split; try congruence. intros a' Ha. rewrite op_other1, op_other0; done.
Qed.

Lemma process_next_spec w :
  (process_next sha256 has_redis has_bus w = (w, Ok None) ∧
     ∀ a, a ∈ _queue w.2.1 → is_pending w.2.1 a = false) ∨
  ∃ a p p' w' o, a ∈ _queue w.2.1 ∧ patch_at w.2.1 a = Some p ∧ p_status p = PPending ∧
    process_next sha256 has_redis has_bus w = (w', Ok (Some o)) ∧
    ao_patch o = to_dict p' ∧ only_patch a p' w.2.1 w'.2.1 ∧ budget w'.2.1 < budget w.2.1.
Proof.
  unfold process_next, the_queue. destruct (List.find _ _) as [a|] eqn:Hf.
  2: { left. split; [done|]. intros a Ha. apply (List.find_none _ _ Hf). by apply list_elem_of_In. }
  right. apply List.find_some in Hf as [Ha Hpend]. apply list_elem_of_In in Ha.
  unfold is_pending in Hpend. destruct (patch_at w.2.1 a) as [p|] eqn:Hp; [|done]. breflect.
  assert (Hs : is_Some (patch_at w.2.1 a)) by eauto.
  unfold mbind. rewrite (upd_p_some _ _ p) by done.
  set (w1 := (w.1, (put_patch a (set_status PProcessing p) w.2.1, w.2.2)) : W).
  destruct (apply_patch_spec a (set_status PProcessing p) w1) as (w' & o & p' & -> & Ho & [_ Hfit]%decided_fits & Honly & _).
  { unfold w1. cbn. by apply patch_at_put_eq. }
  assert (Honly' : only_patch a p' w.2.1 w'.2.1) by (eapply only_trans; [by apply (only_put a (set_status PProcessing p))|exact Honly]).
  exists a, p, p', w', o. split_and!; [done..|].
  eapply budget_only; [done..|]. unfold budget_of. rewrite (bool_decide_eq_true_2 (p_status p = _)) by done.
  unfold action_fits in Hfit. cbn in Hfit. destruct (ao_action o).
  - destruct Hfit as [-> _]. case_bool_decide; [done|lia].
  - destruct Hfit as (-> & -> & Hlt). unfold MAX_RETRIES in Hlt. case_bool_decide; [lia|done].
  - destruct Hfit as [-> _]. case_bool_decide; [done|lia].
  - rewrite Hfit. case_bool_decide; [done|lia].
  - destruct Hfit as [-> _]. case_bool_decide; [done|lia].
Qed.

Lemma process_all_spec fuel results w :
  budget w.2.1 < fuel →
  ∃ w' rs, process_all sha256 has_redis has_bus fuel results w = (w', Ok rs) ∧
    _queue w'.2.1 = _queue w.2.1 ∧ (∀ a, a ∈ _queue w'.2.1 → is_pending w'.2.1 a = false) ∧
    length rs ≤ length results + budget w.2.1.
Proof.
  revert results w. induction fuel as [|fuel IH]; intros results w Hb; [lia|].
  cbn [process_all]. unfold mbind.
  destruct (process_next_spec w) as [[-> Hn]|(a & p & p' & w1 & o & _ & _ & _ & -> & _ & Ho & Hlt)].
  - exists w, results. split_and!; [done..|lia].
  - destruct (IH (results ++ [o]) w1) as (w' & rs & -> & Hq & Hn & Hl); [lia|].
    exists w', rs. rewrite length_app in Hl. cbn in Hl.
    split_and!; [done|by rewrite Hq, (op_queue _ _ _ _ Ho)|done|lia].
Qed.

Lemma budget_le q : budget q ≤ 2 * length (_queue q).
Proof.
  unfold budget. induction (_queue q) as [|a l IH]; cbn; [done|].
  assert (budget_of (patch_at q a) ≤ 2); [|lia].
  destruct (patch_at q a); cbn; [case_bool_decide|]; lia.
Qed.

(** ** Enqueueing *)

(** The patch [enqueue] builds. *)
Definition fresh_patch (a : nat) (diff aid tid sid desc : string) (hashes : list (string * string)) : patch :=
  Patch ("patch-" +:+ uuid8 a) (normalize_diff diff) aid (py_or tid (uuid4 a)) sid desc
    (clock a) PPending 0 None hashes.

(** The state after an accepted patch. *)
Definition enqueued (p : patch) (e' : E) w : W :=
  let a := length (pq_heap w.2.1) in
  (if has_redis then r_set (patch_key (p_session_id p) (p_patch_id p)) (VPatch (to_dict p)) None w.1 else w.1,
   (PQ (pq_heap w.2.1 ++ [p]) (_queue w.2.1 ++ [a]) (dict_set (p_patch_id p) a (_patches w.2.1)), e')).

Lemma snapshot_keys paths hashes e e' l :
  snapshot_file_hashes sha256 paths hashes e = (e', Ok l) →
  ∀ f, f ∈ l.*1 ↔ f ∈ paths ∨ f ∈ hashes.*1.
Proof.
  revert hashes e. induction paths as [|x paths IH]; intros hashes e; cbn.
  { intros [= <- <-]. set_solver. }
  unfold mbind. destruct (hash_file_ok x e) as (e1 & h & ->). intros Hl f.
  rewrite (IH _ _ Hl), elem_of_dict_set_keys. set_solver.
Qed.

Lemma validate_error diff : match validate_patch diff with
  | Ok _ => True | Raise e => ∃ msg, e = PatchValidationError msg end.
Proof. unfold validate_patch. repeat case_match; simplify_eq; eauto. Qed.

Lemma patch_at_new q p l ps : patch_at (PQ (pq_heap q ++ [p]) l ps) (length (pq_heap q)) = Some p.
Proof. unfold patch_at. cbn. by rewrite list_lookup_middle. Qed.

Lemma put_new q p p' l ps :
  put_patch (length (pq_heap q)) p' (PQ (pq_heap q ++ [p]) l ps) = PQ (pq_heap q ++ [p']) l ps.
Proof. unfold put_patch. cbn. rewrite insert_app_r_alt by done. by rewrite Nat.sub_diag. Qed.

Definition with_hashes (hashes : list (string * string)) (p : patch) : patch :=
  Patch (p_patch_id p) (p_diff p) (p_agent_id p) (p_task_id p) (p_session_id p)
    (p_description p) (p_created_at p) (p_status p) (p_retries p) (p_error p) hashes.

Lemma snapshot_into_spec a diff p w :
  patch_at w.2.1 a = Some p → p_file_hashes p = [] →
  ∃ e' hashes, (∀ f, f ∈ hashes.*1 ↔ f ∈ extract_file_paths_from_diff diff) ∧
    snapshot_into sha256 a diff w = ((w.1, (put_patch a (with_hashes hashes p) w.2.1, e')), Ok tt).
Proof.
  intros Hp Hh. unfold snapshot_into. destruct (extract_file_paths_from_diff diff) as [|x paths].
  - exists w.2.2, []. split; [set_solver|]. destruct w as [r [q e]]. cbn in *. unfold mret. do 3 f_equal.
    unfold put_patch. replace (with_hashes [] p) with p by (destruct p; cbn in *; by subst).
    rewrite list_insert_id by done. by destruct q.
  - destruct (snapshot_ok (x :: paths) [] w.2.2) as (e' & hashes & Hsn). exists e', hashes. split.
    { intros f. rewrite (snapshot_keys _ _ _ _ _ Hsn). set_solver. }
    unfold mbind, on_executor. rewrite Hsn. by rewrite (upd_p_some _ _ p).
Qed.

(** [enqueue] refuses without touching anything, or appends a pending patch. *)
Lemma enqueue_spec diff aid tid sid desc w :
  let run := enqueue sha256 uuid8 uuid4 clock MAXD has_redis diff aid tid sid desc w in
  (∃ msg, validate_patch diff = Raise (PatchValidationError msg) ∧ run = (w, Raise (PatchValidationError msg))) ∨
  (validate_patch diff = Ok tt ∧ MAXD ≤ length (_queue w.2.1) ∧
     ∃ msg, run = (w, Raise (PatchValidationError msg))) ∨
  (validate_patch diff = Ok tt ∧ length (_queue w.2.1) < MAXD ∧
     ∃ e' hashes, (∀ f, f ∈ hashes.*1 ↔ f ∈ extract_file_paths_from_diff diff) ∧
       run = (enqueued (fresh_patch (length (pq_heap w.2.1)) diff aid tid sid desc hashes) e' w,
              Ok (length (pq_heap w.2.1)))).
Proof.
  cbn zeta. pose proof (validate_error diff) as Hv. unfold enqueue.
  destruct (validate_patch diff) as [[]|e]; [|left; destruct Hv as [msg ->]; by exists msg].
  right. destruct (Nat.leb_spec MAXD (length (_queue w.2.1))) as [Hle|Hgt]; [left|right]; (split_and!; [done..|]).
  { unfold mbind at 1, check_depth, the_queue. rewrite (proj2 (Nat.leb_le _ _)) by done. eauto. }
  unfold mbind at 1, check_depth, the_queue. rewrite (proj2 (Nat.leb_gt _ _)) by done.
  unfold mbind at 1, new_patch, the_queue. cbn [fst snd].
  set (a := length (pq_heap w.2.1)). unfold mbind at 1.
  set (p0 := fresh_patch a diff aid tid sid desc []).
  match goal with |- context [snapshot_into _ _ _ ?w0] => set (w1 := w0) end.
  destruct (snapshot_into_spec a diff p0 w1) as (e' & hashes & Hk & Hs);
    [unfold w1; cbn; by apply patch_at_new|done|].
  exists e', hashes. split; [done|]. rewrite Hs. subst w1 p0 a. cbn [fst snd]. rewrite put_new.
  unfold mbind at 1, append_patch, mbind at 1.
  change (with_hashes hashes (fresh_patch ?a diff aid tid sid desc [])) with (fresh_patch a diff aid tid sid desc hashes).
  set (p := fresh_patch (length (pq_heap w.2.1)) diff aid tid sid desc hashes).
  rewrite (get_p_some _ p) by apply patch_at_new.
  unfold on_queue, mmodify, _persist_patch, mbind. cbn [fst snd pq_heap _queue _patches].
  by rewrite (get_p_some _ p) by apply patch_at_new.
Qed.

(** ** The interface of the task queue *)

#[export] Instance PatchQueueSink : PatchSink R (pqueue * E) :=
  {| pq_wired := true;
     pq_enqueue := enqueue_dict sha256 uuid8 uuid4 clock MAXD has_redis |}.

#[export] Instance PatchQueueSinkLaws : PatchSinkLaws R (pqueue * E).
Proof.
  split. intros diff aid tid sid desc w k Hk. cbn. unfold enqueue_dict, mbind.
  destruct (enqueue_spec diff aid tid sid desc w) as [(? & _ & ->)|[(_ & _ & ? & ->)|(_ & _ & e' & hs & _ & ->)]];
    [done..|]. erewrite get_p_some; [|apply patch_at_new]. cbn. destruct has_redis; [|done].
  apply key_set_ne. intros ->. done.
Qed.

(** ** Properties *)

(** C3: Applying a patch always returns an outcome, which what the executor
    answers decides: a conflict is re-queued below the retry limit and else left
    to a human; without one the dry run or the live apply that is refused rejects
    the patch with the message of the answer, an exception of either with its
    text, and after both succeeded it is applied and announced.  The patch keeps
    its identity, its status fits the action, its Redis entry goes away unless it
    is re-queued, and no other patch and no queue position changes. *)
Theorem apply_patch_outcome a p w :
  patch_at w.2.1 a = Some p →
  ∃ w' o p', _apply_patch sha256 has_redis has_bus a w = (w', Ok o) ∧
    ao_patch o = to_dict p' ∧ decided p w.2.2 (ao_action o) p' w'.2.2 ∧
    same_patch p p' ∧ action_fits (ao_action o) p p' ∧
    only_patch a p' w.2.1 w'.2.1 ∧ entry_after (ao_action o) p w.1 w'.1.
Proof.
  intros (w' & o & p' & ? & ? & Hd & ? & ?)%apply_patch_spec. destruct (decided_fits _ _ _ _ _ Hd).
  exists w', o, p'. by split_and!.
Qed.

(** C9: No lost update: a patch is applied to the live workspace only when every
    file it touches still has the content hashed when it was enqueued, and only
    after its dry run succeeded; the executor sees the dry run and the live
    apply directly after that comparison. *)
Theorem applied_only_if_unchanged a p w w' o :
  patch_at w.2.1 a = Some p →
  _apply_patch sha256 has_redis has_bus a w = (w', Ok o) → ao_action o = applied →
  ∃ e1 e2 e3 cur s l,
    (p_file_hashes p = [] ∧ e1 = w.2.2 ∨
     snapshot_file_hashes sha256 (p_file_hashes p).*1 [] w.2.2 = (e1, Ok cur) ∧
     unchanged (p_file_hashes p) cur) ∧
    apply_patch (p_diff p) Sandbox e1 = (e2, Ok s) ∧ ap_applied s = true ∧
    apply_patch (p_diff p) Live e2 = (e3, Ok l) ∧ ap_applied l = true.
Proof.
  intros Hp Hrun Ha. destruct (apply_patch_spec a p w Hp) as (w1 & o1 & p' & Hrun' & _ & Hd & _).
  rewrite Hrun in Hrun'. injection Hrun' as <- <-. rewrite Ha in Hd.
  inversion Hd as [| | | | | |e1 e2 e3 r l Hc]; subst. destruct Hc as [Hc|(cur & Hc)].
  - exists e1, e2, e3, [], r, l. by split_and!; [left|..].
  - exists e1, e2, e3, cur, r, l. by split_and!; [right|..].
Qed.

(** C17: [process_all] ends: two applications per queued patch are enough, and no
    patch of the queue is pending afterwards. *)
Theorem process_all_terminates fuel w :
  2 * length (_queue w.2.1) < fuel →
  ∃ w' rs, process_all sha256 has_redis has_bus fuel [] w = (w', Ok rs) ∧
    (∀ a, a ∈ _queue w'.2.1 → is_pending w'.2.1 a = false) ∧
    length rs ≤ 2 * length (_queue w.2.1).
Proof.
  intros Hf. pose proof (budget_le w.2.1).
  destruct (process_all_spec fuel [] w) as (w' & rs & Hr & _ & Hn & Hl); [lia|].
  exists w', rs. split_and!; [done..|cbn in Hl; lia].
Qed.

(** [enqueue] refuses an invalid diff, or any diff when the queue is at its
    depth, without touching anything; otherwise it appends one pending patch
    with the normalised diff and the hashes of exactly the touched files. *)
Theorem enqueue_correct diff aid tid sid desc w :
  let run := enqueue sha256 uuid8 uuid4 clock MAXD has_redis diff aid tid sid desc w in
  (∃ msg, validate_patch diff = Raise (PatchValidationError msg) ∧ run = (w, Raise (PatchValidationError msg))) ∨
  (validate_patch diff = Ok tt ∧ MAXD ≤ length (_queue w.2.1) ∧
     ∃ msg, run = (w, Raise (PatchValidationError msg))) ∨
  (validate_patch diff = Ok tt ∧ length (_queue w.2.1) < MAXD ∧
     ∃ e' hashes, (∀ f, f ∈ hashes.*1 ↔ f ∈ extract_file_paths_from_diff diff) ∧
       run = (enqueued (fresh_patch (length (pq_heap w.2.1)) diff aid tid sid desc hashes) e' w,
              Ok (length (pq_heap w.2.1)))).
Proof. apply enqueue_spec. Qed.

(** Nothing ever leaves [_queue]: once as many patches as its depth were
    accepted, every further patch is refused as "queue full", also after all
    of them were processed. *)
Theorem queue_stays_full fuel w w' x diff aid tid sid desc :
  MAXD ≤ length (_queue w.2.1) →
  process_all sha256 has_redis has_bus fuel [] w = (w', x) →
  2 * length (_queue w.2.1) < fuel →
  (∀ a, a ∈ _queue w'.2.1 → is_pending w'.2.1 a = false) ∧
  ∃ msg, enqueue sha256 uuid8 uuid4 clock MAXD has_redis diff aid tid sid desc w'
         = (w', Raise (PatchValidationError msg)).
Proof.
  intros Hfull Hrun Hf. pose proof (budget_le w.2.1).
  destruct (process_all_spec fuel [] w) as (w1 & rs & Hr & Hq & Hn & _); [lia|].
  rewrite Hrun in Hr. injection Hr as -> ->. split; [done|].
  destruct (enqueue_spec diff aid tid sid desc w1) as [(msg & _ & Hx)|[(_ & _ & msg & Hx)|(_ & Hlt & _)]];
    [eauto..|]. rewrite Hq in Hlt. lia.
Qed.

(** The test-fix loop reports passing tests only for an applied patch, and
    makes at most as many attempts as it was given. *)
Theorem test_fix_loop_result a pattern n w w' o :
  test_fix_loop sha256 uuid8 uuid4 clock MAXD MAXF has_redis has_bus a pattern (Some n) w = (w', Ok o) →
  fo_attempts o ≤ n ∧ (fo_test_passed o = true → fo_action o = applied ∧ 0 < fo_attempts o).
Proof.
  unfold test_fix_loop, mbind. destruct (get_p a w) as [w0 [p|]]; [|done]. cbn.
  assert (Hgen : ∀ rem k cur summary orig w w' o,
    fix_loop sha256 uuid8 uuid4 clock MAXD has_redis has_bus rem k cur summary orig pattern w = (w', Ok o) →
    fo_attempts o ≤ k + rem ∧ (fo_test_passed o = true → fo_action o = applied ∧ 0 < fo_attempts o)).
  { clear. assert (Hex : ∀ k cur summary w w' o, fix_exhausted (R:=R) (E:=E) has_redis k cur summary w = (w', Ok o) →
      fo_attempts o = k ∧ fo_test_passed o = false).
    { intros *. unfold fix_exhausted, mbind, mret. intros Hx. repeat (case_match; simplify_eq/=). done. }
    induction rem as [|rem IH]; intros k cur summary orig w w' o; cbn [fix_loop].
    { intros [-> ->]%Hex. split; [lia|done]. }
    unfold mbind at 1. destruct (_apply_patch _ _ _ _ _) as [w1 [res|]]; [|done].
    case_bool_decide as Hact; cbn [negb]; [|by intros [= <- <-]; cbn; split; [lia|]].
    unfold mbind at 1, on_executor at 1. destruct (run_tests _ _ _) as [e2 [test|]]; [|done].
    destruct (tr_passed test); [intros [= <- <-]; cbn; split; [lia|split; [done|lia]]|].
    case_bool_decide; [intros [-> ->]%Hex; split; [lia|done]|].
    unfold mbind at 1. destruct (get_p cur _) as [w2 [p|]]; [|done].
    unfold mbind at 1. destruct (spawn_and_run _ _ _ _) as [w3 [fx|]]; [|done].
    destruct (extract_diffs_from_result _); [intros [-> ->]%Hex; split; [lia|done]|].
    unfold mbind at 1. destruct (mtry _ _ _) as [w4 [[a'|]|]]; [| |done].
    - intros Hl%IH. split; [lia|apply Hl].
    - intros [-> ->]%Hex. split; [lia|done]. }
  intros Hl%Hgen. cbn in Hl. done.
Qed.
End facts.

(** Normalising line endings changes no line of a diff: the counts and paths
    computed before and after it agree. *)
Theorem normalize_preserves_lines d :
  splitlines (normalize_diff d) = splitlines d ∧
  count_diff_lines (normalize_diff d) = count_diff_lines d ∧
  extract_file_paths_from_diff (normalize_diff d) = extract_file_paths_from_diff d.
Proof.
  pose proof (splitlines_normalize d) as Hs. unfold count_diff_lines, extract_file_paths_from_diff. by rewrite Hs.
Qed.

(** A diff whose lines end in a bare carriage return. *)
Definition cr_mode_diff : string :=
  "x" +:+ cr +:+ "old mode 100644" +:+ cr +:+ "new mode 100755" +:+ nl +:+ "@@ -1 +1 @@" +:+ nl.

(** The permission check runs before normalisation: a mode change after a bare
    carriage return passes it, and is a mode change in the stored diff. *)
Theorem mode_check_bypassed :
  validate_patch cr_mode_diff = Ok tt ∧
  validate_patch (normalize_diff cr_mode_diff)
    = Raise (PatchValidationError "Permission-change patches are not allowed").
Proof. by vm_compute. Qed.

(** ** Concrete runs *)

Module Concrete.
(** An executor that applies everything and counts the live patches, with a
    workspace of empty files; its tests pass. *)
Instance exec : ExecutorHttp nat :=
  {| post_execute _ _ _ e := (e, Ok (ExecuteResponse "1 passed" "" 0));
     post_apply_patch _ target e :=
       (if bool_decide (target = "live") then S e else e, Ok (ApplyResponse true (Some "ok")));
     post_read_file path e := (e, Ok (ReadResponse path "" 0));
     post_list_files _ e := (e, Ok []);
     get_health e := (e, Ok 200%Z) |}.
Instance bus : EventBus nat := {| bus_publish _ _ e := e |}.
Instance runner : AgentRunner store (pqueue * nat) :=
  {| spawn_and_run role desc sid w := (w, Ok (AgentResult "a" role None (Some "") Done None)) |}.

Definition u8 (n : nat) : string := pretty n.
Definition diff : string :=
  "--- a/f.py" +:+ nl +:+ "+++ b/f.py" +:+ nl +:+ "@@ -1 +1 @@" +:+ nl +:+ "-a" +:+ nl +:+ "+b".
Definition empty : store * (pqueue * nat) := (∅, (PQ [] [] [], 0)).
(** Two accepted patches, with a depth of two. *)
Definition one : store * (pqueue * nat) :=
  (enqueue (λ x, x) u8 u8 Z.of_nat 2 true diff "a" "t" "s" "d" empty).1.
Definition two : store * (pqueue * nat) :=
  (enqueue (λ x, x) u8 u8 Z.of_nat 2 true diff "a" "t" "s" "d" one).1.
Definition first : patch := default (fresh_patch u8 u8 Z.of_nat 0 "" "" "" "" "" []) (patch_at two.2.1 0).
Lemma first_eq : patch_at two.2.1 0 = Some first.
Proof. by vm_compute. Qed.

Lemma outcome_witness :
  ∃ w' o p', _apply_patch (λ x, x) true true 0 two = (w', Ok o) ∧
    ao_patch o = to_dict p' ∧ decided (λ x, x) true first two.2.2 (ao_action o) p' w'.2.2 ∧
    same_patch first p' ∧ action_fits (ao_action o) first p' ∧
    only_patch 0 p' two.2.1 w'.2.1 ∧ entry_after true (ao_action o) first two.1 w'.1.
Proof. apply (apply_patch_outcome (λ x, x) true true 0 first two first_eq). Defined.

Definition after : (store * (pqueue * nat)) * res apply_outcome := _apply_patch (λ x, x) true true 0 two.
Definition after_out : apply_outcome :=
  match after.2 with Ok o => o | Raise _ => ApplyOutcome (to_dict first) rejected end.

Lemma unchanged_witness :
  ∃ e1 e2 e3 cur s l,
    (p_file_hashes first = [] ∧ e1 = two.2.2 ∨
     snapshot_file_hashes (λ x, x) (p_file_hashes first).*1 [] two.2.2 = (e1, Ok cur) ∧
     unchanged (p_file_hashes first) cur) ∧
    apply_patch (p_diff first) Sandbox e1 = (e2, Ok s) ∧ ap_applied s = true ∧
    apply_patch (p_diff first) Live e2 = (e3, Ok l) ∧ ap_applied l = true.
Proof.
  apply (applied_only_if_unchanged (λ x, x) true true 0 first two after.1 after_out first_eq);
    by vm_compute.
Defined.

Lemma process_witness :
  ∃ w' rs, process_all (λ x, x) true true 5 [] two = (w', Ok rs) ∧
    (∀ a, a ∈ _queue w'.2.1 → is_pending w'.2.1 a = false) ∧ length rs ≤ 4.
Proof. apply (process_all_terminates (λ x, x) true true 5 two). vm_compute. lia. Defined.

Lemma full_witness :
  let w' := (process_all (λ x, x) true true 5 [] two).1 in
  (∀ a, a ∈ _queue w'.2.1 → is_pending w'.2.1 a = false) ∧
  ∃ msg, enqueue (λ x, x) u8 u8 Z.of_nat 2 true diff "a" "t" "s" "d" w'
         = (w', Raise (PatchValidationError msg)).
Proof.
  apply (queue_stays_full (λ x, x) u8 u8 Z.of_nat 2 0 true true 5 two _
           (process_all (λ x, x) true true 5 [] two).2); [vm_compute; lia|by vm_compute|vm_compute; lia].
Defined.

(** The third submission meets a full queue. *)
Lemma enqueue_witness :
  ∃ msg, enqueue (λ x, x) u8 u8 Z.of_nat 2 true diff "a" "t" "s" "d" two
         = (two, Raise (PatchValidationError msg)).
Proof.
  destruct (enqueue_correct (λ x, x) u8 u8 Z.of_nat 2 0 true diff "a" "t" "s" "d" two)
    as [(msg & Hv & _)|[(_ & _ & H)|(_ & Hlt & _)]]; [by vm_compute in Hv|exact H|].
  vm_compute in Hlt. lia.
Defined.

Lemma fix_witness :
  ∃ w' o, test_fix_loop (λ x, x) u8 u8 Z.of_nat 2 3 true true 0 "tests/" (Some 3) two = (w', Ok o) ∧
    fo_attempts o ≤ 3 ∧ (fo_test_passed o = true → fo_action o = applied ∧ 0 < fo_attempts o).
Proof.
  destruct (test_fix_loop (λ x, x) u8 u8 Z.of_nat 2 3 true true 0 "tests/" (Some 3) two) as [w' x] eqn:Hx.
  destruct x as [o|e]; [|by vm_compute in Hx]. exists w', o. split; [done|].
  by apply (test_fix_loop_result (λ x, x) u8 u8 Z.of_nat 2 3 true true 0 "tests/" 3 two w').
Defined.
End Concrete.
