(* ===== verification/SessionManager.v ===== *)
(** * Sessions (orchestrator/session_manager.py)

    The session state is a JSON string under one Redis key, the role to model
    assignments a hash under another; both get the same time to live.  The
    hooks, the agent manager and the bus are reached through a class; the time
    of a write is a parameter.  [list_sessions] takes the keys of the scan as
    the keys with the prefix, each once. *)

From S2P Require Import Prelude PyStr Models Redis Interfaces.
Local Open Scope string_scope.
Local Open Scope list_scope.
Local Open Scope nat_scope.
Local Open Scope py_scope.

(** What the session manager calls on the rest [A] of the process. *)
Class SessionEnv (A : Type) := {
  on_session_start : string → string → M A unit;
  on_session_end : string → string → list message → list failure_report → M A unit;
  env_cleanup_idle_agents : A → A * nat;
  env_has_bus : bool;
  env_publish : string → ws_event → M A unit;
  env_cleanup_bus : string → A → A
}.

Definition _STATE_PREFIX : string := "session:state:".
Definition _MODELS_PREFIX : string := "session:models:".

Definition touch (now : Z) (st : session_state) : session_state :=
  SessionState (ss_session_id st) (ss_status st) (ss_created_at st) now (ss_task st)
    (ss_models st) (ss_agent_ids st) (ss_task_ids st) (ss_metadata st).
Definition with_sstatus (s : session_status) (st : session_state) : session_state :=
  SessionState (ss_session_id st) s (ss_created_at st) (ss_updated_at st) (ss_task st)
    (ss_models st) (ss_agent_ids st) (ss_task_ids st) (ss_metadata st).
Definition with_task (t : string) (st : session_state) : session_state :=
  SessionState (ss_session_id st) (ss_status st) (ss_created_at st) (ss_updated_at st) t
    (ss_models st) (ss_agent_ids st) (ss_task_ids st) (ss_metadata st).
Definition with_models (m : gmap string string) (st : session_state) : session_state :=
  SessionState (ss_session_id st) (ss_status st) (ss_created_at st) (ss_updated_at st) (ss_task st)
    m (ss_agent_ids st) (ss_task_ids st) (ss_metadata st).
Definition with_agents (l : list string) (st : session_state) : session_state :=
  SessionState (ss_session_id st) (ss_status st) (ss_created_at st) (ss_updated_at st) (ss_task st)
    (ss_models st) l (ss_task_ids st) (ss_metadata st).
Definition with_tasks (l : list string) (st : session_state) : session_state :=
  SessionState (ss_session_id st) (ss_status st) (ss_created_at st) (ss_updated_at st) (ss_task st)
    (ss_models st) (ss_agent_ids st) l (ss_metadata st).
Definition with_metadata (m : gmap string string) (st : session_state) : session_state :=
  SessionState (ss_session_id st) (ss_status st) (ss_created_at st) (ss_updated_at st) (ss_task st)
    (ss_models st) (ss_agent_ids st) (ss_task_ids st) m.

(** A keyword argument of [update_session]; the list fields take a list or one
    string to append. *)
Inductive field_update :=
  | FStatus (s : session_status)
  | FTask (t : string)
  | FModels (m : gmap string string)
  | FAgentIds (v : string + list string)
  | FTaskIds (v : string + list string)
  | FMetadata (m : gmap string string)
  | FUnknown (name : string).

Definition append_new (v : string) (l : list string) : list string :=
  if bool_decide (v ∈ l) then l else l ++ [v].

Definition apply_field (st : session_state) (u : field_update) : session_state :=
  match u with
  | FStatus s => with_sstatus s st
  | FTask t => with_task t st
  | FModels m => with_models m st
  | FAgentIds (inl v) => with_agents (append_new v (ss_agent_ids st)) st
  | FAgentIds (inr l) => with_agents l st
  | FTaskIds (inl v) => with_tasks (append_new v (ss_task_ids st)) st
  | FTaskIds (inr l) => with_tasks l st
  | FMetadata m => with_metadata m st
  | FUnknown _ => st
  end.

Section session_manager.
Context {R A : Type} `{Redis R} `{!SessionEnv A}.
(** [config.SESSION_TTL]. *)
Context (SESSION_TTL : Z).

Definition _state_key (sid : string) : string := _STATE_PREFIX +:+ sid.
Definition _models_key (sid : string) : string := _MODELS_PREFIX +:+ sid.

(** Returns the state object too: [updated_at] is set on it. *)
Definition _write_state (now : Z) (st : session_state) (r : R) : R * session_state :=
  let st' := touch now st in
  let sid := ss_session_id st in
  (r_expire (_models_key sid) SESSION_TTL
     (r_set (_state_key sid) (VSession st') (Some SESSION_TTL) r), st').

Definition _read_state (sid : string) (r : R) : option session_state :=
  match r_get r (_state_key sid) with Some (VSession st) => Some st | _ => None end.

Definition get_session : string → R → option session_state := _read_state.

(** [redis.hset(key, mapping=m)]; the client refuses an empty mapping. *)
Definition hset_models (sid : string) (m : gmap string string) : M R unit := λ r,
  if bool_decide (m = ∅) then (r, Raise (OtherError "'hset' with no key value pairs"))
  else (r_hset (_models_key sid) m r, Ok tt).

Definition write_state (now : Z) (st : session_state) : M R session_state := λ r,
  let '(r', st') := _write_state now st r in (r', Ok st').

(** [str] of a [KeyError] is the [repr] of its message. *)
Definition not_found (sid : string) : exn := KeyError (repr ("Session " +:+ repr sid +:+ " not found")).

Definition update_session (now : Z) (sid : string) (us : list field_update) : M R session_state := λ r,
  match _read_state sid r with
  | None => (r, Raise (not_found sid))
  | Some st => write_state now (foldl apply_field st us) r
  end.

Definition configure_models (now : Z) (sid : string) (m : gmap string string) : M R session_state :=
  do! hset_models sid m in
  let! r := mget in
  match _read_state sid r with
  | Some st => write_state now (with_models (m ∪ ss_models st) st)
  | None =>
      do! mmodify (r_expire (_models_key sid) SESSION_TTL) in
      mret (SessionState sid Active now now "" m [] [] ∅)
  end.

Definition register_agent (now : Z) (sid aid : string) : M R unit := λ r,
  match _read_state sid r with
  | None => (r, Ok tt)
  | Some st =>
      if bool_decide (aid ∈ ss_agent_ids st) then (r, Ok tt)
      else ((_write_state now (with_agents (ss_agent_ids st ++ [aid]) st) r).1, Ok tt)
  end.

Definition register_task (now : Z) (sid tid : string) : M R unit := λ r,
  match _read_state sid r with
  | None => (r, Ok tt)
  | Some st =>
      if bool_decide (tid ∈ ss_task_ids st) then (r, Ok tt)
      else ((_write_state now (with_tasks (ss_task_ids st ++ [tid]) st) r).1, Ok tt)
  end.

Definition pause_session (now : Z) (sid : string) : M R session_state :=
  update_session now sid [FStatus Paused].

Definition resume_session (now : Z) (sid : string) : M R session_state := λ r,
  match _read_state sid r with
  | None => (r, Raise (not_found sid))
  | Some st =>
      if bool_decide (ss_status st = Ended)
      then (r, Raise (ValueError ("Session " +:+ repr sid +:+ " has ended and cannot be resumed")))
      else update_session now sid [FStatus Active] r
  end.

Definition list_sessions (status : option session_status) (r : R) : list session_state :=
  let states := omap (λ k, match r_get r k with Some (VSession st) => Some st | _ => None end)
                  (r_keys _STATE_PREFIX r) in
  let states := match status with
                | None => states
                | Some s => List.filter (λ st, bool_decide (ss_status st = s)) states
                end in
  sort_desc ss_created_at states.

(** ** Operations that reach the rest of the process *)

Definition on_store {B} (m : M R B) : M (R * A) B := λ w,
  let '(r, b) := m w.1 in ((r, w.2), b).
Definition on_env {B} (m : M A B) : M (R * A) B := λ w,
  let '(a, b) := m w.2 in ((w.1, a), b).

Definition create_session (now : Z) (task : string) (sid : option string) (uuid4 : string)
    (models metadata : option (gmap string string)) : M (R * A) session_state :=
  let sid := py_or (default "" sid) uuid4 in
  do! on_env (on_session_start sid task) in
  let st := SessionState sid Active now now task (default ∅ models) [] [] (default ∅ metadata) in
  do! (if bool_decide (default ∅ models = ∅) then mret tt
       else on_store (hset_models sid (default ∅ models))) in
  on_store (write_state now st).

Definition ended_event (sid : string) : ws_event :=
  WSEvent STATUS sid None (Payload (Some "ended") None None [] None None None 0 0).

Definition end_session (now : Z) (sid summary : string) (transcript : list message)
    (failures : list failure_report) : M (R * A) session_state := λ w,
  match _read_state sid w.1 with
  | None => (w, Raise (not_found sid))
  | Some st =>
      (let! st' := on_store (write_state now (with_sstatus Ended st)) in
       do! on_env (on_session_end sid (py_or summary (ss_task st)) transcript failures) in
       do! mmodify (λ w, (w.1, (env_cleanup_idle_agents w.2).1)) in
       do! (if env_has_bus
            then do! mtry (on_env (env_publish sid (ended_event sid))) (λ _, mret tt) in
                 mmodify (λ w, (w.1, env_cleanup_bus sid w.2))
            else mret tt) in
       mret st') w
  end.
End session_manager.

(** ** Facts *)

#[global] Instance state_key_inj : Inj (=) (=) _state_key.
Proof. intros x y Hxy. unfold _state_key in Hxy. by apply (inj _) in Hxy. Qed.
Lemma state_key_ne_models_key sid sid' : _state_key sid ≠ _models_key sid'.
Proof. discriminate. Qed.
Lemma models_key_ne_state_key sid sid' : _models_key sid ≠ _state_key sid'.
Proof. discriminate. Qed.

Section facts.
Context {R : Type} `{RedisLaws R}.
Context (TTL : Z) (HTTL : (0 < TTL)%Z).
Implicit Types r : R.

(** A session is stored under its own id. *)
Definition sessions_wf (r : R) : Prop :=
  ∀ sid st, _read_state sid r = Some st → ss_session_id st = sid.

Lemma write_key now st r k :
  r_key (_write_state TTL now st r).1 k =
  if decide (k = _state_key (ss_session_id st)) then Some (DString (VSession (touch now st)))
  else r_key r k.
Proof. cbn. by rewrite key_expire, key_set. Qed.

Lemma write_read now st r sid :
  _read_state sid (_write_state TTL now st r).1 =
  if decide (sid = ss_session_id st) then Some (touch now st) else _read_state sid r.
Proof.
  unfold _read_state, r_get. rewrite write_key. destruct (decide (sid = ss_session_id st)) as [->|Hne].
  - by rewrite decide_True.
  - rewrite decide_False; [done|]. by intros ?%(inj _).
Qed.

Lemma write_ttl now st r :
  let r' := (_write_state TTL now st r).1 in
  r_ttl r' (_state_key (ss_session_id st)) = Some TTL ∧
  (r_key r (_models_key (ss_session_id st)) ≠ None →
   r_ttl r' (_models_key (ss_session_id st)) = Some TTL).
Proof.
  cbn. split.
  - rewrite ttl_expire by done. rewrite decide_False by (intros [? _]; by eapply state_key_ne_models_key).
    rewrite ttl_set. by rewrite decide_True.
  - intros Hm. rewrite ttl_expire by done. rewrite decide_True; [done|]. split; [done|].
    by rewrite key_set_ne by apply models_key_ne_state_key.
Qed.

Lemma write_hash now st r sid :
  r_hgetall (_write_state TTL now st r).1 (_models_key sid) = r_hgetall r (_models_key sid).
Proof. unfold r_hgetall. rewrite write_key, decide_False; [done|apply models_key_ne_state_key]. Qed.
End facts.

(** ** Properties *)

Section properties.
Context {R A : Type} `{RedisLaws R} `{!SessionEnv A}.
Context (TTL : Z).
Implicit Types r : R.

(** The two keys of a session never diverge after a write: as long as the hash
    existed, for any time that passes the state and the hash are there, or
    gone, together. *)
Theorem write_keeps_ttl_in_sync now st n r :
  (0 < TTL)%Z → (0 ≤ n)%Z → r_key r (_models_key (ss_session_id st)) ≠ None →
  let r' := r_elapse n (_write_state TTL now st r).1 in
  r_key r' (_state_key (ss_session_id st)) = None ↔ r_key r' (_models_key (ss_session_id st)) = None.
Proof.
  intros HTTL Hn Hm. destruct (write_ttl TTL HTTL now st r) as [Hs Hh]. specialize (Hh Hm).
  cbn zeta. rewrite !key_elapse by done. rewrite Hs, Hh. case_decide; [done|].
  rewrite !write_key by done. rewrite decide_True by done.
  rewrite decide_False by apply models_key_ne_state_key. done.
Qed.

(** [configure_models] on a session whose state and hash agree keeps them in
    agreement, adds the new roles over the old ones, and touches no other
    session. *)
Theorem configure_keeps_models_in_sync now sid m st h r :
  (0 < TTL)%Z → sessions_wf r → m ≠ ∅ → _read_state sid r = Some st →
  as_hash (r_key r (_models_key sid)) = Some h → ss_models st = h →
  ∃ r' st', configure_models TTL now sid m r = (r', Ok st') ∧
    _read_state sid r' = Some st' ∧ ss_models st' = m ∪ h ∧
    r_hgetall r' (_models_key sid) = m ∪ h ∧
    (∀ sid', sid' ≠ sid → _read_state sid' r' = _read_state sid' r).
Proof.
  intros HTTL Hwf Hm Hst Hh Hsync. pose proof (Hwf _ _ Hst) as Hid.
  unfold configure_models, mbind, hset_models, mget. rewrite bool_decide_eq_false_2 by done.
  set (r1 := r_hset (_models_key sid) m r).
  assert (Hr1 : ∀ s, _read_state s r1 = _read_state s r).
  { intros s. unfold _read_state, r_get, r1. rewrite (key_hset _ _ h) by done.
    rewrite decide_False; [done|apply state_key_ne_models_key]. }
  rewrite Hr1, Hst. unfold write_state.
  set (st2 := with_models (m ∪ ss_models st) st).
  destruct (_write_state TTL now st2 r1) as [r2 st3] eqn:Hw.
  assert (st3 = touch now st2) as -> by (unfold _write_state in Hw; by injection Hw).
  assert (r2 = (_write_state TTL now st2 r1).1) as -> by by rewrite Hw.
  eexists _, _. split; [done|].
  split_and!.
  - rewrite write_read by done. rewrite decide_True by done. done.
  - cbn. by rewrite Hsync.
  - rewrite write_hash by done. unfold r_hgetall, r1. rewrite (key_hset _ _ h) by done.
    by rewrite decide_True.
  - intros sid' Hne. rewrite write_read by done. rewrite decide_False; [apply Hr1|].
    cbn. by rewrite Hid.
Qed.

(** Life cycle: [resume_session] refuses an ended session and leaves it alone,
    but [pause_session] accepts it, and a resume after that makes the ended
    session active again. *)
Theorem ended_session_resurrected now now' sid st r :
  (0 < TTL)%Z → sessions_wf r → _read_state sid r = Some st → ss_status st = Ended →
  (∃ m, resume_session TTL now sid r = (r, Raise (ValueError m))) ∧
  ∃ r1 st1 r2 st2, pause_session TTL now sid r = (r1, Ok st1) ∧
    resume_session TTL now' sid r1 = (r2, Ok st2) ∧ ss_status st2 = Active ∧
    _read_state sid r2 = Some st2.
Proof.
  intros HTTL Hwf Hst He. pose proof (Hwf _ _ Hst) as Hid. split.
  { unfold resume_session. rewrite Hst, bool_decide_eq_true_2 by done. eauto. }
  unfold pause_session, resume_session, update_session, write_state. rewrite Hst.
  set (st1 := with_sstatus Paused st). change (foldl apply_field st [FStatus Paused]) with st1.
  destruct (_write_state TTL now st1 r) as [r1 st1'] eqn:Hw1.
  assert (st1' = touch now st1) as -> by (unfold _write_state in Hw1; by injection Hw1).
  assert (Hr1 : _read_state sid r1 = Some (touch now st1)).
  { replace r1 with (_write_state TTL now st1 r).1 by by rewrite Hw1.
    rewrite write_read by done. by rewrite decide_True. }
  eexists r1, _. rewrite Hr1. rewrite bool_decide_eq_false_2 by done.
  set (st2 := with_sstatus Active (touch now st1)).
  change (foldl apply_field (touch now st1) [FStatus Active]) with st2.
  destruct (_write_state TTL now' st2 r1) as [r2 st2'] eqn:Hw2.
  assert (st2' = touch now' st2) as -> by (unfold _write_state in Hw2; by injection Hw2).
  eexists _, _. split_and!; [done..|].
  replace r2 with (_write_state TTL now' st2 r1).1 by by rewrite Hw2.
  rewrite write_read by done. by rewrite decide_True.
Qed.

(** The listing holds exactly the stored sessions of the wanted status, each
    once, newest first. *)
Theorem list_sessions_correct status r :
  sessions_wf r →
  let l := list_sessions status r in
  (∀ st, st ∈ l ↔ _read_state (ss_session_id st) r = Some st ∧
                  (∀ s, status = Some s → ss_status st = s)) ∧
  NoDup (ss_session_id <$> l) ∧ StronglySorted (λ a b, ss_created_at b ≤ ss_created_at a)%Z l.
Proof.
  intros Hwf. cbn zeta. unfold list_sessions.
  set (f := λ k, match r_get r k with Some (VSession st) => Some st | _ => None end).
  set (all := omap f (r_keys _STATE_PREFIX r)).
  set (sel := match status with None => all | Some s => _ end).
  assert (Hall : ∀ st, st ∈ all ↔ _read_state (ss_session_id st) r = Some st).
  { intros st. unfold all. rewrite list_elem_of_omap. split.
    - intros (k & Hk%elem_of_keys & Hf). destruct Hk as [Hp _].
      apply startswith_spec in Hp as [sid ->]. assert (Hr : _read_state sid r = Some st) by exact Hf.
      by rewrite (Hwf _ _ Hr).
    - intros Hr. exists (_state_key (ss_session_id st)). split; [|exact Hr].
      apply elem_of_keys. split; [apply startswith_app|].
      unfold _read_state, r_get in Hr. by destruct (r_key r _). }
  assert (Hnd : NoDup (ss_session_id <$> all)).
  { assert (Hk : ∀ ks, NoDup ks → (∀ k, k ∈ ks → ∃ sid, k = _state_key sid) →
        NoDup (ss_session_id <$> omap f ks)).
    { induction ks as [|k ks IH]; cbn; [constructor|]. intros [Hk Hks]%NoDup_cons Hp.
      specialize (IH Hks ltac:(set_solver)). destruct (f k) as [st|] eqn:Ef; [|done]. cbn.
      apply NoDup_cons. split; [|done]. intros (st' & Hid & Hin)%list_elem_of_fmap.
      apply list_elem_of_omap in Hin as (k' & Hk' & Ef').
      destruct (Hp k ltac:(set_solver)) as [sid ->].
      destruct (Hp k' ltac:(set_solver)) as [sid' ->].
      assert (ss_session_id st = sid) by by apply Hwf.
      assert (ss_session_id st' = sid') by by apply Hwf. apply Hk. congruence. }
    apply Hk; [apply NoDup_keys|]. intros k [Hp _]%elem_of_keys. by apply startswith_spec in Hp. }
  assert (Hsel : ∀ st, st ∈ sel ↔ st ∈ all ∧ (∀ s, status = Some s → ss_status st = s)).
  { intros st. unfold sel. destruct status as [s|]; [|naive_solver].
    rewrite filter_In_elem, bool_decide_eq_true. naive_solver. }
  split_and!; [|  |apply sort_desc_sorted].
  - intros st. rewrite sort_desc_perm, Hsel, Hall. done.
  - rewrite sort_desc_perm. eapply sublist_NoDup; [exact Hnd|]. apply fmap_sublist.
    unfold sel. destruct status; [apply filter_sublist|done].
Qed.
End properties.

(** ** Concrete runs *)

Module Concrete.
Definition m1 : gmap string string := {["coder" := "a"]}.
Definition m2 : gmap string string := {["coder" := "b"]}.
Definition st0 : session_state := SessionState "s" Active 1 1 "t" m1 [] [] ∅.
(** A session with its hash, and the same session ended. *)
Definition r0 : store := (_write_state 100 1 st0 (r_hset (_models_key "s") m1 ∅)).1.
Definition r_ended : store := (_write_state 100 2 (with_sstatus Ended st0) r0).1.

Lemma wf_empty_hash sid m : sessions_wf (r_hset (_models_key sid) m (∅ : store)).
Proof.
  intros s st. unfold _read_state, r_get.
  rewrite (key_hset _ _ ∅), decide_False by (done || apply state_key_ne_models_key).
  cbn. by rewrite lookup_empty.
Qed.

Lemma wf_write now st (r : store) : sessions_wf r → sessions_wf (_write_state 100 now st r).1.
Proof.
  intros Hwf s st'. rewrite write_read by done. case_decide as Hs; [|apply Hwf].
  intros [= <-]. by rewrite Hs.
Qed.

Lemma r0_wf : sessions_wf r0.
Proof. apply wf_write, wf_empty_hash. Qed.

Lemma ttl_witness :
  let r' := r_elapse 50 (_write_state 100 5 st0 r0).1 in
  r_key r' (_state_key "s") = None ↔ r_key r' (_models_key "s") = None.
Proof. apply (write_keeps_ttl_in_sync 100 5 st0 50 r0); [lia|lia|by vm_compute]. Defined.

Lemma configure_witness :
  ∃ r' st', configure_models 100 5 "s" m2 r0 = (r', Ok st') ∧
    _read_state "s" r' = Some st' ∧ ss_models st' = m2 ∪ m1 ∧
    r_hgetall r' (_models_key "s") = m2 ∪ m1 ∧
    (∀ sid', sid' ≠ "s" → _read_state sid' r' = _read_state sid' r0).
Proof.
  apply (configure_keeps_models_in_sync 100 5 "s" m2 (touch 1 st0) m1 r0);
    [lia|apply r0_wf|by vm_compute|by vm_compute|by vm_compute|done].
Defined.

Lemma resurrect_witness :
  ∃ r1 st1 r2 st2, pause_session 100 3 "s" r_ended = (r1, Ok st1) ∧
    resume_session 100 4 "s" r1 = (r2, Ok st2) ∧ ss_status st2 = Active ∧ _read_state "s" r2 = Some st2.
Proof.
  apply (ended_session_resurrected 100 3 4 "s" (touch 2 (with_sstatus Ended st0)) r_ended);
    [lia|apply wf_write, r0_wf|by vm_compute|done].
Defined.

Lemma list_witness :
  let l := list_sessions (Some Active) r0 in
  (∀ st, st ∈ l ↔ _read_state (ss_session_id st) r0 = Some st ∧
                  (∀ s, Some Active = Some s → ss_status st = s)) ∧
  NoDup (ss_session_id <$> l) ∧ StronglySorted (λ a b, ss_created_at b ≤ ss_created_at a)%Z l.
Proof. apply (list_sessions_correct (Some Active) r0 r0_wf). Defined.

(** Models given through [configure_models] before the session exists are in
    the hash but not in the state that [create_session] writes. *)
Lemma create_forgets_configured :
  let r1 := (configure_models 100 1 "s" m1 (∅ : store)).1 in
  let r2 := (write_state 100 2 (SessionState "s" Active 2 2 "t" ∅ [] [] ∅) r1).1 in
  r_hgetall r2 (_models_key "s") = m1 ∧ ss_models <$> _read_state "s" r2 = Some ∅.
Proof. by vm_compute. Qed.
End Concrete.
