(* ===== verification/SessionRace.v ===== *)
(** * Concurrent updates of a session (orchestrator/session_manager.py)

    An update of a session reads its state, changes a field and writes the
    whole state back, with an [await] between the two commands.  Here the reads
    and writes of any number of updates interleave in every order, as they do
    when the tasks of a batch register their agents. *)

From S2P Require Import Prelude PyStr Models Redis SessionManager.
Local Open Scope string_scope.
Local Open Scope list_scope.
Local Open Scope nat_scope.

(** The changes of [register_agent], [register_task], and of [end_session],
    [pause_session] and [resume_session]; [None] when nothing is written. *)
Inductive session_edit := AddAgent (aid : string) | AddTask (tid : string) | SetStatus (s : session_status).

Definition apply_edit (e : session_edit) (st : session_state) : option session_state :=
  match e with
  | AddAgent aid =>
      if bool_decide (aid ∈ ss_agent_ids st) then None else Some (with_agents (ss_agent_ids st ++ [aid]) st)
  | AddTask tid =>
      if bool_decide (tid ∈ ss_task_ids st) then None else Some (with_tasks (ss_task_ids st ++ [tid]) st)
  | SetStatus s => Some (with_sstatus s st)
  end.

(** Update [i] reads, or writes what it made of what it read. *)
Inductive race_event := Reads (i : nat) (e : session_edit) | Writes (i : nat) (now : Z).

Section race.
Context {R : Type} `{RedisLaws R} (SESSION_TTL : Z) (sid : string).
Local Abbreviation TTL := SESSION_TTL.

(** Redis, and the states that wait to be written. *)
Local Abbreviation world := (R * gmap nat session_state)%type.

Inductive race_step : world → race_event → world → Prop :=
  | race_read i e r p st st' :
      p !! i = None → _read_state sid r = Some st → apply_edit e st = Some st' →
      race_step (r, p) (Reads i e) (r, <[i := st']> p)
  | race_read_nothing i e r p :
      (_read_state sid r ≫= apply_edit e) = None → race_step (r, p) (Reads i e) (r, p)
  | race_write i now r p st :
      p !! i = Some st → race_step (r, p) (Writes i now) ((_write_state TTL now st r).1, delete i p).

(** A read followed by its write is the operation of the session manager. *)
Lemma register_agent_steps i now aid r p :
  p !! i = None →
  ∃ es, trace race_step (r, p) (Reads i (AddAgent aid) :: es) ((register_agent TTL now sid aid r).1, p) ∧
    Forall (λ e, e = Writes i now) es.
Proof.
  intros Hp. unfold register_agent. destruct (_read_state sid r) as [st|] eqn:E.
  - destruct (bool_decide (aid ∈ ss_agent_ids st)) eqn:Ea.
    + exists []. split; [|done]. eapply trace_cons; [|apply trace_nil]. apply race_read_nothing.
      cbn [fst]. rewrite E. cbn. by rewrite Ea.
    + exists [Writes i now]. split; [|by repeat constructor].
      eapply trace_cons; [eapply race_read; [done|exact E|cbn; by rewrite Ea]|].
      eapply trace_cons; [apply race_write; by rewrite lookup_insert_eq|]. rewrite delete_insert_id by done. apply trace_nil.
  - exists []. split; [|done]. eapply trace_cons; [|apply trace_nil]. apply race_read_nothing.
    cbn [fst]. by rewrite E.
Qed.

(** *** What always holds *)

Context (HTTL : (0 < TTL)%Z).

(** A state of the session whose agents are those it had and some of [A],
    each once. *)
Definition state_ok (old A : list string) (st : session_state) : Prop :=
  ss_session_id st = sid ∧ old `prefix_of` ss_agent_ids st ∧ NoDup (ss_agent_ids st) ∧
  ∀ aid, aid ∈ ss_agent_ids st → aid ∈ old ∨ aid ∈ A.

Definition world_ok (old A : list string) (w : world) : Prop :=
  (∀ st, _read_state sid w.1 = Some st → state_ok old A st) ∧ map_Forall (λ _, state_ok old A) w.2.

Definition adds_from (A : list string) (ev : race_event) : Prop :=
  match ev with Reads _ (AddAgent aid) => aid ∈ A | _ => True end.

Lemma edit_ok old A e st st' i :
  adds_from A (Reads i e) → state_ok old A st → apply_edit e st = Some st' → state_ok old A st'.
Proof.
  intros Ha (Hs & Hp & Hn & Hin). destruct e as [aid|tid|s]; cbn; [| |by intros [= <-]].
  - case_bool_decide as Hm; [done|]. intros [= <-]. split_and!; cbn [ss_session_id ss_agent_ids with_agents].
    + done.
    + by apply prefix_app_r.
    + apply NoDup_app. split_and!; [done|set_solver|apply NoDup_singleton].
    + intros a [?|Ha']%elem_of_app; [by apply Hin|]. apply list_elem_of_singleton in Ha' as ->. by right.
  - case_bool_decide; [done|]. by intros [= <-].
Qed.

Lemma race_step_ok old A w ev w' :
  race_step w ev w' → adds_from A ev → world_ok old A w → world_ok old A w'.
Proof.
  intros Hs Ha [Hr Hp]. destruct Hs as [i e r p st st' Hn E Ee|i e r p Hn|i now r p st Hi]; cbn [fst snd] in *.
  - split; [done|]. apply map_Forall_insert_2; [|done]. eapply edit_ok; [exact Ha|by apply Hr|exact Ee].
  - by split.
  - pose proof (Hp _ _ Hi) as Hok. split; [|by apply map_Forall_delete]. cbn [fst]. intros st'.
    rewrite write_read by done. destruct Hok as (Hsid & Hok). case_decide; [|apply Hr]. intros [= <-]. by split.
Qed.

(** C20: However the updates of a session interleave, its agents are those it
    had, in their order, and some of those that were registered, each once. *)
Theorem interleaved_updates_sound st A es r r' p' :
  NoDup (ss_agent_ids st) → ss_session_id st = sid → _read_state sid r = Some st →
  trace race_step (r, ∅) es (r', p') → Forall (adds_from A) es →
  ∃ st', _read_state sid r' = Some st' ∧ ss_session_id st' = sid ∧
    ss_agent_ids st `prefix_of` ss_agent_ids st' ∧ NoDup (ss_agent_ids st') ∧
    ∀ aid, aid ∈ ss_agent_ids st' → aid ∈ ss_agent_ids st ∨ aid ∈ A.
Proof.
  intros Hn Hs Hr Ht HA.
  assert (Hok : world_ok (ss_agent_ids st) A (r', p') ∧ is_Some (_read_state sid r')).
  2: { destruct Hok as [[Hok _] [st' E]]. exists st'. split; [done|]. by apply Hok. }
  change r' with (r', p').1 at 2. revert Ht HA.
  intros Ht HA. eapply (trace_invariant race_step (λ w, world_ok (ss_agent_ids st) A w ∧ is_Some (_read_state sid w.1)) (adds_from A)); [|exact Ht|exact HA|].
  - intros w e w' Hst Ha [Hw Hsome]. split; [by eapply race_step_ok|].
    destruct Hst as [| |i now r0 p st0 Hi]; [done|done|]. cbn [fst] in *. rewrite write_read by done. by case_decide.
  - split; [|by exists st]. split; [|apply map_Forall_empty]. cbn [fst]. rewrite Hr. intros ? [= <-].
    split_and!; [done|done|done|by left].
Qed.

(** *** What is lost *)

(** Agents registered by tasks that run together: every read comes before
    every write. *)
Fixpoint reads_from (i : nat) (aids : list string) : list race_event :=
  match aids with [] => [] | aid :: aids' => Reads i (AddAgent aid) :: reads_from (S i) aids' end.
Definition writes_from (now : Z) (i n : nat) : list race_event := (λ j, Writes j now) <$> seq i n.

Definition with_agent (aid : string) (st : session_state) : session_state :=
  with_agents (ss_agent_ids st ++ [aid]) st.

Lemma reads_together r st aids i p :
  _read_state sid r = Some st → Forall (λ aid, aid ∉ ss_agent_ids st) aids → (∀ j, i ≤ j → p !! j = None) →
  ∃ p', trace race_step (r, p) (reads_from i aids) (r, p') ∧
    (∀ j, j < i → p' !! j = p !! j) ∧
    ∀ j aid, aids !! j = Some aid → p' !! (i + j) = Some (with_agent aid st).
Proof.
  intros Hr Hn. revert i p. induction Hn as [|aid aids Ha _ IH]; intros i p Hp.
  { exists p. split; [apply trace_nil|]. split; [done|]. intros j a. by rewrite lookup_nil. }
  destruct (IH (S i) (<[i := with_agent aid st]> p)) as (p' & Ht & Hlow & Hin).
  { intros j Hj. rewrite lookup_insert_ne by lia. apply Hp. lia. }
  exists p'. split_and!.
  - cbn [reads_from]. eapply trace_cons; [|exact Ht]. eapply race_read; [by apply Hp|exact Hr|]. cbn.
    by rewrite bool_decide_false.
  - intros j Hj. rewrite Hlow, lookup_insert_ne by lia. done.
  - intros [|j] a Hj; cbn in Hj.
    + injection Hj as <-. rewrite Nat.add_0_r, Hlow by lia. by rewrite lookup_insert_eq.
    + rewrite Nat.add_succ_r. by apply (Hin j).
Qed.

Lemma writes_together now i n r p (s : nat → session_state) :
  (∀ j, j < n → p !! (i + j) = Some (s j)) → (∀ j, ss_session_id (s j) = sid) →
  ∃ r' p', trace race_step (r, p) (writes_from now i n) (r', p') ∧
    (0 < n → _read_state sid r' = Some (touch now (s (n - 1)))).
Proof.
  revert i r p s. induction n as [|n IH]; intros i r p s Hp Hs.
  { exists r, p. split; [apply trace_nil|lia]. }
  destruct (IH (S i) (_write_state TTL now (s 0) r).1 (delete i p) (λ j, s (S j))) as (r' & p' & Ht & Hr); [|done|].
  { intros j Hj. rewrite lookup_delete_ne by lia. replace (S i + j) with (i + S j) by lia. apply Hp. lia. }
  exists r', p'. split.
  - unfold writes_from. cbn [seq fmap list_fmap]. eapply trace_cons; [|exact Ht]. apply race_write.
    rewrite <- (Hp 0), Nat.add_0_r by lia. done.
  - intros _. destruct n as [|n].
    + apply trace_nil_inv, (f_equal fst) in Ht. cbn [fst] in Ht. rewrite Ht, write_read, decide_True by done. done.
    + rewrite Hr by lia. do 3 f_equal. lia.
Qed.

(** When the agents of a batch register together, so that each reads the
    session before any writes it, the session keeps the last of them only. *)
Theorem parallel_registrations_lost st r aids aid now :
  _read_state sid r = Some st → ss_session_id st = sid →
  Forall (λ a, a ∉ ss_agent_ids st) (aids ++ [aid]) →
  ∃ r' p', trace race_step (r, ∅)
      (reads_from 0 (aids ++ [aid]) ++ writes_from now 0 (length (aids ++ [aid]))) (r', p') ∧
    ss_agent_ids <$> _read_state sid r' = Some (ss_agent_ids st ++ [aid]).
Proof.
  intros Hr Hs Hn. destruct (reads_together r st (aids ++ [aid]) 0 ∅ Hr Hn) as (p1 & H1 & _ & Hp1); [done|].
  destruct (writes_together now 0 (length (aids ++ [aid])) r p1 (λ j, with_agent (default aid ((aids ++ [aid]) !! j)) st))
    as (r2 & p2 & H2 & Hr2); [|done|].
  { intros j Hj. destruct (lookup_lt_is_Some_2 _ _ Hj) as [a Ha]. rewrite Ha. by apply Hp1. }
  exists r2, p2. split; [by eapply trace_app|]. rewrite Hr2 by (rewrite length_app; cbn; lia).
  rewrite length_app. cbn [length]. rewrite Nat.add_sub, lookup_app_r, Nat.sub_diag by lia. done.
Qed.

(** A registration that reads a session before it is ended and writes after
    reopens it. *)
Theorem registration_reopens_session st r aid now now' :
  _read_state sid r = Some st → ss_session_id st = sid → ss_status st = Active → aid ∉ ss_agent_ids st →
  ∃ r' p', trace race_step (r, ∅) [Reads 0 (AddAgent aid); Reads 1 (SetStatus Ended); Writes 1 now; Writes 0 now'] (r', p') ∧
    ss_status <$> _read_state sid r' = Some Active.
Proof.
  intros Hr Hs Ha Hn. eexists _, _. split.
  - eapply trace_cons; [eapply race_read; [done|exact Hr|cbn; by rewrite bool_decide_false]|].
    eapply trace_cons; [eapply race_read; [by rewrite lookup_insert_ne|exact Hr|done]|].
    eapply trace_cons; [eapply race_write; by rewrite lookup_insert_eq|].
    eapply trace_cons; [eapply race_write; by rewrite lookup_delete_ne, lookup_insert_ne, lookup_insert_eq|].
    apply trace_nil.
  - rewrite write_read, decide_True by done. cbn. by rewrite Ha.
Qed.
End race.

(** ** Concrete interleavings *)
Module Concrete.
Import SessionManager.Concrete.

Definition read_st : session_state := touch 1 st0.
Lemma r0_read : _read_state "s" r0 = Some read_st.
Proof. by vm_compute. Qed.

Definition started : race_event := Reads 0 (AddAgent "a").
Lemma sound_witness :
  ∃ st', _read_state "s" r0 = Some st' ∧ ss_session_id st' = "s" ∧
    ss_agent_ids read_st `prefix_of` ss_agent_ids st' ∧ NoDup (ss_agent_ids st') ∧
    ∀ aid, aid ∈ ss_agent_ids st' → aid ∈ ss_agent_ids read_st ∨ aid ∈ ["a"].
Proof.
  apply (interleaved_updates_sound 100 "s" ltac:(lia) read_st ["a"] [started] r0 r0 {[0 := with_agent "a" read_st]}).
  - apply NoDup_nil_2.
  - reflexivity.
  - apply r0_read.
  - apply (trace_cons _ _ _ (r0, {[0 := with_agent "a" read_st]})); [|apply trace_nil].
    by apply (race_read 100 "s" 0 (AddAgent "a") r0 ∅ read_st (with_agent "a" read_st)); [| apply r0_read|].
  - repeat constructor.
Defined.

(** Three agents of a batch: only the third is in the session. *)
Lemma registrations_lost_witness :
  ∃ r' p', trace (race_step 100 "s") (r0, ∅)
      [Reads 0 (AddAgent "a"); Reads 1 (AddAgent "b"); Reads 2 (AddAgent "c"); Writes 0 9; Writes 1 9; Writes 2 9] (r', p') ∧
    ss_agent_ids <$> _read_state "s" r' = Some ["c"].
Proof.
  apply (parallel_registrations_lost 100 "s" ltac:(lia) read_st r0 ["a"; "b"] "c" 9).
  - apply r0_read.
  - reflexivity.
  - repeat constructor; apply not_elem_of_nil.
Defined.
End Concrete.
