(* ===== verification/ContextManager.v ===== *)
(** * Prompt construction (orchestrator/context_manager.py)

    The token budget, the formatted context blocks, the trimming of the
    conversation and [build_prompt].  The memory searches are reached through a
    class, [sanitize_context] (Sanitize.v) and the formatting of a percentage
    are parameters, and the context length of a model comes from the registry as a
    result that may be an exception. *)

From S2P Require Import Prelude PyStr Models Utils.
From Stdlib Require Import QArith.
Local Open Scope string_scope.
Local Open Scope list_scope.
Local Open Scope nat_scope.
Local Open Scope py_scope.

Definition RESPONSE_BUDGET : Z := 2048.
Definition RECENT_MSG_KEEP : nat := 6.
Definition MEMORY_RESULTS_K : nat := 3.
Definition CODEBASE_K : nat := 4.
Definition ANTIPATTERN_K : nat := 2.

(** A history entry [{"role": ..., "content": ...}] with a string content. *)
Record chat_msg := ChatMsg { cm_role : string; cm_content : option string }.

(** The search results, with the metadata entries the formatting reads. *)
Record code_chunk := CodeChunk {
  cc_file : option string; cc_symbol : option string; cc_symbol_type : option string; cc_content : string
}.
Record antipattern := Antipattern {
  an_name : option string; an_confidence : option Q; an_content : string
}.
Record memory_hit := MemoryHit { mh_collection : option string; mh_content : string }.

Class MemorySearch (A : Type) := {
  search_codebase : string → nat → M A (list code_chunk);
  search_antipatterns : string → nat → M A (list antipattern);
  recall : string → nat → M A (list memory_hit)
}.

(** ** Formatting *)

Definition _build_system_block (system_prompt task : string) : string :=
  join nl (strip system_prompt ::
    (if truthy task then [nl +:+ nl +:+ "## Current Task" +:+ nl +:+ strip task] else [])).

Definition codebase_header (c : code_chunk) : string :=
  let symbol := default "" (cc_symbol c) in
  "### " +:+ default "unknown" (cc_file c) +:+
  (if truthy symbol then " — " +:+ default "" (cc_symbol_type c) +:+ " `" +:+ symbol +:+ "`" else "").

Definition _format_codebase_context (chunks : list code_chunk) : string :=
  join nl ("## Relevant Codebase Context" ::
    ((λ c, nl +:+ codebase_header c +:+ nl +:+ "```" +:+ nl +:+ strip (cc_content c) +:+ nl +:+ "```")
       <$> chunks)).

Definition _format_memory_context (memories : list memory_hit) : string :=
  join nl ("## Relevant Past Context" ::
    ((λ m, nl +:+ "[" +:+ default "memory" (mh_collection m) +:+ "] " +:+ strip (mh_content m))
       <$> memories)).

Section context.
(** [sanitize_context], and [f"{conf:.0%}"]. *)
Context (sanitize_context : string → string) (percent : Q → string).

Definition antipattern_line (a : antipattern) : string :=
  let conf := default 1%Q (an_confidence a) in
  let conf_str := if negb (Qle_bool 1 conf) then " (confidence: " +:+ percent conf +:+ ")" else "" in
  nl +:+ "⚠️  **" +:+ default "antipattern" (an_name a) +:+ "**" +:+ conf_str +:+ nl +:+
  strip (an_content a).

Definition _format_antipattern_context (l : list antipattern) : string :=
  join nl ("## Known Pitfalls — Avoid These" :: (antipattern_line <$> l)).

(** The filter [confidence >= 0.6]. *)
Definition confident (a : antipattern) : bool := Qle_bool (6 # 10) (default 1%Q (an_confidence a)).

(** ** Trimming *)

Definition sanitized (m : chat_msg) : chat_msg :=
  ChatMsg (cm_role m) (Some (sanitize_context (default "" (cm_content m)))).

Definition msg_cost (m : chat_msg) : Z := Z.of_nat (count_tokens (default "" (cm_content m)) + 4).

(** [count_messages_tokens] on such messages. *)
Definition total_cost (l : list chat_msg) : Z := foldr (λ m z, (msg_cost m + z)%Z) 0%Z l.

(** [for msg in reversed(l)] with [kept.insert(0, msg)] and the [break]; the
    argument is the reversed list. *)
Fixpoint keep_loop (budget used : Z) (rl kept : list chat_msg) : list chat_msg :=
  match rl with
  | [] => kept
  | m :: rl' =>
      if (budget <? used + msg_cost m)%Z then kept
      else keep_loop budget (used + msg_cost m)%Z rl' (m :: kept)
  end.

Definition _trim_conversation (conversation : list chat_msg) (token_budget : Z) : list chat_msg :=
  match conversation with
  | [] => []
  | _ =>
      let clean := sanitized <$> conversation in
      let recent := last_n RECENT_MSG_KEEP clean in
      let older := if RECENT_MSG_KEEP <? length clean then but_last_n RECENT_MSG_KEEP clean else [] in
      let recent_tokens := total_cost recent in
      if (token_budget <=? recent_tokens)%Z
      then keep_loop token_budget 0 (reverse recent) []
      else keep_loop (token_budget - recent_tokens) 0 (reverse older) [] ++ recent
  end.

(** ** The token budget *)

Section prompt.
Context {A : Type} `{!MemorySearch A}.
(** [config.MAX_CONTEXT_TOKENS], and [get_model_registry().get_context_length]. *)
Context (MAX_CONTEXT_TOKENS : Z) (get_context_length : string → res Z).

Definition _resolve_token_budget (model : string) : Z :=
  if negb (truthy model) then (MAX_CONTEXT_TOKENS - RESPONSE_BUDGET)%Z
  else match get_context_length model with
       | Ok ctx_len => (ctx_len - RESPONSE_BUDGET)%Z
       | Raise _ => (MAX_CONTEXT_TOKENS - RESPONSE_BUDGET)%Z
       end.

Definition with_part (s p : string) : string := if truthy p then s +:+ nl +:+ nl +:+ p else s.

(** An optional search whose non-empty result is formatted. *)
Definition section_of {B} (wanted : bool) (search : M A (list B)) (keep : B → bool)
    (format : list B → string) : M A string :=
  if wanted then
    let! l := search in
    match List.filter keep l with [] => mret "" | l' => mret (format l') end
  else mret "".

Definition system_message (budget : Z) (p1 p2 p2_5 p4 : string) : string * Z :=
  let content := sanitize_context (with_part (with_part (with_part p1 p2) p2_5) p4) in
  let remaining := (budget - Z.of_nat (count_tokens content))%Z in
  if (remaining <? 512)%Z then
    let content := sanitize_context (with_part (with_part p1 p2) p2_5) in
    (content, budget - Z.of_nat (count_tokens content))%Z
  else (content, remaining).

Definition build_prompt (task system_prompt : string) (conversation : list chat_msg)
    (include_codebase include_memories include_antipatterns : bool) (model : string)
    : M A (list chat_msg) :=
  let budget := _resolve_token_budget model in
  let p1 := _build_system_block system_prompt task in
  let! p2 := section_of (include_codebase && truthy task) (search_codebase task CODEBASE_K)
               (λ _, true) _format_codebase_context in
  let! p2_5 := section_of (include_antipatterns && truthy task)
                 (search_antipatterns task ANTIPATTERN_K) confident _format_antipattern_context in
  let! p4 := section_of (include_memories && truthy task) (recall task MEMORY_RESULTS_K)
               (λ _, true) _format_memory_context in
  let '(content, remaining) := system_message budget p1 p2 p2_5 p4 in
  mret (ChatMsg "system" (Some content) :: _trim_conversation conversation remaining).
End prompt.

(** ** Summaries *)

Section summarize.
Context {A : Type}.
(** The POST to the Ollama chat endpoint, and [str.upper] on a role. *)
Context (ollama_chat : string → M A string) (upper : string → string).

Definition transcript_text (messages : list chat_msg) : string :=
  join nl ((λ m, upper (cm_role m) +:+ ": " +:+ default "" (cm_content m)) <$> messages).

Definition summarize (messages : list chat_msg) (hint : string) : M A string :=
  match messages with
  | [] => mret ""
  | _ =>
      let text := transcript_text messages in
      let prompt := "Summarize the following conversation concisely, preserving all technical decisions and code changes made."
                    +:+ nl +:+ nl +:+ text in
      let prompt := if truthy hint then "Context: " +:+ hint +:+ nl +:+ nl +:+ prompt else prompt in
      mtry (ollama_chat prompt) (λ _, mret (stake 2000 text +:+ "... [truncated]"))
  end.
End summarize.
End context.

(** ** Specification of the trimming *)

(** The longest suffix of [l] within the budget, on the reversed list. *)
Fixpoint take_fit (b : Z) (rl : list chat_msg) : list chat_msg :=
  match rl with
  | [] => []
  | m :: rl' => if (b <? msg_cost m)%Z then [] else m :: take_fit (b - msg_cost m) rl'
  end.

Definition longest_suffix (b : Z) (l : list chat_msg) : list chat_msg :=
  reverse (take_fit b (reverse l)).

Lemma msg_cost_pos m : (5 ≤ msg_cost m)%Z.
Proof. unfold msg_cost, count_tokens. lia. Qed.

Lemma total_cost_app l k : total_cost (l ++ k) = (total_cost l + total_cost k)%Z.
Proof. unfold total_cost. induction l as [|m l IH]; cbn in *; lia. Qed.

Lemma total_cost_reverse l : total_cost (reverse l) = total_cost l.
Proof.
  induction l as [|m l IH]; [done|]. rewrite reverse_cons, total_cost_app, IH.
  cbn. fold (total_cost l). lia.
Qed.

Lemma total_cost_nonneg l : (0 ≤ total_cost l)%Z.
Proof. unfold total_cost. induction l as [|m l IH]; cbn in *; [lia|]. pose proof (msg_cost_pos m). lia. Qed.

Lemma keep_loop_fit b used rl kept :
  keep_loop b used rl kept = reverse (take_fit (b - used) rl) ++ kept.
Proof.
  revert used kept. induction rl as [|m rl IH]; intros used kept; cbn [take_fit keep_loop]; [done|].
  destruct (Z.ltb_spec b (used + msg_cost m)), (Z.ltb_spec (b - used) (msg_cost m)); try lia; [done|].
  rewrite IH, reverse_cons, <-app_assoc. by replace (b - used - msg_cost m)%Z with (b - (used + msg_cost m))%Z by lia.
Qed.

Lemma take_fit_app b l1 l2 :
  take_fit b (l1 ++ l2) =
  if decide (total_cost l1 ≤ b)%Z then l1 ++ take_fit (b - total_cost l1) l2 else take_fit b l1.
Proof.
  revert b. induction l1 as [|m l1 IH]; intros b; cbn [app take_fit].
  - cbn. rewrite Z.sub_0_r. case_decide; [done|]. destruct l2 as [|m l2]; [done|]. cbn.
    pose proof (msg_cost_pos m). destruct (Z.ltb_spec b (msg_cost m)); [done|lia].
  - rewrite IH. cbn [total_cost foldr]. fold (total_cost l1). pose proof (total_cost_nonneg l1).
    destruct (Z.ltb_spec b (msg_cost m)); repeat case_decide; try lia; try done.
    by replace (b - msg_cost m - total_cost l1)%Z with (b - (msg_cost m + total_cost l1))%Z by lia.
Qed.

Lemma take_fit_neg b l : (b ≤ 0)%Z → take_fit b l = [].
Proof.
  intros Hb. destruct l as [|m l]; [done|]. cbn. pose proof (msg_cost_pos m).
  by destruct (Z.ltb_spec b (msg_cost m)); [|lia].
Qed.

Lemma take_fit_cost b l : take_fit b l = [] ∨ (total_cost (take_fit b l) ≤ b)%Z.
Proof.
  revert b. induction l as [|m l IH]; intros b; cbn [take_fit]; [by left|].
  destruct (Z.ltb_spec b (msg_cost m)); [by left|]. right. cbn [total_cost foldr].
  fold (total_cost (take_fit (b - msg_cost m) l)).
  destruct (IH (b - msg_cost m)%Z) as [->|?]; cbn; lia.
Qed.

(** The suffix fits, and the message before it would not. *)
Lemma take_fit_maximal b l :
  ∃ rest, l = take_fit b l ++ rest ∧
    (∀ m rest', rest = m :: rest' → (b < total_cost (take_fit b l) + msg_cost m)%Z).
Proof.
  revert b. induction l as [|m l IH]; intros b; cbn [take_fit]; [by exists []|].
  destruct (Z.ltb_spec b (msg_cost m)) as [Hlt|Hge].
  - exists (m :: l). split; [done|]. intros ? ? [= <- <-]. cbn. lia.
  - destruct (IH (b - msg_cost m)%Z) as (rest & Hl & Hm). exists rest. cbn [app]. split; [by f_equal|].
    intros m' rest' Hr. specialize (Hm _ _ Hr). cbn [total_cost foldr].
    fold (total_cost (take_fit (b - msg_cost m) l)). lia.
Qed.

Lemma trim_eq sanitize_context conversation b :
  _trim_conversation sanitize_context conversation b
  = longest_suffix b (sanitized sanitize_context <$> conversation).
Proof.
  unfold _trim_conversation, longest_suffix. destruct conversation as [|m0 conv]; [done|].
  set (clean := sanitized sanitize_context <$> m0 :: conv).
  set (recent := last_n RECENT_MSG_KEEP clean).
  assert (Hsplit : (if RECENT_MSG_KEEP <? length clean then but_last_n RECENT_MSG_KEEP clean else []) ++ recent = clean).
  { destruct (Nat.ltb_spec RECENT_MSG_KEEP (length clean)); [apply but_last_n_last_n|].
    unfold recent. by rewrite last_n_all. }
  set (older := if _ <? _ then _ else _) in *.
  rewrite <-Hsplit at 1. rewrite reverse_app, take_fit_app, total_cost_reverse, !keep_loop_fit, !Z.sub_0_r, !app_nil_r.
  destruct (Z.leb_spec b (total_cost recent)) as [Hle|Hgt]; case_decide; try lia; [|done|].
  - rewrite (take_fit_neg (b - total_cost recent)), app_nil_r, reverse_involutive by lia.
    destruct (take_fit_maximal b (reverse recent)) as (rest & Hr & Hm).
    destruct rest as [|m rest]; [by rewrite app_nil_r in Hr; rewrite <-Hr, reverse_involutive|].
    specialize (Hm _ _ eq_refl). exfalso. apply (f_equal total_cost) in Hr.
    rewrite total_cost_reverse, total_cost_app in Hr. cbn [total_cost foldr] in Hr. fold (total_cost rest) in Hr.
    pose proof (total_cost_nonneg rest). lia.
  - by rewrite reverse_app, reverse_involutive.
Qed.

(** ** Properties *)

Section properties.
Context (sanitize_context : string → string) (percent : Q → string).

(** The two-phase trimming keeps a suffix of the sanitised conversation that
    fits the budget, and no longer suffix fits. *)
Lemma trim_spec conversation b :
  let kept := _trim_conversation sanitize_context conversation b in
  ∃ dropped, sanitized sanitize_context <$> conversation = dropped ++ kept ∧ (kept = [] ∨ (total_cost kept ≤ b)%Z) ∧
    (∀ m rest, dropped = rest ++ [m] → (b < msg_cost m + total_cost kept)%Z).
Proof.
  cbn zeta. rewrite trim_eq. unfold longest_suffix. set (clean := sanitized sanitize_context <$> conversation).
  destruct (take_fit_maximal b (reverse clean)) as (rest & Hr & Hm). exists (reverse rest).
  split_and!.
  - by rewrite <-reverse_app, <-Hr, reverse_involutive.
  - rewrite total_cost_reverse. destruct (take_fit_cost b (reverse clean)) as [->|]; auto.
  - intros m rest' Hd. rewrite total_cost_reverse. apply (f_equal reverse) in Hd.
    rewrite reverse_involutive, reverse_app in Hd. cbn in Hd. specialize (Hm m _ Hd). lia.
Qed.

(** What an optional search found and kept, and the section it makes. *)
Definition searched {A B} (wanted : bool) (search : M A (list B)) (keep : B → bool) (a a' : A) (l : list B) : Prop :=
  if wanted then ∃ found, search a = (a', Ok found) ∧ l = List.filter keep found else a' = a ∧ l = [].
Definition section_text {B} (format : list B → string) (l : list B) : string :=
  match l with [] => "" | _ => format l end.

Lemma section_of_ok {A B} wanted (search : M A (list B)) keep format a a' p :
  section_of wanted search keep format a = (a', Ok p) →
  ∃ l, searched wanted search keep a a' l ∧ p = section_text format l.
Proof.
  unfold section_of, searched, section_text, mbind, mret. destruct wanted; [|intros [= <- <-]; by exists []].
  destruct (search a) as [a1 [found|e]]; [|done]. intros Hp. exists (List.filter keep found).
  destruct (List.filter keep found) as [|x l] eqn:El; injection Hp as <- <-; (split; [|done]); exists found; by rewrite El.
Qed.

(** The system message: the instructions with the task, then the sections; the
    memories are left out when less than 512 tokens would remain. *)
Definition system_text (budget : Z) (p1 p2 p2_5 p4 : string) : string :=
  let full := sanitize_context (with_part (with_part (with_part p1 p2) p2_5) p4) in
  if decide (budget - Z.of_nat (count_tokens full) < 512)%Z
  then sanitize_context (with_part (with_part p1 p2) p2_5) else full.

Lemma system_message_eq budget p1 p2 p2_5 p4 :
  system_message sanitize_context budget p1 p2 p2_5 p4 =
  let content := system_text budget p1 p2 p2_5 p4 in (content, (budget - Z.of_nat (count_tokens content))%Z).
Proof. unfold system_message, system_text. cbn zeta. by destruct (Z.ltb_spec (budget - Z.of_nat (count_tokens
  (sanitize_context (with_part (with_part (with_part p1 p2) p2_5) p4)))) 512); case_decide; try lia. Qed.

End properties.

(** ** Concrete runs *)

Module Concrete.
Instance memory : MemorySearch nat :=
  {| search_codebase _ _ a := (a, Ok [CodeChunk (Some "a.py") None None "x"]);
     search_antipatterns _ _ a := (a, Ok []);
     recall _ _ a := (a, Ok []) |}.
Definition conv : list chat_msg := [ChatMsg "user" (Some "hi"); ChatMsg "assistant" (Some "hello")].
Definition run := build_prompt (λ x, x) (λ _, "0%") 24000 (λ _, Ok 4096%Z) "task" "sys" conv true true true "m" 0.
Definition run_msgs : list chat_msg := match run.2 with Ok l => l | Raise _ => [] end.


(** The system message alone is over a small budget. *)
Example over_budget :
  let r := build_prompt (λ x, x) (λ _, "0%") 24000 (λ _, Ok 2050%Z) "task" "a long instruction" conv true true true "m" 0 in
  _resolve_token_budget 24000 (λ _, Ok 2050%Z) "m" = 2%Z ∧
  map (λ m, 2 <? count_tokens (default "" (cm_content m))) (match r.2 with Ok l => l | Raise _ => [] end) = [true].
Proof. vm_compute. split; reflexivity. Qed.
End Concrete.
