(* ===== verification/Memory.v ===== *)
(** * The memory (orchestrator/memory_manager.py)

    Embeddings through the cache of EmbedCache.v, the four collections of the
    vector store, indexing of the workspace, searches, reranking and the
    clustering of failures.  The vector store and the model server are classes;
    the laws of the store are in MemoryProps.v.  Distances, scores and
    confidences are rationals; hashes and the current time are parameters. *)

From S2P Require Import Prelude PyStr Paths AstIndexer EmbedCache ContextManager.
From Stdlib Require Import QArith Qabs.
Local Open Scope string_scope.
Local Open Scope list_scope.
Local Open Scope nat_scope.
Local Open Scope py_scope.

Definition COLLECTION_NAMES : list string := ["sessions"; "codebase"; "skills"; "failures"].
Definition MAX_FILE_SIZE : Z := 500000.
Definition SEARCH_K : nat := 5.

Definition INDEXABLE_EXTENSIONS : list string :=
  [".py"; ".js"; ".ts"; ".jsx"; ".tsx"; ".go"; ".rs"; ".java"; ".c"; ".cpp"; ".h"; ".cs"; ".rb"; ".php";
   ".swift"; ".kt"; ".md"; ".txt"; ".yaml"; ".yml"; ".toml"; ".json"; ".env.example"; ".sh"; ".bash"; ".sql"].

Definition SKIP_DIRS : list string :=
  [".git"; "__pycache__"; "node_modules"; ".venv"; "venv"; "env"; "dist"; "build"; ".next"; "target"; ".cache";
   ".idea"; ".vscode"].

(** ** Data *)

(** The values of a metadata dict. *)
Inductive mval := MStr (s : string) | MInt (z : Z) | MFloat (q : Q).

#[export] Instance Q_eq_dec : EqDecision Q.
Proof. solve_decision. Defined.
#[export] Instance mval_eq_dec : EqDecision mval.
Proof. solve_decision. Defined.

Abbreviation meta := (gmap string mval).

(** A result dict of a search. *)
Record hit := Hit {
  h_content : string; h_meta : meta; h_distance : Q; h_collection : string; h_rerank : option Q
}.

(** An entry of the reranker's answer. *)
Record ranked := Ranked { rk_index : option Z; rk_score : option Q }.

(** What [Collection.upsert] gets for one document. *)
Record vs_item (Vec : Type) := VsItem { vi_id : string; vi_doc : string; vi_emb : Vec; vi_meta : meta }.
Arguments VsItem {Vec}.
Arguments vi_id {Vec}.
Arguments vi_doc {Vec}.
Arguments vi_emb {Vec}.
Arguments vi_meta {Vec}.

(** ChromaDB: a condition [{k: {"$eq": v}}] is the pair of [k] and [v]. *)
Class VectorStore (Vec X : Type) := {
  vs_client : M X unit;                     (* create the client, heartbeat *)
  vs_collection : string → M X unit;        (* get_or_create_collection *)
  vs_upsert : string → list (vs_item Vec) → M X unit;
  vs_get : string → string * mval → option nat → M X (list (string * meta));
  vs_query : string → Vec → nat → option (string * mval) → M X (list (string * meta * Q))
}.

(** The requests to Ollama: /api/embeddings and /api/rerank within its timeout. *)
Class EmbedHttp (Vec X : Type) := {
  post_embeddings : string → M X Vec;
  post_rerank : string → list string → M X (list ranked)
}.

(** The embedding cache, the collections that are connected, the outside. *)
Record mem (Vec X : Type) := Mem {
  mm_cache : list (string * Vec); mm_collections : list string; mm_ext : X
}.
Arguments Mem {Vec X}.
Arguments mm_cache {Vec X}.
Arguments mm_collections {Vec X}.
Arguments mm_ext {Vec X}.

(** An entry of [root.rglob("*")], its path relative to the root. *)
Record ws_entry := WsEntry {
  we_path : path; we_is_file : bool; we_size : Z; we_text : res string
}.

Record index_stats := IndexStats {
  si_indexed : nat; si_unchanged : nat; si_chunks : nat; si_skipped : nat
}.

(** ** Results as the prompt reads them *)

Definition meta_str (k : string) (m : meta) : option string :=
  match m !! k with Some (MStr s) => Some s | _ => None end.
Definition meta_num (k : string) (m : meta) : option Q :=
  match m !! k with Some (MFloat q) => Some q | Some (MInt z) => Some (inject_Z z) | _ => None end.

Definition hit_chunk (h : hit) : code_chunk :=
  CodeChunk (meta_str "file" (h_meta h)) (meta_str "symbol" (h_meta h)) (meta_str "symbol_type" (h_meta h))
    (h_content h).
Definition hit_antipattern (h : hit) : antipattern :=
  Antipattern (meta_str "name" (h_meta h)) (meta_num "confidence" (h_meta h)) (h_content h).
Definition hit_memory (h : hit) : memory_hit := MemoryHit (Some (h_collection h)) (h_content h).

Section memory.
Context {Vec X : Type} `{!VectorStore Vec X} `{!EmbedHttp Vec X}.
(** [config.EMBED_CACHE_MAX_SIZE], the digests in hexadecimal, and what the
    indexer needs. *)
Context (EMBED_CACHE_MAX_SIZE : nat) (md5 sha256 : string → string).
Context (get_parser : string → option (string → res ts_node)) (encode decode : string → string).

Local Abbreviation W := (mem Vec X).

Definition on_ext {A} (m : M X A) : M W A := λ w,
  let '(x, r) := m (mm_ext w) in (Mem (mm_cache w) (mm_collections w) x, r).

Definition with_cache (c : list (string * Vec)) (w : W) : W := Mem c (mm_collections w) (mm_ext w).

(** ** Embeddings *)

Definition cache_get (key : string) : M W (option Vec) := λ w,
  let '(c, r) := lru_get key (mm_cache w) in (with_cache c w, Ok r).

Definition cache_set (key : string) (v : Vec) : M W unit :=
  mmodify (λ w, with_cache (lru_set EMBED_CACHE_MAX_SIZE key v (mm_cache w)) w).

Definition _embed_raw (text : string) : M W Vec := on_ext (post_embeddings text).

Definition _embed (text : string) : M W Vec :=
  let key := md5 text in
  let! cached := cache_get key in
  match cached with
  | Some v => mret v
  | None =>
      let! result := _embed_raw text in
      do! cache_set key result in
      mret result
  end.

Definition _embed_batch (texts : list string) : M W (list Vec) := gather (_embed <$> texts).

(** ** Lifecycle *)

Definition add_collection (name : string) (w : W) : W :=
  Mem (mm_cache w) (if bool_decide (name ∈ mm_collections w) then mm_collections w
                    else mm_collections w ++ [name]) (mm_ext w).

Definition try_connect : M W unit :=
  do! on_ext vs_client in
  mfor COLLECTION_NAMES (λ name, do! on_ext (vs_collection name) in mmodify (add_collection name)).

(** The loop over the attempts that are left. *)
Fixpoint connect_attempts (n : nat) : M W unit :=
  match n with
  | 0 => mret tt
  | S n' => mtry try_connect (λ e, if n' =? 0 then mraise e else connect_attempts n')
  end.
Definition connect : M W unit := connect_attempts 10.

(** The collection, or the exception; the collection itself is its name. *)
Definition _col (name : string) : M W string := λ w,
  if bool_decide (name ∈ mm_collections w) then (w, Ok name)
  else (w, Raise (RuntimeError ("Collection " +:+ repr name +:+ " not initialised — call connect() first."))).

(** ** Searches *)

Definition as_hits (collection : string) (l : list (string * meta * Q)) : list hit :=
  (λ r, Hit r.1.1 r.1.2 r.2 collection None) <$> l.

Definition _search (collection query : string) (k : nat) : M W (list hit) :=
  let! col := _col collection in
  mtry (let! emb := _embed query in
        let! result := on_ext (vs_query col emb k None) in
        mret (as_hits collection result))
    (λ _, mret []).

(** The entries [scored[:top_k]] selects. *)
Definition pick_ranked (results : list hit) (l : list ranked) : list hit :=
  omap (λ item,
    let idx := default 0%Z (rk_index item) in
    if ((0 <=? idx) && (idx <? Z.of_nat (length results)))%Z then
      (λ h, Hit (h_content h) (h_meta h) (h_distance h) (h_collection h) (Some (default 0%Q (rk_score item))))
        <$> results !! Z.to_nat idx
    else None) l.

Definition by_score (a b : ranked) : bool := Qle_bool (default 0%Q (rk_score b)) (default 0%Q (rk_score a)).

Definition rerank (query : string) (results : list hit) (top_k : nat) : M W (list hit) :=
  match results with
  | [] => mret []
  | _ =>
      mtry (let! l := on_ext (post_rerank query (h_content <$> results)) in
            mret (pick_ranked results (take top_k (sort_by by_score l))))
        (λ _, mret (take top_k results))
  end.

Definition search_codebase (query : string) (k : nat) : M W (list hit) :=
  let! results := _search "codebase" query (k * 2) in rerank query results k.

Definition search_symbol (name : string) (k : nat) : M W (list hit) :=
  let! col := _col "codebase" in
  let! found :=
    mtry (let! l := on_ext (vs_get col ("symbol", MStr name) None) in
          mret (match l with
                | [] => None
                | _ => Some (take k ((λ d, Hit d.1 d.2 0%Q "codebase" None) <$> l))
                end))
      (λ _, mret None) in
  match found with Some l => mret l | None => search_codebase name k end.

Definition by_distance (a b : hit) : bool := Qle_bool (h_distance a) (h_distance b).

Definition recall (query : string) (k : nat) : M W (list hit) :=
  let! s := _search "sessions" query k in
  let! f := _search "failures" query k in
  rerank query (take (k * 2) (sort_by by_distance (s ++ f))) k.

Definition search_skills (query : string) (k : nat) : M W (list hit) := _search "skills" query k.

Definition search_antipatterns (query : string) (k : nat) : M W (list hit) :=
  let! col := _col "skills" in
  mtry (let! emb := _embed query in
        let! result := on_ext (vs_query col emb k (Some ("type", MStr "antipattern"))) in
        mret (as_hits "skills" result))
    (λ _, mret []).

(** ** Documents *)

(** One document into a collection. *)
Definition upsert_one (col id content : string) (m : meta) : M W unit :=
  let! emb := _embed content in
  on_ext (vs_upsert col [VsItem id content emb m]).

(** [{"session_id": ..., "ts": ..., **metadata}]. *)
Definition save_session (now : Z) (session_id content : string) (metadata : meta) : M W unit :=
  let! col := _col "sessions" in
  upsert_one col ("session:" +:+ session_id +:+ ":" +:+ pretty now) content
    (metadata ∪ {["session_id" := MStr session_id; "ts" := MInt now]}).

Definition failure_content (description approach error : string) : string :=
  "TASK: " +:+ description +:+ nl +:+ "APPROACH: " +:+ approach +:+ nl +:+ "ERROR: " +:+ error.
Definition failure_id (content : string) : string := "failure:" +:+ stake 16 (md5 content).

Definition record_failure (now : Z) (session_id task_id description error approach : string) : M W unit :=
  let! col := _col "failures" in
  let content := failure_content description approach error in
  upsert_one col (failure_id content) content
    {["session_id" := MStr session_id; "task_id" := MStr task_id; "ts" := MInt now]}.

Definition save_skill (now : Z) (name content : string) (metadata : meta) : M W unit :=
  let! col := _col "skills" in
  upsert_one col ("skill:" +:+ name) content (metadata ∪ {["name" := MStr name; "ts" := MInt now]}).

(** ** Clusters *)

(** The inner loop over [enumerate(candidates)]: the members that join the
    cluster of failure [i], and the assigned indices. *)
Definition close (threshold : Q) (a b : hit) : bool :=
  Qle_bool (Qabs (h_distance a - h_distance b)) threshold.

Fixpoint cluster_members (threshold : Q) (i : nat) (failure : hit) (assigned : list nat) (js : list (nat * hit))
  : list hit * list nat :=
  match js with
  | [] => ([], assigned)
  | (j, other) :: js' =>
      if bool_decide (j ∈ assigned) || bool_decide (j = i) || negb (close threshold failure other)
      then cluster_members threshold i failure assigned js'
      else let '(ms, asg) := cluster_members threshold i failure (j :: assigned) js' in (other :: ms, asg)
  end.

Fixpoint cluster_loop (threshold : Q) (all : list (nat * hit)) (assigned : list nat) (l : list (nat * hit))
  : list (list hit) :=
  match l with
  | [] => []
  | (i, failure) :: l' =>
      if bool_decide (i ∈ assigned) then cluster_loop threshold all assigned l'
      else let '(ms, asg) := cluster_members threshold i failure (i :: assigned) all in
           (failure :: ms) :: cluster_loop threshold all asg l'
  end.

Definition clusters_of (threshold : Q) (candidates : list hit) : list (list hit) :=
  let all := imap pair candidates in
  sort_desc (λ c, Z.of_nat (length c)) (cluster_loop threshold all [] all).

Definition cluster_failures (query : string) (k : nat) (threshold : Q) : M W (list (list hit)) :=
  let! candidates := _search "failures" (py_or query "error failure exception") k in
  mret (clusters_of threshold candidates).

(** ** Indexing the workspace *)

Definition _make_id (file : string) (chunk_idx : nat) : string :=
  stake 32 (sha256 (file +:+ "::" +:+ pretty chunk_idx)).

(** The documents of the chunks of a file, without their embeddings. *)
Definition chunk_item (file file_hash : string) (total i : nat) (c : chunk) : option (vs_item unit) :=
  if blank (ch_content c) then None
  else Some (VsItem (_make_id file i) (ch_content c) tt
    {["file" := MStr file; "chunk" := MInt (Z.of_nat i); "total_chunks" := MInt (Z.of_nat total);
      "file_hash" := MStr file_hash; "symbol" := MStr (ch_symbol c); "symbol_type" := MStr (ch_symbol_type c);
      "start_line" := MInt (Z.of_nat (ch_start_line c)); "end_line" := MInt (Z.of_nat (ch_end_line c));
      "language" := MStr (ch_language c)]}).

Definition file_items (file file_hash : string) (chunks : list chunk) : list (vs_item unit) :=
  omap id (imap (chunk_item file file_hash (length chunks)) chunks).

Definition with_embedding (i : vs_item unit) (v : Vec) : vs_item Vec :=
  VsItem (vi_id i) (vi_doc i) v (vi_meta i).

Definition lift_res {A} (r : res A) : M W A := λ w, (w, r).

(** Whether the store has the file with this hash. *)
Definition unchanged (col file file_hash : string) : M W bool :=
  mtry (let! l := on_ext (vs_get col ("file", MStr file) (Some 1)) in
        mret (match l with
              | [] => false
              | (_, m) :: _ => bool_decide (default "" (meta_str "file_hash" m) = file_hash)
              end))
    (λ _, mret false).

(** The files the loop does not leave before it reads them. *)
Definition indexable (root : path) (e : ws_entry) : bool :=
  negb (existsb (λ part, bool_decide (part ∈ SKIP_DIRS)) (root ++ we_path e)) &&
  we_is_file e &&
  bool_decide (lower (suffix_of (default "" (last (we_path e)))) ∈ INDEXABLE_EXTENSIONS).

Definition skip_one (st : index_stats) : index_stats :=
  IndexStats (si_indexed st) (si_unchanged st) (si_chunks st) (S (si_skipped st)).

(** [path.relative_to(root)]. *)
Definition rel_path (e : ws_entry) : string := join "/" (we_path e).

Definition index_file (col : string) (root : path) (st : index_stats) (e : ws_entry) : M W index_stats :=
  if negb (indexable root e) then mret st
  else if (MAX_FILE_SIZE <? we_size e)%Z then mret (skip_one st)
  else match we_text e with
  | Raise _ => mret (skip_one st)
  | Ok text =>
      let file_hash := md5 text in
      let! same := unchanged col (rel_path e) file_hash in
      if same then mret (IndexStats (si_indexed st) (S (si_unchanged st)) (si_chunks st) (si_skipped st))
      else
        let! raw_chunks := lift_res (chunk_file get_parser encode decode (rel_path e) text) in
        match file_items (rel_path e) file_hash raw_chunks with
        | [] => mret st
        | items =>
            mtry (let! embeddings := _embed_batch (vi_doc <$> items) in
                  do! on_ext (vs_upsert col (zip_with with_embedding items embeddings)) in
                  mret (IndexStats (S (si_indexed st)) (si_unchanged st) (si_chunks st + length items)
                          (si_skipped st)))
              (λ _, mret (skip_one st))
        end
  end.

Fixpoint index_files (col : string) (root : path) (st : index_stats) (es : list ws_entry) : M W index_stats :=
  match es with
  | [] => mret st
  | e :: es' => let! st' := index_file col root st e in index_files col root st' es'
  end.

Definition index_codebase (root : path) (es : list ws_entry) : M W index_stats :=
  let! col := _col "codebase" in
  index_files col root (IndexStats 0 0 0 0) es.

(** The searches of the prompt. *)
#[export] Instance MemoryManagerSearch : MemorySearch W :=
  {| ContextManager.search_codebase q k := let! l := search_codebase q k in mret (hit_chunk <$> l);
     ContextManager.search_antipatterns q k := let! l := search_antipatterns q k in mret (hit_antipattern <$> l);
     ContextManager.recall q k := let! l := recall q k in mret (hit_memory <$> l) |}.
End memory.
