(* ===== verification/MemoryProps.v ===== *)
(** * The memory: what its operations guarantee

    The laws of the vector store, the cache of embeddings, reranking, the
    clusters of failures, duplicate failures, and incremental indexing. *)

From S2P Require Import Prelude PyStr Paths AstIndexer EmbedCache ContextManager Memory.
From Stdlib Require Import QArith Qabs.
Local Open Scope string_scope.
Local Open Scope list_scope.
Local Open Scope nat_scope.

(** ** The vector store *)

(** The documents [upsert] leaves: a document replaces the one with its id. *)
Definition put_docs {Vec} (items : list (vs_item Vec)) (docs : gmap string (string * meta))
  : gmap string (string * meta) :=
  foldl (λ m i, <[vi_id i := (vi_doc i, vi_meta i)]> m) docs items.

(** What [get] with a condition answers. *)
Definition found (cond : string * mval) (limit : option nat) (docs : gmap string (string * meta))
  (l : list (string * meta)) : Prop :=
  (∀ d, d ∈ l → ∃ id, docs !! id = Some d ∧ d.2 !! cond.1 = Some cond.2) ∧
  (l = [] → limit ≠ Some 0 → ∀ id d, docs !! id = Some d → d.2 !! cond.1 ≠ Some cond.2).

Class VectorStoreLaws (Vec X : Type) `{!VectorStore Vec X} `{!EmbedHttp Vec X} := {
  vs_docs : X → string → gmap string (string * meta);
  docs_upsert col items x x' :
    vs_upsert col items x = (x', Ok tt) →
    ∀ c, vs_docs x' c = if decide (c = col) then put_docs items (vs_docs x col) else vs_docs x c;
  docs_get col cond limit x x' l :
    vs_get (Vec:=Vec) col cond limit x = (x', Ok l) → found cond limit (vs_docs x col) l;
  docs_get_same col cond limit x c : vs_docs (vs_get (Vec:=Vec) col cond limit x).1 c = vs_docs x c;
  docs_upsert_keeps col items x c id :
    is_Some (vs_docs x c !! id) → is_Some (vs_docs (vs_upsert (Vec:=Vec) col items x).1 c !! id);
  docs_query col emb k cond x c : vs_docs (vs_query (Vec:=Vec) col emb k cond x).1 c = vs_docs x c;
  docs_embed text x c : vs_docs (post_embeddings (Vec:=Vec) text x).1 c = vs_docs x c
}.

(** The services answer. *)
Class ServicesUp (Vec X : Type) `{!VectorStore Vec X} `{!EmbedHttp Vec X} : Prop := {
  up_upsert col items x : ∃ x', vs_upsert (Vec:=Vec) col items x = (x', Ok tt);
  up_get col cond limit x : ∃ x' l, vs_get (Vec:=Vec) col cond limit x = (x', Ok l);
  up_embed text x : ∃ x' (v : Vec), post_embeddings text x = (x', Ok v)
}.

Lemma put_docs_lookup {Vec} (items : list (vs_item Vec)) docs id d :
  put_docs items docs !! id = Some d →
  (∃ i, i ∈ items ∧ id = vi_id i ∧ d = (vi_doc i, vi_meta i)) ∨ docs !! id = Some d ∧ id ∉ vi_id <$> items.
Proof.
  unfold put_docs. revert docs. induction items as [|i items IH]; intros docs; cbn; [set_solver|].
  intros [(j & ? & ?)|[Hd Hn]]%IH; [left; exists j; set_solver|].
  destruct (decide (id = vi_id i)) as [->|Hne]; [|rewrite lookup_insert_ne in Hd by done; right; set_solver].
  rewrite lookup_insert_eq in Hd. simplify_eq. left. exists i. set_solver.
Qed.

Lemma put_docs_is_Some {Vec} (items : list (vs_item Vec)) docs id :
  id ∈ vi_id <$> items ∨ is_Some (docs !! id) → is_Some (put_docs items docs !! id).
Proof.
  unfold put_docs. revert docs. induction items as [|i items IH]; intros docs; cbn; [set_solver|].
  intros H. apply IH. destruct (decide (id = vi_id i)) as [->|Hne]; [rewrite lookup_insert_eq; by right; eexists|].
  rewrite lookup_insert_ne by done. set_solver.
Qed.

(** ** Clusters *)

Section clusters.
Context (threshold : Q).

(** The candidates the inner loop takes. *)
Definition joins (i : nat) (failure : hit) (assigned : list nat) (p : nat * hit) : bool :=
  negb (bool_decide (p.1 ∈ assigned) || bool_decide (p.1 = i) || negb (close threshold failure p.2)).

Lemma members_spec i failure assigned js ms asg :
  NoDup js.*1 → cluster_members threshold i failure assigned js = (ms, asg) →
  ms = (List.filter (joins i failure assigned) js).*2 ∧
  ∀ j, j ∈ asg ↔ j ∈ assigned ∨ j ∈ (List.filter (joins i failure assigned) js).*1.
Proof.
  revert assigned ms asg. induction js as [|[j o] js IH]; intros assigned ms asg; cbn [cluster_members fmap list_fmap fst].
  { intros _ [= <- <-]. set_solver. }
  intros [Hj Hn]%NoDup_cons. cbn [List.filter].
  assert (Hjo : joins i failure assigned (j, o)
    = negb (bool_decide (j ∈ assigned) || bool_decide (j = i) || negb (close threshold failure o))) by done.
  destruct (bool_decide (j ∈ assigned) || bool_decide (j = i) || negb (close threshold failure o)) eqn:E; rewrite Hjo; cbn [negb].
  - by apply IH.
  - destruct (cluster_members _ _ _ _ js) as [ms' asg'] eqn:Em. intros [= <- <-].
    destruct (IH _ _ _ Hn Em) as [-> Hasg].
    assert (Heq : List.filter (joins i failure (j :: assigned)) js = List.filter (joins i failure assigned) js).
    { apply List.filter_ext_in. intros [k o'] Hk%list_elem_of_In. unfold joins. cbn. do 3 f_equal.
      apply bool_decide_ext. rewrite elem_of_cons. split; [|auto]. intros [->|?]; [|done]. exfalso. apply Hj.
      change j with (j, o').1. by apply list_elem_of_fmap_2. }
    rewrite Heq in *. split; [done|]. intros k. rewrite Hasg. set_solver.
Qed.

Lemma concat_perm {A} (l k : list (list A)) : Permutation l k → Permutation (concat l) (concat k).
Proof.
  induction 1 as [|x l k _ IH|x y l|l k m _ IH1 _ IH2]; cbn; [done|by rewrite IH| |by etrans].
  rewrite !(assoc_L (++)). f_equiv. apply Permutation_app_comm.
Qed.

Definition unassigned (assigned : list nat) (l : list (nat * hit)) : list (nat * hit) :=
  List.filter (λ p, negb (bool_decide (p.1 ∈ assigned))) l.

Lemma NoDup_pairs (l : list (nat * hit)) : NoDup l.*1 → NoDup l.
Proof. apply NoDup_fmap_1. Qed.

Lemma pairs_inj (l : list (nat * hit)) i x y : NoDup l.*1 → (i, x) ∈ l → (i, y) ∈ l → x = y.
Proof.
  intros Hn Hx Hy. apply (dict_get_NoDup _ _ _ Hn) in Hx, Hy. congruence.
Qed.

(** Taking a cluster out of the unassigned candidates. *)
Lemma unassigned_split all i failure assigned ms asg :
  NoDup all.*1 → (i, failure) ∈ all → i ∉ assigned →
  cluster_members threshold i failure (i :: assigned) all = (ms, asg) →
  Permutation (unassigned assigned all).*2 (failure :: ms ++ (unassigned asg all).*2).
Proof.
  intros Hn Hi Hu Hm. destruct (members_spec _ _ _ _ _ _ Hn Hm) as [-> Hasg].
  set (js := List.filter (joins i failure (i :: assigned)) all) in *.
  change (failure :: js.*2 ++ (unassigned asg all).*2) with (((i, failure) :: js).*2 ++ (unassigned asg all).*2).
  rewrite <-fmap_app. apply fmap_Permutation.
  assert (Hjs : ∀ p, p ∈ js ↔ p ∈ all ∧ p.1 ∉ assigned ∧ p.1 ≠ i ∧ close threshold failure p.2 = true).
  { intros p. unfold js. rewrite filter_In_elem. unfold joins. rewrite negb_true_iff, !orb_false_iff, negb_false_iff.
    rewrite !bool_decide_eq_false. set_solver. }
  assert (Hun : ∀ a p, p ∈ unassigned a all ↔ p ∈ all ∧ p.1 ∉ a).
  { intros a p. unfold unassigned. by rewrite filter_In_elem, negb_true_iff, bool_decide_eq_false. }
  assert (Hfst : ∀ k, k ∈ js.*1 ↔ ∃ o, (k, o) ∈ js).
  { intros k. rewrite list_elem_of_fmap. split; [intros ([? o] & -> & ?); by exists o|intros [o ?]; by exists (k, o)]. }
  apply NoDup_Permutation.
  - eapply sublist_NoDup; [by apply NoDup_pairs|apply filter_sublist].
  - apply NoDup_app. split.
    + apply NoDup_cons. split; [rewrite Hjs; naive_solver|].
      eapply sublist_NoDup; [by apply NoDup_pairs|apply filter_sublist].
    + split; [|eapply sublist_NoDup; [by apply NoDup_pairs|apply filter_sublist]].
      intros [k o] Hk. rewrite Hun, Hasg, Hfst. intros [_ Hno]. apply Hno.
      apply elem_of_cons in Hk as [[= -> ->]|Hk]; [left; by left|right; by exists o].
  - intros [k o]. rewrite elem_of_app, elem_of_cons, !Hun, Hasg, Hfst. split.
    + intros [Hk Hka]. destruct (decide (k = i)) as [->|Hki]; [left; left; f_equal; by eapply pairs_inj|].
      destruct (close threshold failure o) eqn:Ec; [left; right; by apply Hjs|]. right. split; [done|].
      cbn. intros [[->|?]%elem_of_cons|[o' Ho']]; [done..|]. apply Hjs in Ho' as (Ho' & _ & _ & Hc). cbn in *.
      pose proof (pairs_inj _ _ _ _ Hn Hk Ho') as ->. congruence.
    + intros [[[= -> ->]|Hk%Hjs]|[Hk Hno]]; [done|naive_solver|]. split; [done|]. set_solver.
Qed.

Lemma cluster_loop_perm all pre l assigned :
  all = pre ++ l → NoDup all.*1 → (∀ i, i ∈ pre.*1 → i ∈ assigned) →
  Permutation (concat (cluster_loop threshold all assigned l)) (unassigned assigned all).*2.
Proof.
  revert pre assigned. induction l as [|[i f] l IH]; intros pre assigned Hall Hn Hpre; cbn [cluster_loop].
  - rewrite app_nil_r in Hall. subst. cbn. unfold unassigned.
    replace (List.filter _ pre) with (@nil (nat * hit)); [done|]. symmetry.
    destruct (List.filter _ pre) as [|p k] eqn:E; [done|]. exfalso.
    assert (Hp : p ∈ p :: k) by (by left). rewrite <-E, filter_In_elem, negb_true_iff, bool_decide_eq_false in Hp.
    destruct Hp as [Hp Hna]. by apply Hna, Hpre, list_elem_of_fmap_2.
  - case_bool_decide as Hi.
    + apply (IH (pre ++ [(i, f)])); [by rewrite <-app_assoc|done|]. rewrite fmap_app. set_solver.
    + destruct (cluster_members _ _ _ _ all) as [ms asg] eqn:Em. cbn [concat].
      assert (Hin : (i, f) ∈ all) by (subst; set_solver).
      rewrite (unassigned_split _ _ _ _ _ _ Hn Hin Hi Em). cbn. constructor. f_equiv.
      destruct (members_spec _ _ _ _ _ _ Hn Em) as [_ Hasg].
      apply (IH (pre ++ [(i, f)])); [by rewrite <-app_assoc|done|]. rewrite fmap_app. intros k Hk. apply Hasg. set_solver.
Qed.

Lemma cluster_loop_close all l assigned c :
  NoDup all.*1 → c ∈ cluster_loop threshold all assigned l →
  ∃ f ms, c = f :: ms ∧ ∀ m, m ∈ ms → close threshold f m = true.
Proof.
  intros Hn. revert assigned. induction l as [|[i f] l IH]; intros assigned; cbn; [set_solver|].
  case_bool_decide; [apply IH|]. destruct (cluster_members _ _ _ _ all) as [ms asg] eqn:Em.
  intros [->|Hc]%elem_of_cons; [|by eapply IH]. exists f, ms. split; [done|]. intros m Hm.
  destruct (members_spec _ _ _ _ _ _ Hn Em) as [-> _]. apply list_elem_of_fmap in Hm as ([j o] & -> & Hm).
  apply filter_In_elem in Hm as [_ Hj]. unfold joins in Hj. by breflect.
Qed.

Lemma NoDup_indices (l : list hit) : NoDup (imap pair l).*1.
Proof.
  replace (imap pair l).*1 with (seq 0 (length l)); [apply NoDup_seq|].
  apply list_eq. intros i. rewrite list_lookup_fmap, list_lookup_imap.
  destruct (l !! i) eqn:E; cbn.
  - apply lookup_seq. apply lookup_lt_Some in E. lia.
  - apply lookup_ge_None in E. apply lookup_seq_ge. lia.
Qed.

(** The clusters partition the failures: every one is in exactly one cluster,
    largest clusters first; the members of a cluster are within the threshold
    of its first failure. *)
Theorem clusters_partition candidates :
  let cs := clusters_of threshold candidates in
  Permutation (concat cs) candidates ∧
  StronglySorted (λ a b, length b ≤ length a) cs ∧
  ∀ c, c ∈ cs → ∃ f ms, c = f :: ms ∧ ∀ m, m ∈ ms → close threshold f m = true.
Proof.
  intros cs. pose proof (NoDup_indices candidates) as Hn. unfold cs, clusters_of. split; [|split].
  - etrans; [apply concat_perm, sort_desc_perm|].
    rewrite (cluster_loop_perm _ []) by (done || set_solver). unfold unassigned.
    rewrite filter_id by done. 
    replace (imap pair candidates).*2 with candidates; [done|]. apply list_eq. intros i.
    rewrite list_lookup_fmap, list_lookup_imap. by destruct (candidates !! i).
  - pose proof (sort_desc_sorted (λ c, Z.of_nat (length c))
      (cluster_loop threshold (imap pair candidates) [] (imap pair candidates))) as Hs.
    induction Hs as [|c l Hl IH Hc]; [constructor|]. constructor; [done|]. eapply Forall_impl; [exact Hc|]. cbn. lia.
  - intros c Hc. eapply cluster_loop_close; [exact Hn|]. by rewrite sort_desc_perm in Hc.
Qed.
End clusters.

Section props.
Context {Vec X : Type} `{!VectorStore Vec X} `{!EmbedHttp Vec X}.
Context (EMBED_CACHE_MAX_SIZE : nat) (md5 sha256 : string → string).
Context (get_parser : string → option (string → res ts_node)) (encode decode : string → string).

Local Abbreviation W := (mem Vec X).
Local Abbreviation embed := (_embed EMBED_CACHE_MAX_SIZE md5).

(** ** Embeddings *)

Section embeddings.
(** The model: when it answers, the embedding of the text.  The digests of the
    texts in use do not collide. *)
Context (embedding : string → Vec) (texts_in_use : string → Prop).
Context (Hmodel : ∀ text x x' v, post_embeddings text x = (x', Ok v) → v = embedding text).
Context (Hmd5 : ∀ t t', texts_in_use t → texts_in_use t' → md5 t = md5 t' → t = t').

(** The cache holds embeddings of texts in use, of the last keys of [h]. *)
Definition cache_sound (h : list string) (c : list (string * Vec)) : Prop :=
  recent EMBED_CACHE_MAX_SIZE h c ∧
  ∀ k v, (k, v) ∈ c → ∃ t, texts_in_use t ∧ k = md5 t ∧ v = embedding t.

Lemma embed_sound h text (w w' : W) r :
  texts_in_use text → cache_sound h (mm_cache w) → embed text w = (w', r) →
  match r with
  | Ok v => v = embedding text ∧ cache_sound (use (md5 text) h) (mm_cache w')
  | Raise _ => mm_cache w' = mm_cache w
  end.
Proof.
  intros Ht [Hr Hc]. unfold _embed, mbind, cache_get, lru_get.
  destruct (dict_get (md5 text) (mm_cache w)) as [v|] eqn:E; cbn.
  - intros [= <- <-]. destruct (Hc _ _ (dict_get_elem _ _ _ E)) as (t & Hu & Hk & ->).
    assert (t = text) as -> by (by apply Hmd5). split; [done|]. split.
    + pose proof (recent_hit _ _ _ _ _ Hr E) as Hh. unfold lru_get in Hh. by rewrite E in Hh.
    + intros k v Hv%move_to_end_elem. auto.
  - unfold _embed_raw, on_ext. cbn. destruct (post_embeddings text (mm_ext w)) as [x [v|e]] eqn:Ep; cbn; intros [= <- <-]; [|done].
    rewrite (Hmodel _ _ _ _ Ep). split; [done|]. split; [by apply recent_set|].
    intros k u [[= -> ->]|Hu]%lru_set_elem; [by exists text|auto].
Qed.

(** Embedding a batch of texts answers the embedding of each, whatever the
    cache has kept or evicted, and leaves in the cache exactly the most
    recently used texts, at most [EMBED_CACHE_MAX_SIZE] of them. *)
Theorem embed_batch_correct h texts (w w' : W) vs :
  Forall texts_in_use texts → cache_sound h (mm_cache w) →
  _embed_batch EMBED_CACHE_MAX_SIZE md5 texts w = (w', Ok vs) →
  vs = embedding <$> texts ∧
  cache_sound (foldl (λ h k, use k h) h (md5 <$> texts)) (mm_cache w') ∧
  length (mm_cache w') ≤ EMBED_CACHE_MAX_SIZE.
Proof.
  intros Hu Hs Hg. cut (vs = embedding <$> texts ∧
    cache_sound (foldl (λ h k, use k h) h (md5 <$> texts)) (mm_cache w')).
  { intros [? Hc]. split; [done|]. split; [done|]. destruct Hc as [Hr _]. apply (recent_ok _ _ _ Hr). }
  unfold _embed_batch in Hg. revert h w vs Hs Hg. induction Hu as [|t texts Ht Hu IH]; intros h w vs Hs; cbn.
  { by intros [= <- <-]. }
  destruct (embed t w) as [w1 r] eqn:E. pose proof (embed_sound _ _ _ _ _ Ht Hs E) as H1.
  destruct (gather _ w1) as [w2 rs] eqn:Eg. destruct r as [v|e]; [|done]. destruct rs as [vs'|e]; [|done].
  intros [= <- <-]. destruct H1 as [-> Hs1]. destruct (IH _ _ _ Hs1 Eg) as [-> ?]. done.
Qed.
End embeddings.

(** ** Searches *)

(** Without its rerank score. *)
Definition unranked (h : hit) : hit := Hit (h_content h) (h_meta h) (h_distance h) (h_collection h) None.

Lemma pick_ranked_sound results l h :
  h ∈ pick_ranked results l → ∃ h', h' ∈ results ∧ unranked h = unranked h'.
Proof.
  unfold pick_ranked. rewrite list_elem_of_omap. intros (r & _ & Hr). case_match; [|done].
  apply fmap_Some in Hr as (h' & Hl & ->). exists h'. split; [by eapply list_elem_of_lookup_2|done].
Qed.

Lemma omap_length_le {A B} (f : A → option B) l : length (omap f l) ≤ length l.
Proof. induction l as [|x l IH]; cbn; [done|]. destruct (f x); cbn; lia. Qed.

(** Reranking never raises; it answers at most [top_k] of the results, in the
    order of the scores or, when the reranker fails, in their own. *)
Theorem rerank_sound query results top_k (w : W) :
  ∃ w' l, rerank (Vec:=Vec) query results top_k w = (w', Ok l) ∧ length l ≤ top_k ∧
    ∀ h, h ∈ l → ∃ h', h' ∈ results ∧ unranked h = unranked h'.
Proof.
  unfold rerank. destruct results as [|h0 results]; [eexists _, []; split; [done|]; split; [cbn; lia|set_solver]|].
  unfold mtry, mbind, on_ext. destruct (post_rerank _ _ (mm_ext w)) as [x [l|e]]; cbn; eexists _, _; (split; [done|]).
  - split; [|intros h; apply pick_ranked_sound]. unfold pick_ranked. etrans; [apply omap_length_le|].
    rewrite length_take. lia.
  - split; [rewrite length_take; lia|]. intros h Hh. exists h. split; [|done]. by eapply elem_of_sublist, sublist_take.
Qed.

(** ** Connecting *)

Lemma connect_collections names (w w' : W) r :
  mfor names (λ name, mbind (on_ext (vs_collection (Vec:=Vec) name)) (λ _, mmodify (add_collection name))) w = (w', r) →
  (∀ c, c ∈ mm_collections w → c ∈ mm_collections w') ∧
  (r = Ok tt → ∀ c, c ∈ names → c ∈ mm_collections w').
Proof.
  revert w. induction names as [|n names IH]; intros w; cbn; [intros [= <- <-]; set_solver|].
  unfold mbind, on_ext. destruct (vs_collection n (mm_ext w)) as [x [[]|e]]; cbn; [|intros [= <- <-]; set_solver].
  intros Hf. destruct (IH _ Hf) as [Hm Hok]. cbn [mm_collections add_collection] in Hm. split.
  - intros c Hc. apply Hm. case_bool_decide; set_solver.
  - intros Hr c [->|Hc]%elem_of_cons; [|auto]. apply Hm. case_bool_decide; set_solver.
Qed.

Lemma connect_attempts_spec n (w w' : W) r :
  connect_attempts (S n) w = (w', r) →
  (r = Ok tt → ∀ c, c ∈ COLLECTION_NAMES → c ∈ mm_collections w').
Proof.
  revert w. induction n as [|n IH]; intros w; cbn [connect_attempts]; unfold mtry;
    destruct (try_connect w) as [w1 [[]|e]] eqn:E.
  2: by intros [= <- <-].
  3: apply (IH w1).
  all: intros [= <- <-] _; unfold try_connect, mbind, on_ext in E; destruct (vs_client (mm_ext w)) as [x [u|e]]; [|done];
    by apply connect_collections in E as [_ E]; apply E.
Qed.

(** ** Failures *)

Section failures.
Context `{!VectorStoreLaws Vec X}.

Abbreviation docs := (λ w, vs_docs (mm_ext w)).

(** The documents are what they were. *)
Definition same_docs (w w' : W) : Prop := ∀ c, docs w' c = docs w c.

#[export] Instance same_docs_preorder : PreOrder same_docs.
Proof. split; [done|]. intros w1 w2 w3 H1 H2 c. by rewrite H2, H1. Qed.

Lemma embed_same_docs text : respects same_docs (embed text).
Proof.
  intros w c. unfold _embed, mbind, cache_get. destruct (lru_get (md5 text) (mm_cache w)) as [k [v|]]; cbn; [done|].
  unfold _embed_raw, on_ext. cbn. pose proof (docs_embed text (mm_ext w) c) as Hd.
  by destruct (post_embeddings text (mm_ext w)) as [x [v|e]].
Qed.

Lemma upsert_one_spec col id content m (w w' : W) :
  upsert_one EMBED_CACHE_MAX_SIZE md5 col id content m w = (w', Ok tt) →
  ∀ c, docs w' c = if decide (c = col) then <[id := (content, m)]> (docs w col) else docs w c.
Proof.
  unfold upsert_one, mbind. pose proof (embed_same_docs content w) as Hs. destruct (embed content w) as [w1 [v|e]]; [|done].
  unfold on_ext. destruct (vs_upsert _ _ (mm_ext w1)) as [x [[]|e]] eqn:Eu; [|done]. intros [= <-] c.
  cbn [mm_ext]. rewrite (docs_upsert _ _ _ _ Eu). cbn in Hs. rewrite !Hs. done.
Qed.

Lemma record_failure_spec now sid tid description error approach (w w' : W) :
  record_failure EMBED_CACHE_MAX_SIZE md5 now sid tid description error approach w = (w', Ok tt) →
  let content := failure_content description approach error in
  ∀ c, docs w' c = if decide (c = "failures") then
      <[failure_id md5 content := (content, {["session_id" := MStr sid; "task_id" := MStr tid; "ts" := MInt now]})]>
        (docs w "failures") else docs w c.
Proof.
  unfold record_failure, mbind, _col. case_bool_decide; [|done]. apply upsert_one_spec.
Qed.

(** Recording a failure again, by whatever session and task, adds no document:
    the one it has gets the later session, task and time. *)
Theorem record_failure_deduplicates now1 sid1 tid1 now2 sid2 tid2 description error approach (w w1 w2 : W) :
  record_failure EMBED_CACHE_MAX_SIZE md5 now1 sid1 tid1 description error approach w = (w1, Ok tt) →
  record_failure EMBED_CACHE_MAX_SIZE md5 now2 sid2 tid2 description error approach w1 = (w2, Ok tt) →
  let content := failure_content description approach error in
  dom (docs w2 "failures") = dom (docs w1 "failures") ∧
  docs w2 "failures" !! failure_id md5 content
    = Some (content, {["session_id" := MStr sid2; "task_id" := MStr tid2; "ts" := MInt now2]}) ∧
  ∀ c, c ≠ "failures" → docs w2 c = docs w c.
Proof.
  intros H1 H2 content. pose proof (record_failure_spec _ _ _ _ _ _ _ _ H1) as D1.
  pose proof (record_failure_spec _ _ _ _ _ _ _ _ H2) as D2. cbn zeta in *.
  split; [|split].
  - rewrite D2, decide_True by done. rewrite D1, decide_True by done. rewrite insert_insert_eq, !dom_insert_L. done.
  - rewrite D2, decide_True by done. by rewrite lookup_insert_eq.
  - intros c Hc. rewrite D2, decide_False by done. by rewrite D1, decide_False.
Qed.
End failures.
End props.
