(* ===== verification/MemoryIndex.v ===== *)
(** * Incremental indexing

    Indexing an unchanged workspace again: every file is found by its hash, no
    text is embedded, no document is written.  And what the index keeps of a
    file that shrank. *)

From S2P Require Import Prelude PyStr Paths AstIndexer EmbedCache ContextManager Memory MemoryProps.
From Stdlib Require Import QArith.
Local Open Scope string_scope.
Local Open Scope list_scope.
Local Open Scope nat_scope.

Section index.
Context {Vec X : Type} `{!VectorStore Vec X} `{!EmbedHttp Vec X} `{!VectorStoreLaws Vec X} `{!ServicesUp Vec X}.
Context (EMBED_CACHE_MAX_SIZE : nat) (md5 sha256 : string → string).
Context (get_parser : string → option (string → res ts_node)) (encode decode : string → string).

Local Abbreviation W := (mem Vec X).
Local Abbreviation codebase w := (vs_docs (mm_ext w) "codebase").
Local Abbreviation index_file root := (index_file EMBED_CACHE_MAX_SIZE md5 sha256 get_parser encode decode "codebase" root).
Local Abbreviation index_files root := (index_files EMBED_CACHE_MAX_SIZE md5 sha256 get_parser encode decode "codebase" root).
Local Abbreviation make_id := (_make_id sha256).

(** The workspace: its root and its files, each with a path of its own and ids
    of its own. *)
Context (root : path) (es : list ws_entry).
Context (Hpaths : ∀ e e', e ∈ es → e' ∈ es → rel_path e = rel_path e' → e = e').
Context (Hids : ∀ e e' i j, e ∈ es → e' ∈ es → make_id (rel_path e) i = make_id (rel_path e') j →
  rel_path e = rel_path e').

(** The documents of a file. *)
Definition file_doc (f : string) (d : string * meta) : Prop := d.2 !! "file" = Some (MStr f).
Definition present (docs : gmap string (string * meta)) (e : ws_entry) : Prop :=
  ∃ id d, docs !! id = Some d ∧ file_doc (rel_path e) d.

(** What the store has of the files of the workspace is under their ids and of
    their present contents. *)
Definition up_to_date (docs : gmap string (string * meta)) : Prop :=
  ∀ id d e, docs !! id = Some d → e ∈ es → file_doc (rel_path e) d →
    (∃ i, id = make_id (rel_path e) i) ∧
    ∀ text, we_text e = Ok text → d.2 !! "file_hash" = Some (MStr (md5 text)).

Definition items_of (e : ws_entry) (text : string) : list (vs_item unit) :=
  match chunk_file get_parser encode decode (rel_path e) text with
  | Ok chunks => file_items sha256 (rel_path e) (md5 text) chunks
  | Raise _ => []
  end.

Lemma file_items_spec f h chunks it :
  it ∈ file_items sha256 f h chunks →
  (∃ i, vi_id it = make_id f i) ∧ file_doc f (vi_doc it, vi_meta it) ∧ vi_meta it !! "file_hash" = Some (MStr h).
Proof.
  unfold file_items. rewrite list_elem_of_omap. intros (o & Ho & Heq). cbn in Heq. subst o. apply elem_of_lookup_imap in Ho as (i & c & Ho & _).
  unfold chunk_item in Ho. case_match; [done|]. cbn in Ho. injection Ho as ->. cbn. split; [by exists i|done].
Qed.

(** ** One file *)

Inductive outcome := OIgnored | OSkipped | OUnchanged | OIndexed (n : nat).

Definition add_outcome (st : index_stats) (o : outcome) : index_stats :=
  match o with
  | OIgnored => st
  | OSkipped => skip_one st
  | OUnchanged => IndexStats (si_indexed st) (S (si_unchanged st)) (si_chunks st) (si_skipped st)
  | OIndexed n => IndexStats (S (si_indexed st)) (si_unchanged st) (si_chunks st + n) (si_skipped st)
  end.

(** A file the loop reads. *)
Definition readable (e : ws_entry) (text : string) : Prop :=
  indexable root e = true ∧ (we_size e ≤ MAX_FILE_SIZE)%Z ∧ we_text e = Ok text.
Definition unreadable (e : ws_entry) : Prop :=
  indexable root e = true ∧ ((MAX_FILE_SIZE < we_size e)%Z ∨ ∃ x, we_text e = Raise x).

Lemma entry_cases e : indexable root e = false ∨ unreadable e ∨ ∃ text, readable e text.
Proof.
  unfold readable, unreadable. destruct (indexable root e); [|by left]. right.
  destruct (decide (MAX_FILE_SIZE < we_size e)%Z); [left; auto|].
  destruct (we_text e) as [text|x]; [right; exists text; split; [done|]; split; [lia|done]|left; split; [done|]; right; by exists x].
Qed.

(** [unchanged] finds a file by a document of it. *)
Lemma unchanged_spec (w : W) e text :
  e ∈ es → we_text e = Ok text → up_to_date (codebase w) →
  ∃ x b, unchanged (Vec:=Vec) "codebase" (rel_path e) (md5 text) w = (Mem (mm_cache w) (mm_collections w) x, Ok b) ∧
    (∀ c, vs_docs x c = vs_docs (mm_ext w) c) ∧ (b = true ↔ present (codebase w) e).
Proof.
  intros He Ht Hup. unfold unchanged, mtry, mbind, on_ext.
  destruct (up_get (Vec:=Vec) "codebase" ("file", MStr (rel_path e)) (Some 1) (mm_ext w)) as (x & l & Hg).
  pose proof (docs_get _ _ _ _ _ _ Hg) as [Hf Hn]. pose proof (docs_get_same (Vec:=Vec) "codebase" ("file", MStr (rel_path e)) (Some 1) (mm_ext w)) as Hsame.
  rewrite Hg in *. cbn in *. destruct l as [|[d m] l].
  - eexists _, false. split; [done|]. split; [done|]. split; [done|]. intros (id & d & Hd & Hfd).
    exfalso. by eapply Hn.
  - destruct (Hf (d, m) ltac:(by left)) as (id & Hd & Hfile). destruct (Hup _ _ _ Hd He Hfile) as [_ Hh].
    specialize (Hh _ Ht). cbn in Hh. unfold meta_str. rewrite Hh. cbn. rewrite bool_decide_true by done.
    eexists _, true. split; [done|]. split; [done|]. split; [|done]. intros _. by exists id, (d, m).
Qed.

(** Writing the documents of a file. *)
Lemma put_file docs e text (embs : list Vec) :
  e ∈ es → we_text e = Ok text → length embs = length (items_of e text) → items_of e text ≠ [] → up_to_date docs →
  let docs' := put_docs (zip_with with_embedding (items_of e text) embs) docs in
  up_to_date docs' ∧ present docs' e ∧ (∀ e', e' ∈ es → present docs e' → present docs' e') ∧
  ∀ e', e' ∈ es → present docs' e' → e' = e ∨ present docs e'.
Proof.
  intros He Ht Hlen Hne Hup docs'.
  assert (Hitem : ∀ i, i ∈ zip_with with_embedding (items_of e text) embs →
    (∃ k, vi_id i = make_id (rel_path e) k) ∧ file_doc (rel_path e) (vi_doc i, vi_meta i) ∧
    vi_meta i !! "file_hash" = Some (MStr (md5 text))).
  { intros i Hi. apply elem_of_zip_with in Hi as (it & v & -> & Hit & _). cbn. unfold items_of in Hit.
    destruct (chunk_file _ _ _ _ _) as [cs|]; [|set_solver]. by apply file_items_spec in Hit. }
  assert (Hnew : ∀ id d, docs' !! id = Some d →
    (file_doc (rel_path e) d ∧ (∃ k, id = make_id (rel_path e) k) ∧ d.2 !! "file_hash" = Some (MStr (md5 text)))
    ∨ docs !! id = Some d).
  { intros id d [(i & Hi & -> & ->)|[Hd _]]%put_docs_lookup; [left|by right]. destruct (Hitem i Hi) as (? & ? & ?). done. }
  assert (Hpres : present docs' e).
  { destruct (items_of e text) as [|it its] eqn:Eit; [done|]. destruct embs as [|v embs]; [done|].
    assert (Hs : is_Some (docs' !! vi_id it)) by (apply put_docs_is_Some; left; cbn; by left).
    destruct Hs as [d Hd]. exists (vi_id it), d. split; [done|].
    destruct (put_docs_lookup _ _ _ _ Hd) as [(i & Hi & _ & ->)|[_ Hno]]; [by apply Hitem|].
    exfalso. apply Hno. cbn. by left. }
  split; [|split; [done|split]].
  - intros id d e' Hd He' Hf. destruct (Hnew _ _ Hd) as [(Hfe & Hid & Hh)|Hold]; [|by eapply Hup].
    assert (Heq : rel_path e' = rel_path e) by (unfold file_doc in *; congruence).
    pose proof (Hpaths _ _ He' He Heq) as ->. split; [done|]. intros text' Ht'. congruence.
  - intros e' He' (id & d & Hd & Hf). assert (Hs : is_Some (docs' !! id)) by (apply put_docs_is_Some; right; by eexists).
    destruct Hs as [d' Hd']. destruct (put_docs_lookup _ _ _ _ Hd') as [(i & Hi & -> & ->)|[Hold _]].
    + destruct (Hitem i Hi) as ([k Hk] & Hfi & _).
      destruct (Hup _ _ _ Hd He' Hf) as [[k' Hk'] _]. rewrite Hk in Hk'.
      by pose proof (Hpaths _ _ He He' (Hids _ _ _ _ He He' Hk')) as <-.
    + exists id, d'. split; [done|]. simplify_eq. done.
  - intros e' He' (id & d & Hd & Hf). destruct (Hnew _ _ Hd) as [(Hfe & _)|Hold]; [|right; by exists id, d].
    left. apply Hpaths; [done..|]. unfold file_doc in *. congruence.
Qed.

(** What the loop made of a file, on the documents it left. *)
Definition judged (docs : gmap string (string * meta)) (e : ws_entry) (o : outcome) : Prop :=
  match o with
  | OIgnored => indexable root e = false ∨ ∃ text, readable e text ∧ items_of e text = [] ∧ ¬ present docs e
  | OSkipped => unreadable e
  | OUnchanged | OIndexed _ => ∃ text, readable e text ∧ present docs e
  end.

(** What the next run makes of it. *)
Definition again (o : outcome) : outcome := match o with OIndexed _ => OUnchanged | _ => o end.

(** The presence of files only changes for [e]. *)
Definition adds_only (P : ws_entry → Prop) (docs docs' : gmap string (string * meta)) : Prop :=
  ∀ e', e' ∈ es → (present docs e' → present docs' e') ∧ (present docs' e' → P e' ∨ present docs e').

Lemma adds_only_refl P docs : adds_only P docs docs.
Proof. intros e' _. tauto. Qed.

Lemma embed_batch_up texts (w : W) :
  ∃ w' vs, _embed_batch EMBED_CACHE_MAX_SIZE md5 texts w = (w', Ok vs) ∧ length vs = length texts ∧ same_docs w w'.
Proof.
  unfold _embed_batch. destruct (gather_ok (_embed EMBED_CACHE_MAX_SIZE md5 <$> texts) w) as (w' & vs & Hg & Hlen).
  - apply Forall_fmap, Forall_true. intros text s. cbn. unfold _embed, mbind, cache_get.
    destruct (lru_get (md5 text) (mm_cache s)) as [k [v|]]; [by eexists _, _|]. unfold _embed_raw, on_ext. cbn.
    destruct (up_embed (Vec:=Vec) text (mm_ext s)) as (x & v & ->). cbn. by eexists _, _.
  - exists w', vs. split; [done|]. rewrite length_fmap in Hlen. split; [done|].
    pose proof (gather_rel same_docs (_embed EMBED_CACHE_MAX_SIZE md5 <$> texts)) as Hr. specialize (Hr ltac:(
      apply Forall_fmap, Forall_true; intros text; apply embed_same_docs) w). by rewrite Hg in Hr.
Qed.

Lemma ignored_run st e (w : W) : indexable root e = false → index_file root st e w = (w, Ok st).
Proof. intros H. unfold Memory.index_file. by rewrite H. Qed.

Lemma unreadable_run st e (w : W) : unreadable e → index_file root st e w = (w, Ok (skip_one st)).
Proof.
  intros [Hi H]. unfold Memory.index_file. rewrite Hi. cbn. destruct H as [H|[x H]].
  - by destruct (Z.ltb_spec MAX_FILE_SIZE (we_size e)); [|lia].
  - rewrite H. by destruct (_ <? _)%Z.
Qed.

(** A file that is present is left alone. *)
Lemma present_run st e (w : W) text :
  e ∈ es → readable e text → up_to_date (codebase w) → present (codebase w) e →
  ∃ w', index_file root st e w = (w', Ok (add_outcome st OUnchanged)) ∧ same_docs w w' ∧ mm_cache w' = mm_cache w.
Proof.
  intros He (Hi & Hs & Ht) Hup Hp. unfold Memory.index_file. rewrite Hi, Ht. cbn.
  destruct (Z.ltb_spec MAX_FILE_SIZE (we_size e)); [lia|]. unfold mbind.
  destruct (unchanged_spec w e text He Ht Hup) as (x & b & -> & Hsame & Hb).
  rewrite (proj2 Hb Hp). by eexists.
Qed.

(** A file that is not is indexed, when it has a chunk. *)
Lemma absent_run st e (w : W) text :
  e ∈ es → readable e text → up_to_date (codebase w) → ¬ present (codebase w) e →
  (items_of e text = [] ∧
   ∃ w', index_file root st e w = (w', Ok st) ∧ same_docs w w' ∧ mm_cache w' = mm_cache w) ∨
  items_of e text ≠ [] ∧
  ∃ w' n, index_file root st e w = (w', Ok (add_outcome st (OIndexed n))) ∧
    up_to_date (codebase w') ∧ present (codebase w') e ∧ adds_only (eq e) (codebase w) (codebase w').
Proof.
  intros He (Hi & Hs & Ht) Hup Hp. unfold Memory.index_file. rewrite Hi, Ht. cbn [negb].
  destruct (Z.ltb_spec MAX_FILE_SIZE (we_size e)); [lia|]. unfold mbind.
  destruct (unchanged_spec w e text He Ht Hup) as (x & b & -> & Hsame & Hb).
  destruct b; [by destruct Hp; apply Hb|]. unfold lift_res.
  destruct (chunk_file_complete get_parser encode decode (rel_path e) text) as (chunks & Hc & _).
  pose proof (eq_refl (items_of e text)) as Hit. unfold items_of in Hit at 1. rewrite Hc in *.
  rewrite Hit. destruct (items_of e text) as [|it its] eqn:Ei.
  { left. split; [done|]. by eexists. }
  right. rewrite <-Ei. split; [by rewrite Ei|]. unfold mtry.
  set (w1 := Mem (mm_cache w) (mm_collections w) x).
  destruct (embed_batch_up (vi_doc <$> items_of e text) w1) as (w2 & vs & -> & Hlen & Hsd).
  rewrite length_fmap in Hlen. unfold on_ext.
  destruct (up_upsert "codebase" (zip_with with_embedding (items_of e text) vs) (mm_ext w2)) as (x' & Hu). rewrite Hu.
  assert (Hd : codebase w = codebase w2) by (rewrite Hsd; cbn; by rewrite Hsame).
  pose proof (docs_upsert _ _ _ _ Hu "codebase") as Hput. rewrite decide_True in Hput by done. rewrite <-Hd in Hput.
  destruct (put_file (codebase w) e text vs He Ht Hlen ltac:(by rewrite Ei) Hup) as (H1 & H2 & H3 & H4).
  eexists _, (length (items_of e text)). split; [done|]. cbn [mm_ext]. rewrite Hput. split; [done|]. split; [done|].
  intros e' He'. split; [by apply H3|]. intros Hpe. destruct (H4 e' He' Hpe) as [->|]; [by left|by right].
Qed.

Lemma present_dec (w : W) e text : e ∈ es → we_text e = Ok text → up_to_date (codebase w) →
  present (codebase w) e ∨ ¬ present (codebase w) e.
Proof.
  intros He Ht Hup. destruct (unchanged_spec w e text He Ht Hup) as (x & [] & _ & _ & Hb); [left; by apply Hb|].
  right. intros Hp. apply Hb in Hp. done.
Qed.

(** ** A run *)

Lemma first_run (l : list ws_entry) st (w : W) :
  NoDup l → (∀ e, e ∈ l → e ∈ es) → up_to_date (codebase w) →
  ∃ w' os, index_files root st l w = (w', Ok (foldl add_outcome st os)) ∧
    up_to_date (codebase w') ∧ Forall2 (judged (codebase w')) l os ∧
    adds_only (λ e, e ∈ l) (codebase w) (codebase w').
Proof.
  intros Hn. revert st w. induction Hn as [|e l Hel Hn IH]; intros st w Hl Hup; cbn [Memory.index_files].
  { exists w, []. split; [done|]. split; [done|]. split; [constructor|]. intros e' _. tauto. }
  assert (He : e ∈ es) by (apply Hl; by left).
  assert (Hstep : ∃ w1 o, index_file root st e w = (w1, Ok (add_outcome st o)) ∧ up_to_date (codebase w1) ∧
    judged (codebase w1) e o ∧ adds_only (eq e) (codebase w) (codebase w1)).
  { destruct (entry_cases e) as [Hi|[Hu|[text Hr]]].
    - exists w, OIgnored. rewrite ignored_run by done. do 2 (split; [done|]). split; [by left|apply adds_only_refl].
    - exists w, OSkipped. rewrite unreadable_run by done. do 2 (split; [done|]). split; [done|apply adds_only_refl].
    - pose proof Hr as (_ & _ & Ht). destruct (present_dec w e text He Ht Hup) as [Hp|Hp].
      + destruct (present_run st e w text He Hr Hup Hp) as (w1 & -> & Hs & _). exists w1, OUnchanged.
        rewrite !(Hs "codebase"). split; [done|]. split; [done|].
        split; [by exists text|apply adds_only_refl].
      + destruct (absent_run st e w text He Hr Hup Hp) as [[Hit (w1 & -> & Hs & _)]|[_ (w1 & n & -> & Hup1 & Hp1 & Ha)]].
        * exists w1, OIgnored. rewrite !(Hs "codebase"). split; [done|]. split; [done|].
          split; [right; by exists text|apply adds_only_refl].
        * exists w1, (OIndexed n). split; [done|]. split; [done|]. split; [by exists text|done]. }
  destruct Hstep as (w1 & o & E & Hup1 & Hj & Ha). unfold mbind. rewrite E.
  destruct (IH (add_outcome st o) w1) as (w2 & os & -> & Hup2 & Hos & Ha2); [intros; apply Hl; by right|done|].
  exists w2, (o :: os). split; [done|]. split; [done|]. split.
  - constructor; [|done]. destruct o; cbn in *; [|done|..].
    + destruct Hj as [?|(text & ? & ? & Hp)]; [by left|]. right. exists text. split; [done|]. split; [done|].
      intros Hp2. by destruct (proj2 (Ha2 e He) Hp2).
    + destruct Hj as (text & ? & ?). exists text. split; [done|]. by apply Ha2.
    + destruct Hj as (text & ? & ?). exists text. split; [done|]. by apply Ha2.
  - intros e' He'. destruct (Ha e' He') as [H1 H2], (Ha2 e' He') as [H3 H4]. split; [auto|].
    intros Hp. destruct (H4 Hp) as [?|Hp1]; [left; by right|]. destruct (H2 Hp1) as [->|?]; [left; by left|by right].
Qed.

Lemma second_run (l : list ws_entry) os st (w : W) :
  (∀ e, e ∈ l → e ∈ es) → up_to_date (codebase w) → Forall2 (judged (codebase w)) l os →
  ∃ w', index_files root st l w = (w', Ok (foldl add_outcome st (again <$> os))) ∧
    same_docs w w' ∧ mm_cache w' = mm_cache w.
Proof.
  intros Hl Hup Hos. revert st w Hup Hos. revert os.
  induction l as [|e l IH]; intros os st w Hup Hos; inversion Hos as [|? o ? os' Hj Hos']; subst; cbn [Memory.index_files fmap list_fmap foldl].
  { by exists w. }
  assert (He : e ∈ es) by (apply Hl; by left).
  assert (Hstep : ∃ w1, index_file root st e w = (w1, Ok (add_outcome st (again o))) ∧ same_docs w w1 ∧ mm_cache w1 = mm_cache w).
  { destruct o; cbn [judged again] in *.
    - destruct Hj as [Hi|(text & Hr & Hit & Hp)]; [exists w; by rewrite ignored_run|].
      by destruct (absent_run st e w text He Hr Hup Hp) as [[_ ?]|[? _]].
    - exists w. by rewrite unreadable_run.
    - destruct Hj as (text & Hr & Hp). by apply (present_run st e w text).
    - destruct Hj as (text & Hr & Hp). by apply (present_run st e w text). }
  destruct Hstep as (w1 & E & Hs & Hc). unfold mbind. rewrite E.
  destruct (IH ltac:(intros; apply Hl; by right) os' (add_outcome st (again o)) w1) as (w2 & -> & Hs2 & Hc2).
  - by rewrite (Hs "codebase").
  - by rewrite (Hs "codebase").
  - exists w2. split; [done|]. split; [by etrans|congruence].
Qed.

Lemma outcome_totals os st st' :
  let a := foldl add_outcome st os in
  let b := foldl add_outcome st' (again <$> os) in
  si_indexed b = si_indexed st' ∧ si_chunks b = si_chunks st' ∧
  si_skipped b + si_skipped st = si_skipped st' + si_skipped a ∧
  si_unchanged b + si_indexed st + si_unchanged st = si_unchanged st' + si_indexed a + si_unchanged a.
Proof.
  revert st st'. induction os as [|o os IH]; intros st st'; cbn; [lia|].
  specialize (IH (add_outcome st o) (add_outcome st' (again o))). cbn zeta in IH.
  destruct o; cbn in *; lia.
Qed.

(** The collections stay connected. *)
Definition same_collections (w w' : W) : Prop := mm_collections w' = mm_collections w.

#[local] Instance same_collections_preorder : PreOrder same_collections.
Proof. split; [done|]. unfold same_collections. congruence. Qed.

Lemma on_ext_collections {A} (m : M X A) : respects same_collections (on_ext (Vec:=Vec) m).
Proof. intros w. unfold on_ext. by destruct (m _). Qed.

Lemma embed_collections text : respects same_collections (_embed (Vec:=Vec) EMBED_CACHE_MAX_SIZE md5 text).
Proof.
  apply respects_bind; [apply _| |].
  - intros w. unfold cache_get. by destruct (lru_get _ _).
  - intros [v|]; [apply (respects_ret _)|]. apply respects_bind; [apply _|apply on_ext_collections|].
    intros v. apply respects_bind; [apply _|by intros w|]. intros _. apply (respects_ret _).
Qed.

Lemma index_file_collections st e : respects same_collections (index_file root st e).
Proof.
  unfold Memory.index_file. repeat case_match; try apply (respects_ret _).
  apply respects_bind; [apply _| |].
  - apply respects_try; [apply _| |]; [|intros; apply (respects_ret _)].
    apply respects_bind; [apply _|apply on_ext_collections|]. intros; apply (respects_ret _).
  - intros []; [apply (respects_ret _)|]. apply respects_bind; [apply _|by intros w|]. intros chunks.
    case_match; [apply (respects_ret _)|]. apply respects_try; [apply _| |]; [|intros; apply (respects_ret _)].
    apply respects_bind; [apply _| |].
    + apply gather_rel; [apply _|]. apply Forall_fmap, Forall_true. intros t. apply embed_collections.
    + intros vs. apply respects_bind; [apply _|apply on_ext_collections|]. intros. apply (respects_ret _).
Qed.

Lemma index_files_collections st l : respects same_collections (index_files root st l).
Proof.
  revert st. induction l as [|e l IH]; intros st; cbn [Memory.index_files]; [apply (respects_ret _)|].
  apply respects_bind; [apply _|apply index_file_collections|apply IH].
Qed.

(** C12: When the store holds no chunk of an older content of a file of the
    workspace (as an empty store does), indexing the workspace leaves it so, and
    indexing it again unchanged indexes nothing: every file of the first run
    that was indexed or unchanged is unchanged, the same files are skipped, the
    embedding cache is not touched and no document changes.  Without that
    condition it fails: see [stale_chunk_embeds_again]. *)
Theorem reindex_is_incremental (w : W) :
  NoDup es → "codebase" ∈ mm_collections w → up_to_date (codebase w) →
  ∃ w1 st1 w2 st2,
    index_codebase EMBED_CACHE_MAX_SIZE md5 sha256 get_parser encode decode root es w = (w1, Ok st1) ∧
    index_codebase EMBED_CACHE_MAX_SIZE md5 sha256 get_parser encode decode root es w1 = (w2, Ok st2) ∧
    si_indexed st2 = 0 ∧ si_chunks st2 = 0 ∧ si_skipped st2 = si_skipped st1 ∧
    si_unchanged st2 = si_indexed st1 + si_unchanged st1 ∧
    mm_cache w2 = mm_cache w1 ∧ same_docs w1 w2 ∧ up_to_date (codebase w1).
Proof.
  intros Hn Hc Hup. destruct (first_run es (IndexStats 0 0 0 0) w Hn ltac:(done) Hup) as (w1 & os & E1 & Hup1 & Hos & _).
  destruct (second_run es os (IndexStats 0 0 0 0) w1 ltac:(done) Hup1 Hos) as (w2 & E2 & Hs & Hca).
  destruct (outcome_totals os (IndexStats 0 0 0 0) (IndexStats 0 0 0 0)) as (H1 & H2 & H3 & H4). cbn in *.
  exists w1. eexists. exists w2. eexists. unfold index_codebase, mbind, _col.
  rewrite bool_decide_true by done. rewrite E1.
  pose proof (index_files_collections (IndexStats 0 0 0 0) es w) as Hcol. rewrite E1 in Hcol.
  unfold same_collections in Hcol. cbn in Hcol.
  rewrite bool_decide_true by (by rewrite Hcol). rewrite E2. split; [done|]. split; [done|].
  split; [done|]. split; [done|]. split; [lia|]. split; [lia|]. done.
Qed.
End index.

(** A suffix has one dot, so an extension with two selects no file. *)
Lemma rsplit_char_lower s : rsplit_char "."%char s = None → rsplit_char "."%char (lower s) = None.
Proof.
  assert (Hdot : ∀ c, lower_char c = "."%char → c = "."%char).
  { intros c. destruct c as [[] [] [] [] [] [] [] []]; vm_compute; congruence. }
  induction s as [|c s IH]; [done|]. change (lower (String c s)) with (String (lower_char c) (lower s)).
  cbn [rsplit_char]. destruct (rsplit_char "."%char s) as [[]|]; [done|].
  rewrite IH by done. repeat case_bool_decide; try done. naive_solver.
Qed.

Lemma env_example_never_indexed name : lower (suffix_of name) ≠ ".env.example".
Proof.
  pose proof (suffix_one_dot name) as Hs. destruct (suffix_of name) as [|c t]; [done|]. cbn.
  intros [= Hc Ht]. assert (c = "."%char) as ->.
  { revert Hc. destruct c as [[] [] [] [] [] [] [] []]; vm_compute; congruence. }
  specialize (Hs t eq_refl). apply rsplit_char_lower in Hs. fold (lower t) in Ht. rewrite Ht in Hs. done.
Qed.

(** ** A concrete store

    Collections as finite maps, and a model whose embedding of a text is the
    text.  Chunks are the lines of a file, cut by a parser that makes every
    line a function. *)

Module Concrete.
Abbreviation cstore := (gmap string (gmap string (string * meta))).

Definition matches (cond : option (string * mval)) (d : string * meta) : bool :=
  match cond with None => true | Some (k, v) => bool_decide (d.2 !! k = Some v) end.
Definition select (cond : option (string * mval)) (limit : option nat) (docs : gmap string (string * meta))
  : list (string * meta) :=
  let l := List.filter (matches cond) (map_to_list docs).*2 in
  match limit with Some n => take n l | None => l end.
Definition docs_of (x : cstore) (col : string) : gmap string (string * meta) := default ∅ (x !! col).

#[export] Instance store : VectorStore string cstore :=
  {| vs_client := mret tt; vs_collection _ := mret tt;
     vs_upsert col items x := (<[col := put_docs items (docs_of x col)]> x, Ok tt);
     vs_get col cond limit x := (x, Ok (select (Some cond) limit (docs_of x col)));
     vs_query col _ k cond x := (x, Ok ((λ d, (d, 0%Q)) <$> select cond (Some k) (docs_of x col))) |}.
#[export] Instance model : EmbedHttp string cstore :=
  {| post_embeddings text := mret text; post_rerank _ _ := mraise (OtherError "404") |}.

Lemma select_found cond limit docs : found cond limit docs (select (Some cond) limit docs).
Proof.
  destruct cond as [k v]. split.
  - intros d Hd. assert (Hin : d ∈ List.filter (matches (Some (k, v))) (map_to_list docs).*2).
    { unfold select in Hd. destruct limit; [|done]. by eapply elem_of_sublist, sublist_take. }
    apply filter_In_elem in Hin as [Hin Hm]. cbn in Hm. breflect. apply list_elem_of_fmap in Hin as ([id d'] & -> & Hin).
    exists id. by apply elem_of_map_to_list in Hin.
  - intros Hnil Hlim id d Hd Hk. assert (Hin : d ∈ List.filter (matches (Some (k, v))) (map_to_list docs).*2).
    { apply filter_In_elem. cbn. rewrite bool_decide_true by done. split; [|done].
      apply list_elem_of_fmap. exists (id, d). split; [done|]. by apply elem_of_map_to_list. }
    unfold select in Hnil. destruct (List.filter _ _) as [|d0 l]; [set_solver|].
    destruct limit as [[|n]|]; done.
Qed.

#[export] Instance store_laws : VectorStoreLaws string cstore.
Proof.
  refine {| vs_docs := docs_of |}.
  - intros col items x x' [= <-] c. unfold docs_of. case_decide; [subst; by rewrite lookup_insert_eq|by rewrite lookup_insert_ne].
  - intros col cond limit x x' l [= <- <-]. apply select_found.
  - done.
  - intros col items x c id Hs. cbn. unfold docs_of in *. destruct (decide (c = col)) as [->|Hc].
    + rewrite lookup_insert_eq. apply put_docs_is_Some. by right.
    + by rewrite lookup_insert_ne.
  - done.
  - done.
Defined.

#[export] Instance services_up : ServicesUp string cstore.
Proof. split; by repeat eexists. Qed.

(** One chunk per line. *)
Fixpoint line_nodes (n row : nat) : list ts_node :=
  match n with 0 => [] | S n' => TsNode "function_definition" row row 0 0 [] :: line_nodes n' (S row) end.
Definition by_lines (lang : string) : option (string → res ts_node) :=
  if bool_decide (lang = "python")
  then Some (λ s, Ok (TsNode "module" 0 0 0 0 (line_nodes (length (splitlines s)) 0))) else None.

Definition file (name : string) (lines : list string) : ws_entry :=
  WsEntry [name] true 10 (Ok (join nl lines)).
Definition w0 : mem string cstore := Mem [] COLLECTION_NAMES ∅.

Definition index_with (es : list ws_entry) (w : mem string cstore) : mem string cstore * res index_stats :=
  index_codebase 100 (λ x, x) (λ x, x) by_lines (λ s, s) (λ s, s) ["workspace"] es w.

Definition two_files : list ws_entry := [file "a.py" ["one"; "two"]; file "b.py" ["three"]].

Lemma reindex_witness :
  ∃ w1 st1 w2 st2,
    index_with two_files w0 = (w1, Ok st1) ∧ index_with two_files w1 = (w2, Ok st2) ∧
    si_indexed st2 = 0 ∧ si_chunks st2 = 0 ∧ si_skipped st2 = si_skipped st1 ∧
    si_unchanged st2 = si_indexed st1 + si_unchanged st1 ∧
    mm_cache w2 = mm_cache w1 ∧ same_docs w1 w2 ∧
    up_to_date (λ x, x) (λ x, x) two_files (vs_docs (mm_ext w1) "codebase").
Proof.
  apply (reindex_is_incremental 100 (λ x, x) (λ x, x) by_lines (λ s, s) (λ s, s) ["workspace"] two_files).
  - intros e e' He He'. unfold two_files in *. set_solver.
  - intros e e' i j He He'. unfold two_files in *. rewrite !elem_of_cons in He, He'.
    destruct He as [->|[->|He]], He' as [->|[->|He']]; try (by apply not_elem_of_nil in He || by apply not_elem_of_nil in He'); try done.
  - by vm_compute; repeat constructor; set_solver.
  - by right; left.
  - intros id d e Hd. unfold w0 in Hd. cbn in Hd. done.
Defined.

Example index_counts :
  (index_with two_files w0).2 = Ok (IndexStats 2 0 3 0) ∧
  (index_with two_files (index_with two_files w0).1).2 = Ok (IndexStats 0 2 0 0).
Proof. by vm_compute. Qed.

Definition stored (w : mem string cstore) : list string := (map_to_list (docs_of (mm_ext w) "codebase")).*2.*1.

Definition batch_result := _embed_batch (Vec:=string) (X:=cstore) 2 (λ x, x) ["a"; "b"; "a"; "c"] w0.

Lemma embed_batch_witness :
  ["a"; "b"; "a"; "c"] = (λ x, x) <$> ["a"; "b"; "a"; "c"] ∧
  cache_sound 2 (λ x, x) (λ x, x) (λ _, True) ["b"; "a"; "c"] (mm_cache batch_result.1) ∧
  length (mm_cache batch_result.1) ≤ 2.
Proof.
  apply (embed_batch_correct 2 (λ x, x) (λ x, x) (λ _, True)) with (h := []) (w := w0).
  - by intros ???? [= _ <-].
  - done.
  - by apply Forall_true.
  - split; [by split; [constructor|]|]. intros k v Hv. by apply not_elem_of_nil in Hv.
  - by vm_compute.
Defined.

Lemma pair_snd {A B} (p : A * B) b : p.2 = b → p = (p.1, b).
Proof. destruct p. cbn. by intros ->. Qed.

Definition fail_once (sid : string) (w : mem string cstore) : mem string cstore * res unit :=
  record_failure 10 (λ x, x) 7 sid "t" "task" "boom" "" w.

Lemma dedup_witness :
  dom (docs_of (mm_ext (fail_once "s2" (fail_once "s1" w0).1).1) "failures")
  = dom (docs_of (mm_ext (fail_once "s1" w0).1) "failures").
Proof.
  refine (proj1 (record_failure_deduplicates (VectorStoreLaws0 := store_laws) 10 (λ x, x)
    7 "s1" "t" 7 "s2" "t" "task" "boom" "" w0 (fail_once "s1" w0).1 (fail_once "s2" (fail_once "s1" w0).1).1 _ _)).
  - apply pair_snd. by vm_compute.
  - apply pair_snd. by vm_compute.
Defined.

(** When a file loses its last line, the chunk of that line stays in the store;
    when the file is deleted, all its chunks do. *)
Theorem index_keeps_stale_chunks :
  let w1 := (index_with [file "a.py" ["one"; "two"]] w0).1 in
  let w2 := (index_with [file "a.py" ["one"]] w1).1 in
  let w3 := (index_with [] w2).1 in
  (index_with [file "a.py" ["one"]] w1).2 = Ok (IndexStats 1 0 1 0) ∧
  bool_decide ("two" ∈ stored w2) = true ∧ stored w3 = stored w2.
Proof. by vm_compute. Qed.

(** Such a chunk carries the hash of the old content.  When the store answers
    it first, the hash test of the next runs fails, and the unchanged file is
    embedded and written again each time. *)
Example stale_chunk_embeds_again :
  let short := [file "a.py" ["two"]] in
  let w1 := (index_with [file "a.py" ["one"; "two"]] w0).1 in
  let w2 := (index_with short w1).1 in
  let w3 := (index_with short w2).1 in
  (index_with short w2).2 = Ok (IndexStats 1 0 1 0) ∧ (index_with short w3).2 = Ok (IndexStats 1 0 1 0).
Proof. by vm_compute. Qed.

(** And when the content goes back to the old one, the same chunk makes the
    changed file pass for unchanged: its new content is not indexed. *)
Example stale_chunk_hides_change :
  let long := [file "a.py" ["one"; "two"]] in
  let w1 := (index_with long w0).1 in
  let w2 := (index_with [file "a.py" ["zero"]] w1).1 in
  (index_with long w2).2 = Ok (IndexStats 0 1 0 0) ∧
  bool_decide ("one" ∈ stored (index_with long w2).1) = false.
Proof. by vm_compute. Qed.
End Concrete.
