(* ===== verification/SessionHooks.v ===== *)
(** * Session hooks (orchestrator/session_hooks.py)

    What happens around a session: the recall at its start; at its end the
    summary and the failures it leaves in the memory, the skill and the
    anti-pattern a model extracts, each with a confidence.  The model is asked
    through a class.  A Python float is a rational, an infinity or a NaN; the
    parser of [float(s)] is modelled without rounding. *)

From S2P Require Import Prelude PyStr Paths Models AstIndexer EmbedCache ContextManager Memory MemoryProps MemoryIndex.
From S2P Require Import Redis SessionManager.
From Stdlib Require Import QArith.
Local Open Scope string_scope.
Local Open Scope list_scope.
Local Open Scope nat_scope.
Local Open Scope py_scope.

(** ** [float(s)] *)

Inductive pyfloat := Fin (q : Q) | Inf (negative : bool) | NaN.

(** Digits with single underscores between them: the value, their number, the
    rest. *)
Fixpoint digits_go (acc : Z) (n : nat) (s : string) : Z * nat * string :=
  match s with
  | "" => (acc, n, "")
  | String c s' =>
      if is_digit c then digits_go (10 * acc + digit_value c) (S n) s'
      else if bool_decide (c = "_"%char) && (0 <? n) && starts_with_digit s' then digits_go acc n s'
      else (acc, n, s)
  end.

(** A sign, and what follows it. *)
Definition eat_sign (s : string) : bool * string :=
  match s with
  | String c s' => if bool_decide (c = "-"%char) then (true, s') else if bool_decide (c = "+"%char) then (false, s') else (false, s)
  | "" => (false, "")
  end.

(** The exponent, up to the end of the text. *)
Definition parse_exponent (s : string) : option Z :=
  match s with
  | "" => Some 0%Z
  | String c s' =>
      if bool_decide (c = "e"%char) then
        let '(neg, r) := eat_sign s' in
        let '(e, n, rest) := digits_go 0 0 r in
        if (0 <? n) && negb (truthy rest) then Some (if neg then - e else e)%Z else None
      else None
  end.

Definition parse_float (s : string) : option pyfloat :=
  let '(neg, body) := eat_sign (lower (strip s)) in
  if bool_decide (body ∈ ["inf"; "infinity"]) then Some (Inf neg)
  else if bool_decide (body = "nan") then Some NaN
  else
    let '(a, n, r) := digits_go 0 0 body in
    let '(m, k, r) :=
      match r with
      | String c r' => if bool_decide (c = "."%char) then digits_go a 0 r' else (a, 0, r)
      | "" => (a, 0, r)
      end in
    if n + k =? 0 then None
    else (λ e, Fin (inject_Z (if neg then - m else m) * Qpower 10 (e - Z.of_nat k))%Q) <$> parse_exponent r.

(** [max(0.0, min(1.0, v))]: a comparison with NaN is false. *)
Definition clamp (v : pyfloat) : Q :=
  match v with
  | NaN => 1
  | Inf neg => if neg then 0 else 1
  | Fin q => let m := if negb (Qle_bool 1 q) then q else 1%Q in if negb (Qle_bool m 0) then m else 0%Q
  end.

(** ** Fields of a model's answer *)

Definition _parse_field (text field : string) : string :=
  match List.find (λ line, startswith (field +:+ ":") (upper (strip line))) (splitlines text) with
  | Some line => match split_once ":"%char line with Some (_, v) => strip v | None => "" end
  | None => ""
  end.

Definition _parse_confidence (text : string) : Q :=
  let raw := _parse_field text "CONFIDENCE" in
  if truthy raw then match parse_float raw with Some v => clamp v | None => (8 # 10)%Q end else (8 # 10)%Q.

(** POST /api/chat with one user message: the content of the answer. *)
Class ChatHttp (X : Type) := { post_chat : string → M X string }.

Record session_started := SessionStarted {
  st_session_id : string; st_past_context : list hit; st_started_at : Z
}.
Record session_ended := SessionEnded {
  sn_session_id : string; sn_skill_name : option string; sn_antipattern_name : option string
}.

Section hooks.
Context {Vec X : Type} `{!VectorStore Vec X} `{!EmbedHttp Vec X} `{!ChatHttp X}.
Context (EMBED_CACHE_MAX_SIZE N_FAILURES_THRESHOLD : nat) (md5 : string → string).
(** The [repr] of a list of content blocks. *)
Context (repr_blocks : list block → string).

Local Abbreviation W := (mem Vec X).
Local Abbreviation save_skill := (save_skill EMBED_CACHE_MAX_SIZE md5).
Local Abbreviation save_session := (save_session EMBED_CACHE_MAX_SIZE md5).
Local Abbreviation record_failure := (record_failure EMBED_CACHE_MAX_SIZE md5).

Definition hook_session_start (now : Z) (session_id task : string) : M W session_started :=
  let! past := (if truthy task then recall EMBED_CACHE_MAX_SIZE md5 task 3 else mret []) in
  mret (SessionStarted session_id past now).

(** [str(t.get("content", ""))]. *)
Definition content_str (c : content) : string :=
  match c with CNone => "None" | CText s => s | CList l => repr_blocks l end.

Definition transcript_line (t : message) : string :=
  upper (m_role t) +:+ ": " +:+ stake 300 (content_str (m_content t)).

Definition skill_prompt (condensed : string) : string :=
  "Review this conversation and determine if a reusable engineering pattern " +:+
  "or best practice emerged that would be worth remembering for future sessions." +:+ nl +:+ nl +:+
  "If yes, respond with:" +:+ nl +:+
  "SKILL_NAME: <short name>" +:+ nl +:+
  "SKILL_CONTENT: <description of the pattern, 2-5 sentences>" +:+ nl +:+
  "CONFIDENCE: <float 0.0-1.0 — how confident you are this is genuinely reusable>" +:+ nl +:+ nl +:+
  "If no clear reusable pattern emerged, respond with: NO_SKILL" +:+ nl +:+ nl +:+
  "Conversation:" +:+ nl +:+ condensed.

Definition extract_skills (now : Z) (session_id : string) (transcript : list message) : M W (option string) :=
  match transcript with
  | [] => mret None
  | _ =>
      let condensed := join nl (transcript_line <$> last_n 10 transcript) in
      mtry
        (let! text := on_ext (post_chat (skill_prompt condensed)) in
         if contains "NO_SKILL" (upper text) then mret None
         else
           let skill_name := _parse_field text "SKILL_NAME" in
           let skill_content := _parse_field text "SKILL_CONTENT" in
           if truthy skill_name && truthy skill_content then
             do! save_skill now skill_name skill_content {["confidence" := MFloat (_parse_confidence text)]} in
             mret (Some skill_name)
           else mret None)
        (λ _, mret None)
  end.

Definition failure_example (i : nat) (f : hit) : string :=
  "Failure " +:+ pretty (S i) +:+ ":" +:+ nl +:+ stake 400 (h_content f).

Definition antipattern_prompt (cluster : list hit) : string :=
  "The following " +:+ pretty (length cluster) +:+ " similar failures have occurred repeatedly." +:+ nl +:+
  "Identify the common anti-pattern and describe what to AVOID in future." +:+ nl +:+ nl +:+
  "Respond with:" +:+ nl +:+
  "ANTIPATTERN_NAME: <short name>" +:+ nl +:+
  "ANTIPATTERN_CONTENT: <what to avoid and why, 2-5 sentences>" +:+ nl +:+
  "CONFIDENCE: <float 0.0-1.0 — how confident you are this is a real pattern>" +:+ nl +:+ nl +:+
  "If these failures don't share a clear pattern, respond: NO_PATTERN" +:+ nl +:+ nl +:+
  "Examples:" +:+ nl +:+ join (nl +:+ nl) (imap failure_example (take 5 cluster)).

(** The body of the loop: the name when an anti-pattern was saved. *)
Definition mine_cluster (now : Z) (cluster : list hit) : M W (option string) :=
  mtry
    (let! text := on_ext (post_chat (antipattern_prompt cluster)) in
     if contains "NO_PATTERN" (upper text) then mret None
     else
       let ap_name := _parse_field text "ANTIPATTERN_NAME" in
       let ap_content := _parse_field text "ANTIPATTERN_CONTENT" in
       if truthy ap_name && truthy ap_content then
         do! save_skill now ("antipattern:" +:+ ap_name) ap_content
               {["type" := MStr "antipattern"; "cluster_size" := MInt (Z.of_nat (length cluster));
                 "confidence" := MFloat (_parse_confidence text)]} in
         mret (Some ap_name)
       else mret None)
    (λ _, mret None).

Fixpoint mine_clusters (now : Z) (clusters : list (list hit)) : M W (option string) :=
  match clusters with
  | [] => mret None
  | cluster :: rest =>
      if length cluster <? N_FAILURES_THRESHOLD then mine_clusters now rest
      else
        let! name := mine_cluster now cluster in
        match name with Some n => mret (Some n) | None => mine_clusters now rest end
  end.

Definition _mine_failure_patterns (now : Z) (session_id context : string) : M W (option string) :=
  let! clusters := mtry (let! cs := cluster_failures EMBED_CACHE_MAX_SIZE md5 (py_or context "error failure") 30 (3 # 10) in
                         mret cs) (λ _, mret []) in
  mine_clusters now clusters.

Definition record_report (now : Z) (uuid : string) (session_id : string) (f : failure_report) : M W unit :=
  record_failure now session_id (default uuid (fl_task_id f)) (default "" (fl_description f))
    (default "" (fl_error f)) (default "" (fl_approach f)).

Definition hook_session_end (now : Z) (uuid : nat → string) (session_id summary : string)
    (transcript : list message) (failures : list failure_report) : M W session_ended :=
  do! save_session now session_id summary {["ts" := MInt now; "type" := MStr "session_end"]} in
  do! mfor (imap pair failures) (λ p, record_report now (uuid p.1) session_id p.2) in
  let! skill := (match transcript with [] => mret None | _ => extract_skills now session_id transcript end) in
  let! antipattern := (match failures with [] => mret None | _ => _mine_failure_patterns now session_id summary end) in
  mret (SessionEnded session_id skill antipattern).

Definition on_failure (now : Z) (session_id task_id description error approach : string) : M W unit :=
  record_failure now session_id task_id description error approach.
End hooks.

(** ** Confidence *)

Lemma clamp_bounds v : (0 <= clamp v <= 1)%Q.
Proof.
  destruct v as [q|[]|]; cbn; [|split; discriminate..]. set (m := if negb (Qle_bool 1 q) then q else 1%Q).
  assert (Hm : (m <= 1)%Q).
  { unfold m. destruct (Qle_bool 1 q) eqn:E; cbn; [apply Qle_refl|].
    apply Qlt_le_weak, Qnot_le_lt. rewrite <-Qle_bool_iff. congruence. }
  destruct (Qle_bool m 0) eqn:E; cbn; [split; discriminate|]. split; [|done].
  apply Qlt_le_weak, Qnot_le_lt. rewrite <-Qle_bool_iff. congruence.
Qed.

(** A confidence is between 0 and 1, whatever the model answers. *)
Theorem parse_confidence_bounds text : (0 <= _parse_confidence text <= 1)%Q.
Proof.
  unfold _parse_confidence. destruct (truthy _); [|split; discriminate].
  destruct (parse_float _); [apply clamp_bounds|split; discriminate].
Qed.

Example parse_float_ex :
  parse_float " 0.75 " = Some (Fin (75 * (1 # 100))) ∧ parse_float "-1_0e1" = Some (Fin (-10 * 10)) ∧
  parse_float "1__0" = None ∧ parse_float "inf" = Some (Inf false) ∧ parse_float "0.9 (high)" = None.
Proof. by vm_compute. Qed.

Section facts.
Context {Vec X : Type} `{!VectorStore Vec X} `{!EmbedHttp Vec X} `{!ChatHttp X} `{!VectorStoreLaws Vec X}.
Context (EMBED_CACHE_MAX_SIZE N_FAILURES_THRESHOLD : nat) (md5 : string → string).
Context (repr_blocks : list block → string).
(** The chat model does not write to the store. *)
Context (docs_chat : ∀ prompt x c, vs_docs (post_chat prompt x).1 c = vs_docs (Vec:=Vec) x c).

Local Abbreviation W := (mem Vec X).
Local Abbreviation docs := (λ w : W, vs_docs (mm_ext w)).

Lemma save_skill_spec now name content m (w w' : W) :
  save_skill EMBED_CACHE_MAX_SIZE md5 now name content m w = (w', Ok tt) →
  ∀ c, docs w' c = if decide (c = "skills") then
      <["skill:" +:+ name := (content, m ∪ {["name" := MStr name; "ts" := MInt now]})]> (docs w "skills") else docs w c.
Proof. unfold save_skill, mbind, _col. case_bool_decide; [|done]. apply upsert_one_spec. Qed.

(** A skill document with a name, a content and a confidence. *)
Definition skill_doc (name : string) (d : string * meta) : Prop :=
  truthy name = true ∧ truthy d.1 = true ∧ d.2 !! "name" = Some (MStr name) ∧
  ∃ q, d.2 !! "confidence" = Some (MFloat q) ∧ (0 <= q <= 1)%Q.

(** Extracting skills never raises: either nothing comes of it, or the skill
    it names is in the store with a name, a content and a confidence between 0
    and 1. *)
Theorem extract_skills_sound now sid transcript (w : W) :
  ∃ w' o, extract_skills EMBED_CACHE_MAX_SIZE md5 repr_blocks now sid transcript w = (w', Ok o) ∧
    ∀ name, o = Some name → ∃ d, docs w' "skills" !! ("skill:" +:+ name) = Some d ∧ skill_doc name d.
Proof.
  unfold extract_skills. destruct transcript as [|t ts]; [by eexists _, None|].
  unfold mtry, mbind. destruct (on_ext _ w) as [w1 [text|e]]; [|by eexists _, None].
  destruct (contains _ _); [by eexists _, None|].
  destruct (truthy _ && truthy _) eqn:E; [|by eexists _, None]. apply andb_true_iff in E as [En Ec].
  destruct (save_skill _ _ _ _ _ _ w1) as [w2 [[]|e]] eqn:Es; [|by eexists _, None].
  eexists _, (Some _). split; [done|]. intros name [= <-].
  pose proof (save_skill_spec _ _ _ _ _ _ Es "skills") as Hd. rewrite decide_True in Hd by done.
  rewrite Hd, lookup_insert_eq. eexists. split; [done|]. split; [done|]. split; [done|]. cbn. split.
  - rewrite lookup_union_r by (by rewrite lookup_singleton_ne). by rewrite lookup_insert_eq.
  - eexists. split; [by apply lookup_union_Some_l, lookup_singleton_eq|]. apply parse_confidence_bounds.
Qed.

(** Documents are only added or replaced. *)
Definition grows (w w' : W) : Prop := ∀ c id, is_Some (docs w c !! id) → is_Some (docs w' c !! id).

#[local] Instance grows_preorder : PreOrder grows.
Proof. split; [by intros w c id|]. intros w1 w2 w3 H1 H2 c id Hs. by apply H2, H1. Qed.

Lemma record_report_grows now uuid sid f (w w' : W) :
  record_report EMBED_CACHE_MAX_SIZE md5 now uuid sid f w = (w', Ok tt) →
  grows w w' ∧ is_Some (docs w' "failures" !! failure_id md5
    (failure_content (default "" (fl_description f)) (default "" (fl_approach f)) (default "" (fl_error f)))).
Proof.
  intros Hr. pose proof (record_failure_spec _ _ _ _ _ _ _ _ _ _ Hr) as Hd. cbn zeta in Hd. split.
  - intros c id [d Hid]. rewrite Hd. case_decide; [subst|by eexists].
    rewrite lookup_insert. case_decide; by eexists.
  - rewrite Hd, decide_True, lookup_insert_eq by done. by eexists.
Qed.

Lemma same_grows w w' : same_docs w w' → grows w w'.
Proof. intros Hs c id. by rewrite Hs. Qed.

Lemma embed_grows text : respects grows (_embed (X:=X) EMBED_CACHE_MAX_SIZE md5 text).
Proof. intros w. apply same_grows, embed_same_docs. Qed.

Lemma chat_grows prompt : respects grows (on_ext (Vec:=Vec) (post_chat prompt)).
Proof.
  intros w. apply same_grows. intros c. unfold on_ext. pose proof (docs_chat prompt (mm_ext w) c) as Hd.
  by destruct (post_chat prompt (mm_ext w)).
Qed.

Lemma upsert_one_grows col id content m :
  respects grows (upsert_one (X:=X) EMBED_CACHE_MAX_SIZE md5 col id content m).
Proof.
  apply respects_bind; [apply _|apply embed_grows|]. intros emb w c k Hk. unfold on_ext.
  pose proof (docs_upsert_keeps col [VsItem id content emb m] (mm_ext w) c k Hk) as Hd.
  by destruct (vs_upsert _ _ _).
Qed.

Lemma col_grows name : respects grows (_col (X:=X) (Vec:=Vec) name).
Proof. intros w. unfold _col. by case_bool_decide. Qed.

Lemma save_skill_grows now name content m : respects grows (save_skill (X:=X) EMBED_CACHE_MAX_SIZE md5 now name content m).
Proof. apply respects_bind; [apply _|apply col_grows|]. intros col. apply upsert_one_grows. Qed.

Lemma extract_grows now sid transcript :
  respects grows (extract_skills (X:=X) EMBED_CACHE_MAX_SIZE md5 repr_blocks now sid transcript).
Proof.
  unfold extract_skills. destruct transcript; [apply (respects_ret _)|].
  apply respects_try; [apply _| |intros; apply (respects_ret _)].
  apply respects_bind; [apply _|apply chat_grows|]. intros text. cbn zeta. repeat case_match; try apply (respects_ret _).
  apply respects_bind; [apply _|apply save_skill_grows|]. intros []. apply (respects_ret _).
Qed.

Lemma mine_cluster_grows now cluster : respects grows (mine_cluster (X:=X) EMBED_CACHE_MAX_SIZE md5 now cluster).
Proof.
  apply respects_try; [apply _| |intros; apply (respects_ret _)].
  apply respects_bind; [apply _|apply chat_grows|]. intros text. cbn zeta. repeat case_match; try apply (respects_ret _).
  apply respects_bind; [apply _|apply save_skill_grows|]. intros []. apply (respects_ret _).
Qed.

Lemma search_grows col query k : respects grows (_search (X:=X) EMBED_CACHE_MAX_SIZE md5 col query k).
Proof.
  apply respects_bind; [apply _|apply col_grows|]. intros c.
  apply respects_try; [apply _| |intros; apply (respects_ret _)].
  apply respects_bind; [apply _|apply embed_grows|]. intros emb.
  apply respects_bind; [apply _| |intros; apply (respects_ret _)].
  intros w. apply same_grows. intros c'. unfold on_ext. pose proof (docs_query c emb k None (mm_ext w) c') as Hd.
  by destruct (vs_query _ _ _ _ _).
Qed.

Lemma mine_grows now sid context :
  respects grows (_mine_failure_patterns (X:=X) EMBED_CACHE_MAX_SIZE N_FAILURES_THRESHOLD md5 now sid context).
Proof.
  apply respects_bind; [apply _| |].
  - apply respects_try; [apply _| |intros; apply (respects_ret _)].
    apply respects_bind; [apply _| |intros; apply (respects_ret _)].
    apply respects_bind; [apply _|apply search_grows|]. intros; apply (respects_ret _).
  - intros cs. induction cs as [|c cs IH]; cbn [mine_clusters]; [apply (respects_ret _)|].
    case_match; [done|]. apply respects_bind; [apply _|apply mine_cluster_grows|].
    intros [n|]; [apply (respects_ret _)|done].
Qed.

Lemma record_reports_grow now uuid sid l (w w' : W) :
  mfor l (λ p : nat * failure_report, record_report EMBED_CACHE_MAX_SIZE md5 now (uuid p.1) sid p.2) w = (w', Ok tt) →
  grows w w' ∧ ∀ f, f ∈ l.*2 → is_Some (docs w' "failures" !! failure_id md5
    (failure_content (default "" (fl_description f)) (default "" (fl_approach f)) (default "" (fl_error f)))).
Proof.
  revert w. induction l as [|[i f] l IH]; intros w; cbn.
  - intros [= <-]. split; [apply grows_preorder|set_solver].
  - unfold mbind. destruct (record_report _ _ _ _ _ _ w) as [w1 [[]|e]] eqn:E; [|done].
    destruct (record_report_grows _ _ _ _ _ _ E) as [Hg Hf]. intros Hr. destruct (IH _ Hr) as [Hg' Hl].
    split; [by etrans|]. intros f' [->|Hf']%elem_of_cons; [by apply Hg'|by apply Hl].
Qed.

(** When the hook of a session's end succeeds, the summary of the session and
    every failure it was given are in the store. *)
Theorem session_end_saves now uuid sid summary transcript failures (w w' : W) r :
  hook_session_end EMBED_CACHE_MAX_SIZE N_FAILURES_THRESHOLD md5 repr_blocks now uuid sid summary transcript failures w
    = (w', Ok r) →
  is_Some (docs w' "sessions" !! ("session:" +:+ sid +:+ ":" +:+ pretty now)) ∧
  ∀ f, f ∈ failures → is_Some (docs w' "failures" !! failure_id md5
    (failure_content (default "" (fl_description f)) (default "" (fl_approach f)) (default "" (fl_error f)))).
Proof.
  unfold hook_session_end, mbind. destruct (save_session _ _ _ _ _ _ w) as [w1 [[]|e]] eqn:Es; [|done].
  destruct (mfor _ _ w1) as [w2 [[]|e]] eqn:Ef; [|done]. destruct (record_reports_grow _ _ _ _ _ _ Ef) as [Hg Hf].
  assert (Hs : is_Some (docs w1 "sessions" !! ("session:" +:+ sid +:+ ":" +:+ pretty now))).
  { revert Es. unfold save_session, mbind, _col. case_bool_decide; [|done]. intros Es.
    rewrite (upsert_one_spec _ _ _ _ _ _ _ _ Es), decide_True, lookup_insert_eq by done. by eexists. }
  assert (Hsnd : (imap pair failures).*2 = failures).
  { apply list_eq. intros i. rewrite list_lookup_fmap, list_lookup_imap. by destruct (failures !! i). }
  rewrite Hsnd in Hf.
  set (m1 := match transcript with [] => mret None | _ => _ end).
  set (m2 := match failures with [] => mret None | _ => _ end).
  assert (H1 : respects grows m1) by (destruct transcript; [apply (respects_ret _)|apply extract_grows]).
  assert (H2 : respects grows m2) by (destruct failures; [apply (respects_ret _)|apply mine_grows]).
  specialize (H1 w2). destruct (m1 w2) as [w3 [o1|e]]; [|done]. specialize (H2 w3). destruct (m2 w3) as [w4 [o2|e]]; [|done].
  intros [= <- <-]. cbn in H1, H2. split; [by apply H2, H1, Hg|]. intros f Hin. by apply H2, H1, Hf.
Qed.
End facts.

(** ** The hooks of the session manager *)

Section env.
Context {R Vec X B : Type} `{RedisLaws R} `{!VectorStore Vec X} `{!EmbedHttp Vec X} `{!ChatHttp X}.
Context (SESSION_TTL : Z) (EMBED_CACHE_MAX_SIZE N_FAILURES_THRESHOLD : nat) (md5 : string → string).
Context (repr_blocks : list block → string) (now : Z) (uuid : nat → string).

Local Abbreviation W := (mem Vec X).

(** A computation on the memory, and on the rest of the process. *)
Definition on_memory {A} (m : M W A) : M (W * B) unit := λ w,
  let '(x, r) := m w.1 in ((x, w.2), res_map (λ _, tt) r).
Definition on_rest {A} (m : M B A) : M (W * B) A := λ w,
  let '(b, r) := m w.2 in ((w.1, b), r).

(** The session manager calls the hooks; the agents and the bus are [B]'s. *)
Definition HooksEnv (rest : SessionEnv B) : SessionEnv (W * B) :=
  {| on_session_start sid task := on_memory (hook_session_start EMBED_CACHE_MAX_SIZE md5 now sid task);
     on_session_end sid summary transcript failures :=
       on_memory (hook_session_end EMBED_CACHE_MAX_SIZE N_FAILURES_THRESHOLD md5 repr_blocks now uuid sid
                    summary transcript failures);
     env_cleanup_idle_agents w := let '(b, n) := env_cleanup_idle_agents w.2 in ((w.1, b), n);
     env_has_bus := env_has_bus;
     env_publish sid ev := on_rest (env_publish sid ev);
     env_cleanup_bus sid w := (w.1, env_cleanup_bus sid w.2) |}.

(** When the embedding of the summary fails, ending a session raises after the
    session was marked as ended: the idle agents are not removed, the bus is
    not told and its queue not released. *)
Theorem end_session_without_embeddings (rest : SessionEnv B) now' sid summary transcript failures r (w : W) b st e :
  (0 < SESSION_TTL)%Z → _read_state sid r = Some st → ss_session_id st = sid →
  "sessions" ∈ mm_collections w → dict_get (md5 (py_or summary (ss_task st))) (mm_cache w) = None →
  (∀ text x, post_embeddings (Vec:=Vec) text x = (x, Raise e)) →
  ∃ r' w', end_session (SessionEnv0 := HooksEnv rest) SESSION_TTL now' sid summary transcript failures (r, (w, b))
    = ((r', (w', b)), Raise e) ∧
    ss_status <$> _read_state sid r' = Some Ended ∧ mm_ext w' = mm_ext w.
Proof.
  intros HT Hr Hsid Hcol Hc Hdown. unfold end_session. cbn [fst]. rewrite Hr.
  pose proof (write_read SESSION_TTL HT now' (with_sstatus Ended st) r sid) as Hw.
  cbn [ss_session_id with_sstatus] in Hw. rewrite decide_True in Hw by done.
  unfold mbind at 1. unfold on_store, write_state. cbn [fst snd].
  destruct (_write_state SESSION_TTL now' (with_sstatus Ended st) r) as [r' st'] eqn:Ew. cbn [fst] in Hw.
  unfold mbind at 1. unfold on_env, on_session_end, HooksEnv, on_memory. cbn [fst snd].
  assert (Hh : ∃ w', hook_session_end EMBED_CACHE_MAX_SIZE N_FAILURES_THRESHOLD md5 repr_blocks now uuid sid
      (py_or summary (ss_task st)) transcript failures w = (w', Raise e) ∧ mm_ext w' = mm_ext w).
  { unfold hook_session_end, save_session, mbind, _col. rewrite bool_decide_true by done.
    unfold upsert_one, _embed, mbind, cache_get, lru_get. rewrite Hc. unfold _embed_raw, on_ext. cbn.
    rewrite Hdown. by eexists. }
  destruct Hh as (w' & -> & Hx). cbn. exists r', w'. split; [done|]. by rewrite Hw.
Qed.
End env.

(** ** Concrete hooks *)

Module Concrete.
Import MemoryIndex.Concrete.

Definition answer : string :=
  "Skill_name: retry" +:+ nl +:+ "SKILL_CONTENT: Retry: with backoff." +:+ nl +:+ "CONFIDENCE: 1.7".

#[local] Instance chat : ChatHttp cstore := {| post_chat _ := mret answer |}.
#[local] Instance down : EmbedHttp string cstore :=
  {| post_embeddings _ := mraise TimeoutError; post_rerank _ _ := mraise TimeoutError |}.

(** Nothing but the hooks. *)
Definition no_rest : SessionEnv unit :=
  {| on_session_start _ _ := mret tt; on_session_end _ _ _ _ := mret tt; env_cleanup_idle_agents b := (b, 0);
     env_has_bus := true; env_publish _ _ := mret tt; env_cleanup_bus _ b := b |}.

Definition report : failure_report := FailureReport (Some "t1") (Some "write f.py") (Some "boom") None.

Definition ended := hook_session_end (EmbedHttp0 := model) 100 3 (λ x, x) (λ _, "") 7 (λ _, "id") "s" "done"
  [Message "user" (CText "hello")] [report] w0.

Example ended_ex : ended.2 = Ok (SessionEnded "s" (Some "retry") None).
Proof. by vm_compute. Qed.

Lemma skills_witness :
  ∃ w' o, extract_skills (EmbedHttp0 := model) 100 (λ x, x) (λ _, "") 7 "s" [Message "user" (CText "hello")] w0 = (w', Ok o) ∧
    ∀ name, o = Some name → ∃ d, docs_of (mm_ext w') "skills" !! ("skill:" +:+ name) = Some d ∧ skill_doc name d.
Proof. apply (extract_skills_sound (VectorStoreLaws0 := store_laws) 100 (λ x, x) (λ _, "")). Defined.

Lemma saves_witness :
  is_Some (docs_of (mm_ext ended.1) "sessions" !! "session:s:7").
Proof.
  refine (proj1 (session_end_saves (VectorStoreLaws0 := store_laws) 100 3 (λ x, x) (λ _, "") _ 7 (λ _, "id") "s" "done"
    [Message "user" (CText "hello")] [report] w0 ended.1 (SessionEnded "s" (Some "retry") None) _)).
  - done.
  - apply pair_snd, ended_ex.
Defined.

Lemma end_witness :
  ∃ r' w', end_session (SessionEnv0 := HooksEnv (EmbedHttp0 := down) 100 3 (λ x, x) (λ _, "") 7 (λ _, "id") no_rest)
      100 9 "s" "bye" [] [] (SessionManager.Concrete.r0, (w0, tt)) = ((r', (w', tt)), Raise TimeoutError) ∧
    ss_status <$> _read_state "s" r' = Some Ended ∧ mm_ext w' = mm_ext w0.
Proof.
  eapply (end_session_without_embeddings (EmbedHttp0 := down) 100 100 3 (λ x, x) (λ _, "") 7 (λ _, "id") no_rest).
  - lia.
  - by vm_compute.
  - done.
  - by left.
  - done.
  - done.
Defined.
End Concrete.
