(* ===== verification/FileWatcher.v ===== *)
(** * The file watcher (orchestrator/file_watcher.py)

    A transition system: the watched file system changes and watchdog queues
    events; the worker debounces them by path with timers; a timer that fires
    starts the coroutine that updates the hash registry (a Redis hash) and
    publishes.  All timers have the same delay, so they fire in the order in
    which they were set.  The coroutine of a change waits for a thread that
    hashes the file: its start ([LStart]), the reading of the file ([LRead]) and
    the storing of the hash ([LCommit]) are three steps; that of a deletion is
    one.  SHA-256 is a parameter. *)

From S2P Require Import Prelude PyStr Paths EmbedCache.
Local Open Scope string_scope.
Local Open Scope list_scope.
Local Open Scope nat_scope.

Definition WATCH_PATH : string := "/workspace".
Definition SKIP_EXTENSIONS : list string := [".pyc"; ".pyo"; ".swp"; ".tmp"; ".log"].
Definition SKIP_DIRS : list string := [".git"; "__pycache__"; "node_modules"; ".venv"].

(** ** Helpers *)

Definition _rel (p : string) : string :=
  match relative_to (path_components WATCH_PATH) (path_components p) with
  | Some q => replace (String (ascii_of_nat 92) "") "/" (join "/" q)
  | None => p
  end.

Definition _should_skip (p : string) : bool :=
  bool_decide (lower (suffix_of (path_name p)) ∈ SKIP_EXTENSIONS) ||
  existsb (λ part, bool_decide (part ∈ SKIP_DIRS)) (path_components p).

(** ** The state *)

Inductive file_change := Modified | Created | Deleted.

#[export] Instance file_change_eq_dec : EqDecision file_change.
Proof. solve_decision. Defined.

Record fevent := FEvent { fe_kind : file_change; fe_path : string }.

(** A message on the channel. *)
Inductive watch_msg := FileChanged (kind : file_change) (rel : string) | CodebaseUpdated.

(** The files as bytes, by absolute path; the event queue; the dict of the
    debounce handles; the timers that are set, in order; the coroutines that
    are scheduled; those that wait for a hash, with the hash once the file was
    read; the registry; what was published. *)
Record watcher := Watcher {
  fw_files : gmap string string;
  fw_running : bool;
  fw_queue : list fevent;
  fw_pending : list (string * nat);
  fw_next : nat;
  fw_timers : list (nat * fevent);
  fw_tasks : list fevent;
  fw_hashing : list (fevent * option (option string));
  fw_registry : gmap string string;
  fw_published : list watch_msg
}.

Definition with_files f w := Watcher f (fw_running w) (fw_queue w) (fw_pending w) (fw_next w) (fw_timers w) (fw_tasks w) (fw_hashing w) (fw_registry w) (fw_published w).
Definition with_queue q w := Watcher (fw_files w) (fw_running w) q (fw_pending w) (fw_next w) (fw_timers w) (fw_tasks w) (fw_hashing w) (fw_registry w) (fw_published w).
Definition with_tasks t w := Watcher (fw_files w) (fw_running w) (fw_queue w) (fw_pending w) (fw_next w) (fw_timers w) t (fw_hashing w) (fw_registry w) (fw_published w).
Definition with_timers t w := Watcher (fw_files w) (fw_running w) (fw_queue w) (fw_pending w) (fw_next w) t (fw_tasks w) (fw_hashing w) (fw_registry w) (fw_published w).
Definition with_pending p w := Watcher (fw_files w) (fw_running w) (fw_queue w) p (fw_next w) (fw_timers w) (fw_tasks w) (fw_hashing w) (fw_registry w) (fw_published w).
Definition with_hashing h w := Watcher (fw_files w) (fw_running w) (fw_queue w) (fw_pending w) (fw_next w) (fw_timers w) (fw_tasks w) h (fw_registry w) (fw_published w).
Definition with_registry r p w := Watcher (fw_files w) (fw_running w) (fw_queue w) (fw_pending w) (fw_next w) (fw_timers w) (fw_tasks w) (fw_hashing w) r p.

Section watcher.
(** [hashlib.sha256(data).hexdigest()]. *)
Context (sha256 : string → string).

Definition _sha256 (p : string) (w : watcher) : option string := sha256 <$> fw_files w !! p.

(** ** The handler of watchdog *)

Definition _enqueue (kind : file_change) (p : string) (w : watcher) : watcher :=
  if _should_skip p then w else with_queue (fw_queue w ++ [FEvent kind p]) w.

(** [dir]: [event.is_directory]. *)
Definition on_modified (dir : bool) (p : string) (w : watcher) : watcher := if dir then w else _enqueue Modified p w.
Definition on_created (dir : bool) (p : string) (w : watcher) : watcher := if dir then w else _enqueue Created p w.
Definition on_deleted (dir : bool) (p : string) (w : watcher) : watcher := if dir then w else _enqueue Deleted p w.
Definition on_moved (dir : bool) (src dest : string) (w : watcher) : watcher :=
  if dir then w else _enqueue Created dest (_enqueue Deleted src w).

(** ** The registry *)

Definition get_hash (rel_path : string) (w : watcher) : option string := fw_registry w !! rel_path.
Definition _publish (kind : file_change) (rel : string) (w : watcher) : watcher :=
  with_registry (fw_registry w) (fw_published w ++ [FileChanged kind rel]) w.
Definition _set_hash (rel value : string) (w : watcher) : watcher :=
  with_registry (<[rel := value]> (fw_registry w)) (fw_published w) w.
Definition _del_hash (rel : string) (w : watcher) : watcher :=
  with_registry (delete rel (fw_registry w)) (fw_published w) w.

(** [_redis] is set by [start]. *)
Definition publish_codebase_updated (has_redis : bool) (w : watcher) : watcher :=
  if has_redis then with_registry (fw_registry w) (fw_published w ++ [CodebaseUpdated]) w else w.

(** The pipeline of the scan, over the files of the directory. *)
Definition _full_scan (w : watcher) : watcher :=
  foldl (λ w p, if _should_skip p then w
                else match _sha256 p w with
                     | Some sha => if truthy sha then _set_hash (_rel p) sha w else w
                     | None => w
                     end) w (map_to_list (fw_files w)).*1.

(** ** The worker *)

(** One event taken from the queue: the handle of its path is cancelled, a new
    one set. *)
Definition debounce (e : fevent) (w : watcher) : watcher :=
  let p := fe_path e in
  let timers := match dict_get p (fw_pending w) with
                | Some h => List.filter (λ t, negb (bool_decide (t.1 = h))) (fw_timers w)
                | None => fw_timers w
                end in
  Watcher (fw_files w) (fw_running w) (fw_queue w) (dict_set p (fw_next w) (dict_del p (fw_pending w)))
    (S (fw_next w)) (timers ++ [(fw_next w, e)]) (fw_tasks w) (fw_hashing w) (fw_registry w) (fw_published w).

Definition _event_worker (w : watcher) : watcher :=
  match fw_queue w with
  | e :: q => if fw_running w then debounce e (with_queue q w) else w
  | [] => w
  end.

(** The timer that is due. *)
Definition fire (w : watcher) : watcher :=
  match fw_timers w with
  | (_, e) :: ts => with_tasks (fw_tasks w ++ [e]) (with_timers ts w)
  | [] => w
  end.

(** What the coroutine does with the hash. *)
Definition store_hash (e : fevent) (sha : option string) (w : watcher) : watcher :=
  match sha with
  | Some s => if truthy s then _publish (fe_kind e) (_rel (fe_path e)) (_set_hash (_rel (fe_path e)) s w) else w
  | None => w
  end.

(** The coroutine, for a change up to [run_in_executor]. *)
Definition _process_event (e : fevent) (w : watcher) : watcher :=
  let w := with_pending (dict_del (fe_path e) (fw_pending w)) w in
  match fe_kind e with
  | Deleted => _publish Deleted (_rel (fe_path e)) (_del_hash (_rel (fe_path e)) w)
  | _ => with_hashing (fw_hashing w ++ [(e, None)]) w
  end.

(** The thread reads the file; the coroutine goes on. *)
Definition read_file (i : nat) (w : watcher) : watcher :=
  match fw_hashing w !! i with
  | Some (e, None) => with_hashing (<[i := (e, Some (_sha256 (fe_path e) w))]> (fw_hashing w)) w
  | _ => w
  end.
Definition resume (i : nat) (w : watcher) : watcher :=
  match fw_hashing w !! i with
  | Some (e, Some sha) => store_hash e sha (with_hashing (delete i (fw_hashing w)) w)
  | _ => w
  end.

(** [stop]: the handles that are tracked are cancelled. *)
Definition stop (w : watcher) : watcher :=
  Watcher (fw_files w) false (fw_queue w) [] (fw_next w)
    (List.filter (λ t, negb (bool_decide (t.1 ∈ (fw_pending w).*2))) (fw_timers w))
    (fw_tasks w) (fw_hashing w) (fw_registry w) (fw_published w).

(** ** Transitions *)

Inductive label :=
  | LWrite (p bytes : string) | LDelete (p : string) | LMove (src dest : string)
  | LWorker | LFire
  | LStart | LRead (i : nat) | LCommit (i : nat).

Definition step (l : label) (w : watcher) : watcher :=
  match l with
  | LWrite p bytes =>
      (if fw_files w !! p is Some _ then on_modified else on_created) false p (with_files (<[p := bytes]> (fw_files w)) w)
  | LDelete p =>
      if fw_files w !! p is Some _ then on_deleted false p (with_files (delete p (fw_files w)) w) else w
  | LMove src dest =>
      if bool_decide (src = dest) then w else
      match fw_files w !! src with
      | Some bytes => on_moved false src dest (with_files (<[dest := bytes]> (delete src (fw_files w))) w)
      | None => w
      end
  | LWorker => _event_worker w
  | LFire => fire w
  | LStart => match fw_tasks w with e :: ts => _process_event e (with_tasks ts w) | [] => w end
  | LRead i => read_file i w
  | LCommit i => resume i w
  end.

Definition run (ls : list label) (w : watcher) : watcher := foldl (λ w l, step l w) w ls.

(** No event of a file is taken up while a hash of the file is under way: the
    events that the worker handles are [DEBOUNCE_SECONDS] apart for each file. *)
Definition hashing_paths (w : watcher) : list string := map (λ h, fe_path h.1) (fw_hashing w).
Definition in_turn (l : label) (w : watcher) : bool :=
  match l, fw_tasks w with
  | LStart, e :: _ => bool_decide (fe_path e ∉ hashing_paths w)
  | _, _ => true
  end.
Fixpoint hashed_in_turn (ls : list label) (w : watcher) : Prop :=
  match ls with [] => True | l :: ls' => in_turn l w = true ∧ hashed_in_turn ls' (step l w) end.

(** The paths of a label. *)
Definition label_paths (l : label) : list string :=
  match l with LWrite p _ | LDelete p => [p] | LMove p q => [p; q] | _ => [] end.

(** [start]: the scan, on a registry that may be left from an earlier run. *)
Definition start (files registry : gmap string string) : watcher :=
  _full_scan (Watcher files true [] [] 0 [] [] [] registry []).

(** Nothing is left to do. *)
Definition drained (w : watcher) : Prop :=
  fw_queue w = [] ∧ fw_timers w = [] ∧ fw_tasks w = [] ∧ fw_hashing w = [].
End watcher.

(** ** The registry follows the files *)

Section drained.
Context (sha256 : string → string) (Hsha : ∀ b, truthy (sha256 b) = true).
(** The paths in play, told apart by the registry. *)
Context (paths : list string).
Context (Hrel : ∀ p q, p ∈ paths → q ∈ paths → _rel p = _rel q → p = q).

Local Abbreviation step := (step sha256).
Local Abbreviation run := (run sha256).

(** The events of a path that are still to be processed, in that order. *)
Definition of_path (p : string) (l : list fevent) : list fevent := List.filter (λ e, bool_decide (fe_path e = p)) l.
#[local] Arguments of_path : simpl never.
Definition later (w : watcher) : list fevent := fw_tasks w ++ (fw_timers w).*2 ++ fw_queue w.
#[local] Arguments later : simpl never.
Definition flight (w : watcher) : list fevent := (fw_hashing w).*1 ++ later w.

(** The last event of a path says whether the file exists; without events the
    registry has its hash; and a hash that was read and that no later event will
    replace is that of the file. *)
Definition registered (w : watcher) (p : string) : Prop :=
  match last (of_path p (flight w)) with
  | None => fw_registry w !! _rel p = sha256 <$> fw_files w !! p
  | Some e => fe_kind e = Deleted ↔ fw_files w !! p = None
  end.
Definition fresh (w : watcher) (p : string) : Prop :=
  ∀ e sha, (e, Some sha) ∈ fw_hashing w → fe_path e = p → of_path p (later w) = [] → sha = sha256 <$> fw_files w !! p.
Definition synced (w : watcher) (p : string) : Prop := registered w p ∧ fresh w p.

(** The handles in the dict that are still set are of their path. *)
Definition handles_ok (w : watcher) : Prop :=
  NoDup (fw_pending w).*1 ∧
  (∀ p h, (p, h) ∈ fw_pending w → h < fw_next w) ∧
  (∀ h e, (h, e) ∈ fw_timers w → h < fw_next w) ∧
  (∀ p h e, (p, h) ∈ fw_pending w → (h, e) ∈ fw_timers w → fe_path e = p).

Definition events_ok (w : watcher) : Prop :=
  (NoDup (hashing_paths w) ∧ ∀ e, e ∈ (fw_hashing w).*1 → fe_kind e ≠ Deleted) ∧ handles_ok w ∧
  ∀ e, e ∈ flight w → fe_path e ∈ paths ∧ _should_skip (fe_path e) = false.

(** All paths but some are in step. *)
Definition synced_but (out : list string) (w : watcher) : Prop :=
  ∀ p, p ∈ paths → p ∉ out → _should_skip p = false → synced w p.

Definition watcher_inv (w : watcher) : Prop := events_ok w ∧ synced_but [] w.

Lemma elem_of_flight w e :
  e ∈ flight w ↔ e ∈ (fw_hashing w).*1 ∨ e ∈ fw_tasks w ∨ e ∈ (fw_timers w).*2 ∨ e ∈ fw_queue w.
Proof. unfold flight, later. by rewrite !elem_of_app. Qed.

Lemma of_path_app p l k : of_path p (l ++ k) = of_path p l ++ of_path p k.
Proof. apply List.filter_app. Qed.

Lemma of_path_same p e l : fe_path e = p → of_path p (e :: l) = e :: of_path p l.
Proof. intros <-. unfold of_path. cbn. by rewrite bool_decide_true. Qed.

Lemma of_path_other p e l : fe_path e ≠ p → of_path p (e :: l) = of_path p l.
Proof. intros H. unfold of_path. cbn. by rewrite bool_decide_false. Qed.

Lemma last_app_cons {A} (l : list A) x k : last (l ++ x :: k) = last (x :: k).
Proof. by rewrite last_app_Some || (rewrite last_app; destruct (last (x :: k)) eqn:E; [done|]; by apply last_None in E). Qed.

(** An event for [p] at the end of the queue. *)
Lemma synced_enqueue w kind p q :
  (kind = Deleted ↔ fw_files w !! p = None) → (q ≠ p → synced w q) →
  synced (with_queue (fw_queue w ++ [FEvent kind p]) w) q.
Proof.
  intros Hk Hs. set (w' := with_queue _ w).
  assert (Hl : later w' = later w ++ [FEvent kind p]) by (unfold later; cbn; by rewrite !(assoc_L (++))).
  assert (Hf : flight w' = flight w ++ [FEvent kind p]) by (unfold flight; rewrite Hl; apply (assoc_L (++))).
  unfold synced, registered, fresh. rewrite Hf, Hl, !of_path_app.
  destruct (decide (q = p)) as [->|Hq].
  - rewrite of_path_same by done. change (of_path p []) with (@nil fevent). rewrite last_snoc. split; [done|].
    intros e sha _ _ He. by apply app_nil in He as [_ He].
  - rewrite of_path_other by (cbn; congruence). change (of_path q []) with (@nil fevent). rewrite !app_nil_r. by apply Hs.
Qed.

Lemma enqueue_inv w kind p out :
  events_ok w → synced_but (p :: out) w → p ∈ paths → p ∉ out → (kind = Deleted ↔ fw_files w !! p = None) →
  events_ok (_enqueue kind p w) ∧ synced_but out (_enqueue kind p w).
Proof.
  intros (Hh & Ho & Hf) Hs Hp Hout Hk. unfold _enqueue. destruct (_should_skip p) eqn:Esk.
  { split; [done|]. intros q Hq Hqo Hsk. apply Hs; [done| |done]. apply not_elem_of_cons. split; [|done]. intros ->. congruence. }
  split; [split; [done|]; split; [done|]|].
  - intros e. rewrite elem_of_flight. cbn. rewrite elem_of_app, list_elem_of_singleton. intros He.
    destruct He as [He|[He|[He|[He| ->]]]]; [apply Hf, elem_of_flight; auto..|done].
  - intros q Hq Hqo Hsk. apply synced_enqueue; [done|]. intros Hqp. apply Hs; [done| |done].
    by apply not_elem_of_cons.
Qed.

Lemma enqueue_files kind p w : fw_files (_enqueue kind p w) = fw_files w.
Proof. unfold _enqueue. by destruct (_should_skip p). Qed.

(** Changing the files changes nothing for the other paths. *)
Lemma files_synced w f out :
  (∀ q, q ∉ out → f !! q = fw_files w !! q) → watcher_inv w → events_ok (with_files f w) ∧ synced_but out (with_files f w).
Proof.
  intros Hf [He Hs]. split; [done|]. intros q Hq Hqo Hsk. specialize (Hs q Hq (not_elem_of_nil q) Hsk).
  unfold synced, registered, fresh, flight, later in *. cbn. by rewrite Hf.
Qed.

(** ** The worker *)

Lemma synced_same_events w w' p :
  flight w' = flight w → later w' = later w → fw_hashing w' = fw_hashing w → fw_registry w' = fw_registry w →
  fw_files w' = fw_files w → synced w p → synced w' p.
Proof. intros H1 H2 H3 H4 H5. unfold synced, registered, fresh. by rewrite H1, H2, H3, H4, H5. Qed.

(** Cancelling a timer drops earlier events of the path only. *)
Lemma debounce_timers w p e h k :
  handles_ok w → dict_get (fe_path e) (fw_pending w) = Some h → fe_path e ≠ p →
  of_path p ((List.filter (λ t, negb (bool_decide (t.1 = h))) (fw_timers w)).*2 ++ k) = of_path p ((fw_timers w).*2 ++ k).
Proof.
  intros (_ & _ & _ & Hown) Hg Hne. apply dict_get_elem in Hg. rewrite !of_path_app. f_equal.
  assert (Hall : ∀ h' e', (h', e') ∈ fw_timers w → h' = h → fe_path e' = fe_path e) by (intros ?? Hin ->; by eapply Hown).
  clear -Hall Hne. induction (fw_timers w) as [|[h' e'] ts IH]; [done|]. specialize (IH ltac:(intros ???; apply Hall; by right)).
  cbn [List.filter]. cbn [fst]. case_bool_decide as Hh; cbn [negb].
  - change (((h', e') :: ts).*2) with (e' :: ts.*2). rewrite of_path_other; [done|].
    rewrite (Hall h' e') by (done || by left). done.
  - change (((h', e') :: ts).*2) with (e' :: ts.*2).
    change (((h', e') :: List.filter (λ t, negb (bool_decide (t.1 = h))) ts).*2)
      with (e' :: (List.filter (λ t, negb (bool_decide (t.1 = h))) ts).*2).
    destruct (decide (fe_path e' = p)); [by rewrite !of_path_same, IH|by rewrite !of_path_other].
Qed.

Lemma worker_inv w : watcher_inv w → watcher_inv (_event_worker w).
Proof.
  intros [(Hh & Ho & Hf) Hs]. unfold _event_worker. destruct (fw_queue w) as [|e q] eqn:Eq; [done|].
  destruct (fw_running w); [|done].
  set (ts := match dict_get (fe_path e) (fw_pending w) with
             | Some h => List.filter (λ t, negb (bool_decide (t.1 = h))) (fw_timers w)
             | None => fw_timers w end).
  assert (Hts : ts `sublist_of` fw_timers w) by (unfold ts; destruct (dict_get _ _); [apply filter_sublist|done]).
  assert (Hin : ∀ h e', (h, e') ∈ ts → (h, e') ∈ fw_timers w) by (intros; by eapply elem_of_sublist).
  assert (Hin2 : ∀ e', e' ∈ ts.*2 → e' ∈ (fw_timers w).*2).
  { intros e' ([h e''] & -> & ?)%list_elem_of_fmap. apply list_elem_of_fmap. exists (h, e''). auto. }
  assert (Hfe : fe_path e ∈ paths ∧ _should_skip (fe_path e) = false) by (apply Hf, elem_of_flight; rewrite Eq; do 3 right; by left).
  split; [split; [done|]; split|].
  - destruct Ho as (Hnd & Hp & Ht & Hown). unfold debounce, handles_ok. cbn. fold ts. split; [|split; [|split]].
    + apply NoDup_dict_set. rewrite fst_dict_del by done. eapply sublist_NoDup; [done|apply filter_sublist].
    + intros p h [[= -> ->]|Hph]%dict_set_elem; [lia|]. apply dict_del_elem in Hph. specialize (Hp _ _ Hph). lia.
    + intros h e' [Hhe|[= -> ->]%list_elem_of_singleton]%elem_of_app; [|lia]. specialize (Ht _ _ (Hin _ _ Hhe)). lia.
    + intros p h e' Hph Hhe.
      apply dict_set_elem in Hph as [[= -> ->]|Hph]; apply elem_of_app in Hhe as [Hhe|Hhe%list_elem_of_singleton]; simplify_eq.
      * specialize (Ht _ _ (Hin _ _ Hhe)). lia.
      * done.
      * apply dict_del_elem in Hph. by eapply Hown; [|apply Hin].
      * apply dict_del_elem in Hph. specialize (Hp _ _ Hph). lia.
  - intros e'. rewrite elem_of_flight. unfold debounce. cbn. fold ts.
    rewrite fmap_app, elem_of_app. cbn [fmap list_fmap snd]. rewrite list_elem_of_singleton.
    intros [H|[H|[[H| ->]|H]]]; [apply Hf, elem_of_flight; auto..|done|].
    apply Hf, elem_of_flight. rewrite Eq. do 3 right. by right.
  - intros p Hp _ Hsk. specialize (Hs p Hp (not_elem_of_nil p) Hsk).
    set (w' := debounce e (with_queue q w)).
    assert (Hla : later w' = fw_tasks w ++ ts.*2 ++ e :: q).
    { unfold later, w', debounce. cbn. fold ts. by rewrite fmap_app, <-(assoc_L (++)). }
    assert (Hlw : later w = fw_tasks w ++ (fw_timers w).*2 ++ e :: q) by (unfold later; by rewrite Eq).
    unfold synced, registered, fresh, flight in *. change (fw_hashing w') with (fw_hashing w).
    change (fw_files w') with (fw_files w). change (fw_registry w') with (fw_registry w).
    destruct (decide (fe_path e = p)) as [Hpe|Hpe].
    + destruct Hs as [Hs _]. rewrite Hla. rewrite Hlw in Hs. rewrite !of_path_app, !of_path_same in * by done. split.
      * rewrite !(assoc_L (++)) in *. by rewrite last_app_cons in *.
      * intros ? ? _ _ He. rewrite !app_nil in He. by destruct He as (_ & _ & He).
    + assert (Heq : of_path p (later w') = of_path p (later w)).
      { rewrite Hla, Hlw, (of_path_app _ (fw_tasks w)), (of_path_app _ (fw_tasks w)). f_equal. unfold ts.
        destruct (dict_get _ _) eqn:Eg; [by eapply debounce_timers|done]. }
      rewrite of_path_app, Heq. by rewrite of_path_app in Hs.
Qed.

Lemma fire_inv w : watcher_inv w → watcher_inv (fire w).
Proof.
  intros [(Hh & Ho & Hf) Hs]. unfold fire. destruct (fw_timers w) as [|[h e] ts] eqn:Et; [done|].
  assert (Hfl : flight (with_tasks (fw_tasks w ++ [e]) (with_timers ts w)) = flight w).
  { unfold flight, later. rewrite Et. cbn. by rewrite <-!(assoc_L (++)). }
  assert (Hla : later (with_tasks (fw_tasks w ++ [e]) (with_timers ts w)) = later w).
  { unfold later. rewrite Et. cbn. by rewrite <-!(assoc_L (++)). }
  split; [split; [done|]; split|].
  - destruct Ho as (Hnd & Hp & Ht & Hown). rewrite Et in *. unfold handles_ok. cbn.
    split; [done|]. split; [done|]. split; [intros; eapply Ht; by right|]. intros p h' e' H1 H2. eapply Hown; [done|by right].
  - intros e'. rewrite Hfl. apply Hf.
  - intros p Hp Hn Hsk. apply (synced_same_events w); [done..|by apply Hs].
Qed.

(** *** The coroutine *)

Lemma hashing_none w p : p ∉ hashing_paths w → of_path p (fw_hashing w).*1 = [].
Proof.
  unfold hashing_paths, of_path. induction (fw_hashing w) as [|[e x] l IH]; [done|]. cbn [map].
  intros [Hne Hl]%not_elem_of_cons. cbn. rewrite bool_decide_false by (cbn in Hne; congruence). by apply IH.
Qed.

Lemma pending_del e w : handles_ok w → handles_ok (with_pending (dict_del (fe_path e) (fw_pending w)) w).
Proof.
  intros (Hnd & Hp & Ht & Hown). unfold handles_ok. cbn. split; [|split; [|split]]; [|naive_solver eauto using dict_del_elem|done|].
  - rewrite fst_dict_del by done. eapply sublist_NoDup; [done|apply filter_sublist].
  - intros p h e' Hph%dict_del_elem. by apply Hown.
Qed.

Section taken.
Context (w : watcher) (e : fevent) (ts : list fevent).
Hypothesis Ht : fw_tasks w = e :: ts.
Hypothesis Hin : fe_path e ∉ hashing_paths w.
Hypothesis Hw : watcher_inv w.
Local Abbreviation w0 := (with_pending (dict_del (fe_path e) (fw_pending w)) (with_tasks ts w)).

Lemma taken_later : later w = e :: later w0.
Proof. unfold later. by rewrite Ht. Qed.

Lemma taken_ok : fe_path e ∈ paths ∧ _should_skip (fe_path e) = false.
Proof. destruct Hw as [(_ & _ & Hf) _]. apply Hf, elem_of_flight. rewrite Ht. right. left. by left. Qed.

Lemma taken_pending : handles_ok w0.
Proof. destruct Hw as [(_ & Ho & _) _]. exact (pending_del e (with_tasks ts w) Ho). Qed.

(** No hash of the path is under way. *)
Lemma taken_fresh p : fresh w p → fresh w0 p.
Proof.
  intros Hfr e' sha Hsha' Hp Hl. apply (Hfr e'); [done|done|]. rewrite taken_later, of_path_other; [done|].
  intros Heq. apply Hin. rewrite Heq, <-Hp. apply list_elem_of_fmap. by exists (e', Some sha).
Qed.

Lemma start_change_inv : fe_kind e ≠ Deleted → watcher_inv (with_hashing (fw_hashing w ++ [(e, None)]) w0).
Proof.
  intros Hk. pose proof taken_later as Hla. pose proof taken_pending as Hpe. destruct Hw as [([Hnd Hkd] & _ & Hf) Hs].
  split; [split; [split|split; [exact Hpe|]]|].
  - unfold hashing_paths. cbn. rewrite map_app. apply NoDup_app. split_and!; [done| |apply NoDup_singleton].
    by intros x Hx ->%list_elem_of_singleton.
  - intros e'. cbn. rewrite fmap_app, elem_of_app. intros [He'| ->%list_elem_of_singleton]; [by apply Hkd|done].
  - intros e' He'. apply Hf. unfold flight in *. rewrite Hla. cbn in He'. rewrite fmap_app, <-(assoc_L (++)) in He'. exact He'.
  - intros p Hp Hn Hsk. destruct (Hs p Hp Hn Hsk) as [Hreg Hfr]. split.
    + unfold registered, flight in *. rewrite Hla in Hreg. cbn. rewrite fmap_app, <-(assoc_L (++)). exact Hreg.
    + intros e' sha Hsha'. cbn in Hsha'. apply elem_of_app in Hsha' as [Hsha'|Hsha'%list_elem_of_singleton]; [|done].
      by apply (taken_fresh p Hfr).
Qed.

Lemma start_deletion_inv : fe_kind e = Deleted →
  watcher_inv (_publish Deleted (_rel (fe_path e)) (_del_hash (_rel (fe_path e)) w0)).
Proof.
  intros Hk. pose proof taken_later as Hla. pose proof taken_pending as Hpe. destruct taken_ok as [Hep _].
  pose proof taken_fresh as Htf. destruct Hw as [(Hh & _ & Hf) Hs]. split; [split; [done|split; [exact Hpe|]]|].
  - intros e' He'. apply Hf. unfold flight in *. rewrite Hla. apply elem_of_app. apply elem_of_app in He' as [?|?]; [by left|by right; right].
  - intros p Hp Hn Hsk. destruct (Hs p Hp Hn Hsk) as [Hreg Hfr]. split; [|exact (Htf p Hfr)].
    unfold registered, flight in *. rewrite Hla in Hreg. change (later (_publish _ _ _)) with (later w0). cbn.
    rewrite of_path_app in *. destruct (decide (fe_path e = p)) as [<-|Hne].
    + rewrite hashing_none in * by done. rewrite of_path_same in Hreg by done. cbn [app] in *.
      destruct (of_path (fe_path e) (later w0)) as [|e' l] eqn:El.
      * cbn in *. rewrite (proj1 Hreg Hk). apply lookup_delete_eq.
      * rewrite last_cons_cons in Hreg. destruct (last (e' :: l)) eqn:Ela; [done|by apply last_None in Ela].
    + rewrite of_path_other in Hreg by done. destruct (last _); [done|]. rewrite lookup_delete_ne; [done|].
      intros Heq. apply Hne. apply Hrel; [exact Hep|done|done].
Qed.
End taken.

Lemma start_event_inv w : in_turn LStart w = true → watcher_inv w → watcher_inv (step LStart w).
Proof.
  cbn [in_turn FileWatcher.step]. intros Hin Hw. destruct (fw_tasks w) as [|e ts] eqn:Et; [done|].
  apply bool_decide_eq_true_1 in Hin. unfold _process_event. destruct (fe_kind e) eqn:Ek.
  - apply (start_change_inv w e ts); [done..|congruence].
  - apply (start_change_inv w e ts); [done..|congruence].
  - by apply (start_deletion_inv w e ts).
Qed.

Lemma read_inv i w : watcher_inv w → watcher_inv (step (LRead i) w).
Proof.
  intros [([Hnd Hkd] & Ho & Hf) Hs]. cbn [FileWatcher.step]. unfold read_file.
  destruct (fw_hashing w !! i) as [[e [x|]]|] eqn:Ei; [done| |done].
  set (h := <[i := _]> _). assert (h.*1 = (fw_hashing w).*1) as Hh.
  { unfold h. rewrite list_fmap_insert. cbn. apply list_insert_id. by rewrite list_lookup_fmap, Ei. }
  assert (hashing_paths (with_hashing h w) = hashing_paths w) as Hhp.
  { unfold hashing_paths. cbn. rewrite <-!(map_map fst fe_path). change (map fst h) with (h.*1). by rewrite Hh. }
  split; [split; [split|split; [done|]]|].
  - by rewrite Hhp.
  - cbn. by rewrite Hh.
  - intros e'. unfold flight. cbn. rewrite Hh. apply Hf.
  - intros p Hp Hn Hsk. destruct (Hs p Hp Hn Hsk) as [Hreg Hfr]. split; [unfold registered, flight in *; cbn; by rewrite Hh|].
    intros e' sha Hsha' Hpe Hl. cbn in Hsha'. apply list_elem_of_lookup in Hsha' as [j Hj].
    unfold h in Hj. apply list_lookup_insert_Some in Hj as [(_ & Hj & _)|[_ Hj]].
    + injection Hj as -> <-. cbn. by rewrite Hpe.
    + apply (Hfr e'); [by eapply list_elem_of_lookup_2|done|done].
Qed.

(** What is stored of a hash. *)
Lemma store_registry e sha w :
  fw_registry (store_hash e (sha256 <$> sha) w) =
    match sha with Some b => <[_rel (fe_path e) := sha256 b]> (fw_registry w) | None => fw_registry w end.
Proof. unfold store_hash. destruct sha; cbn; [by rewrite Hsha|done]. Qed.

Lemma store_same e sha w :
  let w' := store_hash e sha w in
  fw_files w' = fw_files w ∧ fw_hashing w' = fw_hashing w ∧ later w' = later w ∧ fw_next w' = fw_next w ∧
  fw_timers w' = fw_timers w ∧ fw_pending w' = fw_pending w ∧ fw_queue w' = fw_queue w ∧ fw_tasks w' = fw_tasks w ∧
  (∀ k, k ≠ _rel (fe_path e) → fw_registry w' !! k = fw_registry w !! k).
Proof.
  cbn. unfold store_hash. destruct sha as [s|]; [|done]. destruct (truthy s); [|done]. split_and!; try done.
  intros k Hk. cbn. by rewrite lookup_insert_ne.
Qed.

(** The coroutine that goes on leaves the list; it was the only one of its path. *)
Section resumed.
Context (w : watcher) (i : nat) (e : fevent) (x : option (option string)).
Hypothesis Hnd : NoDup (hashing_paths w).
Hypothesis Ei : fw_hashing w !! i = Some (e, x).
Local Abbreviation w1 := (with_hashing (delete i (fw_hashing w)) w).

Lemma resumed_split : hashing_paths w = take i (hashing_paths w) ++ fe_path e :: drop (S i) (hashing_paths w).
Proof. symmetry. apply take_drop_middle. unfold hashing_paths. 
  change (map _ _) with ((λ h : fevent * option (option string), fe_path h.1) <$> fw_hashing w). by rewrite list_lookup_fmap, Ei. Qed.

Lemma resumed_paths : hashing_paths w1 = take i (hashing_paths w) ++ drop (S i) (hashing_paths w).
Proof. unfold hashing_paths. cbn. rewrite delete_take_drop, map_app. by rewrite firstn_map, skipn_map. Qed.

Lemma resumed_NoDup : NoDup (hashing_paths w1) ∧ fe_path e ∉ hashing_paths w1.
Proof.
  rewrite resumed_paths. pose proof Hnd as Hn. rewrite resumed_split in Hn. apply NoDup_app in Hn as (H1 & H2 & H3).
  apply NoDup_cons in H3 as [H3 H4]. rewrite elem_of_app. split.
  - apply NoDup_app. split_and!; [done| |done]. intros y Hy Hy2. apply (H2 y Hy). by right.
  - intros [H|H]; [|done]. apply (H2 _ H). by left.
Qed.

Lemma resumed_sub y : y ∈ fw_hashing w1 → y ∈ fw_hashing w.
Proof. cbn. intros Hy. eapply elem_of_sublist; [exact Hy|apply sublist_delete]. Qed.

Lemma resumed_of_path p :
  of_path p (fw_hashing w).*1 = if bool_decide (fe_path e = p) then [e] else of_path p (fw_hashing w1).*1.
Proof.
  destruct resumed_NoDup as [_ Hni]. pose proof (take_drop_middle _ _ _ Ei) as Hsplit.
  rewrite <-Hsplit at 1. rewrite fmap_app, of_path_app. cbn [fmap list_fmap fst]. case_bool_decide as Hp.
  - pose proof (hashing_none _ _ Hni) as Hnone. cbn in Hnone. rewrite delete_take_drop, fmap_app, of_path_app in Hnone.
    apply app_nil in Hnone as [H1 H2]. subst p. rewrite of_path_same by done. change (list_fmap _ _ fst) with (fmap (M:=list) (@fst fevent (option (option string)))).
    by rewrite H1, H2.
  - rewrite of_path_other by done. cbn. by rewrite delete_take_drop, fmap_app, of_path_app.
Qed.

Lemma resumed_in : e ∈ (fw_hashing w).*1.
Proof. apply list_elem_of_fmap. exists (e, x). split; [done|]. by eapply list_elem_of_lookup_2. Qed.
End resumed.

Lemma commit_inv i w : watcher_inv w → watcher_inv (step (LCommit i) w).
Proof.
  intros [([Hnd Hkd] & Ho & Hf) Hs]. cbn [FileWatcher.step]. unfold resume.
  destruct (fw_hashing w !! i) as [[e [sha|]]|] eqn:Ei; [|done..].
  pose proof (resumed_NoDup w i e _ Hnd Ei) as [Hnd1 Hni]. pose proof (resumed_sub w i) as Hsub.
  pose proof (resumed_of_path w i e _ Hnd Ei) as Hof. pose proof (resumed_in w i e _ Ei) as Hie.
  set (w1 := with_hashing _ w) in *. destruct (store_same e sha w1) as (Hfi & Hha & Hla & Hne & Hti & Hpe & Hqu & Hta & Hre).
  set (w2 := store_hash e sha w1) in *.
  assert (Hfl : ∀ e', e' ∈ (fw_hashing w2).*1 → e' ∈ (fw_hashing w).*1).
  { rewrite Hha. intros e' (x & -> & Hx)%list_elem_of_fmap. apply list_elem_of_fmap. exists x. auto. }
  destruct (Hf e) as [Hep _]; [apply elem_of_flight; by left|].
  split; [split; [split|split]|].
  - unfold hashing_paths. by rewrite Hha.
  - auto.
  - unfold handles_ok in *. rewrite Hpe, Hti, Hne. done.
  - intros e'. rewrite elem_of_flight, Hqu, Hti, Hta. intros [H|H]; apply Hf, elem_of_flight; [left; auto|by right].
  - intros p Hp Hn Hsk. destruct (Hs p Hp Hn Hsk) as [Hreg Hfr]. split.
    2: { intros e' sha' Hin Hpe' Hl. rewrite Hfi. rewrite Hha in Hin. rewrite Hla in Hl. by apply (Hfr e'); [apply Hsub|..]. }
    unfold registered, flight in *. rewrite Hla, Hfi, Hha. change (later w1) with (later w). change (fw_files w1) with (fw_files w).
    rewrite of_path_app in *. rewrite Hof in Hreg. case_bool_decide as Hpe'.
    + subst p. rewrite hashing_none by done. cbn [app] in *. destruct (of_path (fe_path e) (later w)) as [|e' l] eqn:El.
      * cbn in *. specialize (Hfr e sha (list_elem_of_lookup_2 _ _ _ Ei) eq_refl El). cbn.
        destruct (fw_files w !! fe_path e) as [b|] eqn:Efi; [|exfalso; apply (Hkd e Hie); by apply Hreg].
        unfold w2. rewrite Hfr. change (Some (sha256 b)) with (sha256 <$> Some b). by rewrite store_registry, lookup_insert_eq.
      * rewrite last_cons_cons in Hreg. destruct (last (e' :: l)) eqn:Ela; [done|by apply last_None in Ela].
    + destruct (last _); [done|]. rewrite Hre; [done|]. intros Heq. apply Hpe'. symmetry. apply Hrel; [done..].
Qed.

(** ** Every step *)

Lemma step_inv l w : in_turn l w = true → (∀ p, p ∈ label_paths l → p ∈ paths) → watcher_inv w → watcher_inv (step l w).
Proof.
  intros Ha Hl Hw. destruct l as [p b|p|p q| | | |i|i].
  - cbn [FileWatcher.step]. assert (Hp : p ∈ paths) by (apply Hl; by left).
    destruct (files_synced w (<[p := b]> (fw_files w)) [p]) as [He Hs];
      [intros; rewrite lookup_insert_ne; [done|set_solver]|done|].
    destruct (fw_files w !! p); (apply enqueue_inv; [done|done|done|apply not_elem_of_nil|]); cbn; by rewrite lookup_insert_eq.
  - cbn [FileWatcher.step]. assert (Hp : p ∈ paths) by (apply Hl; by left). destruct (fw_files w !! p); [|done].
    destruct (files_synced w (delete p (fw_files w)) [p]) as [He Hs];
      [intros; rewrite lookup_delete_ne; [done|set_solver]|done|].
    apply enqueue_inv; [done|done|done|apply not_elem_of_nil|]. cbn. by rewrite lookup_delete_eq.
  - cbn [FileWatcher.step]. case_bool_decide as Hpq; [done|]. destruct (fw_files w !! p) as [b|] eqn:Ep; [|done].
    assert (Hp : p ∈ paths) by (apply Hl; by left). assert (Hq : q ∈ paths) by (apply Hl; right; by left).
    destruct (files_synced w (<[q := b]> (delete p (fw_files w))) [p; q]) as [He Hs];
      [intros x Hx; rewrite lookup_insert_ne, lookup_delete_ne by set_solver; done|done|].
    destruct (enqueue_inv _ Deleted p [q] He Hs Hp) as [He1 Hs1]; [set_solver| |].
    { cbn. rewrite lookup_insert_ne, lookup_delete_eq by done. done. }
    apply enqueue_inv; [done|done|done|apply not_elem_of_nil|].
    rewrite enqueue_files. cbn. by rewrite lookup_insert_eq.
  - by apply worker_inv.
  - by apply fire_inv.
  - by apply start_event_inv.
  - by apply read_inv.
  - by apply commit_inv.
Qed.

Lemma run_inv ls w :
  hashed_in_turn sha256 ls w → (∀ l p, l ∈ ls → p ∈ label_paths l → p ∈ paths) → watcher_inv w → watcher_inv (run ls w).
Proof.
  revert w. induction ls as [|l ls IH]; intros w Ha Hp Hw; [done|]. destruct Ha as [Hl Ha]. cbn. apply IH; [done| |].
  - intros l' p Hl'. apply Hp. by right.
  - apply step_inv; [done| |done]. intros p. apply Hp. by left.
Qed.

(** ** The initial scan *)

Lemma with_registry_over r p w1 w :
  w1 = with_registry (fw_registry w1) (fw_published w) w → with_registry r p w1 = with_registry r p w.
Proof. by intros ->. Qed.

Lemma scan_spec ks w :
  let w' := foldl (λ w p, if _should_skip p then w
                          else match _sha256 sha256 p w with
                               | Some sha => if truthy sha then _set_hash (_rel p) sha w else w
                               | None => w
                               end) w ks in
  (∀ k, k ∈ ks → k ∈ paths) →
  w' = with_registry (fw_registry w') (fw_published w) w ∧
  ∀ p, p ∈ paths → _should_skip p = false →
    fw_registry w' !! _rel p =
      if bool_decide (p ∈ ks ∧ is_Some (fw_files w !! p)) then sha256 <$> fw_files w !! p else fw_registry w !! _rel p.
Proof.
  cbn. revert w. induction ks as [|k ks IH]; intros w Hks.
  { split; [by destruct w|]. intros p _ _. rewrite bool_decide_false; [done|]. intros [Hp _]. by apply not_elem_of_nil in Hp. }
  assert (Hk : k ∈ paths) by (apply Hks; by left). specialize (λ w, IH w (λ j Hj, Hks j (list_elem_of_further _ _ _ Hj))).
  cbn [foldl]. set (w1 := if _should_skip k then w else _).
  assert (Hw1 : w1 = with_registry (fw_registry w1) (fw_published w) w).
  { unfold w1. destruct (_should_skip k); [by destruct w|]. destruct (_sha256 sha256 k w); [|by destruct w].
    destruct (truthy _); by destruct w. }
  assert (Hr1 : ∀ p, p ∈ paths → _should_skip p = false → fw_registry w1 !! _rel p =
    if bool_decide (p = k ∧ is_Some (fw_files w !! p)) then sha256 <$> fw_files w !! p else fw_registry w !! _rel p).
  { intros p Hp Hsk. unfold w1, _sha256. destruct (decide (p = k)) as [->|Hpk].
    - rewrite Hsk. destruct (fw_files w !! k) as [b|] eqn:Ef; cbn.
      + rewrite Hsha. cbn. rewrite lookup_insert_eq, bool_decide_true; [done|]. split; [done|by eexists].
      + rewrite bool_decide_false; [done|]. by intros [_ [? ?]].
    - rewrite bool_decide_false by tauto. destruct (_should_skip k); [done|].
      destruct (fw_files w !! k) as [b|]; cbn; [|done]. rewrite Hsha. cbn.
      rewrite lookup_insert_ne; [done|]. intros Heq. apply Hpk. symmetry. by apply Hrel. }
  destruct (IH w1) as [IH1 IH2]. split.
  { rewrite IH1 at 1. rewrite (with_registry_over _ _ w1 w Hw1).
    assert (Hp1 : fw_published w1 = fw_published w) by (by rewrite Hw1). by rewrite Hp1. }
  intros p Hp Hsk. rewrite IH2 by done. rewrite Hr1 by done. rewrite Hw1. cbn.
  repeat case_bool_decide; try done; exfalso; set_solver.
Qed.

Lemma start_inv files registry :
  (∀ p, is_Some (files !! p) → p ∈ paths) →
  (∀ p, p ∈ paths → _should_skip p = false → files !! p = None → registry !! _rel p = None) →
  watcher_inv (start sha256 files registry).
Proof.
  intros Hf Hr. unfold start, _full_scan.
  destruct (scan_spec (map_to_list files).*1 (Watcher files true [] [] 0 [] [] [] registry [])) as [Hw Hreg].
  { intros k ([k' b] & -> & Hk)%list_elem_of_fmap. apply Hf. apply elem_of_map_to_list in Hk. by eexists. }
  cbn [fw_files] in *. set (w := foldl _ _ _) in *. rewrite Hw. split; [split; [split; [constructor|by intros e ?%not_elem_of_nil]|]; split|].
  - split; [constructor|]. cbn. split; [|split]; [by intros p h ?%not_elem_of_nil|by intros h e ?%not_elem_of_nil|].
    by intros p h e ?%not_elem_of_nil.
  - by intros e ?%not_elem_of_nil.
  - intros p Hp _ Hsk. split; [|by intros e sha ?%not_elem_of_nil]. unfold registered. cbn. rewrite Hreg by done. cbn. case_bool_decide as Hd; [done|].
    destruct (files !! p) as [b|] eqn:Ef; [|by rewrite Hr].
    exfalso. apply Hd. split; [|by eexists]. apply list_elem_of_fmap. exists (p, b). split; [done|].
    by apply elem_of_map_to_list.
Qed.

(** C13: However the files change after the start, and however the worker, the
    timers, the coroutines and the threads that hash interleave, as long as no
    event of a file is taken up while a hash of that file is under way: once
    every event is processed, the registry has, for each watched file, the hash
    of its content, and nothing for a file that does not exist. *)
Theorem drained_registry_correct files registry ls :
  (∀ p, is_Some (files !! p) → p ∈ paths) →
  (∀ p, p ∈ paths → _should_skip p = false → files !! p = None → registry !! _rel p = None) →
  (∀ l p, l ∈ ls → p ∈ label_paths l → p ∈ paths) →
  hashed_in_turn sha256 ls (start sha256 files registry) →
  let w := run ls (start sha256 files registry) in
  drained w → ∀ p, p ∈ paths → _should_skip p = false → get_hash (_rel p) w = sha256 <$> fw_files w !! p.
Proof.
  intros Hf Hr Hl Ha w (Hq & Ht & Hta & Hh) p Hp Hsk.
  destruct (run_inv ls _ Ha Hl (start_inv files registry Hf Hr)) as [_ Hs].
  destruct (Hs p Hp (not_elem_of_nil p) Hsk) as [Hreg _]. fold w in Hreg.
  unfold registered, flight, later in Hreg. rewrite Hq, Ht, Hta, Hh in Hreg. done.
Qed.
End drained.

(** ** Concrete runs *)

Module Concrete.
Definition sha (s : string) : string := "#" +:+ s.
Definition f : string := "/workspace/a.py".
Definition g : string := "/workspace/b.py".

(** Two changes of [f] before its timer, a move, and a change of [g] while its
    hash is computed from what was there before. *)
Definition edits : list label :=
  [LWrite f "1"; LWorker; LWrite f "2"; LWorker; LMove f g; LWorker; LWorker; LFire; LFire; LStart; LStart;
   LRead 0; LWrite g "3"; LCommit 0; LWorker; LFire; LStart; LRead 0; LCommit 0].
Definition w1 : watcher := run sha edits (start sha {[f := "0"]} ∅).

Example debounced :
  fw_published w1 = [FileChanged Deleted "a.py"; FileChanged Created "b.py"; FileChanged Modified "b.py"] ∧
  fw_registry w1 = {["b.py" := "#3"]}.
Proof. by vm_compute. Qed.

Lemma drained_witness : get_hash "b.py" w1 = Some "#3".
Proof.
  refine (drained_registry_correct sha _ [f; g] _ {[f := "0"]} ∅ edits _ _ _ _ _ g _ _).
  - done.
  - intros p q Hp Hq. apply list_elem_of_In in Hp, Hq. cbn in Hp, Hq.
    destruct Hp as [<-|[<-|[]]], Hq as [<-|[<-|[]]]; vm_compute; congruence.
  - intros p [b Hb]. apply lookup_singleton_Some in Hb as [<- _]. by left.
  - intros. apply lookup_empty.
  - assert (Hall : Forall (λ l, Forall (λ p, p ∈ [f; g]) (label_paths l)) edits)
      by (apply (bool_decide_eq_true_1 _); by vm_compute).
    intros l p Hl. rewrite Forall_forall in Hall. specialize (Hall l Hl). rewrite Forall_forall in Hall. apply Hall.
  - vm_compute. split_and!; reflexivity || exact I.
  - by vm_compute.
  - by right; left.
  - by vm_compute.
Defined.

(** A coroutine that starts late takes the handle of a later event out of the
    dict: the next event does not cancel that timer, and [stop] does not
    either. *)
Theorem late_task_drops_handle :
  let w := run sha [LWrite f "1"; LWorker; LFire; LWrite f "2"; LWorker; LStart; LWrite f "3"; LWorker]
             (start sha {[f := "0"]} ∅) in
  (fw_timers w).*2 = [FEvent Modified f; FEvent Modified f] ∧ length (fw_pending w) = 1 ∧
  (fw_timers (stop w)).*2 = [FEvent Modified f].
Proof. by vm_compute. Qed.

(** A deletion taken up while a thread hashes the file: the old hash is stored
    after it. *)
Theorem slow_hash_outlives_file :
  let ls := [LWrite f "1"; LWorker; LFire; LStart; LRead 0; LDelete f; LWorker; LFire; LStart; LCommit 0] in
  let w := run sha ls (start sha {[f := "0"]} ∅) in
  drained w ∧ fw_files w !! f = None ∧ get_hash "a.py" w = Some "#1" ∧
  ¬ hashed_in_turn sha ls (start sha {[f := "0"]} ∅).
Proof. vm_compute. split_and!; [reflexivity..|naive_solver]. Qed.

(** A file deleted while nobody watched stays in the registry: the scan only
    adds. *)
Theorem scan_keeps_deleted_files : get_hash "b.py" (start sha {[f := "0"]} {["b.py" := "#9"]}) = Some "#9".
Proof. by vm_compute. Qed.
End Concrete.
