(* ===== verification/FineTune.v ===== *)
(** * Training data (orchestrator/fine_tune_collector.py)

    One JSON record per line in a file that is only appended to.  The JSON text
    of a record is a parameter with the laws of [json]; a file that cannot be
    written raises in [open]. *)

From S2P Require Import Prelude PyStr.
Local Open Scope string_scope.
Local Open Scope list_scope.
Local Open Scope nat_scope.
Local Open Scope py_scope.

Record example := TrainingExample {
  ex_instruction : string; ex_input : string; ex_output : string;
  ex_session_id : string; ex_agent_id : string; ex_ts : Z; ex_tokens_in : Z; ex_tokens_out : Z
}.

(** The file, if it exists, and whether it can be opened. *)
Record training_file := TrainingFile { tf_text : option string; tf_accessible : bool }.

(** The lines of a text file, with their line feeds. *)
Fixpoint file_lines (s : string) : list string :=
  match s with
  | "" => []
  | String c s' => if bool_decide (c = LF) then String c "" :: file_lines s' else push_char c (file_lines s')
  end.

(** The bytes of a character in UTF-8. *)
Fixpoint utf8_size (s : string) : nat :=
  match s with "" => 0 | String c s' => (if nat_of_ascii c <? 128 then 1 else 2) + utf8_size s' end.

(** [{"records": ..., "size_bytes": ...}]; -1 and -1 when the file cannot be
    read. *)
Record ft_stats := FtStats { fs_records : Z; fs_size_bytes : Z }.

Section collector.
(** [json.dumps(record, ensure_ascii=False)], [json.loads]. *)
Context (dumps : example → string) (loads : string → option example).

Local Abbreviation F := training_file.

(** [open("a")] and [write]. *)
Definition append (s : string) : M F unit := λ f,
  if tf_accessible f then (TrainingFile (Some (default "" (tf_text f) +:+ s)) true, Ok tt)
  else (f, Raise (OtherError "Permission denied")).

Definition record_success (now : Z) (session_id agent_id task diff context : string) (tokens_in tokens_out : Z) : M F bool :=
  if negb (truthy (strip task)) || negb (truthy (strip diff)) then mret false
  else
    let record := TrainingExample (strip task) (strip context) (strip diff) session_id agent_id now tokens_in tokens_out in
    mtry (do! append (dumps record +:+ nl) in mret true) (λ _, mret false).

Definition get_stats (f : F) : ft_stats :=
  match tf_text f with
  | None => FtStats 0 0
  | Some s => if tf_accessible f then FtStats (Z.of_nat (length (file_lines s))) (Z.of_nat (utf8_size s)) else FtStats (-1) (-1)
  end.

(** The loop over the lines of the file; [limit] 0 counts as none. *)
Fixpoint read_loop (limit : option nat) (records : list example) (lines : list string) : list example :=
  match lines with
  | [] => records
  | l :: lines' =>
      if negb (truthy (strip l)) then read_loop limit records lines'
      else
        let records := match loads (strip l) with Some r => records ++ [r] | None => records end in
        match limit with
        | Some (S n) => if S n <=? length records then records else read_loop limit records lines'
        | _ => read_loop limit records lines'
        end
  end.

Definition read_records (limit : option nat) (f : F) : list example :=
  match tf_text f with
  | None => []
  | Some s => if tf_accessible f then read_loop limit [] (file_lines s) else []
  end.

(** [unlink]. *)
Definition clear_records (f : F) : F * Z :=
  match tf_text f with
  | None => (f, 0%Z)
  | Some _ => (TrainingFile None (tf_accessible f), fs_records (get_stats f))
  end.

(** ** Round trip *)

(** A line of JSON: no line feed, nothing to strip, read back as it was. *)
Definition one_line (s : string) : Prop := truthy s = true ∧ strip s = s ∧ file_lines (s +:+ nl) = [s +:+ nl].
(** The records whose strings can be encoded. *)
Context (encodable : example → Prop).
Context (Hline : ∀ r, encodable r → one_line (dumps r)) (Hloads : ∀ r, encodable r → loads (dumps r) = Some r).

Lemma file_lines_app_nl a b : file_lines (a +:+ nl +:+ b) = file_lines (a +:+ nl) ++ file_lines b.
Proof.
  induction a as [|c a IH]; [done|]. rewrite !sapp_cons. cbn. case_bool_decide; [by rewrite IH|]. rewrite IH.
  destruct (file_lines (a +:+ nl)) eqn:E; [|done]. exfalso. clear -E.
  revert E. destruct a as [|d a]; [done|]. rewrite sapp_cons. cbn. case_bool_decide; [done|]. by destruct (file_lines _).
Qed.

(** The text of records. *)
Fixpoint records_text (rs : list example) : string :=
  match rs with [] => "" | r :: rs' => dumps r +:+ nl +:+ records_text rs' end.

Lemma file_lines_records rs : Forall encodable rs → file_lines (records_text rs) = (λ r, dumps r +:+ nl) <$> rs.
Proof.
  induction 1 as [|r rs Hr Hrs IH]; [done|]. cbn [records_text]. rewrite file_lines_app_nl, IH.
  destruct (Hline r Hr) as (_ & _ & ->). done.
Qed.

Lemma records_text_app rs r : records_text (rs ++ [r]) = records_text rs +:+ dumps r +:+ nl.
Proof. induction rs as [|x rs IH]; cbn; [by rewrite sapp_nil_r|]. by rewrite IH, !sapp_assoc. Qed.

Lemma lstrip_app_head a b : truthy (lstrip a) = true → lstrip (a +:+ b) = lstrip a +:+ b.
Proof. induction a as [|c a IH]; [done|]. rewrite sapp_cons. cbn. by destruct (is_space c). Qed.

Lemma rstrip_app_space a : rstrip (a +:+ nl) = rstrip a.
Proof. induction a as [|c a IH]; [done|]. rewrite sapp_cons. cbn. by rewrite IH. Qed.

Lemma strip_line r : encodable r → strip (dumps r +:+ nl) = dumps r.
Proof.
  intros Hr. destruct (Hline r Hr) as (Ht & Hs & _). assert (Hl : truthy (lstrip (dumps r)) = true).
  { apply truthy_true. intros Hl. unfold strip in Hs. rewrite Hl in Hs. cbn in Hs. by rewrite <-Hs in Ht. }
  unfold strip. rewrite lstrip_app_head by done. by rewrite rstrip_app_space.
Qed.

Lemma read_loop_records limit acc rs :
  Forall encodable rs → (match limit with Some (S n) => length acc ≤ n | _ => True end) →
  read_loop limit acc ((λ r, dumps r +:+ nl) <$> rs) =
  match limit with Some (S n) => take (S n) (acc ++ rs) | _ => acc ++ rs end.
Proof.
  intros Hrs. revert acc. induction Hrs as [|r rs Hr Hrs IH]; intros acc Hacc; cbn [read_loop fmap list_fmap].
  { rewrite app_nil_r. destruct limit as [[|n]|]; [done| |done]. by rewrite take_ge by lia. }
  rewrite strip_line by done. destruct (Hline r Hr) as (-> & _ & _). cbn [negb]. rewrite Hloads by done.
  destruct limit as [[|n]|]; [by rewrite IH, <-app_assoc| |by rewrite IH, <-app_assoc].
  rewrite length_app. cbn [length]. destruct (Nat.leb_spec (S n) (length acc + 1)).
  - replace (acc ++ r :: rs) with ((acc ++ [r]) ++ rs) by (by rewrite <-app_assoc).
    rewrite take_app_le by (rewrite length_app; cbn; lia). by rewrite take_ge by (rewrite length_app; cbn; lia).
  - rewrite IH by (rewrite length_app; cbn; lia). by rewrite <-app_assoc.
Qed.

(** A file of records. *)
Definition holds (f : F) (rs : list example) : Prop :=
  tf_accessible f = true ∧ default "" (tf_text f) = records_text rs ∧ (tf_text f = None → rs = []) ∧
  Forall encodable rs.

(** Recording a success with a task and a diff appends one record and answers
    true; without one of them, nothing is written. *)
Theorem record_success_spec f rs now sid aid task diff context tin tout :
  holds f rs →
  let r := TrainingExample (strip task) (strip context) (strip diff) sid aid now tin tout in
  if truthy (strip task) && truthy (strip diff)
  then encodable r → ∃ f', record_success now sid aid task diff context tin tout f = (f', Ok true) ∧ holds f' (rs ++ [r])
  else record_success now sid aid task diff context tin tout f = (f, Ok false).
Proof.
  intros (Ha & Ht & Hn & He) r. unfold record_success. destruct (truthy (strip task)), (truthy (strip diff)); cbn; try done.
  intros Hr.
  unfold mtry, mbind, append. rewrite Ha. cbn. eexists. split; [done|]. split; [done|].
  split; [cbn; by rewrite records_text_app, Ht|]. split; [done|]. by apply Forall_app_2; [|constructor].
Qed.

(** What was recorded is read back, in order, up to the limit; the statistics
    count it; clearing deletes it and answers how much it was. *)
Theorem recorded_is_read_back f rs :
  holds f rs →
  read_records None f = rs ∧
  (∀ n, read_records (Some (S n)) f = take (S n) rs) ∧
  fs_records (get_stats f) = Z.of_nat (length rs) ∧
  ∃ f', clear_records f = (f', Z.of_nat (length rs)) ∧ holds f' [].
Proof.
  intros (Ha & Ht & Hn & He). unfold read_records, get_stats, clear_records.
  destruct (tf_text f) as [s|] eqn:E; cbn in Ht.
  - rewrite Ha, Ht, file_lines_records by done. split; [by rewrite read_loop_records|]. split; [intros n; by rewrite read_loop_records by (done || cbn; lia)|].
    rewrite length_fmap. split; [done|]. eexists. split; [unfold get_stats; rewrite E, Ha, Ht, file_lines_records, length_fmap by done; done|].
    done.
  - rewrite (Hn eq_refl). split; [done|]. split; [done|]. split; [done|]. exists f. split; [done|]. split; [done|].
    rewrite E. done.
Qed.
End collector.

Module Concrete.
(** One record and its text. *)
Definition ex1 : example := TrainingExample "fix" "" "+b" "s" "a" 7 1 2.
Definition dumps1 (r : example) : string := quoted "fix".
Definition loads1 (s : string) : option example := Some ex1.
Definition empty_file : training_file := TrainingFile None true.
Definition recorded : training_file := (record_success dumps1 7 "s" "a" " fix " "+b" "" 1 2 empty_file).1.

Lemma line1 r : r = ex1 → one_line (dumps1 r).
Proof. by intros _. Qed.

Lemma record_witness :
  ∃ f', record_success dumps1 7 "s" "a" " fix " "+b" "" 1 2 empty_file = (f', Ok true) ∧
    holds dumps1 (λ r, r = ex1) f' [ex1].
Proof.
  refine (record_success_spec dumps1 (λ r, r = ex1) empty_file [] 7 "s" "a" " fix " "+b" "" 1 2 _ eq_refl).
  split; [done|]. split; [done|]. split; [done|]. constructor.
Defined.

Lemma read_witness :
  read_records loads1 None recorded = [ex1] ∧
  (∀ n, read_records loads1 (Some (S n)) recorded = take (S n) [ex1]) ∧
  fs_records (get_stats recorded) = 1%Z ∧
  ∃ f', clear_records recorded = (f', 1%Z) ∧ holds dumps1 (λ r, r = ex1) f' [].
Proof.
  apply (recorded_is_read_back dumps1 loads1 (λ r, r = ex1) line1 (λ r H, f_equal Some (eq_sym H)) recorded [ex1]).
  split; [done|]. split; [done|]. split; [done|]. by repeat constructor.
Defined.
End Concrete.
