(* ===== verification/SkillLoader.v ===== *)
(** * Skills and rules (orchestrator/skill_loader.py)

    Markdown files loaded at the start, and the skills that share most words
    with a task.  A directory is the list of its markdown files, or nothing
    when it does not exist; reading a file may raise. *)

From S2P Require Import Prelude PyStr Paths.
Local Open Scope string_scope.
Local Open Scope list_scope.
Local Open Scope nat_scope.

Definition MAX_SKILL_CHARS : nat := 2000.
Definition MAX_RULES_CHARS : nat := 3000.

(** A file of [rglob("*.md")]: the components of its path, the text. *)
Record md_file := MdFile { mf_path : path; mf_text : res string }.

(** Paths are ordered by their components. *)
Fixpoint path_leb (p q : path) : bool :=
  match p, q with
  | [], _ => true
  | _ :: _, [] => false
  | a :: p', b :: q' => if bool_decide (a = b) then path_leb p' q' else String.leb a b
  end.

(** The files under the mounted directories. *)
Record app_dirs := AppDirs {
  ad_agents : string → option (res string);     (* agents/{role}.md, if it exists *)
  ad_skills : option (list md_file);
  ad_rules : option (list md_file);
  ad_commands : option (list md_file)
}.

Record skill_loader := SkillLoader {
  sl_skills : list (string * string); sl_rules : string; sl_loaded : bool
}.
Definition new_loader : skill_loader := SkillLoader [] "" false.

Definition md_stem (f : md_file) : string := stem_of (default "" (last (mf_path f))).

(** The loop over the skills: a file that cannot be read is left out. *)
Definition load_skill (skills : list (string * string)) (f : md_file) : list (string * string) :=
  match mf_text f with Ok t => dict_set (path_str (mf_path f)) t skills | Raise _ => skills end.

Definition rule_part (f : md_file) : option string :=
  match mf_text f with Ok t => Some ("### " +:+ md_stem f +:+ nl +:+ t) | Raise _ => None end.

Definition by_path (f g : md_file) : bool := path_leb (mf_path f) (mf_path g).

Definition load (d : app_dirs) : skill_loader :=
  let skills := foldl load_skill [] (default [] (ad_skills d)) in
  let parts := omap rule_part (sort_by by_path (default [] (ad_rules d))) in
  SkillLoader skills (stake MAX_RULES_CHARS (join (nl +:+ nl) parts)) true.

Definition load_agent_prompt (d : app_dirs) (role : string) : string :=
  match ad_agents d role with
  | Some (Ok t) => t
  | _ => "You are a " +:+ role +:+ " agent. Complete the task given to you accurately and concisely."
  end.

(** ** Words *)

Definition is_word_char (c : ascii) : bool :=
  let n := nat_of_ascii c in ((97 <=? n) && (n <=? 122) || (48 <=? n) && (n <=? 57))%nat.

(** [re.findall(r"[a-z0-9]+", s)]: the maximal runs. *)
Fixpoint runs_go (s : string) : list string * bool :=
  match s with
  | "" => ([], false)
  | String c s' =>
      let '(ws, open) := runs_go s' in
      if negb (is_word_char c) then (ws, false)
      else if open then (push_char c ws, true) else (String c "" :: ws, true)
  end.

Definition _tokenize (text : string) : list string :=
  lower <$> List.filter (λ w, 3 <? String.length w) (runs_go (lower text)).1.

(** ** Relevant skills *)

(** [len(task_words & skill_words)]. *)
Definition overlap (task content : string) : nat :=
  let skill_words := _tokenize (stake 500 content) in
  length (List.filter (λ w, bool_decide (w ∈ skill_words)) (remove_dups (_tokenize task))).

(** The tuple [(overlap, path, content)]. *)
Definition scored_skill : Type := nat * string * string.

Definition scored (task : string) (skills : list (string * string)) : list scored_skill :=
  omap (λ s, let n := overlap task s.2 in if 0 <? n then Some (n, s.1, s.2) else None) skills.

(** The order of the tuples, largest first. *)
Definition tuple_geb (x y : scored_skill) : bool :=
  let '(n, p, c) := x in
  let '(n', p', c') := y in
  if n =? n' then (if bool_decide (p = p') then String.leb c' c else String.leb p' p) else n' <? n.

Definition find_relevant_skills (l : skill_loader) (task : string) (k : nat) : list string :=
  match sl_skills l with
  | [] => []
  | skills => (λ s : scored_skill, stake MAX_SKILL_CHARS s.2) <$> take k (sort_by tuple_geb (scored task skills))
  end.

(** [if not self._loaded: self.load()]: the loader it leaves, and the prompt. *)
Definition build_system_prompt (d : app_dirs) (l : skill_loader) (role task extra : string) : skill_loader * string :=
  let l := if sl_loaded l then l else load d in
  let skills := find_relevant_skills l task 3 in
  (l, load_agent_prompt d role +:+
      (if truthy (sl_rules l) then nl +:+ nl +:+ "## Rules (always apply)" +:+ nl +:+ sl_rules l else "") +:+
      (match skills with
       | [] => ""
       | _ => nl +:+ nl +:+ "## Relevant Skills" +:+ nl +:+ join (nl +:+ nl +:+ "---" +:+ nl +:+ nl) skills
       end) +:+
      (if truthy extra then nl +:+ nl +:+ "## Additional Context" +:+ nl +:+ extra else "")).

Record skill_info := SkillInfo { sk_path : string; sk_chars : nat; sk_preview : string }.
Definition list_skills (l : skill_loader) : list skill_info :=
  (λ s, SkillInfo s.1 (String.length s.2) (stake 100 s.2)) <$> sl_skills l.

Definition list_commands (d : app_dirs) : list string :=
  match ad_commands d with None => [] | Some fs => md_stem <$> sort_by by_path fs end.

(** ** The k best *)

Lemma leb_total (a b : string) : String.leb a b = true ∨ String.leb b a = true.
Proof. unfold String.leb. rewrite (String.compare_antisym a b). destruct (String.compare b a); cbn; auto. Qed.

Lemma tuple_geb_overlap x y : tuple_geb x y = true → y.1.1 ≤ x.1.1.
Proof.
  destruct x as [[n p] c], y as [[n' p'] c']. unfold tuple_geb. cbn [fst snd]. destruct (Nat.eqb_spec n n') as [|Hn]; [lia|].
  rewrite Nat.ltb_lt. lia.
Qed.

Lemma tuple_geb_total x y : tuple_geb x y = true ∨ tuple_geb y x = true.
Proof.
  destruct x as [[n p] c], y as [[n' p'] c']. unfold tuple_geb. cbn [fst snd]. rewrite (Nat.eqb_sym n' n).
  destruct (Nat.eqb_spec n n').
  - rewrite (bool_decide_ext (p' = p) (p = p')) by (split; congruence). case_bool_decide; [apply leb_total|apply leb_total].
  - rewrite !Nat.ltb_lt. lia.
Qed.

(** What comes after in the sorted list has no more overlap. *)
Lemma sorted_overlap l : StronglySorted (λ x y : scored_skill, y.1.1 ≤ x.1.1) (sort_by tuple_geb l).
Proof.
  induction l as [|x l IH]; [constructor|]. change (sort_by tuple_geb (x :: l)) with (insert_by tuple_geb x (sort_by tuple_geb l)).
  revert IH. generalize (sort_by tuple_geb l) as k. intros k Hk.
  induction Hk as [|y k Hk IH Hy]; cbn; [by repeat constructor|]. destruct (tuple_geb x y) eqn:E.
  - apply tuple_geb_overlap in E. constructor; [by constructor|]. constructor; [done|].
    eapply Forall_impl; [exact Hy|]. cbn. lia.
  - constructor; [done|]. rewrite insert_by_perm. constructor; [|done].
    destruct (tuple_geb_total x y) as [Hx|Hx]; [congruence|]. by apply tuple_geb_overlap.
Qed.

Lemma sorted_take_drop {A} (R : relation A) n l x y :
  StronglySorted R l → x ∈ take n l → y ∈ drop n l → R x y.
Proof.
  intros Hs. revert n. induction Hs as [|z l Hl IH Hz]; intros [|n]; cbn; [set_solver..|].
  intros [->|Hx]%elem_of_cons Hy; [|by eapply IH]. rewrite Forall_forall in Hz. apply Hz.
  by eapply elem_of_sublist, sublist_drop.
Qed.

(** The skills of a prompt are the best [k]: there is a choice of at most [k]
    loaded skills that share a word with the task, of which they are the first
    2000 characters, and no other such skill shares more words than one of
    them. *)
Theorem relevant_skills_are_best l task k :
  ∃ chosen rest : list scored_skill,
    find_relevant_skills l task k = (λ s : scored_skill, stake MAX_SKILL_CHARS s.2) <$> chosen ∧
    length chosen ≤ k ∧
    Permutation (chosen ++ rest) (scored task (sl_skills l)) ∧
    (∀ x y, x ∈ chosen → y ∈ rest → y.1.1 ≤ x.1.1) ∧
    ∀ n p c, (n, p, c) ∈ chosen → n = overlap task c ∧ 0 < n ∧ (p, c) ∈ sl_skills l.
Proof.
  set (s := sort_by tuple_geb (scored task (sl_skills l))). exists (take k s), (drop k s).
  split; [unfold find_relevant_skills, s; destruct (sl_skills l); [cbn; by rewrite take_nil|done]|].
  split; [rewrite length_take; lia|]. split; [rewrite take_drop; apply sort_by_perm|]. split.
  - intros x y. apply (sorted_take_drop (λ x y : scored_skill, y.1.1 ≤ x.1.1)), sorted_overlap.
  - intros n p c Hin. assert (Hs : (n, p, c) ∈ scored task (sl_skills l)).
    { rewrite <-(sort_by_perm tuple_geb). by eapply elem_of_sublist, sublist_take. }
    unfold scored in Hs. apply list_elem_of_omap in Hs as ([p' c'] & Hps & Heq). cbn [fst snd] in Heq. cbv zeta in Heq.
    destruct (0 <? overlap task c') eqn:E; [|done]. apply Nat.ltb_lt in E. by injection Heq as <- <- <-.
Qed.

Example tokenize_ex : _tokenize "Fix the REST-API tests (v2024)" = ["rest"; "tests"; "v2024"].
Proof. by vm_compute. Qed.

Example relevant_ex :
  find_relevant_skills (SkillLoader [("/app/skills/a.md", "redis caching"); ("/app/skills/b.md", "pytest fixtures and redis")] "" true)
    "write pytest fixtures for redis" 1 = ["pytest fixtures and redis"].
Proof. by vm_compute. Qed.
