(* ===== verification/CommandParser.v ===== *)
(** * Slash commands (orchestrator/command_parser.py)

    Detection of a command in the last user message.  The patterns are matched
    against the stripped text, so [\s+(.+)$] is a non-empty remainder after
    white space and [\s*$] an empty one. *)

From S2P Require Import Prelude PyStr Models.
Local Open Scope string_scope.
Local Open Scope list_scope.
Local Open Scope nat_scope.

(** [_COMMANDS]: the name and whether it takes arguments, in dict order. *)
Definition _COMMANDS : list (string * bool) :=
  [("architect", true); ("debate", true); ("review", true); ("test", true); ("memory", true);
   ("execute", false); ("learn", false); ("status", false); ("index", false)].

Record parsed_command := ParsedCommand { pc_name : string; pc_args : string }.

Definition block_text (b : block) : string :=
  match b with BStr s => s | BDict t => default "" t end.

(** [_extract_text(content or "")]. *)
Definition _extract_text (c : content) : string :=
  match c with
  | CNone => ""
  | CText s => s
  | CList l => join " " (block_text <$> l)
  end.

(** The literal prefix of a pattern, without regard to case. *)
Definition eat_prefix (p s : string) : option string :=
  if startswith p (lower (stake (String.length p) s)) then Some (sdrop (String.length p) s) else None.

(** [^/name\s+(.+)$]: the group. *)
Definition match_args (name s : string) : option string :=
  match eat_prefix ("/" +:+ name) s with
  | Some (String c rest) =>
      if is_space c && truthy (lstrip rest) then Some (lstrip rest) else None
  | _ => None
  end.

(** [^/name\s*$]. *)
Definition match_bare (name s : string) : bool :=
  match eat_prefix ("/" +:+ name) s with
  | Some rest => negb (truthy (lstrip rest))
  | None => false
  end.

Fixpoint match_command (cmds : list (string * bool)) (s : string) : option parsed_command :=
  match cmds with
  | [] => None
  | (name, true) :: cmds' =>
      match match_args name s with
      | Some g => Some (ParsedCommand name (strip g))
      | None => match_command cmds' s
      end
  | (name, false) :: cmds' =>
      if match_bare name s then Some (ParsedCommand name "") else match_command cmds' s
  end.

Definition last_user (messages : list message) : option message :=
  List.find (λ m, bool_decide (m_role m = "user")) (reverse messages).

(** The session id of a command is random; it is drawn by the caller. *)
Definition parse (messages : list message) : option parsed_command :=
  match last_user messages with
  | None => None
  | Some m =>
      let content := strip (_extract_text (m_content m)) in
      if negb (startswith "/" content) then None
      else match match_command _COMMANDS content with
           | Some c => Some c
           | None => Some (ParsedCommand "unknown" (default "" (head (words content))))
           end
  end.

(** ** Facts *)

Lemma last_user_snoc ms m : m_role m = "user" → last_user (ms ++ [m]) = Some m.
Proof.
  intros Hm. unfold last_user. rewrite reverse_app. cbn. by rewrite bool_decide_eq_true_2.
Qed.

Lemma eat_prefix_app p p' s :
  lower p' = p → eat_prefix p (p' +:+ s) = Some s.
Proof.
  intros Hp. unfold eat_prefix.
  assert (Hl : String.length p = String.length p').
  { subst p. unfold lower. induction p' as [|c p' IH]; cbn; [done|]. by f_equal. }
  assert (Ht : stake (String.length p) (p' +:+ s) = p').
  { rewrite Hl. clear. induction p' as [|c p' IH]; [by destruct s|]. rewrite sapp_cons. cbn. by rewrite IH. }
  assert (Hd : sdrop (String.length p) (p' +:+ s) = s).
  { rewrite Hl. clear. induction p' as [|c p' IH]; [by destruct s|]. rewrite sapp_cons. cbn. by rewrite IH. }
  rewrite Ht, Hd, Hp. by rewrite startswith_refl.
Qed.

Lemma eat_prefix_mismatch c p c' s :
  c ≠ lower_char c' → eat_prefix ("/" +:+ String c p) ("/" +:+ String c' s) = None.
Proof.
  intros Hc. unfold eat_prefix. unfold lower.
  change ("/" +:+ String c p) with (String "/" (String c p)).
  change ("/" +:+ String c' s) with (String "/" (String c' s)). cbn -[lower_char].
  by rewrite (bool_decide_eq_false_2 (c = lower_char c')), andb_false_r.
Qed.

Lemma match_args_mismatch c p c' s :
  c ≠ lower_char c' → match_args (String c p) ("/" +:+ String c' s) = None.
Proof. intros Hc. unfold match_args. by rewrite eat_prefix_mismatch. Qed.

Lemma match_args_hit name name' rest :
  lower name' = name → rest ≠ "" → lstrip rest ≠ "" →
  match_args name ("/" +:+ name' +:+ " " +:+ rest) = Some (lstrip rest).
Proof.
  intros Hn Hr Hl. unfold match_args.
  replace ("/" +:+ name' +:+ " " +:+ rest) with (("/" +:+ name') +:+ (" " +:+ rest)) by by rewrite sapp_assoc.
  rewrite (eat_prefix_app _ ("/" +:+ name')).
  - rewrite sapp_cons. cbn [is_space]. rewrite (proj2 (truthy_true _)) by done. done.
  - rewrite lower_app, Hn. done.
Qed.

(** Skips the commands that start with another letter. *)
Ltac other_command :=
  match goal with |- context [match_args (String ?c ?p) ("/" +:+ String ?c' ?s)] =>
    rewrite (match_args_mismatch c p c' s) by congruence
  end.

Lemma match_command_hit name name' rest :
  (name, true) ∈ _COMMANDS → lower name' = name → lstrip rest ≠ "" →
  match_command _COMMANDS ("/" +:+ name' +:+ " " +:+ rest) = Some (ParsedCommand name (strip (lstrip rest))).
Proof.
  intros Hin Hn Hl. assert (Hr : rest ≠ "") by (by intros ->).
  pose proof (match_args_hit name name' rest Hn Hr Hl) as Hhit.
  unfold _COMMANDS in *. rewrite !elem_of_cons in Hin.
  destruct name' as [|c' s'].
  { exfalso. cbn in Hn. subst name. repeat destruct Hin as [[=]|Hin]. by apply not_elem_of_nil in Hin. }
  cbn in Hn. change (String c' s' +:+ " " +:+ rest) with (String c' (s' +:+ " " +:+ rest)) in *.
  destruct Hin as [[= ->]|[[= ->]|[[= ->]|[[= ->]|[[= ->]|Hin]]]]];
    [injection Hn as Hc Hs;
 cbn [match_command]; repeat other_command; rewrite Hhit; reflexivity..|].
  exfalso. repeat destruct Hin as [[=]|Hin]. by apply not_elem_of_nil in Hin.
Qed.

(** ** Properties *)

(** Every command with arguments, in any letter case and with any spacing
    around the arguments, is recognised in the last user message. *)
Theorem parse_command_roundtrip ms name name' args :
  (name, true) ∈ _COMMANDS → lower name' = name → strip args ≠ "" →
  parse (ms ++ [Message "user" (CText ("/" +:+ name' +:+ " " +:+ args))])
  = Some (ParsedCommand name (strip args)).
Proof.
  intros Hin Hn Ha. unfold parse. rewrite last_user_snoc by done. cbn [m_content _extract_text].
  assert (Hr : rstrip args ≠ "").
  { intros Hr. apply Ha. unfold strip. rewrite <-lstrip_rstrip, Hr. done. }
  assert (Hs : strip ("/" +:+ name' +:+ " " +:+ args) = "/" +:+ name' +:+ " " +:+ rstrip args).
  { unfold strip. rewrite lstrip_id by done.
    rewrite <-(sapp_assoc "/" name'), <-(sapp_assoc ("/" +:+ name') " ").
    rewrite rstrip_app by done. by rewrite !sapp_assoc. }
  rewrite Hs. replace (startswith "/" _) with true by (by rewrite startswith_app). cbn [negb].
  rewrite (match_command_hit name) by (done || by rewrite lstrip_rstrip). do 2 f_equal.
  rewrite lstrip_rstrip. fold (strip args). apply strip_idem.
Qed.

Lemma parse_witness :
  parse ([] ++ [Message "user" (CText ("/" +:+ "Debate" +:+ " " +:+ "  tabs or spaces "))])
  = Some (ParsedCommand "debate" "tabs or spaces").
Proof.
  apply (parse_command_roundtrip [] "debate" "Debate" "  tabs or spaces ");
    [unfold _COMMANDS; set_solver|done|done].
Defined.
