(* ===== verification/Metrics.v ===== *)
(** * Request metrics (orchestrator/metrics.py)

    The log of model calls and its summaries.  Latencies are integers in a
    fixed unit; [round(total / n, 1)] is a parameter. *)

From S2P Require Import Prelude PyStr Models.
Local Open Scope string_scope.
Local Open Scope list_scope.
Local Open Scope nat_scope.

Record metrics_entry := MetricsEntry {
  me_agent_id : string;
  me_role : string;
  me_tokens_in : Z;
  me_tokens_out : Z;
  me_latency_ms : Z;
  me_session_id : string;
  me_status : string;
  me_ts : Z
}.

(** [self._requests]. *)
Abbreviation metrics := (list metrics_entry).

Definition record_request (now : Z) (agent_id role : string) (tokens_in tokens_out latency_ms : Z)
    (session_id status : string) (m : metrics) : metrics :=
  m ++ [MetricsEntry agent_id role tokens_in tokens_out latency_ms session_id status now].

Definition reset (m : metrics) : metrics := [].

Record role_acc := RoleAcc {
  ra_requests : Z; ra_tokens_in : Z; ra_tokens_out : Z; ra_failed : Z; ra_total_latency : Z
}.
Definition empty_acc : role_acc := RoleAcc 0 0 0 0 0.

Record role_summary := RoleSummary {
  rs_requests : Z; rs_tokens_in : Z; rs_tokens_out : Z; rs_failed : Z; rs_avg_latency_ms : Z
}.

Record metrics_summary := MetricsSummary {
  sm_total_requests : Z;
  sm_total_tokens_in : Z;
  sm_total_tokens_out : Z;
  sm_avg_latency_ms : Z;
  sm_by_role : list (string * role_summary)
}.

Record session_summary := SessionSummary {
  sn_requests : Z; sn_tokens_in : Z; sn_tokens_out : Z; sn_avg_latency_ms : Z
}.

Definition zsum {A} (f : A → Z) (l : list A) : Z := foldr (λ x z, (f x + z)%Z) 0%Z l.

Definition is_failure (e : metrics_entry) : bool :=
  bool_decide (me_status e = "failed") || bool_decide (me_status e = "killed").

(** The body of the loop over the requests; [by_role] is a defaultdict. *)
Definition add_entry (by_role : list (string * role_acc)) (e : metrics_entry) : list (string * role_acc) :=
  let a := default empty_acc (dict_get (me_role e) by_role) in
  dict_set (me_role e)
    (RoleAcc (ra_requests a + 1) (ra_tokens_in a + me_tokens_in e) (ra_tokens_out a + me_tokens_out e)
       (ra_failed a + if is_failure e then 1 else 0) (ra_total_latency a + me_latency_ms e))
    by_role.

Section summaries.
(** [round(total / n, 1)]. *)
Context (round_avg : Z → Z → Z).

Definition role_summary_of (a : role_acc) : role_summary :=
  RoleSummary (ra_requests a) (ra_tokens_in a) (ra_tokens_out a) (ra_failed a)
    (if (ra_requests a =? 0)%Z then 0 else round_avg (ra_total_latency a) (ra_requests a)).

Definition get_summary (m : metrics) : metrics_summary :=
  match m with
  | [] => MetricsSummary 0 0 0 0 []
  | _ =>
      MetricsSummary (Z.of_nat (length m)) (zsum me_tokens_in m) (zsum me_tokens_out m)
        (round_avg (zsum me_latency_ms m) (Z.of_nat (length m)))
        ((λ p, (p.1, role_summary_of p.2)) <$> foldl add_entry [] m)
  end.

Definition get_session_summary (session_id : string) (m : metrics) : session_summary :=
  let reqs := List.filter (λ e, bool_decide (me_session_id e = session_id)) m in
  SessionSummary (Z.of_nat (length reqs)) (zsum me_tokens_in reqs) (zsum me_tokens_out reqs)
    (match reqs with [] => 0 | _ => round_avg (zsum me_latency_ms reqs) (Z.of_nat (length reqs)) end).
End summaries.

Definition parse_usage (r : usage_response) : Z * Z :=
  match ur_usage r with
  | Some ((k, v) :: u) =>
      (default 0 (dict_get "prompt_tokens" ((k, v) :: u)),
       default 0 (dict_get "completion_tokens" ((k, v) :: u)))%Z
  | _ => (default 0 (ur_prompt_eval_count r), default 0 (ur_eval_count r))%Z
  end.

(** ** Facts *)

Lemma zsum_app {A} (f : A → Z) l k : zsum f (l ++ k) = (zsum f l + zsum f k)%Z.
Proof. unfold zsum. induction l; cbn in *; lia. Qed.

(** Replacing the accumulator of one role moves a total by the difference. *)
Lemma zsum_dict_set (f : role_acc → Z) k v (d : list (string * role_acc)) :
  f empty_acc = 0%Z →
  zsum (f ∘ snd) (dict_set k v d) = (zsum (f ∘ snd) d - f (default empty_acc (dict_get k d)) + f v)%Z.
Proof.
  intros H0. unfold zsum. induction d as [|[k' v'] d IH]; cbn in *; [rewrite H0; lia|].
  case_decide; cbn; [lia|]. rewrite IH. lia.
Qed.

Lemma by_role_total (f : role_acc → Z) (g : metrics_entry → Z) m :
  f empty_acc = 0%Z →
  (∀ a e, f (RoleAcc (ra_requests a + 1) (ra_tokens_in a + me_tokens_in e) (ra_tokens_out a + me_tokens_out e)
       (ra_failed a + if is_failure e then 1 else 0) (ra_total_latency a + me_latency_ms e)) = (f a + g e)%Z) →
  zsum (f ∘ snd) (foldl add_entry [] m) = zsum g m.
Proof.
  intros H0 Hf. cut (∀ d, zsum (f ∘ snd) (foldl add_entry d m) = (zsum (f ∘ snd) d + zsum g m)%Z).
  { intros H. rewrite H. unfold zsum at 1. cbn. lia. }
  induction m as [|e m IH]; intros d; cbn [foldl]; [unfold zsum at 3; cbn; lia|].
  rewrite IH. unfold add_entry. rewrite zsum_dict_set by done. rewrite Hf. unfold zsum at 4. cbn.
  fold (zsum g m). lia.
Qed.

Lemma zsum_fmap {A B} (f : B → Z) (h : A → B) l : zsum f (h <$> l) = zsum (f ∘ h) l.
Proof. unfold zsum. induction l; cbn in *; [done|]. by rewrite IHl. Qed.

Lemma zsum_one {A} (l : list A) : zsum (λ _, 1%Z) l = Z.of_nat (length l).
Proof. unfold zsum. induction l; cbn [foldr length] in *; lia. Qed.

(** The per-role summaries partition the totals: requests and tokens add up,
    and the failures are counted once. *)
Theorem summary_partitions_by_role round_avg m :
  let s := get_summary round_avg m in
  zsum (rs_requests ∘ snd) (sm_by_role s) = sm_total_requests s ∧
  zsum (rs_tokens_in ∘ snd) (sm_by_role s) = sm_total_tokens_in s ∧
  zsum (rs_tokens_out ∘ snd) (sm_by_role s) = sm_total_tokens_out s ∧
  zsum (rs_failed ∘ snd) (sm_by_role s) = Z.of_nat (count_if is_failure m).
Proof.
  cbn zeta. unfold get_summary. destruct m as [|e0 m0]; [done|]. set (m := e0 :: m0).
  cbn [sm_by_role sm_total_requests sm_total_tokens_in sm_total_tokens_out]. rewrite !zsum_fmap.
  split_and!.
  - change (zsum (ra_requests ∘ snd) (foldl add_entry [] m) = Z.of_nat (length m)).
    rewrite (by_role_total ra_requests (λ _, 1%Z)) by done. apply zsum_one.
  - by apply (by_role_total ra_tokens_in me_tokens_in).
  - by apply (by_role_total ra_tokens_out me_tokens_out).
  - change (zsum (ra_failed ∘ snd) (foldl add_entry [] m) = Z.of_nat (count_if is_failure m)).
    rewrite (by_role_total ra_failed (λ e, if is_failure e then 1 else 0)%Z) by done.
    unfold zsum. induction m as [|e l IH]; [done|]. rewrite count_if_cons. cbn [foldr]. rewrite IH.
    destruct (is_failure e); lia.
Qed.
