(* ===== verification/Executor.v ===== *)
(** * The executor (executor/main.py)

    The sandbox container: path and command checks, the four endpoints and the
    start-up, over a file system without symbolic links (a finite map from
    paths, as lists of components, to contents, and a set of directories).
    Running a process, decoding a file and expanding a glob pattern are
    parameters.  What is read from the environment, and the resource limits of
    the child processes, are in Config.v. *)

From S2P Require Import Prelude PyStr Paths Models Utils PatchQueue PatchQueueProps.
Local Open Scope string_scope.
Local Open Scope list_scope.
Local Open Scope nat_scope.
Local Open Scope py_scope.

(** ** Paths *)

(** [Path.resolve] of an absolute path: [..] removes the component before it. *)
Definition resolve (p : path) : path :=
  foldl (λ acc c, if bool_decide (c = "..") then but_last_n 1 acc else acc ++ [c]) [] p.

(** [WORKSPACE_DIR / raw]. *)
Definition join_path (ws : path) (raw : string) : path :=
  if startswith "/" raw then path_components raw else ws ++ path_components raw.

(** ** Command lines: [shlex.split] *)

Inductive shlex_state := Plain | Quote (q : ascii) | Escape (q : option ascii).

Definition is_shlex_space (c : ascii) : bool :=
  bool_decide (c = " "%char) || bool_decide (c = "009"%char) || bool_decide (c = CR) || bool_decide (c = LF).
Definition bslash : ascii := ascii_of_nat 92.

Definition emit (tok : option string) (l : list string) : list string :=
  match tok with Some t => t :: l | None => l end.

Definition snoc (tok : option string) (c : ascii) : option string :=
  Some (default "" tok +:+ String c "").

Fixpoint shlex_go (st : shlex_state) (tok : option string) (s : string) : res (list string) :=
  match s with
  | "" =>
      match st with
      | Plain => Ok (emit tok [])
      | Quote _ => Raise (ValueError "No closing quotation")
      | Escape _ => Raise (ValueError "No escaped character")
      end
  | String c s' =>
      match st with
      | Plain =>
          if is_shlex_space c then res_map (emit tok) (shlex_go Plain None s')
          else if bool_decide (c = squote) || bool_decide (c = dquote)
          then shlex_go (Quote c) (Some (default "" tok)) s'
          else if bool_decide (c = bslash) then shlex_go (Escape None) tok s'
          else shlex_go Plain (snoc tok c) s'
      | Quote q =>
          if bool_decide (c = q) then shlex_go Plain tok s'
          else if bool_decide (c = bslash) && bool_decide (q = dquote)
          then shlex_go (Escape (Some q)) tok s'
          else shlex_go st (snoc tok c) s'
      | Escape None => shlex_go Plain (snoc tok c) s'
      | Escape (Some q) =>
          shlex_go (Quote q)
            (snoc (if bool_decide (c = bslash) || bool_decide (c = q) then tok else snoc tok bslash) c) s'
      end
  end.

Definition _parse_command (command : string) : res (list string) := shlex_go Plain None command.

(** ** The file system *)

Record fs := FS { fs_files : gmap path string; fs_dirs : gset path }.

Definition fs_exists (p : path) (f : fs) : bool :=
  bool_decide (is_Some (fs_files f !! p)) || bool_decide (p ∈ fs_dirs f).

(** [_normalize_crlf]: the write only happens when there is a CRLF. *)
Definition _normalize_crlf (p : path) (f : fs) : fs :=
  match fs_files f !! p with
  | Some raw => if contains crlf raw then FS (<[p := replace crlf nl raw]> (fs_files f)) (fs_dirs f) else f
  | None => f
  end.

(** [subprocess.run]. *)
Inductive proc_outcome :=
  | Completed (returncode : Z) (stdout stderr : string)
  | TimeoutExpired
  | FileNotFound.

(** ** Requests and responses *)

Record exec_request := ExecRequest { eq_command : string; eq_timeout : option Z; eq_cwd : option string }.
Record exec_reply := ExecReply { er_stdout : string; er_stderr : string; er_exit_code : Z }.
Record patch_request := PatchRequest { pr_diff : string; pr_target : string }.
Record patch_reply := PatchReply { pr_applied : bool; pr_message : string }.
Record read_request := ReadRequest { rq_path : string }.
Record file_reply := FileReply { fr_path : string; fr_content : string; fr_size_bytes : Z }.
Record list_request := ListRequest { lq_pattern : string }.
Definition default_pattern : string := "**/*".
Record list_reply := ListReply { lr_files : list string }.

Section executor.
(** [WORKSPACE_DIR], [ALLOWED_COMMANDS] and [CMD_TIMEOUT]; a process run in a
    directory with a time limit; the decoding of a file's bytes; [glob.glob]
    under the workspace, as raw paths; a fresh temporary file name. *)
Context (WORKSPACE_DIR : path) (ALLOWED_COMMANDS : list string) (CMD_TIMEOUT : Z).
Context (run_process : list string → path → option Z → fs → fs * proc_outcome).
Context (decode : string → string) (glob : string → fs → list string) (temp_patch : path).

Definition health : string * string := ("ok", path_str WORKSPACE_DIR).

Definition _safe_path (raw : string) : res path :=
  let p := resolve (join_path WORKSPACE_DIR raw) in
  if startswith (path_str WORKSPACE_DIR) (path_str p) then Ok p
  else Raise (HTTPException 400 ("Path traversal rejected: " +:+ repr raw)).

Definition _check_allowed (argv : list string) : res unit :=
  match argv with
  | [] => Raise (IndexError "list index out of range")
  | a :: _ =>
      if bool_decide (path_name a ∈ ALLOWED_COMMANDS) then Ok tt
      else Raise (HTTPException 400 ("Command " +:+ repr (path_name a) +:+ " not in allowed list. Allowed: " +:+
                                     list_repr (merge_sort String.le ALLOWED_COMMANDS)))
  end.

(** A pure check as a step of an endpoint. *)
Definition lift_res {B} (r : res B) : M fs B := λ f, (f, r).

Definition resolve_cwd (cwd : option string) : M fs path :=
  match cwd with
  | Some raw =>
      if negb (truthy raw) then mret WORKSPACE_DIR
      else
        let! p := lift_res (_safe_path raw) in
        let! f := mget in
        if bool_decide (p ∈ fs_dirs f) then mret p
        else mraise (HTTPException 400 ("cwd not a directory: " +:+ repr raw))
  | None => mret WORKSPACE_DIR
  end.

Definition execute (req : exec_request) : M fs exec_reply :=
  let! argv := lift_res (_parse_command (eq_command req)) in
  do! lift_res (_check_allowed argv) in
  let! cwd := resolve_cwd (eq_cwd req) in
  let timeout := default CMD_TIMEOUT (eq_timeout req) in
  λ f, match run_process argv cwd (Some timeout) f with
       | (f', Completed rc out err) => (f', Ok (ExecReply out err rc))
       | (f', TimeoutExpired) => (f', Raise (HTTPException 408 ("Command timed out after " +:+ pretty timeout +:+ "s")))
       | (f', FileNotFound) =>
           (f', Raise (HTTPException 400 ("Binary not found: " +:+ repr (default "" (head argv)))))
       end.

(** The checks of [apply_patch] before anything is written. *)
Definition check_patch_request (req : patch_request) : res unit :=
  if negb (bool_decide (pr_target req = "sandbox") || bool_decide (pr_target req = "live"))
  then Raise (HTTPException 400 "target must be 'sandbox' or 'live'")
  else if (2000000 <? Z.of_nat (String.length (pr_diff req)))%Z
  then Raise (HTTPException 400 "Diff too large (>2 MB)")
  else if negb (truthy (strip (pr_diff req)))
  then Raise (HTTPException 400 "Empty diff")
  else if 1000 <? count_diff_lines (pr_diff req)
  then Raise (HTTPException 400 ("Patch too large: " +:+ pretty (count_diff_lines (pr_diff req))
                                 +:+ " changed lines (limit 1000)"))
  else if contains "GIT binary patch" (pr_diff req) || contains "Binary files" (pr_diff req)
  then Raise (HTTPException 400 "Binary patches not allowed")
  else if search_multiline mode_change (pr_diff req)
  then Raise (HTTPException 400 "Permission-change patches not allowed")
  else Ok tt.

Definition write_file (p : path) (s : string) (f : fs) : fs := FS (<[p := s]> (fs_files f)) (fs_dirs f).
Definition unlink (p : path) (f : fs) : fs := FS (delete p (fs_files f)) (fs_dirs f).

(** The loop that normalises the files a diff names. *)
Definition normalize_targets (paths : list string) : M fs unit :=
  mfor paths (λ raw,
    let! p := lift_res (_safe_path raw) in
    mmodify (λ f, if fs_exists p f then _normalize_crlf p f else f)).

Definition git_args (target : string) : list string :=
  if bool_decide (target = "sandbox")
  then ["/usr/bin/git"; "apply"; "--check"; "--whitespace=fix"; path_str temp_patch]
  else ["/usr/bin/git"; "apply"; "--whitespace=fix"; path_str temp_patch].

Definition apply_patch (req : patch_request) : M fs patch_reply :=
  do! lift_res (check_patch_request req) in
  let clean_diff := normalize_diff (pr_diff req) in
  do! mmodify (write_file temp_patch clean_diff) in
  do! normalize_targets (extract_file_paths_from_diff clean_diff) in
  λ f, let '(f', out) := run_process (git_args (pr_target req)) WORKSPACE_DIR (Some 30%Z) f in
       let f'' := unlink temp_patch f' in
       match out with
       | TimeoutExpired => (f'', Raise TimeoutError)
       | FileNotFound => (f'', Raise (OtherError "git not found"))
       | Completed rc _ err =>
           if (rc =? 0)%Z
           then (f'', Ok (PatchReply true
                  ((if bool_decide (pr_target req = "sandbox") then "Dry-run OK" else "Applied") +:+
                   " (" +:+ pretty (count_diff_lines (pr_diff req)) +:+ " changed lines)")))
           else (f'', Ok (PatchReply false ("git apply failed:" +:+ nl +:+ strip err)))
       end.

Definition read_file (raw : string) : M fs file_reply :=
  let! p := lift_res (_safe_path raw) in
  let! f := mget in
  match fs_files f !! p with
  | None =>
      if bool_decide (p ∈ fs_dirs f)
      then mraise (HTTPException 400 ("Not a file: " +:+ repr raw))
      else mraise (HTTPException 404 ("File not found: " +:+ repr raw))
  | Some bytes =>
      if (10000000 <? Z.of_nat (String.length bytes))%Z
      then mraise (HTTPException 413 ("File too large to read: " +:+
                     pretty (Z.of_nat (String.length bytes)) +:+ " bytes"))
      else match relative_to WORKSPACE_DIR p with
           | None => mraise (ValueError "path is not in the subpath")
           | Some rel => mret (FileReply (join "/" rel) (decode bytes) (Z.of_nat (String.length bytes)))
           end
  end.

Definition list_files (pattern : string) : M fs (list string) :=
  if startswith "/" pattern || contains ".." pattern
  then mraise (HTTPException 400 "Pattern must be relative and contain no '..'")
  else
    let! f := mget in
    mret (merge_sort String.le
      (omap (λ m,
         let p := resolve (path_components m) in
         if startswith (path_str WORKSPACE_DIR) (path_str p) && bool_decide (is_Some (fs_files f !! p))
         then join "/" <$> relative_to WORKSPACE_DIR p
         else None) (glob pattern f))).

(** The text files of the workspace that [lifespan] normalises, and its git
    commands; their outcome is only logged. *)
Definition is_text_suffix (p : path) : bool :=
  let n := default "" (last p) in
  existsb (λ suf, bool_decide (sdrop (String.length n - String.length suf) n = suf)
                  && bool_decide (String.length suf < String.length n))
    [".py"; ".js"; ".ts"; ".md"; ".txt"; ".sh"; ".yaml"; ".yml"; ".json"; ".toml"].

Definition git (args : list string) (f : fs) : fs :=
  (run_process ("/usr/bin/git" :: args) WORKSPACE_DIR None f).1.

Definition lifespan (f : fs) : fs :=
  let ps := List.filter (λ p, bool_decide (is_Some (relative_to WORKSPACE_DIR p)) && is_text_suffix p)
              (map_to_list (fs_files f)).*1 in
  let f := foldl (λ f p, _normalize_crlf p f) f ps in
  let f := if fs_exists (WORKSPACE_DIR ++ [".git"]) f then f else git ["init"] f in
  let f := git ["config"; "user.email"; "agent@local"] f in
  let f := git ["config"; "user.name"; "Agent"] f in
  git ["commit"; "-m"; "chore: baseline snapshot"] (git ["add"; "-A"] f).
End executor.

(** ** The path check *)

Fixpoint no_slash (s : string) : bool :=
  match s with "" => true | String c s' => negb (bool_decide (c = "/"%char)) && no_slash s' end.

Definition clean (p : path) : Prop := Forall (λ c, c ≠ "" ∧ no_slash c = true) p.

Lemma no_slash_push c l :
  c ≠ "/"%char → Forall (λ x, no_slash x = true) l → Forall (λ x, no_slash x = true) (push_char c l).
Proof.
  intros Hc Hl. destruct l as [|x l]; cbn; [repeat constructor; cbn; by rewrite bool_decide_eq_false_2|].
  apply Forall_cons in Hl as [Hx Hl]. constructor; [|done]. cbn. by rewrite bool_decide_eq_false_2.
Qed.

Lemma split_slash_clean s : Forall (λ x, no_slash x = true) (split_slash s).
Proof.
  induction s as [|c s IH]; cbn; [by repeat constructor|].
  case_bool_decide; [by constructor|by apply no_slash_push].
Qed.

Lemma path_components_clean s : clean (path_components s).
Proof.
  apply Forall_forall. intros c [Hc Hn]%filter_In_elem. breflect. split; [done|].
  by eapply (proj1 (Forall_forall _ _) (split_slash_clean s)).
Qed.

Lemma resolve_clean p : clean p → clean (resolve p).
Proof.
  unfold resolve. cut (∀ acc, clean acc → clean p → clean (foldl (λ acc c,
    if bool_decide (c = "..") then but_last_n 1 acc else acc ++ [c]) acc p)).
  { intros H Hp. by apply H; [constructor|]. }
  induction p as [|c p IH]; intros acc Hacc Hp; cbn; [done|]. apply Forall_cons in Hp as [Hc Hp].
  apply IH; [|done]. case_bool_decide; [by apply Forall_take|]. apply Forall_app. split; [done|]. by apply Forall_singleton.
Qed.

Lemma join_path_clean ws raw : clean ws → clean (join_path ws raw).
Proof.
  intros Hws. unfold join_path. case_match; [apply path_components_clean|].
  apply Forall_app. split; [done|apply path_components_clean].
Qed.

(** A component against the text of a path: the slash delimits it. *)
Lemma startswith_slash x a c b :
  no_slash x = true → no_slash c = true →
  startswith (x +:+ "/" +:+ a) (c +:+ "/" +:+ b) = bool_decide (x = c) && startswith a b.
Proof.
  revert c. induction x as [|d x IH]; intros [|e c] Hx Hc; cbn in Hx, Hc; breflect.
  - by change (startswith (String "/" a) (String "/" b) = startswith a b).
  - change (startswith (String "/" a) (String e (c +:+ "/" +:+ b)) = false). cbn.
    by rewrite bool_decide_eq_false_2.
  - change (startswith (String d (x +:+ "/" +:+ a)) (String "/" b) = false). cbn.
    by rewrite bool_decide_eq_false_2.
  - change (bool_decide (d = e) && startswith (x +:+ "/" +:+ a) (c +:+ "/" +:+ b)
            = bool_decide (String d x = String e c) && startswith a b).
    rewrite IH by done. repeat case_bool_decide; simplify_eq; done.
Qed.

Lemma startswith_slash_none x a c :
  no_slash c = true → startswith (x +:+ "/" +:+ a) c = false.
Proof.
  revert c. induction x as [|d x IH]; intros [|e c] Hc; cbn in Hc; breflect; [done| |done|].
  - change (startswith (String "/" a) (String e c) = false). cbn. by rewrite bool_decide_eq_false_2.
  - change (bool_decide (d = e) && startswith (x +:+ "/" +:+ a) c = false). by rewrite IH, andb_false_r.
Qed.

Lemma startswith_no_slash w c b :
  no_slash w = true → startswith w (c +:+ "/" +:+ b) = startswith w c.
Proof.
  revert c. induction w as [|d w IH]; intros [|e c] Hw; cbn in Hw; breflect; [done|done| |].
  - change (startswith (String d w) (String "/" b) = false). cbn. by rewrite bool_decide_eq_false_2.
  - change (bool_decide (d = e) && startswith w (c +:+ "/" +:+ b) = bool_decide (d = e) && startswith w c).
    by rewrite IH.
Qed.

Lemma path_prefix ws' w p :
  clean (ws' ++ [w]) → clean p →
  startswith (join "/" (ws' ++ [w])) (join "/" p) = true ↔
  ∃ c rest, p = ws' ++ c :: rest ∧ startswith w c = true.
Proof.
  revert p. induction ws' as [|x ws' IH]; intros p Hws Hp.
  - apply Forall_cons in Hws as [[Hw0 Hw] _]. cbn [app]. change (join "/" [w]) with w.
    destruct p as [|c [|d rest]].
    + cbn. destruct w; [done|]. split; [done|]. intros (? & ? & [=] & _).
    + change (join "/" [c]) with c. split; [eauto|]. by intros (? & ? & [= <- <-] & ?).
    + change (join "/" (c :: d :: rest)) with (c +:+ "/" +:+ join "/" (d :: rest)).
      rewrite startswith_no_slash by done. split; [eauto|]. by intros (? & ? & [= <- <-] & ?).
  - apply Forall_cons in Hws as [[Hx0 Hx] Hws]. cbn [app].
    assert (join "/" (x :: ws' ++ [w]) = x +:+ "/" +:+ join "/" (ws' ++ [w])) as ->.
    { by destruct ws'. }
    destruct p as [|c [|d rest]].
    + split; [|by intros (? & ? & [=] & _)]. destruct x; done.
    + apply Forall_cons in Hp as [[_ Hc] _]. change (join "/" [c]) with c.
      rewrite startswith_slash_none by done. split; [done|].
      intros (c' & rest & [= _ Hr] & _). by destruct ws'.
    + apply Forall_cons in Hp as [[_ Hc] Hp].
      change (join "/" (c :: d :: rest)) with (c +:+ "/" +:+ join "/" (d :: rest)).
      rewrite startswith_slash, andb_true_iff, bool_decide_eq_true, IH by done. split.
      * intros (-> & c0 & r0 & Heq & ?). exists c0, r0. by rewrite Heq.
      * intros (c0 & r0 & [= -> Heq] & ?). split; [done|]. by exists c0, r0.
Qed.

(** What [validate_patch] has checked of a diff it accepts. *)
Lemma validate_patch_ok d :
  validate_patch d = Ok tt →
  truthy (strip d) = true ∧ count_diff_lines d ≤ 1000 ∧
  contains "GIT binary patch" d || contains "Binary files" d = false.
Proof.
  unfold validate_patch. change MAX_DIFF_LINES with 1000.
  destruct (negb (truthy d) || negb (truthy (strip d))) eqn:He; [done|].
  apply orb_false_iff in He as [_ He%negb_false_iff]. destruct (_ <? _)%Z; [done|].
  destruct (Nat.ltb_spec 1000 (count_diff_lines d)); [done|].
  destruct (contains _ d || contains _ d); [done|]. intros _. repeat split; [done|lia].
Qed.

Lemma validate_patch_mode d : validate_patch d = Ok tt → search_multiline mode_change d = false.
Proof.
  unfold validate_patch. repeat (destruct (_ || _); [done|]). destruct (_ <? _)%Z; [done|].
  destruct (_ <? _); [done|]. destruct (_ || _); [done|]. by destruct (search_multiline mode_change d).
Qed.

(** ** Properties *)

(** [_safe_path] accepts a path exactly when it lies under the parent of the
    workspace in a directory whose name merely starts with the workspace's
    name; it then answers the resolved path. *)
Theorem safe_path_accepts ws' w raw :
  clean (ws' ++ [w]) →
  let p := resolve (join_path (ws' ++ [w]) raw) in
  (is_ok (_safe_path (ws' ++ [w]) raw) = true ↔
     ∃ c rest, p = ws' ++ c :: rest ∧ startswith w c = true) ∧
  (∀ q, _safe_path (ws' ++ [w]) raw = Ok q → q = p).
Proof.
  intros Hws. cbn zeta.
  pose proof (resolve_clean _ (join_path_clean (ws' ++ [w]) raw Hws)) as Hp.
  rewrite <-(path_prefix ws' w _ Hws Hp). unfold _safe_path, path_str.
  set (p := resolve _) in *.
  assert (∀ a b, startswith ("/" +:+ a) ("/" +:+ b) = startswith a b) as -> by done.
  destruct (startswith (join "/" (ws' ++ [w])) (join "/" p)); cbn; (split; [done|]); [by intros q [= <-]|done].
Qed.

(** A sibling of the workspace whose name extends it passes the traversal
    check: the executor would run commands there and rewrite its files. *)
Theorem sibling_directory_accepted :
  _safe_path ["workspace"] "../workspace-evil/x" = Ok ["workspace-evil"; "x"] ∧
  relative_to ["workspace"] ["workspace-evil"; "x"] = None.
Proof. by vm_compute. Qed.


(** With a bare carriage return the validated diff can be refused. *)
Example bare_cr_is_refused :
  validate_patch cr_mode_diff = Ok tt ∧
  check_patch_request (PatchRequest (normalize_diff cr_mode_diff) "live")
    = Raise (HTTPException 400 "Permission-change patches not allowed").
Proof. by vm_compute. Qed.

(** The dry run already rewrites the line endings of the files the diff names:
    after a "sandbox" request whose git call touches nothing, a CRLF file of
    the workspace has changed. *)
Theorem dry_run_rewrites_files :
  let f := FS {[["workspace"; "a.py"] := "x" +:+ crlf]} {[["workspace"]]} in
  let '(f', r) := apply_patch ["workspace"] (λ _ _ _ f, (f, Completed 0 "" "")) ["tmp"; "p"]
                    (PatchRequest ("+++ b/a.py" +:+ nl +:+ "@@ -1 +1 @@") "sandbox") f in
  is_ok r = true ∧ fs_files f' !! ["workspace"; "a.py"] = Some ("x" +:+ nl).
Proof. by vm_compute. Qed.

Lemma safe_path_witness :
  is_ok (_safe_path ["workspace"] "src/../a.py") = true ↔
    ∃ c rest, ["workspace"; "a.py"] = [] ++ c :: rest ∧ startswith "workspace" c = true.
Proof.
  refine (proj1 (safe_path_accepts [] "workspace" "src/../a.py" _)). by repeat constructor.
Defined.

