(* ===== verification/AgentManager.v ===== *)
(** * Agents (orchestrator/agent_manager.py)

    The registry of agents, a run of an agent with its streamed output, the
    message queues, the clean-up and the decomposition of a plan.  The other
    components are reached through a class; the parse of a JSON chunk, of a
    JSON task list, the clock and the random ids are parameters.  An agent is
    the entry of the registry under its id, which is random and fresh.  The
    watchdog shows as a [TimeoutError] out of [_run_agent]. *)

From S2P Require Import Prelude PyStr Models Utils Redis Interfaces ContextManager Metrics Dag.
Local Open Scope string_scope.
Local Open Scope list_scope.
Local Open Scope nat_scope.
Local Open Scope py_scope.

Definition _INBOX_MAXSIZE : nat := 256.
Definition _OUTBOX_MAXSIZE : nat := 1024.

(** ** Agents *)

Record agent := Agent {
  a_agent_id : string;
  a_role : string;
  a_session_id : string;
  a_status : agent_status;
  a_model : option string;
  a_created_at : Z;
  a_started_at : option Z;
  a_ended_at : option Z;
  a_task : option string;
  a_result : option string;
  a_error : option string;
  a_history : list chat_msg;
  a_inbox : list string;
  a_outbox : list (option string)   (* [None] is the sentinel *)
}.

Definition new_agent (now : Z) (aid role sid : string) : agent :=
  Agent aid role sid Idle None now None None None None None [] [] [].

Definition start_agent (now : Z) (task : string) (a : agent) : agent :=
  Agent (a_agent_id a) (a_role a) (a_session_id a) ARunning (a_model a) (a_created_at a) (Some now)
    (a_ended_at a) (Some task) (a_result a) (a_error a) (a_history a) (a_inbox a) (a_outbox a).
Definition set_model (m : string) (a : agent) : agent :=
  Agent (a_agent_id a) (a_role a) (a_session_id a) (a_status a) (Some m) (a_created_at a) (a_started_at a)
    (a_ended_at a) (a_task a) (a_result a) (a_error a) (a_history a) (a_inbox a) (a_outbox a).
Definition set_history (h : list chat_msg) (a : agent) : agent :=
  Agent (a_agent_id a) (a_role a) (a_session_id a) (a_status a) (a_model a) (a_created_at a) (a_started_at a)
    (a_ended_at a) (a_task a) (a_result a) (a_error a) h (a_inbox a) (a_outbox a).
Definition set_outbox (o : list (option string)) (a : agent) : agent :=
  Agent (a_agent_id a) (a_role a) (a_session_id a) (a_status a) (a_model a) (a_created_at a) (a_started_at a)
    (a_ended_at a) (a_task a) (a_result a) (a_error a) (a_history a) (a_inbox a) o.
Definition set_inbox (i : list string) (a : agent) : agent :=
  Agent (a_agent_id a) (a_role a) (a_session_id a) (a_status a) (a_model a) (a_created_at a) (a_started_at a)
    (a_ended_at a) (a_task a) (a_result a) (a_error a) (a_history a) i (a_outbox a).
Definition finish_agent (now : Z) (s : agent_status) (result error : option string) (a : agent) : agent :=
  Agent (a_agent_id a) (a_role a) (a_session_id a) s (a_model a) (a_created_at a) (a_started_at a)
    (Some now) (a_task a) result error (a_history a) (a_inbox a) (a_outbox a).

(** [a.status in ("done", "failed", "killed")]. *)
Definition is_terminal (a : agent) : bool :=
  match a_status a with Done | AFailed | Killed => true | Idle | ARunning => false end.

(** [agent.outbox.put_nowait(x)], dropping [x] when the queue is full. *)
Definition put_outbox (x : option string) (o : list (option string)) : list (option string) :=
  if length o <? _OUTBOX_MAXSIZE then o ++ [x] else o.

Definition _drain_outbox_sentinel (a : agent) : agent := set_outbox (put_outbox None (a_outbox a)) a.

(** ** Model responses *)

Record stream_choice := StreamChoice { st_delta_content : option string; st_message_content : option string }.

(** A decoded chunk; an empty usage object is [None]. *)
Record chunk := Chunk { ck_choices : list stream_choice; ck_usage : option (option Z * option Z) }.

(** The accumulated content and token counts, and the outbox. *)
Record stream_state := StreamState {
  ss_content : string; ss_tokens_in : Z; ss_tokens_out : Z; ss_outbox : list (option string)
}.

Definition chunk_token (c : chunk) : string :=
  match ck_choices c with
  | [] => ""
  | ch :: _ => py_or (default "" (st_delta_content ch)) (default "" (st_message_content ch))
  end.

Definition take_token (token : string) (s : stream_state) : stream_state :=
  if truthy token
  then StreamState (ss_content s +:+ token) (ss_tokens_in s) (ss_tokens_out s)
         (put_outbox (Some token) (ss_outbox s))
  else s.

Definition take_usage (u : option (option Z * option Z)) (s : stream_state) : stream_state :=
  match u with
  | None => s
  | Some (i, o) => StreamState (ss_content s) (default (ss_tokens_in s) i) (default (ss_tokens_out s) o)
                     (ss_outbox s)
  end.

Section stream.
(** [json.loads] on the data of a line; [None] is [JSONDecodeError]. *)
Context (parse_chunk : string → option chunk).

Fixpoint stream_loop (lines : list string) (s : stream_state) : stream_state :=
  match lines with
  | [] => s
  | line :: lines' =>
      let line := strip line in
      if negb (truthy line) || negb (startswith "data:" line) then stream_loop lines' s
      else
        let data := strip (sdrop 5 line) in
        if bool_decide (data = "[DONE]") then s
        else match parse_chunk data with
             | None => stream_loop lines' s
             | Some c => stream_loop lines' (take_usage (ck_usage c) (take_token (chunk_token c) s))
             end
  end.
End stream.

Definition dict_state (choices : list (option string)) (u : usage_response) (o : list (option string))
    : stream_state :=
  let content := match choices with c :: _ => default "" c | [] => "" end in
  let '(i, t) := parse_usage u in
  StreamState content i t (if truthy content then put_outbox (Some content) o else o).

(** ** The registry *)

Abbreviation registry := (list (string * agent)).

Definition upd_agent (aid : string) (f : agent → agent) (g : registry) : registry :=
  match dict_get aid g with Some a => dict_set aid (f a) g | None => g end.

Record manager_status := ManagerStatus { mg_total : nat; mg_running : nat; mg_done : nat; mg_failed : nat }.

Definition get_status (g : registry) : manager_status :=
  ManagerStatus (length g)
    (count_if (λ p, bool_decide (a_status p.2 = ARunning)) g)
    (count_if (λ p, bool_decide (a_status p.2 = Done)) g)
    (count_if (λ p, bool_decide (a_status p.2 = AFailed) || bool_decide (a_status p.2 = Killed)) g).

Definition get_agent (aid : string) (g : registry) : option agent := dict_get aid g.
Definition has_agent (aid : string) (g : registry) : bool := bool_decide (is_Some (dict_get aid g)).
Definition list_agents (g : registry) : list agent := g.*2.
Definition get_agents_for_session (sid : string) (g : registry) : list agent :=
  List.filter (λ a, bool_decide (a_session_id a = sid)) g.*2.

Definition send_message (aid message : string) (g : registry) : registry * bool :=
  match dict_get aid g with
  | None => (g, false)
  | Some a =>
      if is_terminal a then (g, false)
      else if length (a_inbox a) <? _INBOX_MAXSIZE
      then (dict_set aid (set_inbox (a_inbox a ++ [message]) a) g, true)
      else (g, false)
  end.

(** [subscribe_stream] with nothing more arriving: what it yields, the outbox
    it leaves, and whether it ended (by the sentinel, or by the 30 s check on
    a terminal agent) or goes on waiting. *)
Fixpoint stream_chunks (o : list (option string)) : list string * list (option string) * bool :=
  match o with
  | [] => ([], [], false)
  | None :: o' => ([], o', true)
  | Some c :: o' => let '(out, rest, ended) := stream_chunks o' in (c :: out, rest, ended)
  end.

Definition subscribe_stream (aid : string) (g : registry) : registry * list string * bool :=
  match dict_get aid g with
  | None => (g, [], true)
  | Some a =>
      let '(out, rest, ended) := stream_chunks (a_outbox a) in
      (dict_set aid (set_outbox rest a) g, out, ended || is_terminal a)
  end.

(** [a.ended_at or 0]. *)
Definition is_stale (cutoff : Z) (p : string * agent) : bool :=
  is_terminal p.2 && (default 0 (a_ended_at p.2) <? cutoff)%Z.

Definition cleanup_idle_agents (now idle_timeout : Z) (g : registry) : registry * nat :=
  (List.filter (λ p, negb (is_stale (now - idle_timeout) p)) g,
   count_if (is_stale (now - idle_timeout)) g).

(** ** Task decomposition *)

(** An item of the decoded JSON list: the fields after [str()], [None] when
    absent; [deps] may hold something that is no list. *)
Inductive task_item :=
  | NotADict
  | TaskItem (id role desc : option string) (deps : option (res (list string))).

Inductive task_json := NotAList | TaskList (items : list task_item).

Definition known_role (r : string) : bool :=
  existsb (λ x, bool_decide (r = x)) ["architect"; "coder"; "reviewer"; "tester"; "documenter"].

Fixpoint normalize_tasks (items : list task_item) (seen : list string) (normalized : list task)
    : res (list task) :=
  match items with
  | [] => Ok normalized
  | NotADict :: items' => normalize_tasks items' seen normalized
  | TaskItem id role desc deps :: items' =>
      let tid := default ("t" +:+ pretty (length normalized)) id in
      let role := default "coder" role in
      match default (Ok []) deps with
      | Raise e => Raise e
      | Ok ds =>
          let t := Task tid (Some (if known_role role then role else "coder")) (Some (default "" desc))
                     (DepsList (List.filter (λ d, bool_decide (d ∈ seen)) ds)) Pending None in
          normalize_tasks items' (seen ++ [tid]) (normalized ++ [t])
      end
  end.

Definition _validate_task_dag (j : task_json) : res (list task) :=
  match j with
  | NotAList => Raise (ValueError "tasks must be a list")
  | TaskList items => normalize_tasks items [] []
  end.

(** The text between the first two fences. *)
Definition strip_fences (raw : string) : string :=
  let clean := strip raw in
  if startswith fence clean then
    let body := sdrop 3 clean in
    let inner := match cut_at fence body with Some (b, _) => b | None => body end in
    if startswith "json" inner then sdrop 4 inner else inner
  else clean.

Definition parse_decomposition (parse_json : string → res task_json) (raw : string) : list task :=
  match parse_json (strip (strip_fences raw)) with
  | Raise _ => []
  | Ok j => match _validate_task_dag j with Ok ts => ts | Raise _ => [] end
  end.

Definition decompose_prompt (plan : string) : string :=
  "Decompose the following plan into discrete implementation tasks." +:+ nl +:+
  "Output ONLY a JSON array. Each item must have exactly these fields:" +:+ nl +:+
  "  {" +:+ quoted "id" +:+ ": " +:+ quoted "t1" +:+ ", " +:+ quoted "role" +:+ ": " +:+
  quoted "coder|tester|architect|reviewer|documenter" +:+ ", " +:+
  quoted "desc" +:+ ": " +:+ quoted "what to do" +:+ ", " +:+
  quoted "deps" +:+ ": [" +:+ quoted "t0" +:+ "]}" +:+ nl +:+
  "Rules:" +:+ nl +:+
  "- deps must reference ids that appear earlier in the array" +:+ nl +:+
  "- no circular dependencies" +:+ nl +:+
  "- tester tasks depend on the coder tasks they test" +:+ nl +:+
  "- first tasks have deps: []" +:+ nl +:+ nl +:+
  "Plan:" +:+ nl +:+ plan.

(** ** Running an agent *)

(** What an agent run calls, on the Redis store and the rest of the process. *)
Class AgentEnv (R E : Type) := {
  env_register_agent : string → string → M (R * E) unit;
  env_resolve_model : string → string → M (R * E) string;
  env_prompt_file : string → option string;
  env_build_prompt : string → string → list chat_msg → string → string → M (R * E) (list chat_msg);
  env_dispatch : string → string → list chat_msg → M (R * E) raw_response;
  env_record_metrics : string → string → Z → Z → string → string → E → E;
  env_record_failure : string → string → string → string → string → M (R * E) unit;
  env_bus_wired : bool;
  env_publish_event : string → ws_event → M (R * E) unit
}.

Definition fallback_prompt (role : string) : string :=
  "You are a " +:+ role +:+ " agent. Complete the task given to you accurately and concisely.".

Section runs.
Context {R E : Type} `{!AgentEnv R E}.
Context (parse_chunk : string → option chunk) (parse_json : string → res task_json).
Context (MAX_AGENT_HISTORY : nat) (MAX_AGENT_RUNTIME : Z) (uuid8 : nat → string) (clock : nat → Z).

(** The registry, with the number of agents ever created. *)
Local Abbreviation P := (registry * nat)%type.
Local Abbreviation W := (R * (P * E))%type.

Definition on_env {B} (m : M (R * E) B) : M W B := λ w,
  let '((r, e), b) := m (w.1, w.2.2) in ((r, (w.2.1, e)), b).
Definition on_registry (f : registry → registry) : M W unit :=
  mmodify (λ w, (w.1, ((f w.2.1.1, w.2.1.2), w.2.2))).
Definition on_rest (f : E → E) : M W unit := mmodify (λ w, (w.1, (w.2.1, f w.2.2))).
Definition get_a (aid : string) : M W agent := λ w,
  match dict_get aid w.2.1.1 with
  | Some a => (w, Ok a)
  | None => (w, Raise (OtherError "no such agent"))
  end.

Definition _load_agent_prompt (role : string) : string :=
  default (fallback_prompt role) (env_prompt_file role).

Definition _new_agent (role sid : string) : M W string := λ w,
  let n := w.2.1.2 in
  let aid := role +:+ "-" +:+ uuid8 n in
  ((w.1, ((dict_set aid (new_agent (clock n) aid role sid) w.2.1.1, S n), w.2.2)), Ok aid).

Definition trim_history (h : list chat_msg) : list chat_msg :=
  if MAX_AGENT_HISTORY <? length h then drop (length h - MAX_AGENT_HISTORY) h else h.

Definition work_complete (a : agent) (s : stream_state) : ws_event :=
  WSEvent WORK_COMPLETE (a_session_id a) (Some (a_agent_id a))
    (Payload None None None [] None None (Some (stake 200 (ss_content s))) (ss_tokens_in s) (ss_tokens_out s)).

Definition work_failed (sid aid error reason : string) : ws_event :=
  WSEvent WORK_FAILED sid (Some aid) (Payload None None None [] (Some error) (Some reason) None 0 0).

Definition publish_if_wired (sid : string) (ev : ws_event) : M W unit :=
  if env_bus_wired then on_env (env_publish_event sid ev) else mret tt.

(** The consumption of a response: tokens go to the outbox as they come, also
    those before a failure of the stream. *)
Definition consume (aid : string) (raw : raw_response) : M W stream_state :=
  let! a := get_a aid in
  let s := match raw with
           | RDict choices u => dict_state choices u (a_outbox a)
           | RStream lines _ => stream_loop parse_chunk lines (StreamState "" 0 0 (a_outbox a))
           end in
  do! on_registry (upd_agent aid (set_outbox (ss_outbox s))) in
  match raw with RStream _ (Some e) => mraise e | _ => mret s end.

Definition _run_agent (aid task extra_context : string) : M W string :=
  let! a := get_a aid in
  let! model := mtry (on_env (env_resolve_model (a_role a) (a_session_id a))) (λ _, mret "") in
  do! on_registry (upd_agent aid (set_model model)) in
  let system_prompt := _load_agent_prompt (a_role a) +:+
    (if truthy extra_context then nl +:+ nl +:+ "## Additional Context" +:+ nl +:+ extra_context else "") in
  let! messages := on_env (env_build_prompt task system_prompt (a_history a) (a_session_id a) model) in
  let! raw := on_env (env_dispatch (a_role a) (a_session_id a) messages) in
  let! s := consume aid raw in
  do! on_rest (env_record_metrics aid (a_role a) (ss_tokens_in s) (ss_tokens_out s) (a_session_id a) "done") in
  do! publish_if_wired (a_session_id a) (work_complete a s) in
  do! on_registry (upd_agent aid (λ a, set_history (trim_history
        (a_history a ++ [ChatMsg "user" (Some task); ChatMsg "assistant" (Some (ss_content s))])) a)) in
  mret (ss_content s).

(** The two [except] branches. *)
Definition fail_agent (aid role sid task : string) (s : agent_status) (status_name error reason : string)
    : M W agent_result :=
  let! now := mgets (λ w, clock w.2.1.2) in
  do! on_registry (upd_agent aid (_drain_outbox_sentinel ∘ finish_agent now s None (Some error))) in
  do! on_rest (env_record_metrics aid role 0 0 sid status_name) in
  do! on_env (env_record_failure sid aid task error ("role=" +:+ role)) in
  do! publish_if_wired sid (work_failed sid aid error reason) in
  let! a := get_a aid in
  mret (AgentResult aid role (a_model a) None s (Some error)).

Definition spawn_and_run (role task sid extra_context : string) : M W agent_result :=
  let! aid := _new_agent role sid in
  let! now := mgets (λ w, clock w.2.1.2) in
  do! on_registry (upd_agent aid (start_agent now task)) in
  do! mtry (on_env (env_register_agent sid aid)) (λ _, mret tt) in
  mtry (let! result := _run_agent aid task extra_context in
        let! now := mgets (λ w, clock w.2.1.2) in
        do! on_registry (upd_agent aid (_drain_outbox_sentinel ∘ finish_agent now Done (Some result) None)) in
        let! a := get_a aid in
        mret (AgentResult aid role (a_model a) (Some result) Done None))
       (λ e, match e with
             | TimeoutError =>
                 fail_agent aid role sid task Killed "killed"
                   ("Timed out after " +:+ pretty MAX_AGENT_RUNTIME +:+ "s") "timeout"
             | _ => fail_agent aid role sid task AFailed "failed" (exn_str e) "exception"
             end).

Definition decompose_plan_to_tasks (plan sid : string) : M W (list task) :=
  let! result := spawn_and_run "architect" (decompose_prompt plan) sid "" in
  mret (parse_decomposition parse_json (default "" (ar_result result))).

(** The agent manager as the task queue and the patch queue see it. *)
#[export] Instance AgentManagerRunner : AgentRunner R (P * E) :=
  {| Interfaces.spawn_and_run role task sid := spawn_and_run role task sid "" |}.
End runs.
