(* ===== verification/AgentManagerProps.v ===== *)
(** * Properties of the agents (orchestrator/agent_manager.py)

    A plan decomposed by the architect is accepted by the task queue, a
    streamed answer reaches the subscriber token by token, and a run always
    ends with an agent in a terminal status that agrees with the result. *)

From S2P Require Import Prelude PyStr Models Utils Redis Interfaces ContextManager Metrics Dag AgentManager.
Local Open Scope string_scope.
Local Open Scope list_scope.
Local Open Scope nat_scope.
Local Open Scope py_scope.

Create HintDb stays discriminated.

(** ** Decomposition *)

(** Dependencies point backwards: those of a task are among [seen] and the ids
    before it. *)
Fixpoint backward (seen : list string) (ts : list task) : Prop :=
  match ts with
  | [] => True
  | t :: ts' => (∀ d, d ∈ task_deps t → d ∈ seen) ∧ backward (seen ++ [t_id t]) ts'
  end.

Lemma backward_app seen ts t :
  backward seen ts → (∀ d, d ∈ task_deps t → d ∈ seen ++ task_ids ts) → backward seen (ts ++ [t]).
Proof.
  revert seen. induction ts as [|u ts IH]; intros seen; cbn.
  - rewrite app_nil_r. auto.
  - intros [Hu Hts] Ht. split; [done|]. apply IH; [done|]. intros d Hd. rewrite <-app_assoc. by apply Ht.
Qed.

Lemma normalize_backward items seen acc ts :
  normalize_tasks items seen acc = Ok ts → seen = task_ids acc → backward [] acc → backward [] ts.
Proof.
  revert seen acc. induction items as [|[|id role desc deps] items IH]; intros seen acc; cbn.
  - by intros [= ->].
  - apply IH.
  - destruct (default (Ok []) deps) as [ds|e]; [|done]. intros H Hseen Hacc.
    eapply IH; [exact H| |].
    + subst. unfold task_ids. by rewrite fmap_app.
    + apply backward_app; [done|]. cbn. subst. intros d Hd.
      apply filter_In_elem in Hd as [_ Hd]. by breflect.
Qed.

Lemma backward_edges seen ts u v :
  backward seen ts → (u, v) ∈ edges ts → ∃ i, task_ids ts !! i = Some v ∧ u ∈ seen ++ take i (task_ids ts).
Proof.
  revert seen. induction ts as [|t ts IH]; intros seen; [by rewrite elem_of_edges; set_solver|].
  cbn [backward]. intros [Ht Hts] He. apply elem_of_edges in He as (t' & Hin & Hd & Hv).
  apply elem_of_cons in Hin as [->|Hin].
  - exists 0. cbn. rewrite app_nil_r. split; [by f_equal|auto].
  - destruct (IH (seen ++ [t_id t])) as (i & Hi & Hu); [done|apply elem_of_edges; eauto|].
    exists (S i). cbn. rewrite <-app_assoc in Hu. done.
Qed.

Lemma backward_tc ts u v :
  NoDup (task_ids ts) → backward [] ts → tc (dep_edge ts) u v →
  ∃ i j, task_ids ts !! i = Some u ∧ task_ids ts !! j = Some v ∧ i < j.
Proof.
  intros Hnd Hb.
  assert (Hstep : ∀ a b, dep_edge ts a b → ∃ i j, task_ids ts !! i = Some a ∧ task_ids ts !! j = Some b ∧ i < j).
  { intros a b He. destruct (backward_edges [] ts a b Hb He) as (j & Hj & Ha). cbn in Ha.
    apply list_elem_of_lookup in Ha as (i & Hi). apply lookup_take_Some in Hi as [Hi ?]. by exists i, j. }
  induction 1 as [a b Hab|a b c Hab Hbc (k & j & Hk & Hj & Hlt)]; [auto|].
  destruct (Hstep a b Hab) as (i & k' & Hi & Hk' & Hlt').
  assert (k = k') as <- by exact (NoDup_lookup _ _ _ _ Hnd Hk Hk'). exists i, j. split_and!; [done|done|lia].
Qed.

Lemma backward_valid ts : NoDup (task_ids ts) → backward [] ts → deps_listed ts → valid_dag ts.
Proof.
  intros Hnd Hb Hl. split_and!; [done| | |done].
  - apply deps_exist_edges. intros u v He.
    destruct (backward_edges [] ts u v Hb He) as (i & _ & Hu). cbn in Hu.
    by apply elem_of_take in Hu as (k & Hk%list_elem_of_lookup_2 & _).
  - intros v Hv. destruct (backward_tc ts v v Hnd Hb Hv) as (i & j & Hi & Hj & Hlt).
    assert (i = j) by exact (NoDup_lookup _ _ _ _ Hnd Hi Hj). lia.
Qed.

(** Every task of a decomposition is pending, has one of the five roles, a
    description and a list of dependencies, and only depends on tasks before it. *)
Definition well_formed_task (t : task) : Prop :=
  t_status t = Pending ∧ (∃ r, t_role t = Some r ∧ known_role r = true) ∧ is_Some (t_desc t) ∧ is_Some (deps_of t).

Lemma normalize_well_formed items seen acc ts :
  normalize_tasks items seen acc = Ok ts → Forall well_formed_task acc → Forall well_formed_task ts.
Proof.
  revert seen acc. induction items as [|[|id role desc deps] items IH]; intros seen acc; cbn [normalize_tasks].
  - by intros [= ->].
  - apply IH.
  - destruct (default (Ok []) deps) as [ds|e]; [|done]. intros H Hacc. eapply IH; [exact H|].
    apply Forall_app. split; [done|]. constructor; [|done]. split_and!; [done| |by eexists..].
    eexists. split; [done|]. by destruct (known_role _) eqn:E.
Qed.

Lemma decomposition_cases (parse_json : string → res task_json) raw :
  backward [] (parse_decomposition parse_json raw) ∧
  Forall well_formed_task (parse_decomposition parse_json raw).
Proof.
  unfold parse_decomposition. destruct (parse_json _) as [[|items]|e]; cbn; [done| |done].
  destruct (normalize_tasks items [] []) as [ts|e] eqn:E; [|done].
  split; [by eapply normalize_backward|by eapply normalize_well_formed].
Qed.

(** C18: whatever the architect model answers, the tasks made of its answer
    are pending, have a known role and a description, and are accepted by the
    task queue's DAG validation exactly when their ids are distinct: the
    missing or circular dependencies the model may write never reach it. *)
Theorem decomposition_accepted_by_queue (parse_json : string → res task_json) raw :
  let ts := parse_decomposition parse_json raw in
  Forall well_formed_task ts ∧ (_validate_dag ts = Ok tt ↔ NoDup (task_ids ts)).
Proof.
  cbn zeta. destruct (decomposition_cases parse_json raw) as [Hb Hw]. split; [done|].
  rewrite validate_ok. split; [by intros (? & _ & _)|]. intros. apply backward_valid; [done..|].
  intros t Ht. rewrite Forall_forall in Hw. by apply Hw.
Qed.

(** ** Streaming *)

Section streams.
Context (parse_chunk : string → option chunk).

(** The payload of a server-sent data line. *)
Definition line_data (line : string) : option string :=
  let line := strip line in
  if truthy line && startswith "data:" line then Some (strip (sdrop 5 line)) else None.

(** The payloads before the first [DONE] marker. *)
Fixpoint before_done (l : list string) : list string :=
  match l with
  | [] => []
  | d :: l' => if bool_decide (d = "[DONE]") then [] else d :: before_done l'
  end.

(** The readable chunks of a stream, and the non-empty tokens in them. *)
Definition chunks (lines : list string) : list chunk :=
  omap parse_chunk (before_done (omap line_data lines)).
Definition tokens (lines : list string) : list string :=
  List.filter truthy (chunk_token <$> chunks lines).

Lemma stream_loop_chunks lines s :
  stream_loop parse_chunk lines s =
  foldl (λ s c, take_usage (ck_usage c) (take_token (chunk_token c) s)) s (chunks lines).
Proof.
  revert s. induction lines as [|line lines IH]; intros s; [done|].
  assert (Hline : omap line_data (line :: lines) =
    match line_data line with Some d => d :: omap line_data lines | None => omap line_data lines end) by done.
  unfold chunks. rewrite Hline. unfold line_data at 1. cbn [stream_loop].
  destruct (truthy (strip line)) eqn:Et; cbn [negb orb andb]; [|apply IH].
  destruct (startswith "data:" (strip line)) eqn:Es; cbn [negb orb andb]; [|apply IH].
  cbn [before_done]. case_bool_decide as Hdone; [done|].
  cbn [omap list_omap]. destruct (parse_chunk _) as [c|] eqn:Ep; [|apply IH]. apply IH.
Qed.

Fixpoint sconcat (l : list string) : string :=
  match l with [] => "" | x :: l' => x +:+ sconcat l' end.

Lemma put_outbox_take (x : option string) o k :
  length o ≤ _OUTBOX_MAXSIZE →
  length (put_outbox x o) ≤ _OUTBOX_MAXSIZE ∧
  take _OUTBOX_MAXSIZE (put_outbox x o ++ k) = take _OUTBOX_MAXSIZE (o ++ x :: k).
Proof.
  intros Ho. unfold put_outbox. destruct (Nat.ltb_spec (length o) _OUTBOX_MAXSIZE).
  - rewrite length_app, <-app_assoc. cbn [length]. split; [lia|done].
  - split; [done|]. by rewrite !take_app_le by lia.
Qed.

Lemma take_usage_frame u s :
  ss_content (take_usage u s) = ss_content s ∧ ss_outbox (take_usage u s) = ss_outbox s.
Proof. by destruct u as [[i o]|]. Qed.

Lemma take_token_spec t s k :
  length (ss_outbox s) ≤ _OUTBOX_MAXSIZE →
  length (ss_outbox (take_token t s)) ≤ _OUTBOX_MAXSIZE ∧
  ss_content (take_token t s) = ss_content s +:+ sconcat (List.filter truthy [t]) ∧
  take _OUTBOX_MAXSIZE (ss_outbox (take_token t s) ++ k) =
    take _OUTBOX_MAXSIZE (ss_outbox s ++ (Some <$> List.filter truthy [t]) ++ k).
Proof.
  intros Ho. unfold take_token, List.filter. destruct (truthy t) eqn:Et; cbn [ss_outbox ss_content].
  - destruct (put_outbox_take (Some t) (ss_outbox s) k Ho) as [? ->]. cbn. by rewrite sapp_nil_r.
  - cbn. by rewrite sapp_nil_r.
Qed.

Lemma sconcat_app a b : sconcat (a ++ b) = sconcat a +:+ sconcat b.
Proof. induction a as [|x a IH]; cbn; [done|]. by rewrite IH, sapp_assoc. Qed.

Lemma fold_chunks_spec (l : list chunk) s :
  let s' := foldl (λ s c, take_usage (ck_usage c) (take_token (chunk_token c) s)) s l in
  let ts := List.filter truthy (chunk_token <$> l) in
  length (ss_outbox s) ≤ _OUTBOX_MAXSIZE →
  ss_content s' = ss_content s +:+ sconcat ts ∧
  ss_outbox s' = take _OUTBOX_MAXSIZE (ss_outbox s ++ (Some <$> ts)).
Proof.
  cbn zeta. revert s. induction l as [|c l IH]; intros s Ho.
  - cbn. by rewrite sapp_nil_r, app_nil_r, take_ge.
  - rewrite fmap_cons. cbn [foldl]. set (l' := chunk_token <$> l) in *.
    destruct (take_token_spec (chunk_token c) s (Some <$> List.filter truthy l') Ho) as (Ho' & Hc & Hb).
    destruct (take_usage_frame (ck_usage c) (take_token (chunk_token c) s)) as [Huc Huo].
    change (chunk_token c :: l') with ([chunk_token c] ++ l').
    rewrite List.filter_app, sconcat_app, fmap_app, <-sapp_assoc, <-Hc, <-Hb, <-Huc, <-Huo.
    apply IH. by rewrite Huo.
Qed.

Lemma stream_loop_spec lines s :
  length (ss_outbox s) ≤ _OUTBOX_MAXSIZE →
  ss_content (stream_loop parse_chunk lines s) = ss_content s +:+ sconcat (tokens lines) ∧
  ss_outbox (stream_loop parse_chunk lines s) = take _OUTBOX_MAXSIZE (ss_outbox s ++ (Some <$> tokens lines)).
Proof. rewrite stream_loop_chunks. apply fold_chunks_spec. Qed.

(** What a subscriber of a finished agent reads off its outbox. *)
Lemma stream_chunks_tokens (l : list string) :
  stream_chunks (Some <$> l) = (l, [], false) ∧ stream_chunks ((Some <$> l) ++ [None]) = (l, [], true).
Proof. induction l as [|x l [IH1 IH2]]; cbn; [done|]. by rewrite IH1, IH2. Qed.

(** The text an agent's run returns is the concatenation of the tokens of
    the stream, whatever lines are unreadable or come after the [DONE] marker.
    A subscriber who reads the outbox afterwards gets these tokens in their
    order, then the end of the stream; from 1024 tokens on it gets only the
    first 1024 of them, and no end-of-stream mark. *)
Theorem stream_delivers_tokens (lines : list string) :
  let ts := tokens lines in
  let s := stream_loop parse_chunk lines (StreamState "" 0 0 []) in
  ss_content s = sconcat ts ∧
  stream_chunks (put_outbox None (ss_outbox s)) =
    (take _OUTBOX_MAXSIZE ts, [], bool_decide (length ts < _OUTBOX_MAXSIZE)).
Proof.
  cbn zeta. destruct (stream_loop_spec lines (StreamState "" 0 0 [])) as [-> ->]; [cbn; lia|].
  cbn [ss_outbox app]. split; [done|]. rewrite <-fmap_take. unfold put_outbox.
  rewrite length_fmap, length_take. case_bool_decide as Hlt.
  - replace (_ <? _) with true by (symmetry; apply Nat.ltb_lt; lia). rewrite (proj2 (stream_chunks_tokens _)). done.
  - replace (_ <? _) with false by (symmetry; apply Nat.ltb_ge; lia). by rewrite (proj1 (stream_chunks_tokens _)).
Qed.
End streams.

(** ** Runs *)

Section settle.
Context {R E : Type} `{!AgentEnv R E}.
Context (parse_chunk : string → option chunk).
Context (MAX_AGENT_HISTORY : nat) (MAX_AGENT_RUNTIME : Z) (uuid8 : nat → string) (clock : nat → Z).
Local Abbreviation W := (R * ((registry * nat) * E))%type.
Local Abbreviation _run_agent := (_run_agent parse_chunk MAX_AGENT_HISTORY).
Local Abbreviation spawn_and_run := (spawn_and_run parse_chunk MAX_AGENT_HISTORY MAX_AGENT_RUNTIME uuid8 clock).

Definition agents (w : W) : registry := w.2.1.1.
Definition agent_at (aid : string) (w : W) : option agent := dict_get aid (agents w).

(** What identifies an agent never changes. *)
Definition ident (a : agent) : string * string * string * Z :=
  (a_agent_id a, a_role a, a_session_id a, a_created_at a).

(** The registry changes at most in the entry of [aid], which stays that agent. *)
Definition touches (aid : string) : relation W := λ w w',
  w'.2.1.2 = w.2.1.2 ∧
  (∀ k, k ≠ aid → agent_at k w' = agent_at k w) ∧
  (∀ a, agent_at aid w = Some a → ∃ a', agent_at aid w' = Some a' ∧ ident a' = ident a).

#[local] Instance touches_preorder aid : PreOrder (touches aid).
Proof.
  split; [intros w; split_and!; [done|done|eauto]|].
  intros w1 w2 w3 (Hn1 & Ho1 & Ha1) (Hn2 & Ho2 & Ha2). split_and!; [congruence| |].
  - intros k Hk. rewrite Ho2 by done. auto.
  - intros a Ha. destruct (Ha1 a Ha) as (a' & Ha' & Hi'). destruct (Ha2 a' Ha') as (a'' & ? & ?).
    exists a''. split; [done|congruence].
Qed.

Lemma touches_same aid (w w' : W) : w'.2.1 = w.2.1 → touches aid w w'.
Proof. unfold touches, agent_at, agents. intros ->. eauto. Qed.

Local Abbreviation stays aid := (respects (touches aid)).

Lemma stays_get aid k : stays aid (get_a k).
Proof. intros w. apply touches_same. unfold get_a. by destruct (dict_get _ _). Qed.

Lemma stays_env {B} aid (m : M (R * E) B) : stays aid (on_env m).
Proof. intros w. apply touches_same. unfold on_env. by destruct (m _) as [[r e] b]. Qed.

Lemma stays_rest aid f : stays aid (on_rest f).
Proof. intros w. by apply touches_same. Qed.

Lemma agent_at_upd aid f (w : W) k :
  agent_at k ((on_registry (upd_agent aid f) w).1) =
  if decide (k = aid) then f <$> agent_at k w else agent_at k w.
Proof.
  unfold agent_at, agents, upd_agent. cbn. destruct (dict_get aid _) as [a|] eqn:Ea.
  - rewrite dict_get_set. case_decide; [by subst; rewrite Ea|done].
  - case_decide; [by subst; rewrite Ea|done].
Qed.

Lemma stays_upd aid f : (∀ a, ident (f a) = ident a) → stays aid (on_registry (upd_agent aid f)).
Proof.
  intros Hf w. split_and!; [done| |].
  - intros k Hk. rewrite agent_at_upd. by rewrite decide_False.
  - intros a Ha. rewrite agent_at_upd, decide_True, Ha by done. cbn. eauto.
Qed.

Lemma stays_publish aid sid ev : stays aid (publish_if_wired sid ev).
Proof. unfold publish_if_wired. destruct env_bus_wired; [apply stays_env|apply (respects_ret _)]. Qed.

Lemma stays_consume aid raw : stays aid (consume parse_chunk aid raw).
Proof.
  unfold consume. apply respects_bind; [apply _|apply stays_get|]. intros a. apply respects_bind; [apply _|by apply stays_upd|]. intros [].
  destruct raw as [|? [e|]]; first [apply (respects_ret _)|apply (respects_raise _)].
Qed.

#[local] Hint Resolve respects_try respects_ret respects_raise stays_get stays_env stays_rest stays_upd
  stays_publish stays_consume : stays.
#[local] Hint Extern 1 (PreOrder _) => apply _ : stays.

Lemma stays_run aid task ctx : stays aid (_run_agent aid task ctx).
Proof. unfold AgentManager._run_agent. repeat (apply respects_bind; [apply _|auto with stays|intros]). auto with stays. Qed.

(** A result and the registered agent tell the same. *)
Definition agrees (r : agent_result) (a : agent) : Prop :=
  ar_agent_id r = a_agent_id a ∧ ar_role r = a_role a ∧ ar_model r = a_model a ∧
  ar_status r = a_status a ∧ ar_result r = a_result a ∧ ar_error r = a_error a ∧
  match a_status a with
  | Done => is_Some (a_result a) ∧ a_error a = None
  | AFailed | Killed => a_result a = None ∧ is_Some (a_error a)
  | Idle | ARunning => False
  end.

Lemma get_a_at aid (w : W) a : agent_at aid w = Some a → get_a aid w = (w, Ok a).
Proof. unfold get_a, agent_at, agents. by intros ->. Qed.

Lemma on_env_agents {B} (m : M (R * E) B) w : (on_env m w).1.2.1 = w.2.1.
Proof. unfold on_env. by destruct (m _) as [[r e] b]. Qed.

Lemma publish_agents sid ev (w : W) : (publish_if_wired sid ev w).1.2.1 = w.2.1.
Proof. unfold publish_if_wired. destruct env_bus_wired; [apply on_env_agents|done]. Qed.

(** The calls that report a failure: the failure pattern and the bus event. *)
Definition reports_never_raise : Prop :=
  (∀ sid aid t e ap (w : R * E), is_ok (env_record_failure sid aid t e ap w).2 = true) ∧
  (∀ sid ev (w : R * E), is_ok (env_publish_event sid ev w).2 = true).

(** The part of [fail_agent] after the registry update leaves the registry. *)
Lemma fail_agent_tail {B} aid sid f (m : M (R * E) unit) ev (k : agent → B) (w : W) a :
  agent_at aid w = Some a →
  let '(w', r) := (do! on_rest f in do! on_env m in do! publish_if_wired sid ev in
                   let! a := get_a aid in mret (k a)) w in
  w'.2.1 = w.2.1 ∧ (r = Ok (k a) ∨ ∃ e, r = Raise e) ∧
  ((∀ w, is_ok (m w).2 = true) → reports_never_raise → is_ok r = true).
Proof.
  intros Ha. unfold mbind, on_rest, mmodify. set (w1 := (w.1, _)).
  pose proof (on_env_agents m w1) as H1. destruct (on_env m w1) as [w2 [[]|e]] eqn:E1; cbn in H1.
  2:{ split_and!; [done|by eauto|]. intros Hm _. unfold on_env in E1.
      pose proof (Hm (w1.1, w1.2.2)) as H. by destruct (m _) as [[r0 e0] [b|e']]; simplify_eq/=. }
  pose proof (publish_agents sid ev w2) as H2.
  destruct (publish_if_wired sid ev w2) as [w3 [[]|e]] eqn:E2; cbn in H2.
  2:{ split_and!; [by rewrite H2, H1|by eauto|]. intros _ [_ Hp]. unfold publish_if_wired, on_env in E2.
      destruct env_bus_wired; [|by injection E2]. pose proof (Hp sid ev (w2.1, w2.2.2)) as H.
      by destruct (env_publish_event _ _ _) as [[r0 e0] [b|e']]; simplify_eq/=. }
  rewrite (get_a_at _ _ a).
  - split_and!; [cbn; by rewrite H2, H1|by left|done].
  - unfold agent_at, agents in *. by rewrite H2, H1.
Qed.

Lemma fail_agent_settles aid role sid task s sn err reason (w : W) a :
  agent_at aid w = Some a →
  let '(w', r) := fail_agent clock aid role sid task s sn err reason w in
  (∃ now, agent_at aid w' = Some (_drain_outbox_sentinel (finish_agent now s None (Some err) a)) ∧
     match r with Ok res => res = AgentResult aid role (a_model a) None s (Some err) | Raise _ => True end) ∧
  touches aid w w' ∧ (reports_never_raise → is_ok r = true).
Proof.
  intros Ha. unfold fail_agent. unfold mbind at 1, mgets at 1. set (now := clock _). set (f := _ ∘ _).
  pose proof (agent_at_upd aid f w aid) as Hu. rewrite decide_True, Ha in Hu by done. cbn [fmap option_fmap option_map] in Hu.
  pose proof (stays_upd aid f ltac:(done) w) as Ht.
  set (w1 := (on_registry (upd_agent aid f) w).1) in *.
  assert (on_registry (upd_agent aid f) w = (w1, Ok tt)) as E1 by done.
  unfold mbind at 1. rewrite E1.
  pose proof (fail_agent_tail aid sid (env_record_metrics aid role 0 0 sid sn)
    (env_record_failure sid aid task err ("role=" +:+ role)) (work_failed sid aid err reason)
    (λ a, AgentResult aid role (a_model a) None s (Some err)) w1 (f a) Hu) as Htail.
  revert Htail. cbn beta. match goal with |- (let '(_, _) := ?t in _) → _ => destruct t as [w' r] end.
  intros Htail. destruct Htail as (Hw' & Hr & Hok). split_and!.
  - exists now. unfold agent_at, agents in *. rewrite Hw'. split; [done|]. by destruct Hr as [->|[e ->]].
  - etrans; [exact Ht|by apply touches_same].
  - intros Hp. apply Hok; [|done]. intros. apply Hp.
Qed.
(** What holds after the body of [spawn_and_run]. *)
Definition settled (aid : string) (w0 w' : W) (r : res agent_result) : Prop :=
  (∃ a, agent_at aid w' = Some a ∧ is_terminal a = true ∧ match r with Ok res => agrees res a | Raise _ => True end) ∧
  touches aid w0 w' ∧ (reports_never_raise → is_ok r = true).

Lemma fail_settled aid role sid task s sn err reason (w0 w : W) a :
  s = AFailed ∨ s = Killed →
  touches aid w0 w → agent_at aid w = Some a → a_agent_id a = aid → a_role a = role →
  let '(w', r) := fail_agent clock aid role sid task s sn err reason w in settled aid w0 w' r.
Proof.
  intros Hs Ht Ha Hid Hrole. pose proof (fail_agent_settles aid role sid task s sn err reason w a Ha) as H.
  destruct (fail_agent _ _ _ _ _ _ _ _ _ w) as [w' r]. destruct H as ((now & Ha' & Hr) & Ht' & Hok).
  split_and!; [|by etrans|done]. eexists. split_and!; [exact Ha'|by destruct Hs as [-> | ->]|].
  destruct r as [res|]; [|done]. subst res. unfold agrees. cbn. destruct Hs as [-> | ->]; by eauto 10.
Qed.

Lemma body_settled aid role sid task ctx (w : W) a :
  agent_at aid w = Some a → a_agent_id a = aid → a_role a = role →
  let '(w', r) := mtry (let! result := _run_agent aid task ctx in
        let! now := mgets (λ w, clock w.2.1.2) in
        do! on_registry (upd_agent aid (_drain_outbox_sentinel ∘ finish_agent now Done (Some result) None)) in
        let! a := get_a aid in
        mret (AgentResult aid role (a_model a) (Some result) Done None))
       (λ e, match e with
             | TimeoutError =>
                 fail_agent clock aid role sid task Killed "killed"
                   ("Timed out after " +:+ pretty MAX_AGENT_RUNTIME +:+ "s") "timeout"
             | _ => fail_agent clock aid role sid task AFailed "failed" (exn_str e) "exception"
             end) w in
  settled aid w w' r.
Proof.
  intros Ha Hid Hrole. unfold mtry. unfold mbind at 1. pose proof (stays_run aid task ctx w) as Ht.
  destruct (_run_agent aid task ctx w) as [w1 [result|e]]; cbn [fst] in Ht; destruct Ht as (Hn & Ho & Ha1);
    destruct (Ha1 a Ha) as (a1 & Ha1' & [= Hi1 Hi2 _ _]);
    assert (touches aid w w1) as Ht by (split_and!; auto).
  - unfold mbind at 1, mgets at 1. set (f := _ ∘ _).
    pose proof (agent_at_upd aid f w1 aid) as Hu. rewrite decide_True, Ha1' in Hu by done.
    pose proof (stays_upd aid f ltac:(done) w1) as Ht2.
    set (w2 := (on_registry (upd_agent aid f) w1).1) in *.
    assert (on_registry (upd_agent aid f) w1 = (w2, Ok tt)) as E1 by done.
    unfold mbind at 1. rewrite E1. unfold mbind. rewrite (get_a_at _ _ (f a1)) by done.
    split_and!; [|by etrans|done]. exists (f a1). split_and!; [done|done|]. unfold agrees. cbn.
    split_and!; congruence || eauto.
  - assert (a_agent_id a1 = aid) by congruence. assert (a_role a1 = role) by congruence.
    destruct e; (eapply fail_settled; [|exact Ht|exact Ha1'|done|done]); eauto.
Qed.

(** C4: [spawn_and_run] registers a new agent and leaves every other one
    alone; when it is over, with a result or an exception, the agent is in a
    terminal status, and a result says exactly what the registered agent says:
    [done] with a text and no error, or [failed] or [killed] with an error and
    no text.  It returns a result whenever the calls that report a failure do
    not raise, whatever the model, the context and the router do. *)
Theorem spawn_and_run_settles role task sid ctx (w : W) :
  let aid := role +:+ "-" +:+ uuid8 w.2.1.2 in
  let '(w', r) := spawn_and_run role task sid ctx w in
  (∃ a, agent_at aid w' = Some a ∧ is_terminal a = true ∧
        match r with Ok res => agrees res a | Raise _ => True end) ∧
  (∀ k, k ≠ aid → agent_at k w' = agent_at k w) ∧
  (reports_never_raise → is_ok r = true).
Proof.
  cbn zeta. set (aid := role +:+ _). unfold AgentManager.spawn_and_run, _new_agent.
  unfold mbind at 1. fold aid. set (w1 := (w.1, _)).
  unfold mbind at 1, mgets at 1. set (f := start_agent _ _).
  assert (agent_at aid w1 = Some (new_agent (clock w.2.1.2) aid role sid)) as Ha1.
  { unfold agent_at, agents. cbn. by rewrite dict_get_set, decide_True. }
  pose proof (agent_at_upd aid f w1 aid) as Hu. rewrite decide_True, Ha1 in Hu by done.
  assert (∀ k, k ≠ aid → agent_at k w1 = agent_at k w) as Hother.
  { intros k Hk. unfold agent_at, agents. cbn. by rewrite dict_get_set, decide_False. }
  pose proof (stays_upd aid f ltac:(done) w1) as Ht2.
  set (w2 := (on_registry (upd_agent aid f) w1).1) in *.
  assert (on_registry (upd_agent aid f) w1 = (w2, Ok tt)) as E1 by done.
  unfold mbind at 1. rewrite E1. unfold mbind at 1. unfold mtry at 1.
  set (reg := on_env (env_register_agent sid aid)).
  pose proof (stays_env aid (env_register_agent sid aid) w2 : touches aid w2 (reg w2).1) as Ht3.
  destruct Ht3 as (_ & Ho3 & Ha3). destruct (Ha3 _ Hu) as (a3 & Ha3' & [= Hi1 Hi2 _ _]).
  assert (∀ k, k ≠ aid → agent_at k (reg w2).1 = agent_at k w) as Ho.
  { intros k Hk. rewrite Ho3 by done. destruct Ht2 as (_ & Ho2 & _). rewrite Ho2 by done. auto. }
  destruct (reg w2) as [w3 [[]|e]]; cbn [fst] in *; cbn [mret];
    pose proof (body_settled aid role sid task ctx w3 a3 Ha3' Hi1 Hi2) as Hb;
    destruct (mtry _ _ w3) as [w' r]; destruct Hb as (Hex & (_ & Hob & _) & Hok);
    (split_and!; [done| |done]); intros k Hk; rewrite Hob by done; auto.
Qed.
End settle.

(** ** The agent manager as the runner of the task queue *)

Definition same_task_keys `{Redis R} {E} (w w' : R * E) : Prop :=
  ∀ k, is_task_key k = true → r_key w'.1 k = r_key w.1 k.

(** The calls of a run write no key of the task queue. *)
Class AgentEnvLaws (R E : Type) `{Redis R} `{AgentEnv R E} : Prop := {
  law_register_agent sid aid : respects same_task_keys (env_register_agent sid aid);
  law_resolve_model role sid : respects same_task_keys (env_resolve_model role sid);
  law_build_prompt task sys conv sid m : respects same_task_keys (env_build_prompt task sys conv sid m);
  law_dispatch role sid msgs : respects same_task_keys (env_dispatch role sid msgs);
  law_record_failure sid aid t e ap : respects same_task_keys (env_record_failure sid aid t e ap);
  law_publish_event sid ev : respects same_task_keys (env_publish_event sid ev)
}.

Section laws.
Context {R E : Type} `{!Redis R} `{!AgentEnv R E} `{!AgentEnvLaws R E}.
Context (parse_chunk : string → option chunk).
Context (MAX_AGENT_HISTORY : nat) (MAX_AGENT_RUNTIME : Z) (uuid8 : nat → string) (clock : nat → Z).
Local Abbreviation W := (R * ((registry * nat) * E))%type.

#[local] Instance same_task_keys_preorder : PreOrder (same_task_keys (R:=R) (E:=(registry * nat) * E)).
Proof. split; [done|]. intros w1 w2 w3 H1 H2 k Hk. rewrite H2 by done. auto. Qed.

Local Abbreviation keeps := (respects (S:=W) same_task_keys).

Lemma keeps_env {B} (m : M (R * E) B) : respects same_task_keys m → keeps (on_env m).
Proof.
  intros Hm w k Hk. unfold on_env. specialize (Hm (w.1, w.2.2) k Hk).
  by destruct (m _) as [[r e] b].
Qed.

Lemma keeps_registry f : keeps (on_registry f).
Proof. done. Qed.

Lemma keeps_rest f : keeps (on_rest f).
Proof. done. Qed.

Lemma keeps_get aid : keeps (get_a aid).
Proof. intros w k Hk. unfold get_a. by destruct (dict_get _ _). Qed.

Lemma keeps_gets {B} (f : W → B) : keeps (mgets f).
Proof. done. Qed.

Lemma keeps_publish sid ev : keeps (publish_if_wired sid ev).
Proof. unfold publish_if_wired. destruct env_bus_wired; [apply keeps_env, law_publish_event|done]. Qed.

#[local] Hint Resolve keeps_registry keeps_rest keeps_get keeps_gets keeps_publish keeps_env
  law_register_agent law_resolve_model law_build_prompt law_dispatch law_record_failure : stays.

Ltac keeps_tac :=
  repeat first
    [ apply respects_bind; [apply _| |intros]
    | apply respects_try; [apply _| |intros]
    | apply (respects_ret _) | apply (respects_raise _)
    | progress auto with stays
    | match goal with |- respects _ (match ?x with _ => _ end) => destruct x end ].

Lemma keeps_run aid task ctx : keeps (_run_agent parse_chunk MAX_AGENT_HISTORY aid task ctx).
Proof. unfold _run_agent, consume. keeps_tac. Qed.

Lemma keeps_fail aid role sid task s sn err reason : keeps (fail_agent clock aid role sid task s sn err reason).
Proof. unfold fail_agent. keeps_tac. Qed.

#[local] Hint Resolve keeps_run keeps_fail : stays.

Lemma keeps_spawn role task sid ctx :
  keeps (spawn_and_run parse_chunk MAX_AGENT_HISTORY MAX_AGENT_RUNTIME uuid8 clock role task sid ctx).
Proof. unfold spawn_and_run. apply respects_bind; [apply _|by intros w|]. intros aid. keeps_tac. Qed.

#[export] Instance AgentManagerRunnerLaws :
  AgentRunnerLaws R ((registry * nat) * E)
    (H0 := AgentManagerRunner parse_chunk MAX_AGENT_HISTORY MAX_AGENT_RUNTIME uuid8 clock).
Proof. constructor. intros role desc sid w k Hk. by apply keeps_spawn. Qed.
End laws.

(** ** A concrete run *)

Module Concrete.
#[local] Instance env : AgentEnv unit (list ws_event) :=
  {| env_register_agent _ _ := mret tt;
     env_resolve_model _ _ := mret "qwen";
     env_prompt_file _ := None;
     env_build_prompt task sys _ _ _ := mret [ChatMsg "system" (Some sys); ChatMsg "user" (Some task)];
     env_dispatch role _ _ := if bool_decide (role = "coder")
       then mret (RStream ["data: a"; ": ping"; "data: b"; "data: [DONE]"; "data: c"] None)
       else mraise TimeoutError;
     env_record_metrics _ _ _ _ _ _ e := e;
     env_record_failure _ _ _ _ _ := mret tt;
     env_bus_wired := true;
     env_publish_event _ ev := mmodify (λ w, (w.1, w.2 ++ [ev])) |}.

Definition parse (s : string) : option chunk := Some (Chunk [StreamChoice (Some s) None] None).
Definition run (role : string) :=
  spawn_and_run parse 10 60 (λ n, pretty n) (λ n, Z.of_nat n) role "t" "s" "" (tt, (([], 0), [])).

Example coder_run_ex : ar_result <$> (match (run "coder").2 with Ok r => Some r | Raise _ => None end) = Some (Some "ab").
Proof. by vm_compute. Qed.
Example tester_run_ex :
  (match (run "tester").2 with Ok r => ar_error r | Raise _ => None end) = Some "Timed out after 60s".
Proof. by vm_compute. Qed.

Lemma settles_witness :
  let '(w', r) := run "tester" in
  (∃ a, agent_at "tester-0" w' = Some a ∧ is_terminal a = true ∧
        match r with Ok res => agrees res a | Raise _ => True end) ∧
  (∀ k, k ≠ "tester-0" → agent_at k w' = None) ∧ is_ok r = true.
Proof.
  pose proof (spawn_and_run_settles parse 10 60 (λ n, pretty n) (λ n, Z.of_nat n) "tester" "t" "s" ""
                (tt, (([], 0), []))) as H.
  unfold run. destruct (spawn_and_run _ _ _ _ _ _ _ _ _ _) as [w' r]. destruct H as (H1 & H2 & H3).
  split_and!; [exact H1|exact H2|]. apply H3. by split.
Defined.
End Concrete.
