(* ===== verification/ModelRegistry.v ===== *)
(** * Configuration and model registry (orchestrator/config.py, model_registry.py)

    The routing part of the configuration with the profile detection, the
    model catalog, and the registry of the models found on disk.  The requests
    to Ollama and vLLM are the operations of a class; a failed one is an
    exception, as after [raise_for_status]. *)

From S2P Require Import Prelude PyStr.
Local Open Scope string_scope.
Local Open Scope list_scope.
Local Open Scope nat_scope.
Local Open Scope py_scope.

(** ** Configuration *)

Record config := Config {
  PROFILE : string;
  OLLAMA_URL : string; CODER_URL : string; ARCHITECT_URL : string; REVIEWER_URL : string;
  OLLAMA_MODEL : string; CODER_MODEL : string; ARCHITECT_MODEL : string; REVIEWER_MODEL : string;
  SHARED_MODEL : string
}.

Definition FALLBACK_ORDER (c : config) : list string :=
  [CODER_URL c; ARCHITECT_URL c; REVIEWER_URL c; OLLAMA_URL c].

(** [_detect_profile]: the PROFILE variable, and the memory sizes nvidia-smi
    prints ([None] when it fails or prints no numbers). *)
Definition _detect_profile (requested : option string) (nvidia_smi : option (list Z)) : string :=
  let requested := default "laptop" requested in
  if negb (bool_decide (requested = "auto")) then requested
  else match nvidia_smi with
       | None => "laptop"
       | Some vrams =>
           let total_vram_mb := foldr Z.add 0%Z vrams in
           let gpu_count := length vrams in
           if (3 <=? gpu_count) && (120000 <=? total_vram_mb)%Z then "gpu"
           else if (1 <=? gpu_count) && (20000 <=? total_vram_mb)%Z then "gpu-shared"
           else "laptop"
       end.

(** ** Catalog *)

Record catalog_entry := CatalogEntry {
  ce_tags : list string;
  ce_context_length : Z;
  ce_vram_approx_gb : Z;
  ce_backend : list string;
  ce_display_name : string
}.

Definition DEFAULT_CONTEXT_LENGTH : Z := 32768.

Definition MODEL_CATALOG : list (string * catalog_entry) :=
  [("qwen2.5-coder:7b", CatalogEntry ["coder"; "tester"] 32768 6 ["ollama"] "Qwen2.5-Coder 7B");
   ("qwen2.5-coder:32b", CatalogEntry ["coder"; "tester"] 32768 20 ["ollama"] "Qwen2.5-Coder 32B");
   ("qwen3:8b", CatalogEntry ["architect"; "coder"; "documenter"] 32768 6 ["ollama"] "Qwen3 8B");
   ("qwen3:14b", CatalogEntry ["architect"; "reviewer"; "documenter"] 32768 10 ["ollama"] "Qwen3 14B");
   ("qwen3:32b", CatalogEntry ["architect"; "reviewer"; "documenter"] 32768 20 ["ollama"] "Qwen3 32B");
   ("nomic-embed-text", CatalogEntry ["embedding"] 8192 1 ["ollama"] "Nomic Embed Text");
   ("Qwen/Qwen3-Coder-Next-80B-A3B-Instruct",
      CatalogEntry ["coder"; "tester"] 32768 46 ["vllm"] "Qwen3-Coder-Next 80B");
   ("Qwen/Qwen3.5-35B-A3B", CatalogEntry ["architect"; "documenter"] 65536 20 ["vllm"] "Qwen3.5 35B");
   ("Qwen/QwQ-32B", CatalogEntry ["reviewer"] 32768 20 ["vllm"] "QwQ 32B");
   ("Qwen/Qwen3-Embedding-0.6B", CatalogEntry ["embedding"] 8192 1 ["vllm"] "Qwen3 Embedding 0.6B")].

Definition ROLE_TAG_MAP : list (string * list string) :=
  [("architect", ["architect"]); ("coder", ["coder"]); ("reviewer", ["reviewer"]);
   ("tester", ["tester"; "coder"]); ("documenter", ["documenter"; "architect"])].

Definition ALL_ROLES : list string := ROLE_TAG_MAP.*1.

(** ** The registry *)

Record model_registry := ModelRegistry {
  mr_on_disk : gset string;
  mr_available : list (string * list string)
}.

Record model_info := ModelInfo { mi_name : string; mi_entry : catalog_entry; mi_on_disk : bool }.

(** The key [(not on_disk, display_name)], compared as Python compares tuples. *)
Definition info_le (a b : model_info) : Prop :=
  match mi_on_disk a, mi_on_disk b with
  | true, false => True
  | false, true => False
  | _, _ => String.le (ce_display_name (mi_entry a)) (ce_display_name (mi_entry b))
  end.

#[export] Instance info_le_dec : RelDecision info_le.
Proof. intros a b. unfold info_le. destruct (mi_on_disk a), (mi_on_disk b); apply _. Defined.

Definition model_info_of (g : model_registry) (p : string * catalog_entry) : model_info :=
  ModelInfo p.1 p.2 (bool_decide (p.1 ∈ mr_on_disk g)).

Definition get_models_for_role (role : string) (g : model_registry) : list model_info :=
  match default [] (dict_get role ROLE_TAG_MAP) with
  | [] => []
  | required_tags =>
      merge_sort info_le
        (model_info_of g <$>
           List.filter (λ p, existsb (λ t, bool_decide (t ∈ required_tags)) (ce_tags p.2)) MODEL_CATALOG)
  end.

Definition get_context_length (model_name : string) : Z :=
  match dict_get model_name MODEL_CATALOG with
  | Some e => ce_context_length e
  | None => DEFAULT_CONTEXT_LENGTH
  end.

Definition is_on_disk (model_name : string) (g : model_registry) : bool :=
  bool_decide (model_name ∈ mr_on_disk g).

Definition catalog_with_status (g : model_registry) : list model_info :=
  merge_sort info_le (model_info_of g <$> MODEL_CATALOG).

(** ** Detection and pull *)

Class ModelHttp (E : Type) := {
  get_tags : string → M E (list string);      (* GET .../api/tags: the names *)
  get_models : string → M E (list string);    (* GET .../models: the ids *)
  post_pull : string → string → M E unit      (* POST .../api/pull *)
}.

Section registry.
Context {E : Type} `{!ModelHttp E} (cfg : config).
Local Abbreviation W := (model_registry * E)%type.

Definition on_http {B} (m : M E B) : M W B := λ w,
  let '(e, b) := m w.2 in ((w.1, e), b).

Definition _detect_ollama : M W (option (list string)) :=
  mtry (let! models := on_http (get_tags (rstrip_char "/" (OLLAMA_URL cfg) +:+ "/api/tags")) in
        mret (Some models)) (λ _, mret None).

Definition _detect_vllm (base_url : string) : M W (option (list string)) :=
  mtry (let! models := on_http (get_models (rstrip_char "/" base_url +:+ "/models")) in
        mret (Some models)) (λ _, mret None).

(** [results.setdefault("vllm", []).extend(models)]. *)
Definition extend_vllm (results : list (string * list string)) (models : option (list string))
    : list (string * list string) :=
  match models with
  | None => results
  | Some ms => dict_set "vllm" (default [] (dict_get "vllm" results) ++ ms) results
  end.

Definition detect_available : M W (list (string * list string)) :=
  let! ollama_models := _detect_ollama in
  let results := match ollama_models with Some ms => [("ollama", ms)] | None => [] end in
  let! coder := _detect_vllm (CODER_URL cfg) in
  let! architect := _detect_vllm (ARCHITECT_URL cfg) in
  let! reviewer := _detect_vllm (REVIEWER_URL cfg) in
  let results := extend_vllm (extend_vllm (extend_vllm results coder) architect) reviewer in
  do! mmodify (λ w, (ModelRegistry (list_to_set (mjoin results.*2)) results, w.2)) in
  mret results.

(** An error status of the pull is an [HTTPException]. *)
Definition pull_model (name : string) : M W unit :=
  match dict_get name MODEL_CATALOG with
  | None => mraise (ValueError ("Model " +:+ repr name +:+ " is not in the catalog"))
  | Some entry =>
      if negb (bool_decide ("ollama" ∈ ce_backend entry))
      then mraise (ValueError ("Model " +:+ repr name +:+ " uses backend " +:+ list_repr (ce_backend entry) +:+
                                " — only Ollama models can be pulled via this endpoint"))
      else mtry (do! on_http (post_pull (rstrip_char "/" (OLLAMA_URL cfg) +:+ "/api/pull") name) in
                 do! detect_available in mret tt)
                (λ e, mraise (RuntimeError
                  ((match e with HTTPException _ _ => "Ollama pull failed for " | _ => "Pull error for " end)
                   +:+ repr name +:+ ": " +:+ exn_str e)))
  end.
End registry.

(** ** Facts *)

Lemma elem_of_roles_model role g i :
  i ∈ get_models_for_role role g ↔
  ∃ e, (mi_name i, e) ∈ MODEL_CATALOG ∧ i = model_info_of g (mi_name i, e) ∧
       ∃ t, t ∈ ce_tags e ∧ t ∈ default [] (dict_get role ROLE_TAG_MAP).
Proof.
  unfold get_models_for_role. destruct (default [] _) as [|r rs] eqn:Er.
  - split; [set_solver|]. intros (e & _ & _ & t & _ & Ht). set_solver.
  - rewrite (merge_sort_Permutation info_le). rewrite list_elem_of_fmap. split.
    + intros (p & -> & [Hp Ht]%filter_In_elem). exists p.2. destruct p as [n e]. split_and!; [done|done|].
      apply existsb_exists in Ht as (t & Hin & Ht). apply bool_decide_eq_true in Ht.
      exists t. split; [by apply list_elem_of_In|done].
    + intros (e & Hin & Hi & t & Ht & Hr). exists (mi_name i, e). split; [done|].
      apply filter_In_elem. split; [done|]. apply existsb_exists. exists t.
      split; [by apply list_elem_of_In|]. by apply bool_decide_eq_true.
Qed.

Lemma info_le_total a b : info_le a b ∨ info_le b a.
Proof.
  unfold info_le. destruct (mi_on_disk a), (mi_on_disk b); auto; apply (total String.le).
Qed.

Lemma info_le_trans a b c : info_le a b → info_le b c → info_le a c.
Proof.
  unfold info_le. destruct (mi_on_disk a), (mi_on_disk b), (mi_on_disk c); try done; apply transitivity.
Qed.

#[export] Instance info_le_Total : Total info_le.
Proof. exact info_le_total. Qed.
#[export] Instance info_le_Trans : Transitive info_le.
Proof. exact info_le_trans. Qed.

Lemma detect_ollama_total {E} `{!ModelHttp E} cfg (w : model_registry * E) :
  ∃ e o, _detect_ollama cfg w = ((w.1, e), Ok o).
Proof.
  unfold _detect_ollama, mtry, mbind, on_http. destruct (get_tags _ w.2) as [e [ms|x]]; cbn; eauto.
Qed.

Lemma detect_vllm_total {E} `{!ModelHttp E} url (w : model_registry * E) :
  ∃ e o, _detect_vllm url w = ((w.1, e), Ok o).
Proof.
  unfold _detect_vllm, mtry, mbind, on_http. destruct (get_models _ w.2) as [e [ms|x]]; cbn; eauto.
Qed.

Lemma elem_of_extend_vllm results o b :
  b ∈ (extend_vllm results o).*1 ↔ b ∈ results.*1 ∨ (b = "vllm" ∧ is_Some o).
Proof.
  destruct o as [ms|]; cbn.
  - rewrite elem_of_dict_set_keys. naive_solver.
  - split; [by left|]. intros [?|[_ [? [=]]]]; done.
Qed.

(** ** Properties *)

(** The models offered for a role are exactly the catalog models with one of
    the role's tags, each once, those on disk first and by display name within
    each half; every role of the program has some. *)
Theorem models_for_role_correct role g :
  (∀ i, i ∈ get_models_for_role role g ↔
     ∃ e, (mi_name i, e) ∈ MODEL_CATALOG ∧ i = model_info_of g (mi_name i, e) ∧
          ∃ t, t ∈ ce_tags e ∧ t ∈ default [] (dict_get role ROLE_TAG_MAP)) ∧
  NoDup (mi_name <$> get_models_for_role role g) ∧
  StronglySorted info_le (get_models_for_role role g).
Proof.
  split; [apply elem_of_roles_model|]. unfold get_models_for_role.
  destruct (default [] _) as [|r rs]; [split; [apply NoDup_nil_2|constructor]|].
  split; [|apply (StronglySorted_merge_sort info_le); apply _].
  rewrite (merge_sort_Permutation info_le), <-list_fmap_compose.
  apply (sublist_NoDup _ MODEL_CATALOG.*1); [by apply (bool_decide_unpack (NoDup MODEL_CATALOG.*1)); vm_compute|].
  change (mi_name ∘ model_info_of g) with (fst (A:=string) (B:=catalog_entry)).
  apply fmap_sublist, filter_sublist.
Qed.

(** The detection never raises: a model is on disk afterwards exactly when one
    of the four endpoints that answered listed it. *)
Theorem detect_available_total {E} `{!ModelHttp E} cfg (w : model_registry * E) :
  ∃ g e, detect_available cfg w = ((g, e), Ok (mr_available g)) ∧
    (∀ m, is_on_disk m g = true ↔ ∃ b ms, (b, ms) ∈ mr_available g ∧ m ∈ ms) ∧
    (∀ b, b ∈ (mr_available g).*1 → b = "ollama" ∨ b = "vllm").
Proof.
  unfold detect_available. unfold mbind at 1.
  destruct (detect_ollama_total cfg w) as (e1 & o1 & ->). cbn [fst]. unfold mbind at 1.
  destruct (detect_vllm_total (CODER_URL cfg) (w.1, e1)) as (e2 & o2 & ->). cbn [fst]. unfold mbind at 1.
  destruct (detect_vllm_total (ARCHITECT_URL cfg) (w.1, e2)) as (e3 & o3 & ->). cbn [fst]. unfold mbind at 1.
  destruct (detect_vllm_total (REVIEWER_URL cfg) (w.1, e3)) as (e4 & o4 & ->). cbn [fst].
  unfold mbind, mmodify, mret. set (res := extend_vllm _ o4).
  eexists (ModelRegistry _ res), e4. split; [done|]. cbn [mr_available]. split.
  - intros m. unfold is_on_disk. cbn [mr_on_disk]. rewrite bool_decide_eq_true, elem_of_list_to_set.
    rewrite list_elem_of_join. setoid_rewrite list_elem_of_fmap. split.
    + intros (ms & Hm & (p & -> & Hp)). exists p.1, p.2. by destruct p.
    + intros (b & ms & Hp & Hm). exists ms. split; [done|]. by exists (b, ms).
  - intros b. unfold res. rewrite !elem_of_extend_vllm. destruct o1; cbn; set_solver.
Qed.
