(* ===== verification/RoutingPolicy.v ===== *)
(** * Routing policy (orchestrator/routing_policy.py)

    Which endpoint, model and backend serve a role in a session: the model
    configured for the session in Redis, else the default of the profile. *)

From S2P Require Import Prelude PyStr Models Redis SessionManager ModelRegistry.
Local Open Scope string_scope.
Local Open Scope list_scope.
Local Open Scope nat_scope.

Definition _backend_type (url : string) : string :=
  if contains "11434" url || contains "ollama" (lower url) then "ollama" else "vllm".

Section policy.
Context (cfg : config).

Definition _endpoint_for_model (model_name : string) : string :=
  let backends := match dict_get model_name MODEL_CATALOG with Some e => ce_backend e | None => [] end in
  if bool_decide ("ollama" ∈ backends) then OLLAMA_URL cfg
  else if bool_decide (PROFILE cfg = "gpu-shared") then CODER_URL cfg
  else if bool_decide (model_name = ARCHITECT_MODEL cfg) then ARCHITECT_URL cfg
  else if bool_decide (model_name = REVIEWER_MODEL cfg) then REVIEWER_URL cfg
  else CODER_URL cfg.

Definition _profile_endpoint (role : string) : string :=
  if bool_decide (PROFILE cfg = "laptop") then OLLAMA_URL cfg
  else if bool_decide (PROFILE cfg = "gpu-shared") then CODER_URL cfg
  else default (CODER_URL cfg) (dict_get role
         [("architect", ARCHITECT_URL cfg); ("coder", CODER_URL cfg); ("reviewer", REVIEWER_URL cfg);
          ("tester", CODER_URL cfg); ("documenter", ARCHITECT_URL cfg)]).

Definition _profile_model (role : string) : string :=
  if bool_decide (PROFILE cfg = "laptop") then OLLAMA_MODEL cfg
  else if bool_decide (PROFILE cfg = "gpu-shared") then SHARED_MODEL cfg
  else default (CODER_MODEL cfg) (dict_get role
         [("architect", ARCHITECT_MODEL cfg); ("coder", CODER_MODEL cfg); ("reviewer", REVIEWER_MODEL cfg);
          ("tester", CODER_MODEL cfg); ("documenter", ARCHITECT_MODEL cfg)]).

(** An endpoint, a model and a backend type. *)
Record route := Route { rt_endpoint : string; rt_model : string; rt_backend : string }.

Definition profile_route (role : string) : route :=
  Route (_profile_endpoint role) (_profile_model role) (_backend_type (_profile_endpoint role)).

Section resolve.
Context {R : Type} `{Redis R}.
(** Whether a Redis client was wired in, and whether it answers. *)
Context (has_redis redis_up : bool).

(** [redis.hget(k, f)]: an exception when Redis is down or the key is no hash. *)
Definition hget (k f : string) (r : R) : res (option string) :=
  if redis_up
  then match as_hash (r_key r k) with Some h => Ok (h !! f) | None => Raise (OtherError "WRONGTYPE") end
  else Raise (OtherError "connection error").

Definition resolve (role sid : string) (r : R) : route :=
  if has_redis && truthy sid && negb (bool_decide (sid = "default")) then
    match hget ("session:models:" +:+ sid) role r with
    | Ok (Some model_name) =>
        if truthy model_name
        then let endpoint := _endpoint_for_model model_name in
             Route endpoint model_name (_backend_type endpoint)
        else profile_route role
    | _ => profile_route role
    end
  else profile_route role.

Definition get_session_models (sid : string) (r : R) : gmap string string :=
  if negb has_redis then ∅
  else if redis_up then default ∅ (as_hash (r_key r ("session:models:" +:+ sid))) else ∅.
End resolve.
End policy.

(** ** Facts *)

Section facts.
Context {R : Type} `{RedisLaws R} (cfg : config).
Implicit Types r : R.

Lemma resolve_backend has_redis redis_up role sid r :
  rt_backend (resolve cfg has_redis redis_up role sid r)
  = _backend_type (rt_endpoint (resolve cfg has_redis redis_up role sid r)).
Proof. unfold resolve. repeat case_match; done. Qed.

End facts.

(** ** Properties *)

Section properties.
Context {R : Type} `{RedisLaws R} (cfg : config) (TTL : Z).
Implicit Types r : R.

Lemma configure_hash now sid mapping r r' st h :
  (0 < TTL)%Z → as_hash (r_key r (_models_key sid)) = Some h →
  configure_models TTL now sid mapping r = (r', Ok st) →
  r_key r' (_models_key sid) = Some (DHash (mapping ∪ h)).
Proof.
  intros HTTL Hh. unfold configure_models, mbind, hset_models, mget. case_bool_decide; [done|].
  set (r1 := r_hset _ _ r).
  assert (r_key r1 (_models_key sid) = Some (DHash (mapping ∪ h))) as Hr1.
  { unfold r1. rewrite (key_hset _ _ h) by done. by rewrite decide_True. }
  destruct (_read_state sid r1) as [st0|].
  - unfold write_state. destruct (_write_state _ _ _ _) as [r2 st2] eqn:Hw. intros [= <- <-].
    replace r2 with (_write_state TTL now (with_models (mapping ∪ ss_models st0) st0) r1).1 by by rewrite Hw.
    rewrite write_key by done. rewrite decide_False by apply models_key_ne_state_key. done.
  - unfold mmodify, mret. intros [= <- <-]. by rewrite key_expire.
Qed.

(** A model configured for a role of a session (other than the session
    "default") is what the policy resolves for that role from then on, on the
    endpoint that serves it; a role that was not configured resolves as
    before. *)
Theorem configured_model_is_routed now sid mapping role r r' st :
  (0 < TTL)%Z → sid ≠ "" → sid ≠ "default" → is_Some (as_hash (r_key r (_models_key sid))) →
  configure_models TTL now sid mapping r = (r', Ok st) →
  resolve cfg true true role sid r' =
    match mapping !! role with
    | Some m => if truthy m then Route (_endpoint_for_model cfg m) m (_backend_type (_endpoint_for_model cfg m))
                else profile_route cfg role
    | None => resolve cfg true true role sid r
    end.
Proof.
  intros HTTL Hs Hd [h Hh] Hc. pose proof (configure_hash _ _ _ _ _ _ h HTTL Hh Hc) as Hk.
  unfold resolve, hget. change ("session:models:" +:+ sid) with (_models_key sid).
  rewrite (proj2 (truthy_true sid)) by done. rewrite bool_decide_eq_false_2 by done. cbn [negb andb].
  rewrite Hk, Hh. cbn [as_hash]. rewrite lookup_union. by destruct (mapping !! role), (h !! role).
Qed.
End properties.

Module Concrete.
Definition cfg : config :=
  Config "gpu" "http://ollama:11434" "http://vllm-coder:8000/v1" "http://vllm-architect:8000/v1"
    "http://vllm-reviewer:8000/v1" "qwen2.5-coder:7b" "Qwen/Qwen3-Coder-Next-80B-A3B-Instruct"
    "Qwen/Qwen3.5-35B-A3B" "Qwen/QwQ-32B" "Qwen/Qwen3-Coder-Next-80B-A3B-Instruct".
Definition configured : store * res session_state :=
  configure_models 60 0 "s" {["coder" := "qwen3:8b"]} (∅ : store).

Lemma routed_witness :
  resolve cfg true true "coder" "s" configured.1 = Route "http://ollama:11434" "qwen3:8b" "ollama".
Proof.
  destruct configured as [r' [st|e]] eqn:Hc; [|by vm_compute in Hc].
  cbn [fst]. rewrite (configured_model_is_routed cfg 60 0 "s" {["coder" := "qwen3:8b"]} "coder" ∅ r' st);
    [by vm_compute|done|done|done|by eexists|exact Hc].
Defined.
End Concrete.
