(* ===== verification/Config.v ===== *)
(** * Configuration (orchestrator/config.py, executor/main.py)

    What the processes read from their environment when they start: the model
    servers and profile, the limits and the command list of the executor.  An
    environment is a finite map of strings; the program nvidia-smi is its
    output.  [int] reads ASCII digits only, without the bound of the interpreter
    on very long literals.  The resource limits of a child process go through
    the kernel's [setrlimit], a parameter. *)

From S2P Require Import Prelude PyStr Paths Redis Interfaces TaskQueue TaskQueueProps ModelRegistry Executor.
Local Open Scope string_scope.
Local Open Scope list_scope.
Local Open Scope nat_scope.
Local Open Scope py_scope.

(** ** Lists *)

(** [s.split(",")]. *)
Fixpoint split_char (x : ascii) (s : string) : list string :=
  match s with
  | "" => [""]
  | String c s' => if bool_decide (c = x) then "" :: split_char x s' else push_char c (split_char x s')
  end.

(** ** The environment *)
Definition env := gmap string string.

Definition getenv (name fallback : string) (e : env) : string := default fallback (e !! name).
Definition str_env (name fallback : string) : M env string := mgets (getenv name fallback).
Definition int_env (name fallback : string) : M env Z :=
  let! v := str_env name fallback in
  match py_int v with
  | Some z => mret z
  | None => mraise (ValueError ("invalid literal for int() with base 10: " +:+ repr v))
  end.

(** ** orchestrator/config.py *)

(** The numbers of the output of nvidia-smi; [None] when it is not available or
    one is no number. *)
Definition parse_vrams (out : string) : option (list Z) :=
  mapM (λ v, py_int (strip v)) (List.filter (λ v, truthy (strip v)) (splitlines (strip out))).

Definition detect_profile (nvidia_smi : option string) (e : env) : string :=
  _detect_profile (e !! "PROFILE") (nvidia_smi ≫= parse_vrams).

Definition load_models (nvidia_smi : option string) : M env config :=
  let! profile := mgets (detect_profile nvidia_smi) in
  let! ollama_url := str_env "OLLAMA_URL" "http://ollama:11434" in
  let! coder_url := str_env "CODER_URL" "http://vllm-coder:8000/v1" in
  let! architect_url := str_env "ARCHITECT_URL" "http://vllm-architect:8000/v1" in
  let! reviewer_url := str_env "REVIEWER_URL" "http://vllm-reviewer:8000/v1" in
  let! ollama_model := str_env "OLLAMA_MODEL" "qwen2.5-coder:7b" in
  let! coder_model := str_env "CODER_MODEL" "Qwen/Qwen3-Coder-Next-80B-A3B-Instruct" in
  let! architect_model := str_env "ARCHITECT_MODEL" "Qwen/Qwen3.5-35B-A3B" in
  let! reviewer_model := str_env "REVIEWER_MODEL" "Qwen/QwQ-32B" in
  let! shared_model := str_env "SHARED_MODEL" "Qwen/Qwen3-Coder-Next-80B-A3B-Instruct" in
  mret (ModelRegistry.Config profile ollama_url coder_url architect_url reviewer_url
          ollama_model coder_model architect_model reviewer_model shared_model).

Record settings := Settings {
  models : config;
  MAX_CONTEXT_TOKENS : Z; MAX_DEBATE_ROUNDS : Z; MAX_AGENT_RUNTIME : Z;
  REDIS_URL : string; CHROMA_URL : string; EXECUTOR_URL : string; EMBED_MODEL : string;
  MAX_FIX_ATTEMPTS : Z; MAX_PARALLEL_AGENTS : Z;
  GITHUB_WEBHOOK_SECRET : string; GITHUB_TOKEN : string; GITHUB_REPO : string;
  N_FAILURES_THRESHOLD : Z; TRAINING_DATA_PATH : string;
  MAX_AGENT_HISTORY : Z; AGENT_IDLE_TIMEOUT : Z; AGENTS_DIR : string; MAX_PATCH_QUEUE_DEPTH : Z;
  EMBED_CACHE_MAX_SIZE : Z; MAX_EXECUTOR_CONCURRENCY : Z; MODEL_CALL_TIMEOUT : Z;
  SESSION_MODELS_TTL : Z; TASK_LEASE_TTL : Z; USE_LITELLM : bool; SESSION_TTL : Z;
  WS_HEARTBEAT_INTERVAL : Z; BUS_EVENT_TTL : Z; AICAF_URL : string
}.

Definition load_settings (nvidia_smi : option string) : M env settings :=
  let! models := load_models nvidia_smi in
  let! context_tokens := int_env "MAX_CONTEXT_TOKENS" "24000" in
  let! debate_rounds := int_env "MAX_DEBATE_ROUNDS" "3" in
  let! agent_runtime := int_env "MAX_AGENT_RUNTIME" "300" in
  let! redis_url := str_env "REDIS_URL" "redis://redis:6379" in
  let! chroma_url := str_env "CHROMA_URL" "http://chromadb:8000" in
  let! executor_url := str_env "EXECUTOR_URL" "http://executor:9001" in
  let! embed_model := str_env "EMBED_MODEL" "Qwen/Qwen3-Embedding-0.6B" in
  let! fix_attempts := int_env "MAX_FIX_ATTEMPTS" "3" in
  let! parallel_agents := int_env "MAX_PARALLEL_AGENTS" "3" in
  let! webhook_secret := str_env "GITHUB_WEBHOOK_SECRET" "" in
  let! github_token := str_env "GITHUB_TOKEN" "" in
  let! github_repo := str_env "GITHUB_REPO" "" in
  let! failures := int_env "N_FAILURES_THRESHOLD" "3" in
  let! training_data := str_env "TRAINING_DATA_PATH" "/app/memory/training_data.jsonl" in
  let! agent_history := int_env "MAX_AGENT_HISTORY" "20" in
  let! idle_timeout := int_env "AGENT_IDLE_TIMEOUT" "3600" in
  let! agents_dir := str_env "AGENTS_DIR" "/app/agents" in
  let! queue_depth := int_env "MAX_PATCH_QUEUE_DEPTH" "50" in
  let! cache_size := int_env "EMBED_CACHE_MAX_SIZE" "1000" in
  let! concurrency := int_env "MAX_EXECUTOR_CONCURRENCY" "2" in
  let! call_timeout := int_env "MODEL_CALL_TIMEOUT" "120" in
  let! models_ttl := int_env "SESSION_MODELS_TTL" "86400" in
  let! lease_ttl := int_env "TASK_LEASE_TTL" "600" in
  let! litellm := str_env "USE_LITELLM" "false" in
  let! session_ttl := int_env "SESSION_TTL" "604800" in
  let! heartbeat := int_env "WS_HEARTBEAT_INTERVAL" "30" in
  let! event_ttl := int_env "BUS_EVENT_TTL" "3600" in
  let! aicaf_url := str_env "AICAF_URL" "http://localhost:9000" in
  mret (Settings models context_tokens debate_rounds agent_runtime redis_url chroma_url executor_url embed_model
          fix_attempts parallel_agents webhook_secret github_token github_repo failures training_data
          agent_history idle_timeout agents_dir queue_depth cache_size concurrency call_timeout
          models_ttl lease_ttl (bool_decide (lower litellm = "true")) session_ttl heartbeat event_ttl aicaf_url).

(** ** executor/main.py *)
Record executor_settings := ExecutorSettings {
  xs_workspace : path; xs_timeout : Z; xs_allowed : list string
}.

(** The set of the entries, as a list without duplicates. *)
Definition allowed_commands (raw : string) : list string := remove_dups (strip <$> split_char ","%char raw).

(** A relative workspace is under the directory the process started in. *)
Definition load_executor (cwd : path) : M env executor_settings :=
  let! workspace := str_env "WORKSPACE_DIR" "/workspace" in
  let! timeout := int_env "COMMAND_TIMEOUT" "120" in
  let! raw := str_env "ALLOWED_COMMANDS" "pytest,npm,node,cargo,go,make,git,bash,sh,cat,ls,find,grep" in
  mret (ExecutorSettings (resolve (join_path cwd workspace)) timeout (allowed_commands raw)).

Inductive rlimit := RLIMIT_CPU | RLIMIT_FSIZE | RLIMIT_NOFILE.

(** [preexec_fn] of a child process: a limit the kernel refuses is logged. *)
Definition _apply_execution_limits {X} (setrlimit : rlimit → Z * Z → M X unit) : M X unit :=
  mtry
    (do! setrlimit RLIMIT_CPU (60, 60)%Z in
     do! setrlimit RLIMIT_FSIZE (500 * 1024 * 1024, 500 * 1024 * 1024)%Z in
     setrlimit RLIMIT_NOFILE (256, 256)%Z)
    (λ _, mret tt).

(** ** Numbers as text *)

(** A character of a printed number. *)
Definition plain (c : ascii) : bool := negb (is_space c) && negb (is_linebreak c) && negb (bool_decide (c = CR)).

Lemma pretty_char_plain x : (x < 10)%N → is_digit (pretty_N_char x) = true ∧ digit_value (pretty_N_char x) = Z.of_N x ∧
  plain (pretty_N_char x) = true.
Proof.
  intros Hx. assert (x = 0 ∨ x = 1 ∨ x = 2 ∨ x = 3 ∨ x = 4 ∨ x = 5 ∨ x = 6 ∨ x = 7 ∨ x = 8 ∨ x = 9)%N as H by lia.
  repeat (destruct H as [->|H]; [done|]). by subst.
Qed.

Lemma digits_go_char acc b x s : (x < 10)%N →
  int_digits acc b (String (pretty_N_char x) s) = int_digits (10 * acc + Z.of_N x) true s.
Proof. intros Hx. destruct (pretty_char_plain x Hx) as (Hd & Hv & _). cbn [int_digits]. by rewrite Hd, Hv. Qed.

Lemma pretty_go_digits (n : N) s b : (0 < n)%N →
  int_digits 0 b (pretty_N_go n s) = int_digits (Z.of_N n) true s ∧
  all_chars plain (pretty_N_go n s) = all_chars plain s.
Proof.
  revert s b. induction (N.lt_wf_0 n) as [n _ IH]. intros s b Hn. rewrite pretty_N_go_step by done.
  pose proof (N.mod_lt n 10 ltac:(done)) as Hm. pose proof (N.div_mod n 10 ltac:(done)) as Hdm.
  destruct (pretty_char_plain _ Hm) as (_ & _ & Hp).
  destruct (decide (0 < n `div` 10)%N) as [Hd|Hd].
  - destruct (IH (n `div` 10)%N ltac:(apply N.div_lt; lia) (String (pretty_N_char (n `mod` 10)) s) b Hd) as [-> ->].
    rewrite digits_go_char by done. split; [f_equal; lia|]. cbn. by rewrite Hp.
  - assert (n `div` 10 = 0)%N as E by lia. rewrite E, pretty_N_go_0, digits_go_char by done.
    split; [f_equal; lia|]. cbn. by rewrite Hp.
Qed.

Lemma unsigned_pretty (p : positive) : unsigned_int (pretty p) = Some (Z.pos p) ∧ all_chars plain (pretty p) = true.
Proof. destruct (pretty_go_digits (N.pos p) "" false ltac:(lia)) as [H1 H2]. split; [exact H1|exact H2]. Qed.

Lemma rstrip_plain s : all_chars plain s = true → rstrip s = s.
Proof.
  induction s as [|c s IH]; [done|]. cbn. intros [Hc Hs]%andb_prop. rewrite (IH Hs). destruct s; [|done].
  unfold plain in Hc. by destruct (is_space c).
Qed.

Lemma strip_plain s : all_chars plain s = true → strip s = s.
Proof.
  intros Hs. unfold strip. rewrite lstrip_id; [by apply rstrip_plain|]. destruct s as [|c s]; [done|].
  cbn in Hs. apply andb_prop in Hs as [Hc _]. unfold plain in Hc. by destruct (is_space c).
Qed.

Lemma unsigned_head s z : unsigned_int s = Some z → parse_int s = Some z.
Proof.
  destruct s as [|c s]; [done|]. intros Hu. cbn [parse_int].
  destruct (decide (c = "-"%char)) as [->|]; [done|]. destruct (decide (c = "+"%char)) as [->|]; [done|].
  by rewrite !bool_decide_eq_false_2.
Qed.

Lemma pretty_plain (z : Z) : all_chars plain (pretty z) = true.
Proof. destruct z as [|p|p]; [done|apply unsigned_pretty|]. exact (proj2 (unsigned_pretty p)). Qed.

(** [int(str(z)) == z]. *)
Lemma py_int_pretty (z : Z) : py_int (pretty z) = Some z.
Proof.
  unfold py_int. rewrite (strip_plain _ (pretty_plain z)). destruct z as [|p|p]; [done|apply unsigned_head, unsigned_pretty|].
  change (parse_int (pretty (Z.neg p))) with (Z.opp <$> unsigned_int (pretty p)). by rewrite (proj1 (unsigned_pretty p)).
Qed.

Lemma pretty_nonempty (z : Z) : truthy (pretty z) = true.
Proof. pose proof (py_int_pretty z) as H. by destruct (pretty z). Qed.

(** ** Start-up of the orchestrator *)

(** The integer settings: the variable, its default and the field. *)
Definition int_settings : list (string * string * (settings → Z)) :=
  [("MAX_CONTEXT_TOKENS", "24000", MAX_CONTEXT_TOKENS); ("MAX_DEBATE_ROUNDS", "3", MAX_DEBATE_ROUNDS);
   ("MAX_AGENT_RUNTIME", "300", MAX_AGENT_RUNTIME); ("MAX_FIX_ATTEMPTS", "3", MAX_FIX_ATTEMPTS);
   ("MAX_PARALLEL_AGENTS", "3", MAX_PARALLEL_AGENTS); ("N_FAILURES_THRESHOLD", "3", N_FAILURES_THRESHOLD);
   ("MAX_AGENT_HISTORY", "20", MAX_AGENT_HISTORY); ("AGENT_IDLE_TIMEOUT", "3600", AGENT_IDLE_TIMEOUT);
   ("MAX_PATCH_QUEUE_DEPTH", "50", MAX_PATCH_QUEUE_DEPTH); ("EMBED_CACHE_MAX_SIZE", "1000", EMBED_CACHE_MAX_SIZE);
   ("MAX_EXECUTOR_CONCURRENCY", "2", MAX_EXECUTOR_CONCURRENCY); ("MODEL_CALL_TIMEOUT", "120", MODEL_CALL_TIMEOUT);
   ("SESSION_MODELS_TTL", "86400", SESSION_MODELS_TTL); ("TASK_LEASE_TTL", "600", TASK_LEASE_TTL);
   ("SESSION_TTL", "604800", SESSION_TTL); ("WS_HEARTBEAT_INTERVAL", "30", WS_HEARTBEAT_INTERVAL);
   ("BUS_EVENT_TTL", "3600", BUS_EVENT_TTL)].

Definition setting_of (e : env) (s : settings) (k : string * string * (settings → Z)) : Prop :=
  py_int (getenv k.1.1 k.1.2 e) = Some (k.2 s).

Definition bad_setting (e : env) (x : exn) (k : string * string * (settings → Z)) : Prop :=
  py_int (getenv k.1.1 k.1.2 e) = None ∧
  x = ValueError ("invalid literal for int() with base 10: " +:+ repr (getenv k.1.1 k.1.2 e)).

Lemma bind_str_env {B} name fallback (k : string → M env B) e :
  mbind (str_env name fallback) k e = k (getenv name fallback e) e.
Proof. done. Qed.

Lemma bind_int_env {B} name fallback (k : Z → M env B) e :
  mbind (int_env name fallback) k e =
    match py_int (getenv name fallback e) with
    | Some z => k z e
    | None => (e, Raise (ValueError ("invalid literal for int() with base 10: " +:+ repr (getenv name fallback e))))
    end.
Proof. unfold int_env. unfold mbind at 1. rewrite bind_str_env. by destruct (py_int _). Qed.

Lemma bind_load_models {B} smi (k : config → M env B) e : ∃ c, mbind (load_models smi) k e = k c e.
Proof. by eexists. Qed.

(** C40: The orchestrator starts exactly when every integer variable that is set is
    a literal, and then each setting is the number its variable or its default
    writes; otherwise it raises for one of those that are not. *)
Theorem settings_from_environment smi e :
  ∃ r, load_settings smi e = (e, r) ∧
    match r with
    | Ok s => Forall (setting_of e s) int_settings
    | Raise x => Exists (bad_setting e x) int_settings
    end.
Proof.
  unfold load_settings. match goal with |- context [mbind (load_models smi) ?k e] =>
    destruct (bind_load_models smi k e) as [c ->] end.
  repeat first [rewrite bind_str_env
    | rewrite bind_int_env;
      match goal with |- context [match py_int (getenv ?k ?d e) with _ => _ end] =>
        destruct (py_int (getenv k d e)) eqn:? end;
      [|eexists; split; [reflexivity|];
        unfold int_settings; repeat first [apply Exists_cons_hd; split; [assumption|reflexivity] | apply Exists_cons_tl]]].
  eexists. split; [reflexivity|]. unfold int_settings. repeat (constructor; [assumption|]). constructor.
Qed.

(** A variable that is set to the decimal text of a number. *)
Lemma setting_of_decimal e s k z : setting_of e s k → e !! k.1.1 = Some (pretty z) → k.2 s = z.
Proof. unfold setting_of, getenv. intros Hk He. rewrite He in Hk. cbn in Hk. rewrite py_int_pretty in Hk. by injection Hk. Qed.

(** ** The profile *)

Lemma push_char_splitlines c s : plain c = true → splitlines (String c s) = push_char c (splitlines s).
Proof.
  unfold plain. intros [[_ Hl]%andb_prop Hc]%andb_prop. unfold splitlines. cbn.
  destruct (bool_decide (c = CR)); [done|]. by destruct (is_linebreak c).
Qed.

Lemma splitlines_plain a s : all_chars plain a = true → truthy a = true →
  splitlines (a +:+ nl +:+ s) = a :: splitlines s ∧ splitlines a = [a].
Proof.
  induction a as [|c a IH]; [done|]. cbn [all_chars]. intros [Hc Ha]%andb_prop _. rewrite sapp_cons.
  rewrite !push_char_splitlines by done. destruct a as [|d a]; [done|]. by destruct (IH Ha eq_refl) as [-> ->].
Qed.

Lemma splitlines_join (L : list string) :
  Forall (λ a, all_chars plain a = true ∧ truthy a = true) L → splitlines (join nl L) = L.
Proof.
  induction 1 as [|a L [Ha Ht] HL IH]; [done|]. destruct (splitlines_plain a (join nl L) Ha Ht) as [H1 H2].
  destruct L as [|b L]; [exact H2|]. change (splitlines (a +:+ nl +:+ join nl (b :: L)) = a :: b :: L). by rewrite H1, IH.
Qed.

Lemma rstrip_join (L : list string) :
  Forall (λ a, all_chars plain a = true ∧ truthy a = true) L → rstrip (join nl L +:+ nl) = join nl L.
Proof.
  induction 1 as [|a L [Ha Ht] HL IH]; [done|]. destruct L as [|b L].
  - cbn [join] in *. clear IH HL. induction a as [|c a IHa]; [done|]. cbn in Ha. apply andb_prop in Ha as [Hc Ha].
    rewrite sapp_cons. cbn [rstrip]. destruct a as [|d a].
    + cbn. unfold plain in Hc. by destruct (is_space c).
    + by rewrite (IHa Ha eq_refl).
  - change (join nl (a :: b :: L)) with (a +:+ nl +:+ join nl (b :: L)). rewrite !sapp_assoc.
    rewrite <-!(sapp_assoc a). rewrite rstrip_app; [by rewrite IH|]. rewrite IH.
    apply Forall_inv in HL as [_ Hb]. destruct b; [done|]. by destruct L.
Qed.

Lemma parse_printed_lines (vrams : list Z) : parse_vrams (join nl (pretty <$> vrams) +:+ nl) = Some vrams.
Proof.
  assert (Forall (λ a, all_chars plain a = true ∧ truthy a = true) (pretty <$> vrams)) as HF.
  { apply Forall_fmap, Forall_true. intros z. split; [apply pretty_plain|apply pretty_nonempty]. }
  unfold parse_vrams.
  assert (strip (join nl (pretty <$> vrams) +:+ nl) = join nl (pretty <$> vrams)) as ->.
  { unfold strip. destruct vrams as [|v vrams]; [done|]. rewrite lstrip_id; [by apply rstrip_join|].
    cbn in HF |- *. apply Forall_inv in HF as [Hp Ht]. destruct (pretty v) as [|c a]; [done|].
    cbn in Hp. apply andb_prop in Hp as [Hc _]. destruct vrams; cbn; rewrite ?sapp_cons; unfold plain in Hc; by destruct (is_space c). }
  rewrite (splitlines_join _ HF). clear HF. induction vrams as [|v vrams IH]; [done|].
  cbn [fmap list_fmap List.filter]. rewrite (strip_plain _ (pretty_plain v)), pretty_nonempty.
  cbn [mapM]. rewrite (strip_plain _ (pretty_plain v)), py_int_pretty. cbn. by rewrite IH.
Qed.

(** With PROFILE=auto the profile follows the memory sizes nvidia-smi prints,
    one per line. *)
Theorem auto_profile vrams e :
  e !! "PROFILE" = Some "auto" →
  let total := foldr Z.add 0%Z vrams in
  let profile := detect_profile (Some (join nl (pretty <$> vrams) +:+ nl)) e in
  (profile = "gpu" ↔ 3 ≤ length vrams ∧ (120000 ≤ total)%Z) ∧
  (profile = "gpu-shared" ↔ ¬ (3 ≤ length vrams ∧ (120000 ≤ total)%Z) ∧ 1 ≤ length vrams ∧ (20000 ≤ total)%Z) ∧
  profile ∈ ["gpu"; "gpu-shared"; "laptop"].
Proof.
  intros He total profile. subst profile. unfold detect_profile. rewrite He. cbn [stdpp.base.mbind option_bind].
  rewrite parse_printed_lines. unfold _detect_profile. cbn [default from_option id]. fold total.
  rewrite bool_decide_eq_true_2 by done. cbn [negb].
  destruct (Nat.leb_spec 3 (length vrams)), (Z.leb_spec 120000 total), (Nat.leb_spec 1 (length vrams)),
    (Z.leb_spec 20000 total); cbn; (split; [|split]); try (split; [intros ?; try done; lia|intros ?; try done; lia]);
    set_solver.
Qed.

(** ** Start-up of the executor *)

Lemma elem_of_allowed_commands c raw :
  c ∈ allowed_commands raw ↔ ∃ entry, entry ∈ split_char ","%char raw ∧ c = strip entry.
Proof. unfold allowed_commands. rewrite elem_of_remove_dups, list_elem_of_fmap. naive_solver. Qed.

Lemma load_executor_ok cwd e x : (load_executor cwd e).2 = Ok x →
  xs_allowed x = allowed_commands (getenv "ALLOWED_COMMANDS" "pytest,npm,node,cargo,go,make,git,bash,sh,cat,ls,find,grep" e).
Proof.
  unfold load_executor. rewrite bind_str_env, bind_int_env. destruct (py_int _); [|done]. rewrite bind_str_env.
  cbn. intros [= <-]. done.
Qed.

(** C39: A command only runs when the name of its program is an entry of
    ALLOWED_COMMANDS, up to the spaces around it: an answered request was one,
    and every other one leaves the files as they were. *)
Theorem executed_command_is_listed cwd e x run_process req f :
  (load_executor cwd e).2 = Ok x →
  let raw := getenv "ALLOWED_COMMANDS" "pytest,npm,node,cargo,go,make,git,bash,sh,cat,ls,find,grep" e in
  let listed := ∃ a args entry, _parse_command (eq_command req) = Ok (a :: args) ∧
    entry ∈ split_char ","%char raw ∧ path_name a = strip entry in
  let (f', r) := execute (xs_workspace x) (xs_allowed x) (xs_timeout x) run_process req f in
  ((∃ reply, r = Ok reply) → listed) ∧ (¬ listed → f' = f).
Proof.
  intros Hx raw listed. apply load_executor_ok in Hx. fold raw in Hx. unfold execute, mbind, lift_res, _check_allowed.
  destruct (_parse_command (eq_command req)) as [[|a args]|ex] eqn:Ep; cbn.
  1,3: by split; [intros [? ?]|].
  case_bool_decide as Ha; cbn.
  - assert listed as HL. { rewrite Hx in Ha. apply elem_of_allowed_commands in Ha as (en & ? & ?). by exists a, args, en. }
    match goal with |- (let (_, _) := ?t in _) => destruct t end. by split; [|intros []].
  - by split; [intros [? ?]|].
Qed.

(** *** Resource limits *)
Section limits.
Context (refused : rlimit → bool).

(** A kernel that refuses some limits, on the limits of the child so far. *)
Definition set_limit (l : rlimit) (v : Z * Z) : M (list (rlimit * (Z * Z))) unit := λ s,
  if refused l then (s, Raise (ValueError "not allowed to raise maximum limit")) else (s ++ [(l, v)], Ok tt).

(** The child is always started, with the limits before the first refused. *)
Lemma limits_until_refused s : ∃ n,
  _apply_execution_limits set_limit s =
    (s ++ take n [(RLIMIT_CPU, (60, 60)%Z); (RLIMIT_FSIZE, (524288000, 524288000)%Z); (RLIMIT_NOFILE, (256, 256)%Z)], Ok tt) ∧
  (n = 3 ↔ ∀ l, refused l = false).
Proof.
  unfold _apply_execution_limits, mtry, mbind, set_limit.
  destruct (refused RLIMIT_CPU) eqn:E1; [exists 0|destruct (refused RLIMIT_FSIZE) eqn:E2; [exists 1|
    destruct (refused RLIMIT_NOFILE) eqn:E3; [exists 2|exists 3]]]; cbn;
    rewrite <-?(assoc_L (++)), ?app_nil_r; (split; [done|split; [|try done]]); try done; try (intros H; congruence).
  intros _ []; done.
Qed.
End limits.

(** ** Limits that are accepted *)
Section parallel.
Context {R A : Type} `{!Redis R} `{!AgentRunner R A} `{!PatchSink R A}.
Context (worker_id : string → string).

Lemma run_round_nothing ttl sid (w : R * A) : run_round ttl worker_id sid [] w = (w, Ok []).
Proof. done. Qed.

(** No range is checked: with MAX_PARALLEL_AGENTS=0 the orchestrator starts, and
    a plan with a ready task is run in rounds of no task, for ever. *)
Theorem no_parallelism_never_ends smi e s fuel sid (w : R * A) :
  e !! "MAX_PARALLEL_AGENTS" = Some (pretty 0%Z) →
  (load_settings smi e).2 = Ok s → get_ready_tasks sid w.1 ≠ [] →
  execute_plan (TASK_LEASE_TTL s) (Z.to_nat (MAX_PARALLEL_AGENTS s)) worker_id fuel sid w = (w, Raise Diverges).
Proof.
  intros He Hs Hr. destruct (settings_from_environment smi e) as (r & Hl & HF). rewrite Hl in Hs. cbn in Hs. subst r.
  assert (MAX_PARALLEL_AGENTS s = 0%Z) as ->.
  { rewrite Forall_forall in HF. refine (setting_of_decimal e s ("MAX_PARALLEL_AGENTS", "3", MAX_PARALLEL_AGENTS) 0 (HF _ _) He).
    unfold int_settings. do 4 right. left. }
  change (Z.to_nat 0) with 0. unfold execute_plan, mbind.
  assert (∀ f recs, execute_loop (TASK_LEASE_TTL s) 0 worker_id f sid recs w = (w, Raise Diverges)) as Hf; [|by rewrite Hf].
  intros f. induction f as [|f IH]; intros recs; cbn [execute_loop]; destruct (get_ready_tasks sid w.1); try done.
  unfold mbind. cbn [take]. rewrite run_round_nothing. apply IH.
Qed.
End parallel.

Module Concrete.
Import TaskQueueProps.Concrete.
#[local] Existing Instances runner sink.

Definition no_parallelism : env := {["MAX_PARALLEL_AGENTS" := "0"]}.

Lemma no_parallelism_witness : ∃ s, (load_settings None no_parallelism).2 = Ok s ∧
  SESSION_TTL s = 604800%Z ∧
  ∀ fuel, execute_plan (TASK_LEASE_TTL s) (Z.to_nat (MAX_PARALLEL_AGENTS s)) wid fuel "s" (loaded, 0) = ((loaded, 0), Raise Diverges).
Proof.
  eexists. split; [vm_compute; reflexivity|]. split; [reflexivity|]. intros fuel.
  apply (no_parallelism_never_ends wid None no_parallelism); [reflexivity|vm_compute; reflexivity|vm_compute; discriminate].
Defined.

Definition gpus : env := {["PROFILE" := "auto"]}.
Lemma profile_witness :
  detect_profile (Some (join nl (pretty <$> [49140; 49140; 49140]%Z) +:+ nl)) gpus = "gpu" ∧
  detect_profile (Some (join nl (pretty <$> [24564]%Z) +:+ nl)) gpus = "gpu-shared".
Proof.
  split; [apply (auto_profile [49140; 49140; 49140]%Z gpus)|apply (auto_profile [24564]%Z gpus)]; cbn; try done; lia.
Defined.

Definition two_commands : env := {["ALLOWED_COMMANDS" := "git, ls"]}.
Definition run_ok (argv : list string) (cwd : path) (t : option Z) (f : fs) : fs * proc_outcome := (f, Completed 0 "" "").
Definition two_loaded : executor_settings := ExecutorSettings ["workspace"] 120 ["git"; "ls"].
Lemma listed_witness :
  (load_executor [] two_commands).2 = Ok two_loaded ∧
  (∃ a args entry, _parse_command "/bin/ls -l" = Ok (a :: args) ∧
    entry ∈ split_char ","%char "git, ls" ∧ path_name a = strip entry).
Proof.
  assert (Hl : (load_executor [] two_commands).2 = Ok two_loaded) by (by vm_compute).
  split; [done|].
  exact (proj1 (executed_command_is_listed [] two_commands two_loaded run_ok (ExecRequest "/bin/ls -l" None None) (FS ∅ ∅) Hl)
           (ex_intro _ (ExecReply "" "" 0) eq_refl)).
Defined.

Example literals : py_int " 1_000 " = Some 1000%Z ∧ py_int "-07" = Some (-7)%Z ∧ py_int "1__0" = None ∧ py_int "" = None ∧ py_int "3.0" = None.
Proof. by vm_compute. Qed.

(** An empty entry allows the empty name. *)
Example empty_entries : allowed_commands "" = [""] ∧ allowed_commands "git,,ls, git" = [""; "ls"; "git"].
Proof. by vm_compute. Qed.
End Concrete.
