(* ===== verification/Router.v ===== *)
(** * Router and gateway (orchestrator/router.py, gateway.py)

    The health check with its cache, the choice of an endpoint with the
    fallback chain, the request bodies, the conversion of an Ollama stream into
    server-sent events, and the dispatch.  HTTP requests and LiteLLM are the
    operations of a class; the texts [json.dumps] writes and what [json.loads]
    reads of an Ollama line are parameters. *)

From S2P Require Import Prelude PyStr Models Redis ModelRegistry RoutingPolicy AgentManager AgentManagerProps.
Local Open Scope string_scope.
Local Open Scope list_scope.
Local Open Scope nat_scope.
Local Open Scope py_scope.

Definition HEALTH_CACHE_TTL : Z := 30.

(** url → (healthy, checked_at). *)
Abbreviation health_cache := (list (string * (bool * Z))).

(** ** Request bodies *)

Record body_options := BodyOptions {
  bo_temperature : option Z; bo_top_p : option Z; bo_num_predict : option Z
}.
Record ollama_body := OllamaBody {
  ob_model : string; ob_messages : list (string * string); ob_stream : bool;
  ob_options : option body_options
}.

(** [str(b)] of a block that is no dict. *)
Definition plain_text (b : block) : string :=
  match b with BStr s => s | BDict t => default "" t end.

Definition flat_content (c : content) : string :=
  match c with
  | CNone => ""
  | CText s => s
  | CList l => join " " (plain_text <$> l)
  end.

Definition is_tool_role (role : string) : bool :=
  bool_decide (role = "tool") || bool_decide (role = "function").

Definition _build_ollama_body (messages : list message) (model : string) (req : chat_request) : ollama_body :=
  let clean := (λ m, (m_role m, flat_content (m_content m)))
                 <$> List.filter (λ m, negb (is_tool_role (m_role m))) messages in
  let options :=
    match cr_temperature req, cr_top_p req, cr_max_tokens req with
    | None, None, None => None
    | t, p, n => Some (BodyOptions t p n)
    end in
  OllamaBody model clean (cr_stream req) options.

(** [req.model_dump] with the model and the messages replaced. *)
Definition _build_vllm_body (messages : list message) (model : string) (req : chat_request) : chat_request :=
  ChatRequest model messages (cr_stream req) (cr_temperature req) (cr_max_tokens req) (cr_top_p req).

(** ** The world of the router *)

(** The response of a streamed request: its status, its lines, and the exception
    that cuts it short. *)
Record stream_response := StreamResponse { sr_status : Z; sr_lines : list string; sr_failure : option exn }.

(** The answer of Ollama's /api/chat. *)
Record ollama_answer := OllamaAnswer {
  oa_content : string; oa_prompt_eval_count : option Z; oa_eval_count : option Z
}.

(** A failed transport, an error status after [raise_for_status] or an expired
    time limit is an exception. *)
Class RouterHttp (E : Type) := {
  rt_time : E → Z;
  rt_get : string → M E Z;                                   (* status of a GET *)
  post_ollama : string → ollama_body → M E ollama_answer;
  post_vllm : string → chat_request → M E raw_response;
  stream_post_ollama : string → ollama_body → M E stream_response;
  stream_post_vllm : string → chat_request → M E stream_response;
  litellm : string → list message → bool → option Z → option Z → M E raw_response
}.

(** ** Streams *)

Definition sse (data : string) : string := "data: " +:+ data +:+ nl +:+ nl.
Definition done_event : string := sse "[DONE]".

Section streams.
(** The JSON texts of an error and of a chunk with its content and
    [finish_reason]; and what is read of an Ollama line: [None] when it is no
    JSON, otherwise its content and [done] flag, or the exception of [get] when
    it is JSON but no such object. *)
Context (json_error : string → string) (json_chunk : string → bool → string).
Context (parse_ollama : string → option (res (string * bool))).

Definition error_events (msg : string) : list string := [sse (json_error msg); done_event].

(** What the loop yields, followed by [after] when it runs out of lines. *)
Fixpoint ollama_lines (lines after : list string) : list string :=
  match lines with
  | [] => after
  | line :: lines' =>
      if negb (truthy line) then ollama_lines lines' after
      else match parse_ollama line with
           | None => ollama_lines lines' after
           | Some (Raise e) => error_events (exn_str e)
           | Some (Ok (content, true)) => [sse (json_chunk content true); done_event]
           | Some (Ok (content, false)) => sse (json_chunk content false) :: ollama_lines lines' after
           end
  end.

Definition _stream_ollama (outcome : res stream_response) : list string :=
  match outcome with
  | Raise e => error_events (exn_str e)
  | Ok resp =>
      if negb (sr_status resp =? 200)%Z then error_events ("Ollama error " +:+ pretty (sr_status resp))
      else ollama_lines (sr_lines resp)
             (match sr_failure resp with Some e => error_events (exn_str e) | None => [] end)
  end.

(** [raise_for_status]: an error status ends the iteration with an exception. *)
Definition _stream_vllm (outcome : res stream_response) : raw_response :=
  match outcome with
  | Raise e => RStream [] (Some e)
  | Ok resp =>
      if negb ((200 <=? sr_status resp) && (sr_status resp <? 300))%Z then RStream [] (Some (HTTPException (sr_status resp) "error status"))
      else RStream ((λ line, line +:+ nl +:+ nl) <$> List.filter truthy (sr_lines resp)) (sr_failure resp)
  end.
End streams.

(** ** Resolution and dispatch *)

Section router.
Context {R E : Type} `{Redis R} `{!RouterHttp E} (cfg : config).
Context (has_policy has_redis redis_up USE_LITELLM : bool).
Context (json_error : string → string) (json_chunk : string → bool → string).
Context (parse_ollama : string → option (res (string * bool))).
Local Abbreviation W := (R * (health_cache * E))%type.

Definition on_http {B} (m : M E B) : M W B := λ w,
  let '(e, b) := m w.2.2 in ((w.1, (w.2.1, e)), b).

Definition health_url (base_url : string) : string :=
  if contains "11434" base_url || contains "ollama" (lower base_url)
  then rstrip_char "/" base_url +:+ "/api/tags" else rstrip_char "/" base_url +:+ "/health".

(** The request whose answer is cached. *)
Definition probe (base_url : string) (now : Z) : M W bool :=
  let! ok := mtry (let! code := on_http (rt_get (health_url base_url)) in mret (code =? 200)%Z)
                  (λ _, mret false) in
  do! mmodify (λ w, (w.1, (dict_set base_url (ok, now) w.2.1, w.2.2))) in
  mret ok.

Definition _is_healthy (base_url : string) : M W bool := λ w,
  let now := rt_time w.2.2 in
  match dict_get base_url w.2.1 with
  | Some (healthy, checked_at) =>
      if (now - checked_at <? HEALTH_CACHE_TTL)%Z then (w, Ok healthy) else probe base_url now w
  | None => probe base_url now w
  end.

(** [_policy.resolve], or the profile defaults when no policy was set. *)
Definition primary (role sid : string) (r : R) : route :=
  if has_policy then resolve cfg has_redis redis_up role sid r else profile_route cfg role.

Definition fallback_route (primary_model url : string) : route :=
  let btype := if contains "11434" url || contains "ollama" (lower url) then "ollama" else "vllm" in
  Route url (if bool_decide (btype = "ollama") then OLLAMA_MODEL cfg else primary_model) btype.

Fixpoint walk_fallback (p : route) (urls : list string) : M W route :=
  match urls with
  | [] => mret p
  | url :: urls' =>
      if bool_decide (url = rt_endpoint p) then walk_fallback p urls'
      else let! ok := _is_healthy url in
           if ok then mret (fallback_route (rt_model p) url) else walk_fallback p urls'
  end.

Definition resolve_endpoint (role sid : string) : M W route :=
  let! p := mgets (λ w, primary role sid w.1) in
  let! ok := _is_healthy (rt_endpoint p) in
  if ok then mret p else walk_fallback p (FALLBACK_ORDER cfg).

(** [gateway_dispatch]; [USE_LITELLM] holds where it is called. *)
Definition gateway_dispatch (messages : list message) (model : string) (stream : bool)
    (temperature max_tokens : option Z) : M W raw_response :=
  if negb USE_LITELLM then mraise (RuntimeError "gateway_dispatch() called but USE_LITELLM=false. This is a routing bug — report it.")
  else on_http (litellm model messages stream temperature max_tokens).

Definition ollama_reply (a : ollama_answer) : raw_response :=
  RDict [Some (oa_content a)]
    (UsageResponse (Some [("prompt_tokens", default 0%Z (oa_prompt_eval_count a));
                          ("completion_tokens", default 0%Z (oa_eval_count a));
                          ("total_tokens", (default 0 (oa_prompt_eval_count a) + default 0 (oa_eval_count a))%Z)])
       None None).

(** A streamed request runs when its generator is consumed; here at once. *)
Definition outcome_of {B} (m : M E B) : M W (res B) := λ w,
  let '(e, b) := m w.2.2 in ((w.1, (w.2.1, e)), Ok b).

Definition dispatch (req : chat_request) (role : string) (messages : option (list message)) (sid : string)
    : M W raw_response :=
  let msgs := match messages with Some ((_ :: _) as ms) => ms | _ => cr_messages req end in
  let! p := resolve_endpoint role sid in
  if USE_LITELLM then
    gateway_dispatch msgs (rt_model p) (cr_stream req) (cr_temperature req) (cr_max_tokens req)
  else if bool_decide (rt_backend p = "ollama") then
    let body := _build_ollama_body msgs (rt_model p) req in
    let url := rstrip_char "/" (rt_endpoint p) +:+ "/api/chat" in
    if cr_stream req then
      let! o := outcome_of (stream_post_ollama url body) in
      mret (RStream (_stream_ollama json_error json_chunk parse_ollama o) None)
    else let! a := on_http (post_ollama url body) in mret (ollama_reply a)
  else
    let body := _build_vllm_body msgs (rt_model p) req in
    let url := rstrip_char "/" (rt_endpoint p) +:+ "/chat/completions" in
    if cr_stream req then
      let! o := outcome_of (stream_post_vllm url body) in mret (_stream_vllm o)
    else on_http (post_vllm url body).
End router.

(** ** Streams: facts *)

(** What [json.dumps] writes of a dict. *)
Definition is_object (j : string) : Prop := ∃ t, j = "{" +:+ t +:+ "}".

Lemma line_data_sse j : is_object j → line_data (sse j) = Some j ∧ j ≠ "[DONE]".
Proof.
  intros [t ->]. split; [|by intros [=]]. unfold line_data, sse.
  assert (strip ("data: " +:+ ("{" +:+ t +:+ "}") +:+ nl +:+ nl) = "data: {" +:+ t +:+ "}") as ->.
  { unfold strip. change (lstrip ("data: " +:+ ?x)) with ("data: " +:+ x). rewrite !sapp_assoc.
    change ("data: " +:+ "{" +:+ ?x) with ("data: {" +:+ x). rewrite <-sapp_assoc. rewrite rstrip_app by done.
    by rewrite sapp_assoc. }
  cbn [truthy andb]. change (sdrop 5 ("data: {" +:+ ?x)) with (" {" +:+ x).
  replace (strip (" {" +:+ t +:+ "}")) with ("{" +:+ t +:+ "}"); [done|].
  unfold strip. change (lstrip (" {" +:+ ?x)) with ("{" +:+ x). rewrite <-sapp_assoc. by rewrite rstrip_app.
Qed.

Section stream_facts.
Context (json_error : string → string) (json_chunk : string → bool → string).
Context (parse_ollama : string → option (res (string * bool))) (parse_chunk : string → option chunk).
Context (Hce : ∀ c d, is_object (json_chunk c d)) (Hee : ∀ m, is_object (json_error m)).
Context (Hc : ∀ c d, parse_chunk (json_chunk c d) = Some (Chunk [StreamChoice (Some c) None] None)).
Context (He : ∀ m, parse_chunk (json_error m) = Some (Chunk [] None)).

Lemma chunks_sse j c l :
  is_object j → parse_chunk j = Some c → chunks parse_chunk (sse j :: l) = c :: chunks parse_chunk l.
Proof.
  intros Hj Hp. destruct (line_data_sse j Hj) as [Hl Hd]. unfold chunks.
  change (omap line_data (sse j :: l)) with
    (match line_data (sse j) with Some y => y :: omap line_data l | None => omap line_data l end).
  rewrite Hl. cbn [before_done]. rewrite bool_decide_eq_false_2 by done.
  change (omap parse_chunk (j :: ?x)) with
    (match parse_chunk j with Some y => y :: omap parse_chunk x | None => omap parse_chunk x end).
  by rewrite Hp.
Qed.

Lemma chunks_done l : chunks parse_chunk (done_event :: l) = [].
Proof. done. Qed.

(** The contents an Ollama stream carries up to its [done] line, or to a line
    that is no object. *)
Fixpoint ollama_contents (lines : list string) : list string :=
  match lines with
  | [] => []
  | line :: lines' =>
      match (if truthy line then parse_ollama line else None) with
      | None => ollama_contents lines'
      | Some (Raise _) => []
      | Some (Ok (content, done)) => content :: (if done then [] else ollama_contents lines')
      end
  end.

Definition received (o : res stream_response) : list string :=
  match o with
  | Ok resp => if (sr_status resp =? 200)%Z then ollama_contents (sr_lines resp) else []
  | Raise _ => []
  end.

Lemma chunks_errors m : chunks parse_chunk (error_events json_error m) = [Chunk [] None].
Proof. unfold error_events. by rewrite (chunks_sse _ _ _ (Hee m) (He m)), chunks_done. Qed.

Lemma chunks_ollama lines after :
  sconcat (chunk_token <$> chunks parse_chunk after) = "" →
  sconcat (chunk_token <$> chunks parse_chunk (ollama_lines json_error json_chunk parse_ollama lines after))
  = sconcat (ollama_contents lines).
Proof.
  intros Ha. induction lines as [|line lines IH]; cbn [ollama_lines ollama_contents]; [done|].
  destruct (truthy line); cbn [negb]; [|apply IH].
  destruct (parse_ollama line) as [[[c [|]]|e]|]; [| | |apply IH].
  - rewrite (chunks_sse _ _ _ (Hce c true) (Hc c true)), chunks_done. cbn. unfold py_or. by destruct c.
  - rewrite (chunks_sse _ _ _ (Hce c false) (Hc c false)), fmap_cons. cbn [sconcat]. rewrite IH.
    cbn. unfold py_or. by destruct c.
  - by rewrite chunks_errors.
Qed.

Lemma sconcat_filter l : sconcat (List.filter truthy l) = sconcat l.
Proof. induction l as [|x l IH]; cbn; [done|]. destruct x; cbn; by rewrite IH. Qed.

Lemma tokens_ollama o :
  sconcat (tokens parse_chunk (_stream_ollama json_error json_chunk parse_ollama o)) = sconcat (received o).
Proof.
  unfold tokens. rewrite sconcat_filter. unfold _stream_ollama, received.
  destruct o as [resp|e]; [|by rewrite chunks_errors].
  destruct (sr_status resp =? 200)%Z; cbn [negb]; [|by rewrite chunks_errors].
  apply chunks_ollama. destruct (sr_failure resp); [by rewrite chunks_errors|done].
Qed.
End stream_facts.

(** ** Health: facts *)

Section health_facts.
Context {R E : Type} `{!Redis R} `{!RouterHttp E} (cfg : config) (has_policy has_redis redis_up : bool).
Local Abbreviation W := (R * (health_cache * E))%type.
Implicit Types w : W.

(** The last verdict on an endpoint. *)
Definition verdict (url : string) (w : W) : option bool := fst <$> dict_get url w.2.1.

Lemma probe_spec url now w :
  ∃ w' b, probe url now w = (w', Ok b) ∧ w'.1 = w.1 ∧
    ∀ u, verdict u w' = if decide (u = url) then Some b else verdict u w.
Proof.
  unfold probe, mbind, mtry, on_http. destruct (rt_get _ w.2.2) as [e [code|x]]; cbn.
  - eexists _, _. split_and!; [done|done|]. intros u. unfold verdict. cbn. rewrite dict_get_set. by case_decide.
  - eexists _, _. split_and!; [done|done|]. intros u. unfold verdict. cbn. rewrite dict_get_set. by case_decide.
Qed.

Lemma is_healthy_spec url w :
  ∃ w' b, _is_healthy url w = (w', Ok b) ∧ w'.1 = w.1 ∧
    ∀ u, verdict u w' = if decide (u = url) then Some b else verdict u w.
Proof.
  unfold _is_healthy. destruct (dict_get url w.2.1) as [[healthy at_]|] eqn:Hd; [|apply probe_spec].
  destruct (_ <? _)%Z; [|apply probe_spec]. exists w, healthy. split_and!; [done|done|].
  intros u. case_decide; [|done]. subst. unfold verdict. by rewrite Hd.
Qed.

Lemma walk_fallback_spec p urls w :
  verdict (rt_endpoint p) w = Some false →
  ∃ w' q, walk_fallback cfg p urls w = (w', Ok q) ∧ w'.1 = w.1 ∧
    ((∃ url, url ∈ urls ∧ url ≠ rt_endpoint p ∧ q = fallback_route cfg (rt_model p) url ∧
        verdict url w' = Some true) ∨
     (q = p ∧ ∀ u, verdict u w = Some false ∨ u ∈ urls → verdict u w' = Some false)).
Proof.
  revert w. induction urls as [|url urls IH]; intros w Hp; cbn [walk_fallback].
  - exists w, p. split_and!; [done|done|]. right. split; [done|]. intros u [?|?]; [done|set_solver].
  - case_bool_decide as Heq.
    + destruct (IH w Hp) as (w' & q & -> & ? & [(u & ? & ?)|[-> Hall]]); exists w'; eexists; (split_and!; [done|done|]).
      * left. exists u. set_solver.
      * right. split; [done|]. intros u [?|[-> | ?]%elem_of_cons]; apply Hall; [by left| |by right]. left. by rewrite Heq.
    + unfold mbind. destruct (is_healthy_spec url w) as (w1 & b & -> & Hr1 & Hv1). destruct b.
      * exists w1. eexists. split_and!; [done|done|]. left. exists url. rewrite Hv1, decide_True by done. set_solver.
      * assert (verdict (rt_endpoint p) w1 = Some false) as Hp1 by (rewrite Hv1; by case_decide).
        destruct (IH w1 Hp1) as (w' & q & -> & Hr' & [(u & ? & ?)|[-> Hall]]); exists w'; eexists;
          (split_and!; [done|congruence|]).
        -- left. exists u. set_solver.
        -- right. split; [done|]. intros u Hu. apply Hall. destruct Hu as [Hu|[-> | Hu]%elem_of_cons].
           ++ left. rewrite Hv1. by case_decide.
           ++ left. rewrite Hv1. by case_decide.
           ++ by right.
Qed.

(** The answer of [resolve_endpoint], by cases. *)
Lemma resolve_endpoint_cases role sid w :
  let p := primary cfg has_policy has_redis redis_up role sid w.1 in
  ∃ w' q, resolve_endpoint cfg has_policy has_redis redis_up role sid w = (w', Ok q) ∧ w'.1 = w.1 ∧
    ((q = p ∧ verdict (rt_endpoint p) w' = Some true) ∨
     (∃ url, url ∈ FALLBACK_ORDER cfg ∧ url ≠ rt_endpoint p ∧ q = fallback_route cfg (rt_model p) url ∧
        verdict url w' = Some true) ∨
     (q = p ∧ ∀ url, url = rt_endpoint p ∨ url ∈ FALLBACK_ORDER cfg → verdict url w' = Some false)).
Proof.
  cbn zeta. unfold resolve_endpoint, mbind, mgets. set (p := primary _ _ _ _ _ _ _).
  destruct (is_healthy_spec (rt_endpoint p) w) as (w1 & b & -> & Hr1 & Hv1).
  assert (verdict (rt_endpoint p) w1 = Some b) as Hb by (rewrite Hv1; by rewrite decide_True).
  destruct b; [exists w1, p; split_and!; [done|done|by left]|].
  destruct (walk_fallback_spec p (FALLBACK_ORDER cfg) w1 Hb) as (w' & q & -> & Hr' & Hq).
  exists w', q. split_and!; [done|congruence|]. destruct Hq as [?|[-> Hall]]; [by right; left|].
  right; right. split; [done|]. intros u [-> | ?]; apply Hall; [by left|by right].
Qed.

Lemma resolve_endpoint_total role sid w :
  ∃ w' q, resolve_endpoint cfg has_policy has_redis redis_up role sid w = (w', Ok q) ∧ w'.1 = w.1.
Proof. destruct (resolve_endpoint_cases role sid w) as (w' & q & ? & ? & _). by exists w', q. Qed.

(** [resolve_endpoint] always answers.  It answers the policy's route when
    its endpoint is healthy; otherwise an endpoint of the fallback chain whose
    health check succeeded, with the Ollama model on an Ollama endpoint; and
    the policy's route again only when the check of the primary and of every
    endpoint of the chain failed.  It writes nothing to Redis. *)
Theorem resolve_endpoint_spec role sid w :
  let p := primary cfg has_policy has_redis redis_up role sid w.1 in
  ∃ w' q, resolve_endpoint cfg has_policy has_redis redis_up role sid w = (w', Ok q) ∧ w'.1 = w.1 ∧
    ((q = p ∧ verdict (rt_endpoint p) w' = Some true) ∨
     (∃ url, url ∈ FALLBACK_ORDER cfg ∧ url ≠ rt_endpoint p ∧ q = fallback_route cfg (rt_model p) url ∧
        verdict url w' = Some true) ∨
     (q = p ∧ ∀ url, url = rt_endpoint p ∨ url ∈ FALLBACK_ORDER cfg → verdict url w' = Some false)).
Proof. apply resolve_endpoint_cases. Qed.
End health_facts.

(** ** From Ollama to the agent *)

(** C29: the text an agent assembles from the router's events for an Ollama
    stream is exactly the concatenation of the contents Ollama sent, up to and
    including the line marked [done], whatever blank or unreadable lines lie
    between.  A failed request, an error status, a line that is no object or a
    stream cut short only shortens the text: the error event carries no token
    and the run ends as a success. *)
Theorem ollama_stream_reassembled json_error json_chunk parse_ollama parse_chunk o :
  (∀ c d, is_object (json_chunk c d)) → (∀ m, is_object (json_error m)) →
  (∀ c d, parse_chunk (json_chunk c d) = Some (Chunk [StreamChoice (Some c) None] None)) →
  (∀ m, parse_chunk (json_error m) = Some (Chunk [] None)) →
  ss_content (stream_loop parse_chunk (_stream_ollama json_error json_chunk parse_ollama o)
                (StreamState "" 0 0 []))
  = sconcat (received parse_ollama o).
Proof.
  intros Hce Hee Hc He. rewrite <-(tokens_ollama json_error json_chunk parse_ollama parse_chunk) by done.
  destruct (stream_loop_spec parse_chunk (_stream_ollama json_error json_chunk parse_ollama o)
    (StreamState "" 0 0 [])) as [-> _]; [cbn; lia|done].
Qed.

Module Concrete.
Definition json_chunk (c : string) (d : bool) : string := "{" +:+ (if d then "1" else "0") +:+ c +:+ "}".
Definition json_error (m : string) : string := "{e" +:+ m +:+ "}".
Definition parse_chunk (s : string) : option chunk :=
  match s with
  | String _ (String k rest) =>
      if bool_decide (k = "e"%char) then Some (Chunk [] None)
      else Some (Chunk [StreamChoice (Some (stake (String.length rest - 1) rest)) None] None)
  | _ => None
  end.
Definition parse_ollama (s : string) : option (res (string * bool)) :=
  Some (if bool_decide (s = "[]") then Raise (OtherError "'list' object has no attribute 'get'") else Ok (s, bool_decide (s = "c"))).

Lemma stake_app a b : stake (String.length (a +:+ b) - String.length b) (a +:+ b) = a.
Proof.
  rewrite sapp_length. replace (_ - _) with (String.length a) by lia.
  induction a as [|x a IH]; [by destruct b|]. rewrite sapp_cons. cbn. by rewrite IH.
Qed.

Lemma chunk_object c d : is_object (json_chunk c d).
Proof. exists ((if d then "1" else "0") +:+ c). unfold json_chunk. by destruct d. Qed.
Lemma error_object m : is_object (json_error m).
Proof. by exists ("e" +:+ m). Qed.
Lemma parse_json_chunk c d :
  parse_chunk (json_chunk c d) = Some (Chunk [StreamChoice (Some c) None] None).
Proof.
  pose proof (stake_app c "}") as Hs. change (String.length "}") with 1 in Hs.
  assert (json_chunk c d = String "{" (String (if d then "1" else "0")%char (c +:+ "}"))) as -> by by destruct d.
  unfold parse_chunk. rewrite bool_decide_eq_false_2 by (by destruct d). by rewrite Hs.
Qed.

Definition good : res stream_response := Ok (StreamResponse 200 ["a"; ""; "b"; "c"; "d"] None).
Lemma reassembled_witness :
  ss_content (stream_loop parse_chunk (_stream_ollama json_error json_chunk parse_ollama good)
                (StreamState "" 0 0 [])) = "abc" ∧
  ss_content (stream_loop parse_chunk (_stream_ollama json_error json_chunk parse_ollama
                                         (Ok (StreamResponse 500 [] None)))
                (StreamState "" 0 0 [])) = "" ∧
  ss_content (stream_loop parse_chunk (_stream_ollama json_error json_chunk parse_ollama
                                         (Ok (StreamResponse 200 ["a"; "[]"; "b"] None)))
                (StreamState "" 0 0 [])) = "a".
Proof.
  split_and!; (rewrite ollama_stream_reassembled;
    [by vm_compute|apply chunk_object|apply error_object|apply parse_json_chunk|done]).
Defined.

(** Only the architect's vLLM answers; the coder's model is not the one it
    serves. *)
#[local] Instance http : RouterHttp unit :=
  {| rt_time _ := 0%Z;
     rt_get url e := (e, if contains "architect" url then Ok 200%Z else Raise (OtherError "refused"));
     post_ollama _ _ e := (e, Raise TimeoutError);
     post_vllm _ _ e := (e, Raise TimeoutError);
     stream_post_ollama _ _ e := (e, Raise TimeoutError);
     stream_post_vllm _ _ e := (e, Raise TimeoutError);
     litellm _ _ _ _ _ e := (e, Raise TimeoutError) |}.
Definition w0 : store * (health_cache * unit) := (∅, ([], tt)).
Definition cfg : config := RoutingPolicy.Concrete.cfg.

Example fallback_ex :
  (resolve_endpoint cfg true true true "coder" "s" w0).2
  = Ok (Route "http://vllm-architect:8000/v1" "Qwen/Qwen3-Coder-Next-80B-A3B-Instruct" "vllm").
Proof. by vm_compute. Qed.

Lemma resolve_witness :
  let p := primary cfg true true true "coder" "s" w0.1 in
  ∃ w' q, resolve_endpoint cfg true true true "coder" "s" w0 = (w', Ok q) ∧ w'.1 = w0.1 ∧
    ((q = p ∧ verdict (rt_endpoint p) w' = Some true) ∨
     (∃ url, url ∈ FALLBACK_ORDER cfg ∧ url ≠ rt_endpoint p ∧ q = fallback_route cfg (rt_model p) url ∧
        verdict url w' = Some true) ∨
     (q = p ∧ ∀ url, url = rt_endpoint p ∨ url ∈ FALLBACK_ORDER cfg → verdict url w' = Some false)).
Proof. exact (resolve_endpoint_spec cfg true true true "coder" "s" w0). Defined.
End Concrete.
