(* ===== verification/Gateway.v ===== *)
(** * The stream of the gateway (orchestrator/gateway.py: [_stream_litellm])

    What the gateway yields of a streaming completion, read by the loop of an
    agent.  LiteLLM is a parameter: the chunks it delivers and the exception that
    cuts them short, if any; a chunk is written as JSON and read back by the
    agent. *)

From S2P Require Import Prelude PyStr Models AgentManager AgentManagerProps Router.
Local Open Scope string_scope.
Local Open Scope list_scope.
Local Open Scope nat_scope.

Section gateway.
(** [json.dumps(chunk.model_dump())], the JSON of an error, and [json.loads]. *)
Context (dump : chunk → string) (json_error : string → string) (parse_chunk : string → option chunk).

(** The chunks of [litellm.acompletion], and how they end. *)
Definition _stream_litellm (completion : res (list chunk * option exn)) : list string :=
  match completion with
  | Ok (cs, None) => map (λ c, sse (dump c)) cs ++ [done_event]
  | Ok (cs, Some e) => map (λ c, sse (dump c)) cs ++ error_events json_error (exn_str e)
  | Raise e => error_events json_error (exn_str e)
  end.

(** The chunks that were delivered. *)
Definition delivered (completion : res (list chunk * option exn)) : list chunk :=
  match completion with Ok (cs, _) => cs | Raise _ => [] end.

Section facts.
Hypothesis dump_object : ∀ c, is_object (dump c).
Hypothesis error_object : ∀ m, is_object (json_error m).
Hypothesis parse_dump : ∀ c, parse_chunk (dump c) = Some c.
Hypothesis parse_error : ∀ m, parse_chunk (json_error m) = Some (Chunk [] None).

Lemma chunks_delivered cs l :
  chunks parse_chunk (map (λ c, sse (dump c)) cs ++ l) = cs ++ chunks parse_chunk l.
Proof. induction cs as [|c cs IH]; [done|]. cbn [map app]. rewrite (chunks_sse parse_chunk (dump c) c); [by rewrite IH|done|done]. Qed.

(** The text an agent assembles is that of the chunks that were delivered, in
    order, and nothing of an error that ends them. *)
Theorem gateway_stream_reassembled completion :
  ss_content (stream_loop parse_chunk (_stream_litellm completion) (StreamState "" 0 0 []))
  = sconcat (chunk_token <$> delivered completion).
Proof.
  destruct (stream_loop_spec parse_chunk (_stream_litellm completion) (StreamState "" 0 0 [])) as [-> _]; [cbn; lia|].
  unfold tokens. rewrite sconcat_filter.
  assert (∀ m, chunks parse_chunk (error_events json_error m) = [Chunk [] None]) as He.
  { intros m. unfold error_events. by rewrite (chunks_sse parse_chunk (json_error m) (Chunk [] None)). }
  destruct completion as [[cs [e|]]|e]; cbn [_stream_litellm delivered].
  - rewrite chunks_delivered, He, fmap_app, sconcat_app. cbn. by rewrite sapp_nil_r.
  - rewrite chunks_delivered. by rewrite app_nil_r.
  - by rewrite He.
Qed.
End facts.
End gateway.

Module Concrete.
Import Router.Concrete.
(** A chunk by its text; the error as in Router.v. *)
Definition chunk_of (t : string) : chunk := Chunk [StreamChoice (Some t) None] None.

Example litellm_stream :
  let dump c := json_chunk (chunk_token c) false in
  let read o := ss_content (stream_loop parse_chunk (_stream_litellm dump json_error o) (StreamState "" 0 0 [])) in
  read (Ok ([chunk_of "a"; chunk_of "b"], None)) = "ab" ∧
  read (Ok ([chunk_of "a"], Some TimeoutError)) = "a" ∧ read (Raise TimeoutError) = "".
Proof. vm_compute. split_and!; reflexivity. Qed.
End Concrete.
