(* ===== verification/Debate.v ===== *)
(** * The debate engine (orchestrator/debate_engine.py)

    The rounds of critique and revision between the reviewer and the architect,
    over the interface of the agent manager. *)

From S2P Require Import Prelude PyStr Models Redis Interfaces.
Local Open Scope string_scope.
Local Open Scope list_scope.
Local Open Scope nat_scope.
Local Open Scope py_scope.

Definition APPROVE_SIGNALS : list string := ["approve"; "approved"; "lgtm"; "looks good"; "no further changes"].

Definition _signals_approval (text : string) : bool :=
  existsb (λ signal, contains signal (lower text)) APPROVE_SIGNALS.

Inductive phase := InitialPlan | Critique | Revision.

#[export] Instance phase_eq_dec : EqDecision phase.
Proof. solve_decision. Defined.

(** The role is the reviewer's for a critique and the architect's otherwise. *)
Record entry := Entry { en_round : nat; en_phase : phase; en_content : string }.

Definition entry_role (e : entry) : string :=
  match en_phase e with Critique => "reviewer" | _ => "architect" end.

Record debate := Debate {
  d_final_plan : string; d_consensus : bool; d_rounds : nat; d_transcript : list entry;
  d_session_id : string; d_topic : string
}.

Definition initial_prompt (topic : string) : string :=
  "Produce a detailed implementation plan for the following:" +:+ nl +:+ nl +:+ topic.

Definition critique_prompt (plan : string) : string :=
  "Review the following implementation plan critically." +:+ nl +:+
  "Identify any bugs, missing edge cases, security issues, or architectural problems." +:+ nl +:+
  "If the plan is acceptable as-is, respond with APPROVE." +:+ nl +:+ nl +:+
  "## Plan" +:+ nl +:+ plan.

Definition revise_prompt (plan critique : string) : string :=
  "You previously produced this plan:" +:+ nl +:+ nl +:+ plan +:+ nl +:+ nl +:+
  "The reviewer raised the following concerns:" +:+ nl +:+ nl +:+ critique +:+ nl +:+ nl +:+
  "Revise your plan to address these concerns. Be specific about what changed and why.".

Section debate.
Context {R A : Type} `{!AgentRunner R A} (MAX_DEBATE_ROUNDS : Z).
Local Abbreviation W := (R * A)%type.

(** [result.get("result", "") or ""] of a run. *)
Definition ask (role task sid : string) : M W string :=
  let! r := spawn_and_run role task sid in mret (default "" (ar_result r)).

(** The rounds from [rnd] on, [left] of them: the plan, the transcript and the
    consensus flag at the end. *)
Fixpoint rounds (left rnd : nat) (sid plan : string) (transcript : list entry)
    : M W (string * list entry * bool) :=
  match left with
  | 0 => mret (plan, transcript, false)
  | S left' =>
      let! critique := ask "reviewer" (critique_prompt plan) sid in
      let transcript := transcript ++ [Entry rnd Critique critique] in
      if _signals_approval critique then mret (plan, transcript, true)
      else match left' with
           | 0 => mret (plan, transcript, false)
           | S _ =>
               let! revised := ask "architect" (revise_prompt plan critique) sid in
               let plan := py_or revised plan in
               rounds left' (S rnd) sid plan (transcript ++ [Entry rnd Revision plan])
           end
  end.

Definition is_critique (e : entry) : bool := bool_decide (en_phase e = Critique).

(** [max_rounds or config.MAX_DEBATE_ROUNDS]; a negative number is one, and
    [range] then has no round. *)
Definition effective_rounds (max_rounds : option Z) : Z :=
  match max_rounds with Some n => if (n =? 0)%Z then MAX_DEBATE_ROUNDS else n | None => MAX_DEBATE_ROUNDS end.

Definition run (topic sid initial_plan : string) (max_rounds : option Z) : M W debate :=
  let! start := (if truthy initial_plan then mret (initial_plan, [])
                 else let! plan := ask "architect" (initial_prompt topic) sid in
                      mret (plan, [Entry 0 InitialPlan plan])) in
  let! out := rounds (Z.to_nat (effective_rounds max_rounds)) 1 sid start.1 start.2 in
  let '(plan, transcript, consensus) := out in
  mret (Debate plan consensus (count_if is_critique transcript) transcript sid topic).

(** [stream]: the entries, then the summary. *)
Definition stream (topic sid : string) (max_rounds : option Z) : M W (list entry * debate) :=
  let! d := run topic sid "" (Some (effective_rounds max_rounds)) in mret (d_transcript d, d).

(** ** Facts *)

(** The transcript of a debate that starts with [plan] in round [rnd]: what the
    final plan and the consensus are. *)
Inductive debated : nat → string → list entry → string → bool → Prop :=
  | debated_end rnd plan : debated rnd plan [] plan false
  | debated_approved rnd plan c :
      _signals_approval c = true → debated rnd plan [Entry rnd Critique c] plan true
  | debated_last rnd plan c :
      _signals_approval c = false → debated rnd plan [Entry rnd Critique c] plan false
  | debated_round rnd plan c plan' l final consensus :
      _signals_approval c = false → l ≠ [] → debated (S rnd) plan' l final consensus →
      debated rnd plan (Entry rnd Critique c :: Entry rnd Revision plan' :: l) final consensus.

Lemma rounds_debated left rnd sid plan transcript w w' final l consensus :
  rounds left rnd sid plan transcript w = (w', Ok (final, l, consensus)) →
  ∃ k, l = transcript ++ k ∧ debated rnd plan k final consensus ∧
    count_if is_critique k ≤ left ∧ (consensus = false → count_if is_critique k = left) ∧
    (0 < left → k ≠ []).
Proof.
  revert rnd plan transcript w. induction left as [|left IH]; intros rnd plan transcript w; cbn [rounds].
  { intros [= <- <- <- <-]. exists []. rewrite app_nil_r. split_and!; [done|constructor|done|done|lia]. }
  unfold mbind at 1. destruct (ask _ _ _ w) as [w1 [c|e]]; [|done].
  destruct (_signals_approval c) eqn:Hs.
  - intros [= <- <- <- <-]. eexists. split_and!; [done|by apply debated_approved| |done|done]. change (1 ≤ S left). lia.
  - destruct left as [|left].
    + intros [= <- <- <- <-]. eexists. split_and!; [done|by apply debated_last|done|done|done].
    + unfold mbind at 1. destruct (ask _ _ _ w1) as [w2 [p|e]]; [|done].
      intros H. apply IH in H as (k & -> & Hd & Hle & Heq & Hne).
      exists (Entry rnd Critique c :: Entry rnd Revision (py_or p plan) :: k).
      rewrite <-!app_assoc. split_and!; [done|apply debated_round; [done|apply Hne; lia|done]| | |done].
      * change (S (count_if is_critique k) ≤ S (S left)). lia.
      * intros Hc. change (S (count_if is_critique k) = S (S left)). by rewrite Heq.
Qed.

(** ** Properties *)

(** C37: a debate has at most the allowed number of rounds, none when that is
    negative; without a consensus it has exactly that many.  Its transcript alternates critiques and
    revisions, no critique but the last signals approval, the consensus is
    reached exactly when the last critique does, and the final plan is the last
    revision, or the plan the debate started from. *)
Theorem debate_run_correct topic sid initial max_rounds w w' d :
  run topic sid initial max_rounds w = (w', Ok d) →
  ∃ plan start k, d_transcript d = start ++ k ∧
    (truthy initial = true ∧ plan = initial ∧ start = [] ∨
     initial = "" ∧ start = [Entry 0 InitialPlan plan]) ∧
    debated 1 plan k (d_final_plan d) (d_consensus d) ∧
    d_rounds d = count_if is_critique k ∧ d_rounds d ≤ Z.to_nat (effective_rounds max_rounds) ∧
    (d_consensus d = false → d_rounds d = Z.to_nat (effective_rounds max_rounds)).
Proof.
  unfold run. unfold mbind at 1.
  match goal with |- context [(if truthy initial then ?a else ?b) w] =>
    destruct ((if truthy initial then a else b) w) as [w1 [[plan start]|e]] eqn:Hstart; [|done] end.
  unfold mbind. destruct (rounds _ _ sid _ _ w1) as [w2 [[[final l] consensus]|e]] eqn:Hr; [|done].
  intros [= <- <-]. apply rounds_debated in Hr as (k & -> & Hd & Hle & Heq & _). exists plan, start, k. cbn.
  assert (truthy initial = true ∧ plan = initial ∧ start = [] ∨ initial = "" ∧ start = [Entry 0 InitialPlan plan]) as Hs.
  { destruct (truthy initial) eqn:Ht.
    - injection Hstart as <- <- <-. by left.
    - right. apply truthy_false in Ht. unfold mbind in Hstart. destruct (ask _ _ _ w) as [? [p|]]; [|done].
      by injection Hstart as _ <- <-. }
  assert (count_if is_critique (start ++ k) = count_if is_critique k) as Hc.
  { rewrite count_if_app. by destruct Hs as [(_ & _ & ->)|(_ & ->)]. }
  rewrite Hc. split_and!; done.
Qed.
End debate.

(** "disapprove" contains "approve": a negative critique ends the debate. *)
Example disapproval_approves : _signals_approval "I DISAPPROVE of this plan" = true.
Proof. by vm_compute. Qed.

Module Concrete.
(** A reviewer that approves what starts with a revision. *)
#[local] Instance runner : AgentRunner nat unit :=
  {| spawn_and_run role task sid w :=
       ((S w.1, w.2), Ok (AgentResult "a" role None
          (Some (if bool_decide (role = "reviewer") then (if w.1 =? 3 then "LGTM" else "unsafe") else "plan"))
          Done None)) |}.
Definition outcome := run (R:=nat) (A:=unit) 3%Z "topic" "s" "" None (0, tt).
Definition result : debate := match outcome.2 with Ok d => d | Raise _ => Debate "" false 0 [] "" "" end.

Lemma debate_witness :
  ∃ plan start k, d_transcript result = start ++ k ∧
    (truthy "" = true ∧ plan = "" ∧ start = [] ∨ "" = "" ∧ start = [Entry 0 InitialPlan plan]) ∧
    debated 1 plan k (d_final_plan result) (d_consensus result) ∧
    d_rounds result = count_if is_critique k ∧ d_rounds result ≤ 3 ∧
    (d_consensus result = false → d_rounds result = 3).
Proof. apply (debate_run_correct 3%Z "topic" "s" "" None (0, tt) outcome.1 result). by vm_compute. Defined.

Example result_ex : d_consensus result = true ∧ d_rounds result = 2.
Proof. by vm_compute. Qed.
End Concrete.
