(* ===== verification/Webhook.v ===== *)
(** * GitHub webhooks (orchestrator/webhook_handler.py)

    The signature check, the collection of the logs of a failed CI run, and the
    two event handlers, over the interfaces of the agent manager, the patch
    queue and the task queue.  The HMAC digest and the GitHub API are
    parameters. *)

From S2P Require Import Prelude PyStr Models Utils Redis Interfaces Dag TaskQueue.
Local Open Scope string_scope.
Local Open Scope list_scope.
Local Open Scope nat_scope.
Local Open Scope py_scope.

Fixpoint is_ascii (s : string) : bool :=
  match s with "" => true | String c s' => (nat_of_ascii c <? 128) && is_ascii s' end.

(** The digest is compared as a whole ([hmac.compare_digest]), which takes
    strings of ASCII characters only. *)
Definition verify_signature (hmac_sha256 : string → string → string) (secret body header : string) : res unit :=
  if negb (truthy secret)
  then Raise (WebhookSignatureError "GITHUB_WEBHOOK_SECRET not configured — rejecting all webhook requests")
  else if negb (truthy header) || negb (startswith "sha256=" header)
  then Raise (WebhookSignatureError "Missing or malformed X-Hub-Signature-256 header")
  else if negb (is_ascii header)
  then Raise (TypeError "comparing strings with non-ASCII characters is not supported")
  else if bool_decide ("sha256=" +:+ hmac_sha256 secret body = header) then Ok tt
  else Raise (WebhookSignatureError "Signature mismatch — request rejected").

(** ** Payloads *)

Record gh_job := GhJob { gj_id : Z; gj_name : option string; gj_conclusion : option string }.

Record workflow_payload := WorkflowPayload {
  wf_action : option string; wf_conclusion : option string; wf_id : option Z;
  wf_name : option string; wf_branch : option string
}.

Record issue_payload := IssuePayload {
  is_action : option string; is_number : option Z; is_title : option string; is_body : option string
}.

Inductive workflow_reply :=
  | WfSkipped (reason : string)
  | WfHandled (run_id : Z) (session_id : string) (diffs_found enqueued : nat) (status : agent_status).

Inductive issue_reply :=
  | IssueSkipped (reason : string)
  | IssueHandled (number : Z) (session_id : string) (tasks_loaded : nat) (plan_preview : string).

(** The requests to GitHub, and the decomposition of a plan by the agent
    manager. *)
Class WebhookServices (R A : Type) := {
  gh_jobs : Z → M (R * A) (list gh_job);
  gh_job_logs : Z → M (R * A) string;
  decompose_plan : string → string → M (R * A) (list task)
}.

Section webhook.
Context {R A : Type} `{Redis R} `{!AgentRunner R A} `{!PatchSink R A} `{!WebhookServices R A}.
Context (GITHUB_REPO : string).
Local Abbreviation W := (R * A)%type.

(** The log of one failed job; a failed fetch is reported in its place. *)
Definition job_part (job : gh_job) : M W string :=
  let name := default (pretty (gj_id job)) (gj_name job) in
  mtry (let! text := gh_job_logs (gj_id job) in
        mret ("### Job: " +:+ name +:+ nl +:+ stake 4000 text))
       (λ e, mret ("### Job: " +:+ name +:+ nl +:+ "(log fetch failed: " +:+ exn_str e +:+ ")")).

Definition _fetch_failed_job_logs (run_id : Z) : M W string :=
  if negb (truthy GITHUB_REPO) then mret "No GITHUB_REPO configured — log fetch skipped."
  else
    mtry (let! jobs := gh_jobs run_id in
          match List.filter (λ j, bool_decide (gj_conclusion j = Some "failure")) jobs with
          | [] => mret "No failed jobs found in this workflow run."
          | failed_jobs =>
              let! log_parts := mmap job_part (take 2 failed_jobs) in
              mret (join (nl +:+ nl) log_parts)
          end)
         (λ e, mret ("Log fetch failed: " +:+ exn_str e)).

Definition workflow_task (run_name branch logs : string) : string :=
  "The CI workflow '" +:+ run_name +:+ "' failed on branch '" +:+ branch +:+ "'." +:+ nl +:+
  "Analyze the following failure logs and produce a unified diff that fixes " +:+
  "the failing tests or build errors. Output ONLY the diff in a ```diff block." +:+ nl +:+ nl +:+
  "## Failure Logs" +:+ nl +:+ "```" +:+ nl +:+ stake 6000 logs +:+ nl +:+ "```".

(** The loop over the diffs: a failed enqueue is logged. *)
Fixpoint enqueue_diffs (run_id branch sid : string) (diffs : list string) (enqueued : nat) : M W nat :=
  match diffs with
  | [] => mret enqueued
  | diff :: diffs' =>
      let! n := mtry (do! pq_enqueue diff ("ci-fix-" +:+ run_id) ("ci-" +:+ run_id) sid
                            ("Auto-fix for failed CI run " +:+ run_id +:+ " on " +:+ branch) in
                      mret (S enqueued))
                     (λ _, mret enqueued) in
      enqueue_diffs run_id branch sid diffs' n
  end.

Definition handle_workflow_run (p : workflow_payload) : M W workflow_reply :=
  let action := default "" (wf_action p) in
  let conclusion := default "" (wf_conclusion p) in
  let run_id := default 0%Z (wf_id p) in
  let run_name := default "unknown" (wf_name p) in
  let branch := default "unknown" (wf_branch p) in
  if negb (bool_decide (action = "completed")) || negb (bool_decide (conclusion = "failure"))
  then mret (WfSkipped ("action=" +:+ action +:+ " conclusion=" +:+ conclusion))
  else
    let! logs := _fetch_failed_job_logs run_id in
    let sid := "ci-fix-" +:+ pretty run_id in
    let! result := spawn_and_run "coder" (workflow_task run_name branch logs) sid in
    let diffs := extract_diffs_from_result (default "" (ar_result result)) in
    let! enqueued := enqueue_diffs (pretty run_id) branch sid diffs 0 in
    mret (WfHandled run_id sid (length diffs) enqueued (ar_status result)).

Definition issue_task (number : Z) (title body : string) : string :=
  "GitHub Issue #" +:+ pretty number +:+ ": " +:+ title +:+ nl +:+ nl +:+
  stake 3000 body +:+ nl +:+ nl +:+ "Produce an implementation plan for this issue.".

Definition handle_issue_opened (p : issue_payload) : M W issue_reply :=
  let action := default "" (is_action p) in
  if negb (bool_decide (action = "opened")) then mret (IssueSkipped ("action=" +:+ action))
  else
    let number := default 0%Z (is_number p) in
    let sid := "issue-" +:+ pretty number in
    let! plan_result :=
      spawn_and_run "architect" (issue_task number (default "" (is_title p)) (default "" (is_body p))) sid in
    let plan := default "" (ar_result plan_result) in
    let! tasks := decompose_plan plan sid in
    do! (match tasks with
         | [] => mret tt
         | _ => let! _n := on_redis (load_plan sid tasks) in mret tt
         end) in
    mret (IssueHandled number sid (length tasks) (stake 300 plan)).

(** ** Facts *)

Lemma fetch_logs_total run_id w : ∃ w' s, _fetch_failed_job_logs run_id w = (w', Ok s).
Proof.
  unfold _fetch_failed_job_logs. destruct (truthy GITHUB_REPO); cbn [negb]; [|by eexists _, _].
  unfold mtry. match goal with |- context [match ?m w with _ => _ end] => destruct (m w) as [w' [s|e]] end;
    by eexists _, _.
Qed.

Lemma enqueue_diffs_total run_id branch sid diffs n w :
  ∃ w' k, enqueue_diffs run_id branch sid diffs n w = (w', Ok (n + k)) ∧ k ≤ length diffs.
Proof.
  revert n w. induction diffs as [|d diffs IH]; intros n w; cbn [enqueue_diffs].
  - exists w, 0. rewrite Nat.add_0_r. done.
  - unfold mbind, mtry. destruct (pq_enqueue _ _ _ _ _ w) as [w1 [x|e]]; unfold mret at 1.
    + destruct (IH (S n) w1) as (w' & k & -> & Hk). exists w', (S k). cbn. split; [do 2 f_equal; lia|lia].
    + destruct (IH n w1) as (w' & k & -> & Hk). exists w', k. cbn. split; [done|lia].
Qed.
End webhook.

(** ** Properties *)

(** A request is accepted exactly when a secret is configured and the
    header is "sha256=" followed by the HMAC of the body under that secret, in
    ASCII; in particular nothing is accepted without a secret. *)
Theorem verify_signature_ok hmac secret body header :
  verify_signature hmac secret body header = Ok tt ↔
  secret ≠ "" ∧ header = "sha256=" +:+ hmac secret body ∧ is_ascii header = true.
Proof.
  unfold verify_signature. destruct secret as [|c secret]; cbn [truthy negb]; [naive_solver|].
  split.
  - destruct (_ || _); [done|]. destruct (is_ascii header); [cbn [negb]|done]. case_bool_decide; naive_solver.
  - intros (_ & -> & Ha). rewrite startswith_app, Ha. cbn. by rewrite bool_decide_eq_true_2.
Qed.

(** The handler of a failed CI run never raises when the agent run does
    not: fetching the logs, the absence of diffs and refused patches only show
    in its counts; any other action or conclusion is skipped without effect. *)
Theorem workflow_run_total {R A} `{!Redis R} `{!AgentRunner R A} `{!PatchSink R A} `{!WebhookServices R A}
    repo p (w : R * A) :
  (∀ role task sid w, is_ok (spawn_and_run role task sid w).2 = true) →
  ∃ w' r, handle_workflow_run repo p w = (w', Ok r) ∧
    match r with
    | WfSkipped _ => w' = w ∧ ¬ (wf_action p = Some "completed" ∧ wf_conclusion p = Some "failure")
    | WfHandled run_id sid found enqueued _ =>
        wf_action p = Some "completed" ∧ wf_conclusion p = Some "failure" ∧
        run_id = default 0%Z (wf_id p) ∧ sid = "ci-fix-" +:+ pretty run_id ∧ enqueued ≤ found
    end.
Proof.
  intros Hspawn. unfold handle_workflow_run.
  destruct (bool_decide (default "" (wf_action p) = "completed")) eqn:Ha; cbn [negb orb].
  2:{ eexists _, _. split; [done|]. split; [done|]. intros [Hx _]. by rewrite Hx in Ha. }
  destruct (bool_decide (default "" (wf_conclusion p) = "failure")) eqn:Hf; cbn [negb].
  2:{ eexists _, _. split; [done|]. split; [done|]. intros [_ Hx]. by rewrite Hx in Hf. }
  breflect. unfold mbind at 1. destruct (fetch_logs_total repo (default 0%Z (wf_id p)) w) as (w1 & logs & ->).
  unfold mbind at 1. specialize (Hspawn "coder"
    (workflow_task (default "unknown" (wf_name p)) (default "unknown" (wf_branch p)) logs)
    ("ci-fix-" +:+ pretty (default 0%Z (wf_id p))) w1).
  destruct (spawn_and_run _ _ _ w1) as [w2 [result|e]]; [|done].
  unfold mbind. destruct (enqueue_diffs_total (pretty (default 0%Z (wf_id p))) (default "unknown" (wf_branch p))
    ("ci-fix-" +:+ pretty (default 0%Z (wf_id p))) (extract_diffs_from_result (default "" (ar_result result))) 0 w2)
    as (w3 & k & -> & Hk).
  eexists _, _. split; [done|]. split_and!; [| |done|done|done].
  - destruct (wf_action p); cbn in Ha; [by subst|done].
  - destruct (wf_conclusion p); cbn in Hf; [by subst|done].
Qed.

Module Concrete.
#[local] Instance runner : AgentRunner store nat :=
  {| spawn_and_run role task sid w := (w, Ok (AgentResult "a" role None (Some "no diff") Done None)) |}.
#[local] Instance sink : PatchSink store nat :=
  {| pq_wired := true; pq_enqueue _ _ _ _ _ w := (w, Raise (OtherError "full")) |}.
#[local] Instance services : WebhookServices store nat :=
  {| gh_jobs _ w := (w, Raise TimeoutError); gh_job_logs _ w := (w, Ok "log");
     decompose_plan _ _ w := (w, Ok []) |}.
Definition payload : workflow_payload :=
  WorkflowPayload (Some "completed") (Some "failure") (Some 7%Z) (Some "ci") (Some "main").

Lemma workflow_witness :
  ∃ (w' : store * nat) r, handle_workflow_run "o/r" payload (∅, 0) = (w', Ok r) ∧
    match r with
    | WfSkipped _ => False
    | WfHandled run_id sid found enqueued _ => run_id = 7%Z ∧ sid = "ci-fix-7" ∧ enqueued ≤ found
    end.
Proof.
  destruct (workflow_run_total "o/r" payload ((∅, 0) : store * nat)) as (w' & r & Hr & H); [done|].
  exists w', r. split; [exact Hr|]. destruct r as [x|i sid f n s]; cbn in H.
  - destruct H as [_ H]. by apply H.
  - destruct H as (_ & _ & -> & -> & Hle). split_and!; [done|done|exact Hle].
Defined.
End Concrete.
