(* ===== verification/Api.v ===== *)
(** * The HTTP interface (orchestrator/main.py)

    The endpoints over the components they call, with their checks and the
    mapping of exceptions to status codes, and the slash commands of the chat
    endpoint.  A request body is the arguments of its endpoint, an absent entry
    being [None]; the memory, the hooks and the training data are reached through
    the operations of a class.  The endpoints over the other services are in
    ServiceApi.v. *)

From S2P Require Import Prelude PyStr Models Utils Redis Interfaces Dag TaskQueue ExecutorClient PatchQueue.
From S2P Require Import SessionManager ContextManager CommandParser Metrics AgentManager ModelRegistry Debate.
Local Open Scope string_scope.
Local Open Scope list_scope.
Local Open Scope nat_scope.
Local Open Scope py_scope.

Module Endpoints.
Definition quote (s : string) : string := repr s.
Definition session_404 (sid : string) : exn := HTTPException 404 ("Session " +:+ quote sid +:+ " not found").

(** ** Sessions *)

Section sessions.
Context {R A : Type} `{Redis R} `{!SessionEnv A} (SESSION_TTL : Z).

Definition status_of_name (s : string) : option session_status :=
  if bool_decide (s = "active") then Some Active
  else if bool_decide (s = "paused") then Some Paused
  else if bool_decide (s = "ended") then Some Ended else None.

Definition list_sessions (status : option string) : M R (list session_state) :=
  match status with
  | None => mgets (SessionManager.list_sessions None)
  | Some s =>
      match status_of_name s with
      | Some st => mgets (SessionManager.list_sessions (Some st))
      | None => mraise (HTTPException 400 ("Invalid status filter " +:+ quote s +:+
                                           ". Must be one of: active, paused, ended"))
      end
  end.

Definition get_session (sid : string) : M R session_state :=
  let! st := mgets (SessionManager.get_session sid) in
  match st with Some st => mret st | None => mraise (session_404 sid) end.

(** The models of a request that are not in the catalog, in dict order. *)
Definition bad_models (g : model_registry) (models : list (string * string)) : list string :=
  let catalog := mi_name <$> catalog_with_status g in
  List.filter (λ m, negb (bool_decide (m ∈ catalog))) models.*2.

Definition unknown_models (bad : list string) : exn :=
  HTTPException 400 ("Unknown model(s): " +:+ list_repr bad +:+
                     ". Check GET /v1/models/catalog for valid names.").

Definition create_session (g : model_registry) (now : Z) (uuid4 uuid4' : string) (task : option string)
    (session_id : option string) (models metadata : list (string * string)) : M (R * A) session_state :=
  let task := strip (default "" task) in
  if negb (truthy task) then mraise (HTTPException 400 "task is required")
  else
    let sid := py_or (default "" session_id) uuid4 in
    match bad_models g models with
    | (_ :: _) as bad => mraise (unknown_models bad)
    | [] =>
        SessionManager.create_session SESSION_TTL now task (Some sid) uuid4'
          (match models with [] => None | _ => Some (list_to_map models) end) (Some (list_to_map metadata))
    end.

(** [except KeyError: raise HTTPException(404, ...)]. *)
Definition key_error_404 {S B} (sid : string) (m : M S B) : M S B :=
  mtry m (λ e, match e with KeyError _ => mraise (session_404 sid) | _ => mraise e end).

Definition end_session_managed (now : Z) (sid summary : string) (transcript : list message)
    (failures : list failure_report) : M (R * A) session_state :=
  key_error_404 sid (SessionManager.end_session SESSION_TTL now sid summary transcript failures).

Definition pause_session (now : Z) (sid : string) : M R session_state :=
  key_error_404 sid (SessionManager.pause_session SESSION_TTL now sid).

Definition resume_session (now : Z) (sid : string) : M R session_state :=
  mtry (SessionManager.resume_session SESSION_TTL now sid)
       (λ e, match e with
             | KeyError m => mraise (HTTPException 404 m)
             | ValueError m => mraise (HTTPException 409 m)
             | _ => mraise e
             end).

Definition session_configure (g : model_registry) (now : Z) (uuid4 : string) (session_id : option string)
    (models : list (string * string)) : M R (string * gmap string string) :=
  let sid := default uuid4 session_id in
  match models, bad_models g models with
  | [], _ => mraise (HTTPException 400 "models dict is required")
  | _, (_ :: _) as bad => mraise (unknown_models bad)
  | _, [] =>
      let! st := configure_models SESSION_TTL now sid (list_to_map models) in mret (sid, ss_models st)
  end.
End sessions.

(** ** Agents *)

Definition status_name (s : agent_status) : string :=
  match s with
  | Idle => "idle" | ARunning => "running" | Done => "done" | AFailed => "failed" | Killed => "killed"
  end.

Definition agent_message (aid message : string) : M (list (string * agent)) string := λ g,
  let '(g', ok) := send_message aid message g in
  if ok then (g', Ok aid)
  else match get_agent aid g' with
       | None => (g', Raise (HTTPException 404 ("Agent " +:+ quote aid +:+ " not found")))
       | Some a => (g', Raise (HTTPException 409
                     ("Agent " +:+ quote aid +:+ " is in terminal state (" +:+ status_name (a_status a) +:+
                      ") and cannot receive messages")))
       end.

Definition agent_logs (aid : string) (g : list (string * agent)) : res agent :=
  match get_agent aid g with
  | Some a => Ok a
  | None => Raise (HTTPException 404 ("Agent " +:+ quote aid +:+ " not found"))
  end.

(** ** Models *)

Definition pull_model {E} `{!ModelHttp E} (cfg : config) (running : nat) (name : string)
    : M (model_registry * E) unit :=
  let name := strip name in
  if negb (truthy name) then mraise (HTTPException 400 "name is required")
  else if 0 <? running
  then mraise (HTTPException 409 ("Cannot pull model while " +:+ pretty running +:+ " agent(s) are running."))
  else mtry (ModelRegistry.pull_model cfg name)
            (λ e, match e with
                  | ValueError m => mraise (HTTPException 400 m)
                  | RuntimeError m => mraise (HTTPException 502 m)
                  | _ => mraise e
                  end).

(** ** Runs, patches and tasks *)

Section runs.
Context {R A : Type} `{Redis R} `{!AgentRunner R A} `{!PatchSink R A}.
Context (TASK_LEASE_TTL : Z) (MAX_PARALLEL_AGENTS : nat) (MAX_DEBATE_ROUNDS : Z) (worker_id : string → string).
Context (SESSION_TTL : Z).

Definition spawn_agent (uuid4 : string) (role task session_id : option string) : M (R * A) agent_result :=
  if negb (truthy (default "" task)) then mraise (HTTPException 400 "task is required")
  else Interfaces.spawn_and_run (default "coder" role) (default "" task) (default uuid4 session_id).

(** [except ValueError], and the registration of the tasks, whose failures are
    ignored; it stops at the first of them. *)
Definition load_tasks (now : Z) (uuid4 : string) (session_id : option string) (tasks : list task) : M R nat :=
  let sid := default uuid4 session_id in
  match tasks with
  | [] => mraise (HTTPException 400 "tasks list is required")
  | _ =>
      let! n := mtry (load_plan sid tasks)
                     (λ e, match e with ValueError m => mraise (HTTPException 400 m) | _ => mraise e end) in
      do! mtry (mfor tasks (λ t, register_task SESSION_TTL now sid (t_id t))) (λ _, mret tt) in
      mret n
  end.

Definition execute_tasks (fuel : nat) (session_id : option string) : M (R * A) plan_result :=
  execute_plan TASK_LEASE_TTL MAX_PARALLEL_AGENTS worker_id fuel (default "default" session_id).

Definition debate (uuid4 : string) (topic session_id : option string) (max_rounds : option Z)
    (plan : option string) : M (R * A) debate :=
  if negb (truthy (default "" topic)) then mraise (HTTPException 400 "topic is required")
  else Debate.run MAX_DEBATE_ROUNDS (default "" topic) (default uuid4 session_id) (default "" plan)
         (Some (default MAX_DEBATE_ROUNDS max_rounds)).
End runs.

Section patches.
Context {R E : Type} `{Redis R} `{!ExecutorHttp E} `{!EventBus E} `{!AgentRunner R (pqueue * E)}.
Context (sha256 : string → string) (uuid8 uuid4 : nat → string) (clock : nat → Z).
Context (MAX_PATCH_QUEUE_DEPTH MAX_FIX_ATTEMPTS : nat) (has_redis has_bus : bool).
Local Abbreviation W := (R * (pqueue * E))%type.

(** [PatchValidationError] becomes a 400. *)
Definition enqueue_or_400 (task_uuid : string) (diff agent_id task_id session_id description : option string)
    : M W nat :=
  if negb (truthy (default "" diff)) then mraise (HTTPException 400 "diff is required")
  else mtry (enqueue sha256 uuid8 uuid4 clock MAX_PATCH_QUEUE_DEPTH has_redis (default "" diff)
               (default "manual" agent_id) (default task_uuid task_id) (default "default" session_id)
               (default "" description))
            (λ e, match e with PatchValidationError m => mraise (HTTPException 400 m) | _ => mraise e end).

Definition submit_patch (task_uuid : string) (diff agent_id task_id session_id description : option string)
    : M W patch_dict :=
  let! a := enqueue_or_400 task_uuid diff agent_id task_id session_id description in
  let! p := get_p a in
  mret (to_dict p).

Definition process_patches (fuel : nat) : M W (nat * list apply_outcome) :=
  let! results := process_all sha256 has_redis has_bus fuel [] in mret (length results, results).

Definition patch_and_test (task_uuid : string) (diff agent_id task_id session_id description : option string)
    (test_pattern : option string) : M W fix_outcome :=
  let! a := enqueue_or_400 task_uuid diff agent_id task_id session_id description in
  test_fix_loop sha256 uuid8 uuid4 clock MAX_PATCH_QUEUE_DEPTH MAX_FIX_ATTEMPTS has_redis has_bus a
    (default "tests/" test_pattern) None.
End patches.
End Endpoints.

(** ** Chat and slash commands *)

Record index_stats := IndexStats { ix_files : nat; ix_unchanged : nat; ix_chunks : nat; ix_skipped : nat }.

Class ChatServices (W : Type) := {
  sv_recall : string → nat → M W (list memory_hit);
  sv_extract_skills : string → list message → M W (option string);
  sv_index_codebase : M W index_stats;
  sv_agent_status : W → manager_status;
  sv_queue_depth : W → depth_counts;
  sv_metrics : W → metrics_summary;
  sv_training_records : W → nat;
  sv_catalog : W → list model_info;
  sv_active_sessions : M W nat;
  sv_dispatch : chat_request → M W raw_response
}.

Definition help_text : string :=
  "**Available commands:**" +:+ nl +:+
  "- `/architect <task>` — generate an implementation plan" +:+ nl +:+
  "- `/debate <topic>` — run architect vs reviewer debate" +:+ nl +:+
  "- `/review <text>` — review code or a plan" +:+ nl +:+
  "- `/test <task>` — write tests for a task" +:+ nl +:+
  "- `/execute` — execute the current task queue" +:+ nl +:+
  "- `/memory <query>` — search past sessions" +:+ nl +:+
  "- `/learn` — extract a skill from this session" +:+ nl +:+
  "- `/status` — show system status" +:+ nl +:+
  "- `/index` — re-index the codebase" +:+ nl.

Section chat.
Context {R A : Type} `{Redis R} `{!AgentRunner R A} `{!PatchSink R A} `{!ChatServices (R * A)}.
Context (TASK_LEASE_TTL : Z) (MAX_PARALLEL_AGENTS : nat) (MAX_DEBATE_ROUNDS : Z) (worker_id : string → string).
Context (PROFILE : string) (MAX_PATCH_QUEUE_DEPTH EMBED_CACHE_MAX_SIZE MAX_EXECUTOR_CONCURRENCY : nat).
Context (show_latency : Z → string).
Local Abbreviation W := (R * A)%type.

(** [f"{r.get('result','')}"]: the result of a failed run prints as None. *)
Definition show_result (r : agent_result) : string := default "None" (ar_result r).

Definition run_command (title role args sid : string) : M W string :=
  let! r := Interfaces.spawn_and_run role args sid in
  mret ("**" +:+ title +:+ "**" +:+ nl +:+ nl +:+ show_result r).

Definition execute_text (r : plan_result) : string :=
  "**Execution complete**" +:+ nl +:+ "- Tasks executed: " +:+ pretty (pr_executed r) +:+ nl +:+
  "- Complete: " +:+ pretty (pr_complete r) +:+ nl +:+ "- Failed: " +:+ pretty (pr_failed r).

Definition memory_line (p : nat * memory_hit) : string :=
  pretty (S p.1) +:+ ". [" +:+ default "memory" (mh_collection p.2) +:+ "] " +:+ stake 200 (mh_content p.2).

Definition status_text (w : W) (session_line : string) : string :=
  let a := sv_agent_status w in
  let p := sv_queue_depth w in
  let m := sv_metrics w in
  let catalog := sv_catalog w in
  "**System Status** (v0.5.0  profile=" +:+ PROFILE +:+ ")" +:+ nl +:+
  "- Agents: " +:+ pretty (mg_total a) +:+ " total, " +:+ pretty (mg_running a) +:+ " running, " +:+
  pretty (mg_done a) +:+ " done, " +:+ pretty (mg_failed a) +:+ " failed" +:+ nl +:+
  session_line +:+
  "- Patches: " +:+ pretty (dc_total p) +:+ " total (" +:+ pretty (dc_pending p) +:+ " pending), " +:+
  "depth limit " +:+ pretty MAX_PATCH_QUEUE_DEPTH +:+ nl +:+
  "- Metrics: " +:+ pretty (sm_total_requests m) +:+ " requests, " +:+
  pretty (sm_total_tokens_in m + sm_total_tokens_out m)%Z +:+ " tokens, avg " +:+
  show_latency (sm_avg_latency_ms m) +:+ "ms" +:+ nl +:+
  "- Training data: " +:+ pretty (sv_training_records w) +:+ " examples" +:+ nl +:+
  "- Models: " +:+ pretty (count_if mi_on_disk catalog) +:+ "/" +:+ pretty (length catalog) +:+ " on disk" +:+ nl +:+
  "- Embed cache: " +:+ pretty EMBED_CACHE_MAX_SIZE +:+ " max entries (LRU)" +:+ nl +:+
  "- Executor slots: " +:+ pretty MAX_EXECUTOR_CONCURRENCY.

(** [sid] is the fresh UUID the handler draws first. *)
Definition _handle_command (fuel : nat) (sid : string) (cmd : parsed_command) (req : chat_request) : M W string :=
  let name := pc_name cmd in
  let args := pc_args cmd in
  if bool_decide (name = "architect") then run_command "Architect Plan" "architect" args sid
  else if bool_decide (name = "debate") then
    let! d := Debate.run MAX_DEBATE_ROUNDS args sid "" None in
    mret ("**Debate Result** (" +:+ pretty (d_rounds d) +:+ " round(s), " +:+
          (if d_consensus d then "✅ Consensus reached" else "⚠️ No consensus") +:+ ")" +:+ nl +:+ nl +:+
          d_final_plan d)
  else if bool_decide (name = "review") then run_command "Review" "reviewer" args sid
  else if bool_decide (name = "test") then run_command "Tests" "tester" args sid
  else if bool_decide (name = "execute") then
    let! r := execute_plan TASK_LEASE_TTL MAX_PARALLEL_AGENTS worker_id fuel sid in mret (execute_text r)
  else if bool_decide (name = "memory") then
    let! results := sv_recall args 5 in
    match results with
    | [] => mret ("No memories found for: *" +:+ args +:+ "*")
    | _ => mret (join nl (("**Memory search:** " +:+ args +:+ nl) :: (memory_line <$> zip (seq 0 (length results)) results)))
    end
  else if bool_decide (name = "learn") then
    let! skill := sv_extract_skills sid (cr_messages req) in
    match skill with
    | Some s => if truthy s then mret ("✅ Skill extracted: **" +:+ s +:+ "**")
                else mret "No reusable skill identified."
    | None => mret "No reusable skill identified."
    end
  else if bool_decide (name = "status") then
    let! session_line := mtry (let! n := sv_active_sessions in
                               mret ("- Sessions: " +:+ pretty n +:+ " active" +:+ nl)) (λ _, mret "") in
    mgets (λ w, status_text w session_line)
  else if bool_decide (name = "index") then
    let! r := sv_index_codebase in
    mret ("✅ Codebase indexed" +:+ nl +:+ "- Files indexed: " +:+ pretty (ix_files r) +:+ nl +:+
          "- Files unchanged: " +:+ pretty (ix_unchanged r) +:+ nl +:+
          "- Chunks: " +:+ pretty (ix_chunks r) +:+ nl +:+ "- Skipped: " +:+ pretty (ix_skipped r))
  else mret ("Unknown command: `" +:+ args +:+ "`" +:+ nl +:+ nl +:+ help_text).

(** A list-valued content becomes one text. *)
Definition flatten_message (m : message) : message :=
  match m_content m with
  | CList l => Message (m_role m) (CText (join " " (block_text <$> l)))
  | _ => m
  end.

Inductive chat_reply :=
  | CommandReply (text : string)
  | ModelReply (r : raw_response).

Definition chat_completions (fuel : nat) (sid : string) (req : chat_request) : M W chat_reply :=
  match CommandParser.parse (flatten_message <$> cr_messages req) with
  | Some cmd => let! text := _handle_command fuel sid cmd req in mret (CommandReply text)
  | None => mtry (let! r := sv_dispatch req in mret (ModelReply r))
                 (λ e, mraise (HTTPException 502 ("Model backend error: " +:+ exn_str e)))
  end.
End chat.

(** ** Properties *)

(** The slash command /execute runs the plan of the session id it has just
    drawn.  No plan was ever loaded under a fresh id, so whatever plans the
    other sessions hold it executes nothing, changes nothing, and reports zero
    tasks. *)
Theorem execute_command_runs_nothing {R A} `{!Redis R} `{!AgentRunner R A} `{!PatchSink R A}
    `{!ChatServices (R * A)} ttl par rounds worker profile depth cache slots show fuel sid req (w : R * A) :
  CommandParser.parse (flatten_message <$> cr_messages req) = Some (ParsedCommand "execute" "") →
  r_key w.1 (_list_key sid) = None →
  chat_completions ttl par rounds worker profile depth cache slots show fuel sid req w
  = (w, Ok (CommandReply (execute_text (PlanResult 0 0 0 0 0 [])))).
Proof.
  intros Hp Hnew. unfold chat_completions. rewrite Hp. unfold _handle_command. cbn [pc_name pc_args].
  repeat (rewrite bool_decide_eq_false_2 by done). rewrite bool_decide_eq_true_2 by done.
  assert (Hall : _all_tasks w.1 sid = []).
  { unfold _all_tasks, _all_task_ids, r_lrange. by rewrite Hnew. }
  assert (Hready : get_ready_tasks sid w.1 = []).
  { unfold get_ready_tasks. by rewrite Hall. }
  assert (Hplan : execute_plan ttl par worker fuel sid w = (w, Ok (PlanResult 0 0 0 0 0 []))).
  { unfold execute_plan, mbind. assert (execute_loop ttl par worker fuel sid [] w = (w, Ok [])) as ->.
    { destruct fuel; cbn [execute_loop]; by rewrite Hready. }
    unfold mgets, mret, get_session_status. by rewrite Hall. }
  unfold mbind. by rewrite Hplan.
Qed.

(** Posting a message to an agent delivers it, as the last one of the
    inbox, exactly when the agent is registered, not terminal and its inbox has
    room.  An unknown agent is a 404; every other refusal is a 409 that claims
    the agent is in a terminal state, also when its inbox is merely full; a
    refusal changes nothing. *)
Theorem agent_message_spec aid message g :
  match dict_get aid g with
  | None => Endpoints.agent_message aid message g
            = (g, Raise (HTTPException 404 ("Agent " +:+ repr aid +:+ " not found")))
  | Some a =>
      (is_terminal a = false ∧ length (a_inbox a) < _INBOX_MAXSIZE ∧
       Endpoints.agent_message aid message g
       = (dict_set aid (set_inbox (a_inbox a ++ [message]) a) g, Ok aid)) ∨
      ((is_terminal a = true ∨ _INBOX_MAXSIZE ≤ length (a_inbox a)) ∧
       Endpoints.agent_message aid message g
       = (g, Raise (HTTPException 409
               ("Agent " +:+ repr aid +:+ " is in terminal state (" +:+ Endpoints.status_name (a_status a) +:+
                ") and cannot receive messages"))))
  end.
Proof.
  unfold Endpoints.agent_message, send_message. destruct (dict_get aid g) as [a|] eqn:Ha.
  - destruct (is_terminal a) eqn:Ht.
    + right. split; [by left|]. unfold get_agent. rewrite Ha. unfold Endpoints.quote. by rewrite ?sapp_assoc.
    + destruct (Nat.ltb_spec (length (a_inbox a)) _INBOX_MAXSIZE) as [Hlt|Hge].
      * left. by split_and!.
      * right. split; [by right|]. unfold get_agent. rewrite Ha. unfold Endpoints.quote. by rewrite ?sapp_assoc.
  - unfold get_agent. rewrite Ha. unfold Endpoints.quote. by rewrite ?sapp_assoc.
Qed.

Module Concrete.
#[local] Instance runner : AgentRunner store nat :=
  {| Interfaces.spawn_and_run role task sid w := (w, Ok (AgentResult "a" role None (Some "x") Done None)) |}.
#[local] Instance sink : PatchSink store nat :=
  {| pq_wired := true; pq_enqueue _ _ _ _ _ w := (w, Raise (OtherError "full")) |}.
#[local] Instance services : ChatServices (store * nat) :=
  {| sv_recall _ _ := mret []; sv_extract_skills _ _ := mret None;
     sv_index_codebase := mret (IndexStats 0 0 0 0);
     sv_agent_status _ := ManagerStatus 0 0 0 0; sv_queue_depth _ := DepthCounts 0 0 0 0 0;
     sv_metrics _ := MetricsSummary 0 0 0 0 []; sv_training_records _ := 0; sv_catalog _ := [];
     sv_active_sessions := mret 0; sv_dispatch _ := mraise TimeoutError |}.

(** A plan is loaded under the session "s". *)
Definition loaded : store * nat :=
  ((load_plan "s" [Task "t1" (Some "coder") (Some "d") (DepsList []) Pending None] (∅ : store)).1, 0).
Definition request : chat_request :=
  ChatRequest "m" [Message "user" (CText " /execute ")] false None None None.

Lemma execute_witness :
  chat_completions 60 2 3 (λ x, x) "laptop" 50 1000 2 (λ _, "0") 5 "fresh" request loaded
  = (loaded, Ok (CommandReply (execute_text (PlanResult 0 0 0 0 0 [])))).
Proof. apply execute_command_runs_nothing; by vm_compute. Defined.

Example loaded_has_a_ready_task : length (get_ready_tasks "s" loaded.1) = 1.
Proof. by vm_compute. Qed.
End Concrete.
