(* ===== verification/ServiceApi.v ===== *)
(** * The service endpoints (orchestrator/main.py)

    The endpoints over the services beside the task and patch machinery: token
    streams, models, skills, hooks, memory, training data, metrics and GitHub
    webhooks.  As in Api.v a request body is the arguments of its endpoint, an
    absent entry being [None]. *)

From S2P Require Import Prelude PyStr Paths Models Utils Redis Interfaces Dag TaskQueue PatchQueue ContextManager.
From S2P Require Import Metrics AgentManager ModelRegistry RoutingPolicy AstIndexer EmbedCache Memory MemoryProps.
From S2P Require Import SessionHooks FineTune SkillLoader Webhook.
Local Open Scope string_scope.
Local Open Scope list_scope.
Local Open Scope nat_scope.
Local Open Scope py_scope.

(** ** Token streams *)

(** The poll for the registration of the agent: [at_poll i] is the registry at
    the [i]-th look, a tenth of a second after the one before. *)
Fixpoint poll_agent (aid : string) (at_poll : nat → registry) (i n : nat) : bool :=
  match n with
  | 0 => false
  | S n' => has_agent aid (at_poll i) || poll_agent aid at_poll (S i) n'
  end.

(** [generate]: the data of the events, and whether the stream ends; [g] is
    the registry with everything that is put on the outbox. *)
Definition generate (aid : string) (g : registry) : list string * bool :=
  let '(_, out, ended) := subscribe_stream aid g in
  (if ended then out ++ ["[DONE]"] else out, ended).

Definition agent_stream (aid : string) (at_poll : nat → registry) (g : registry) : res (list string * bool) :=
  if poll_agent aid at_poll 0 20 then Ok (generate aid g)
  else Raise (HTTPException 404 ("Agent " +:+ repr aid +:+ " not found after 2s — " +:+
                                 "check that spawn_and_run() was called first")).

(** ** Agents and models *)

Definition cleanup_agents (now AGENT_IDLE_TIMEOUT : Z) (g : registry) : registry * (nat * Z) :=
  let '(g', removed) := cleanup_idle_agents now AGENT_IDLE_TIMEOUT g in (g', (removed, AGENT_IDLE_TIMEOUT)).

Definition models_catalog (cfg : config) (ALL_ROLES : list string) (g : model_registry)
    : string * list model_info * list string :=
  (PROFILE cfg, catalog_with_status g, ALL_ROLES).

Definition models_for_role (role : string) (g : model_registry) : string * list model_info * nat :=
  let models := get_models_for_role role g in (role, models, length models).

Definition refresh_models {E} `{!ModelHttp E} (cfg : config) : M (model_registry * E) (list (string * nat)) :=
  let! available := detect_available cfg in
  mret ((λ p, (p.1, length p.2)) <$> available).

Definition get_session_models {R} `{Redis R} (has_redis redis_up : bool) (session_id : string) (r : R)
    : string * gmap string string * bool :=
  let models := RoutingPolicy.get_session_models has_redis redis_up session_id r in
  (session_id, models, size models =? 0).

(** ** Skills, hooks and memory *)

Section services.
Context {Vec X : Type} `{!VectorStore Vec X} `{!EmbedHttp Vec X} `{!ChatHttp X}.
Context (EMBED_CACHE_MAX_SIZE N_FAILURES_THRESHOLD : nat) (md5 sha256 : string → string).
Context (get_parser : string → option (string → res ts_node)) (encode decode : string → string).
Context (repr_blocks : list block → string).
Local Abbreviation W := (mem Vec X).

Definition learn_skill (now : Z) (session_id : option string) (transcript : list message)
    : M W (bool * option string) :=
  match transcript with
  | [] => mraise (HTTPException 400 "transcript is required")
  | _ =>
      let! skill_name := extract_skills EMBED_CACHE_MAX_SIZE md5 repr_blocks now (default "default" session_id) transcript in
      mret (bool_decide (is_Some skill_name), skill_name)
  end.

Definition session_start (now : Z) (uuid4 : string) (session_id task : option string) : M W session_started :=
  hook_session_start EMBED_CACHE_MAX_SIZE md5 now (default uuid4 session_id) (default "" task).

(** The registry of the agents beside the memory. *)
Definition on_mem {A} (m : M W A) : M (W * registry) A := λ w,
  let '(x, r) := m w.1 in ((x, w.2), r).

Definition session_end (now AGENT_IDLE_TIMEOUT : Z) (uuid : nat → string) (session_id summary : option string)
    (transcript : list message) (failures : list failure_report) : M (W * registry) session_ended :=
  if negb (truthy (default "" summary)) then mraise (HTTPException 400 "summary is required")
  else
    let! result := on_mem (hook_session_end EMBED_CACHE_MAX_SIZE N_FAILURES_THRESHOLD md5 repr_blocks now uuid
                             (default "default" session_id) (default "" summary) transcript failures) in
    do! mmodify (λ w, (w.1, (cleanup_idle_agents now AGENT_IDLE_TIMEOUT w.2).1)) in
    mret result.

(** [es]: what is under /workspace. *)
Definition index_codebase (root : path) (es : list ws_entry) : M W index_stats :=
  Memory.index_codebase EMBED_CACHE_MAX_SIZE md5 sha256 get_parser encode decode root es.

Definition recall (q : string) : M W (string * list hit) :=
  let! results := Memory.recall EMBED_CACHE_MAX_SIZE md5 q SEARCH_K in mret (q, results).

Definition symbol_search (name : string) (k : option nat) : M W (string * list hit * nat) :=
  if negb (truthy name) then mraise (HTTPException 400 "name is required")
  else let! results := search_symbol EMBED_CACHE_MAX_SIZE md5 name (default 5 k) in mret (name, results, length results).

Definition save_memory (now : Z) (uuid4 : string) (session_id content : option string) (metadata : meta) : M W string :=
  let sid := default uuid4 session_id in
  if negb (truthy (default "" content)) then mraise (HTTPException 400 "content is required")
  else
    do! save_session EMBED_CACHE_MAX_SIZE md5 now sid (default "" content) metadata in
    mret sid.
End services.

(** ** Queries *)

Definition patches_list (q : pqueue) (session_id : option string) : list patch_dict :=
  list_patches q (default "" session_id).

(** The summary of a session, or of everything without one. *)
Definition get_metrics (round_avg : Z → Z → Z) (session_id : option string) (m : metrics)
    : session_summary + metrics_summary :=
  if truthy (default "" session_id) then inl (get_session_summary round_avg (default "" session_id) m)
  else inr (get_summary round_avg m).

Definition list_skills (d : app_dirs) (l : skill_loader) : list skill_info * list string :=
  (SkillLoader.list_skills l, list_commands d).

(** ** Training data *)

Section finetune.
Context (dumps : example → string) (loads : string → option example).

(** The body of the answer. *)
Definition finetune_export (limit : option nat) (f : training_file) : string :=
  match read_records loads limit f with
  | [] => ""
  | records => join nl (dumps <$> records) +:+ nl
  end.

Definition finetune_clear (f : training_file) : training_file * Z := clear_records f.
End finetune.

(** ** GitHub webhooks *)

(** A decoded payload as the two handlers read it. *)
Record github_payload := GithubPayload { gp_workflow : workflow_payload; gp_issue : issue_payload }.

Inductive webhook_reply :=
  | WorkflowReply (r : workflow_reply)
  | IssueReply (r : issue_reply)
  | UnsupportedEvent (event : string).

Section webhook.
Context {R A : Type} `{Redis R} `{!AgentRunner R A} `{!PatchSink R A} `{!WebhookServices R A}.
Context (GITHUB_REPO GITHUB_WEBHOOK_SECRET : string) (hmac_sha256 : string → string → string).
Context (loads : string → option github_payload).
Local Abbreviation W := (R * A)%type.

Definition webhook_event (event : string) (payload : github_payload) : M W webhook_reply :=
  if bool_decide (event = "workflow_run") then
    let! r := handle_workflow_run GITHUB_REPO (gp_workflow payload) in mret (WorkflowReply r)
  else if bool_decide (event = "issues") then
    let! r := handle_issue_opened (gp_issue payload) in mret (IssueReply r)
  else mret (UnsupportedEvent event).

Definition github_webhook (signature event : option string) (body : string) : M W webhook_reply :=
  do! mtry (λ w, (w, verify_signature hmac_sha256 GITHUB_WEBHOOK_SECRET body (default "" signature)))
           (λ e, match e with WebhookSignatureError m => mraise (HTTPException 401 m) | _ => mraise e end) in
  match loads body with
  | None => mraise (HTTPException 400 "Invalid JSON payload")
  | Some payload => webhook_event (default "" event) payload
  end.
End webhook.

(** ** Facts *)

Lemma poll_agent_true aid at_poll i n :
  poll_agent aid at_poll i n = true ↔ ∃ j, i ≤ j < i + n ∧ has_agent aid (at_poll j) = true.
Proof.
  revert i. induction n as [|n IH]; intros i; cbn [poll_agent]; [naive_solver lia|].
  rewrite orb_true_iff, IH. split.
  - intros [H|(j & Hj & H)]; [exists i|exists j]; by (split; [lia|]).
  - intros (j & Hj & H). destruct (decide (j = i)) as [->|]; [by left|right]. exists j. by split; [lia|].
Qed.

(** A stream is refused exactly when the agent is not registered at any of the
    twenty polls. *)
Lemma agent_stream_accepts aid at_poll g :
  is_ok (agent_stream aid at_poll g) = true ↔ ∃ j, j < 20 ∧ has_agent aid (at_poll j) = true.
Proof.
  unfold agent_stream. pose proof (poll_agent_true aid at_poll 0 20) as Hp.
  destruct (poll_agent aid at_poll 0 20); cbn; split.
  - intros _. destruct (proj1 Hp eq_refl) as (j & Hj & H). exists j. by split; [lia|].
  - done.
  - done.
  - intros (j & Hj & H). apply Hp. exists j. by split; [lia|].
Qed.

(** *** Training data *)
Section finetune_facts.
Context (dumps : example → string) (loads : string → option example) (encodable : example → Prop).
Context (Hline : ∀ r, encodable r → one_line (dumps r)) (Hloads : ∀ r, encodable r → loads (dumps r) = Some r).

Lemma records_text_join rs : rs ≠ [] → join nl (dumps <$> rs) +:+ nl = records_text dumps rs.
Proof.
  induction rs as [|r rs IH]; [done|]. intros _. destruct rs as [|r' rs].
  - cbn. by rewrite sapp_nil_r.
  - change (join nl (dumps <$> r :: r' :: rs)) with (dumps r +:+ nl +:+ join nl (dumps <$> r' :: rs)).
    rewrite !sapp_assoc, IH by done. done.
Qed.

Lemma export_records limit f rs :
  read_records loads limit f = rs → finetune_export dumps loads limit f = records_text dumps rs.
Proof. unfold finetune_export. intros ->. destruct rs; [done|]. by apply records_text_join. Qed.

(** The export of everything is the file, and a file made of an export
    holds its records. *)
Theorem export_is_the_file f rs :
  holds dumps encodable f rs →
  finetune_export dumps loads None f = default "" (tf_text f) ∧
  ∀ n, holds dumps encodable (TrainingFile (Some (finetune_export dumps loads (Some (S n)) f)) true) (take (S n) rs).
Proof.
  intros H. destruct (H) as (Ha & Ht & Hn & He). assert (Hr : ∀ limit,
    read_records loads limit f = match limit with Some (S n) => take (S n) rs | _ => rs end).
  { intros limit. unfold read_records. destruct (tf_text f) as [s|] eqn:E; cbn in Ht.
    - rewrite Ha, Ht, (file_lines_records dumps encodable Hline), (read_loop_records dumps loads encodable Hline Hloads);
        [done|done|by destruct limit as [[|n]|]; cbn; [|lia|]|done].
    - rewrite (Hn eq_refl). by destruct limit as [[|n]|]. }
  split; [by rewrite (export_records None f rs (Hr None)), Ht|]. intros n.
  rewrite (export_records (Some (S n)) f _ (Hr (Some (S n)))). split; [done|]. split; [done|]. split; [done|].
  by apply Forall_take.
Qed.
End finetune_facts.

(** *** Memory *)
Section memory_facts.
Context {Vec X : Type} `{!VectorStore Vec X} `{!EmbedHttp Vec X} `{!VectorStoreLaws Vec X}.
Context (EMBED_CACHE_MAX_SIZE : nat) (md5 : string → string).
Local Abbreviation W := (mem Vec X).
Local Abbreviation docs := (λ w : W, vs_docs (mm_ext w)).
Local Abbreviation save_memory := (save_memory EMBED_CACHE_MAX_SIZE md5).

Lemma save_memory_spec now uuid4 sid content metadata (w w' : W) r :
  save_memory now uuid4 (Some sid) (Some content) metadata w = (w', Ok r) →
  r = sid ∧ ∀ c, docs w' c =
    if decide (c = "sessions")
    then <["session:" +:+ sid +:+ ":" +:+ pretty now :=
             (content, metadata ∪ {["session_id" := MStr sid; "ts" := MInt now]})]> (docs w c)
    else docs w c.
Proof.
  unfold ServiceApi.save_memory. cbn [default from_option id]. destruct (truthy content); cbn [negb]; [|by intros [=]].
  unfold mbind at 1. destruct (save_session _ _ _ _ _ _ w) as [w1 [[]|e]] eqn:Es; [|done].
  intros [= <- <-]. split; [done|]. unfold save_session, mbind, _col in Es.
  case_bool_decide; [|done]. intros c. rewrite (upsert_one_spec _ _ _ _ _ _ _ _ Es). case_decide; [by subst|done].
Qed.

(** Two memories saved for a session within one second have one key: the
    first is lost, though its request answered that it was saved. *)
Theorem second_memory_replaces_first now uuid4 sid content content' metadata metadata' (w w1 w2 : W) :
  save_memory now uuid4 (Some sid) (Some content) metadata w = (w1, Ok sid) →
  save_memory now uuid4 (Some sid) (Some content') metadata' w1 = (w2, Ok sid) →
  docs w2 "sessions" = <["session:" +:+ sid +:+ ":" +:+ pretty now :=
      (content', metadata' ∪ {["session_id" := MStr sid; "ts" := MInt now]})]> (docs w "sessions").
Proof.
  intros [_ H1]%save_memory_spec [_ H2]%save_memory_spec. rewrite H2, decide_True by done.
  rewrite H1, decide_True by done. apply insert_insert_eq.
Qed.
End memory_facts.

(** *** Webhooks *)
Section webhook_facts.
Context {R A : Type} `{Redis R} `{!AgentRunner R A} `{!PatchSink R A} `{!WebhookServices R A}.
Context (GITHUB_REPO GITHUB_WEBHOOK_SECRET : string) (hmac_sha256 : string → string → string).
Context (loads : string → option github_payload).

Definition authentic (signature : option string) (body : string) : bool :=
  truthy GITHUB_WEBHOOK_SECRET && is_ascii (default "" signature) &&
  bool_decide (default "" signature = "sha256=" +:+ hmac_sha256 GITHUB_WEBHOOK_SECRET body).

(** C28: A request is handled only when its signature is the HMAC of its body
    under a configured secret; any other is refused before its body is read or
    anything is changed, with 401, or with an error of the server when the
    header is not ASCII. *)
Theorem webhook_only_authentic signature event body (w : R * A) :
  github_webhook GITHUB_REPO GITHUB_WEBHOOK_SECRET hmac_sha256 loads signature event body w =
  if authentic signature body
  then match loads body with
       | None => (w, Raise (HTTPException 400 "Invalid JSON payload"))
       | Some payload => webhook_event GITHUB_REPO (default "" event) payload w
       end
  else (w, match verify_signature hmac_sha256 GITHUB_WEBHOOK_SECRET body (default "" signature) with
           | Raise (WebhookSignatureError m) => Raise (HTTPException 401 m)
           | _ => Raise (TypeError "comparing strings with non-ASCII characters is not supported")
           end).
Proof.
  unfold github_webhook, authentic. unfold mbind at 1, mtry.
  pose proof (verify_signature_ok hmac_sha256 GITHUB_WEBHOOK_SECRET body (default "" signature)) as Hv.
  destruct (truthy GITHUB_WEBHOOK_SECRET && _ && _) eqn:E.
  - apply andb_true_iff in E as [[Ht Ha]%andb_true_iff Hs%bool_decide_eq_true].
    rewrite (proj2 Hv); [by destruct (loads body)|]. split_and!; [by apply truthy_true|done|done].
  - destruct (verify_signature _ _ _ _) as [[]|e] eqn:Es.
    + destruct (proj1 Hv eq_refl) as (Hn & Hs & Ha). exfalso.
      rewrite Ha, (proj2 (truthy_true _) Hn), bool_decide_true in E by done. done.
    + unfold verify_signature in Es. repeat (destruct (negb _) in Es || destruct (_ || _) in Es || case_bool_decide);
        by simplify_eq.
Qed.
End webhook_facts.
