(* ===== verification/System.v ===== *)
(** * The orchestrator as a whole

    The components wired together as the start-up of main.py wires them: an
    agent run resolves its model through the routing policy, builds its prompt
    through the context manager, is dispatched by the router, is counted by the
    metrics, publishes on the bus and registers with the session; the task
    queue runs such agents and hands their diffs to the patch queue, which
    reaches the executor.  What remains outside is one type [X]: the model
    servers, the vector store and the executor. *)

From S2P Require Import Prelude PyStr Paths Models Utils Redis Interfaces Dag TaskQueue TaskQueueFacts TaskQueueExec.
From S2P Require Import TaskQueueProps AgentBus ExecutorClient PatchQueue PatchQueueProps SessionManager.
From S2P Require Import ContextManager Metrics Executor AgentManager AgentManagerProps ModelRegistry.
From S2P Require Import RoutingPolicy Router.
Local Open Scope string_scope.
Local Open Scope list_scope.
Local Open Scope nat_scope.
Local Open Scope py_scope.

(** The in-process state around the agents: the health cache of the router, the
    bus, the metrics; and the outside. *)
Record process (X : Type) := Process {
  s_cache : health_cache; s_bus : agent_bus; s_metrics : metrics; s_ext : X
}.
Arguments Process {X}.
Arguments s_cache {X}.
Arguments s_bus {X}.
Arguments s_metrics {X}.
Arguments s_ext {X}.

(** [MemoryManager.record_failure], and the agent prompts on disk. *)
Class MemoryFailures (X : Type) := {
  record_failure : string → string → string → string → string → M X unit;
  prompt_file : string → option string
}.

(** ** Lifting *)

(** A computation on a part of the process. *)
Definition on_second {R P B C} (m : M (R * B) C) : M (R * (P * B)) C := λ w,
  let '((r, b), c) := m (w.1, w.2.2) in ((r, (w.2.1, b)), c).

#[export] Instance RunnerSecond {R P B} `{!AgentRunner R B} : AgentRunner R (P * B) :=
  {| Interfaces.spawn_and_run role task sid := on_second (Interfaces.spawn_and_run role task sid) |}.

#[export] Instance RunnerSecondLaws {R P B} `{!Redis R} `{!AgentRunner R B} `{!AgentRunnerLaws R B} :
  AgentRunnerLaws R (P * B).
Proof.
  split. intros role desc sid w k Hk. pose proof (spawn_frame role desc sid (w.1, w.2.2) k Hk) as H.
  cbn. unfold on_second. by destruct (Interfaces.spawn_and_run _ _ _ _) as [[r b] c].
Qed.

Section system.
Context {R X : Type} `{Redis R} `{!MemorySearch X} `{!MemoryFailures X} `{!RouterHttp X} `{!ExecutorHttp X}.
(** Configuration and services that are functions. *)
Context (cfg : config) (SESSION_TTL MAX_AGENT_RUNTIME MAX_CONTEXT_TOKENS : Z) (MAX_AGENT_HISTORY : nat).
Context (MAX_PATCH_QUEUE_DEPTH : nat) (USE_LITELLM redis_up : bool).
Context (uuid8 uuid4 : nat → string) (clock : nat → Z) (sha256 : string → string).
Context (sanitize_context : string → string) (percent : QArith_base.Q → string).
Context (json_error : string → string) (json_chunk : string → bool → string).
Context (parse_ollama : string → option (res (string * bool))) (parse_chunk : string → option chunk).

Definition on_ext {B} (m : M X B) : M (R * process X) B := λ w,
  let '(x, b) := m (s_ext w.2) in
  ((w.1, Process (s_cache w.2) (s_bus w.2) (s_metrics w.2) x), b).

Definition on_router {B} (m : M (R * (health_cache * X)) B) : M (R * process X) B := λ w,
  let '((r, (c, x)), b) := m (w.1, (s_cache w.2, s_ext w.2)) in
  ((r, Process c (s_bus w.2) (s_metrics w.2) x), b).

Definition on_redis_only {B} (m : M R B) : M (R * process X) B := λ w,
  let '(r, b) := m w.1 in ((r, w.2), b).

(** [Message] of a history entry, and the request of [_run_agent]. *)
Definition to_message (m : chat_msg) : message :=
  Message (cm_role m) (match cm_content m with Some s => CText s | None => CNone end).

Definition agent_request (msgs : list message) : chat_request :=
  ChatRequest "orchestrator" msgs true None None None.

Definition published (sid : string) (ev : ws_event) (p : process X) : process X :=
  Process (s_cache p) (AgentBus.publish redis_up sid ev (s_bus p)) (s_metrics p) (s_ext p).

(** What an agent run calls, implemented by the other components. *)
#[export] Instance OrchestratorEnv : AgentEnv R (process X) :=
  {| env_register_agent sid aid := on_redis_only (register_agent SESSION_TTL (clock 0) sid aid);
     env_resolve_model role sid := mgets (λ w, rt_model (RoutingPolicy.resolve cfg true redis_up role sid w.1));
     env_prompt_file := prompt_file;
     env_build_prompt task sys conv sid model :=
       on_ext (build_prompt sanitize_context percent MAX_CONTEXT_TOKENS (λ m, Ok (get_context_length m))
                 task sys conv true true true model);
     env_dispatch role sid msgs :=
       on_router (dispatch cfg true true redis_up USE_LITELLM json_error json_chunk parse_ollama
                    (agent_request (to_message <$> msgs)) role (Some (to_message <$> msgs)) sid);
     env_record_metrics aid role tin tout sid status p :=
       Process (s_cache p) (s_bus p)
         (record_request 0 aid role tin tout 0 sid status (s_metrics p)) (s_ext p);
     env_record_failure sid aid task error approach := on_ext (record_failure sid aid task error approach);
     env_bus_wired := true;
     env_publish_event sid ev := mmodify (λ w, (w.1, published sid ev w.2)) |}.

(** The agents, and the rest of the process. *)
Local Abbreviation Agents := ((registry * nat) * process X)%type.

#[export] Instance OrchestratorRunner : AgentRunner R Agents :=
  AgentManagerRunner parse_chunk MAX_AGENT_HISTORY MAX_AGENT_RUNTIME uuid8 clock.

(** The patch queue reaches the executor and the bus through the process. *)
Definition on_process {B} (m : M X B) : M Agents B := λ a,
  let '(x, b) := m (s_ext a.2) in
  ((a.1, Process (s_cache a.2) (s_bus a.2) (s_metrics a.2) x), b).

#[export] Instance ProcessExecutor : ExecutorHttp Agents :=
  {| post_execute c t d := on_process (post_execute c t d);
     post_apply_patch d t := on_process (post_apply_patch d t);
     post_read_file p := on_process (post_read_file p);
     post_list_files p := on_process (post_list_files p);
     get_health := on_process get_health |}.

#[export] Instance ProcessBus : EventBus Agents :=
  {| bus_publish sid ev a := (a.1, published sid ev a.2) |}.

#[export] Instance OrchestratorSink : PatchSink R (pqueue * Agents) :=
  PatchQueueSink sha256 uuid8 uuid4 clock MAX_PATCH_QUEUE_DEPTH true.

(** ** The laws the task queue relies on *)

(** The router writes nothing to Redis. *)
Definition same_store {B} (w w' : R * B) : Prop := w'.1 = w.1.

#[local] Instance same_store_preorder {B} : PreOrder (same_store (B:=B)).
Proof. split; [done|]. unfold same_store. intros ???; congruence. Qed.

Lemma store_http {B} (m : M X B) : respects same_store (on_http (R:=R) m).
Proof. intros w. unfold on_http. by destruct (m _) as [e b]. Qed.

Lemma store_outcome {B} (m : M X B) : respects same_store (outcome_of (R:=R) m).
Proof. intros w. unfold outcome_of. by destruct (m _) as [e b]. Qed.

Lemma store_resolve has_policy has_redis role sid :
  respects same_store (resolve_endpoint cfg has_policy has_redis redis_up role sid).
Proof.
  intros w. by destruct (resolve_endpoint_total cfg has_policy has_redis redis_up role sid w) as (w1 & q & -> & ?).
Qed.

Lemma dispatch_store has_policy has_redis req role msgs sid :
  respects same_store
    (dispatch cfg has_policy has_redis redis_up USE_LITELLM json_error json_chunk parse_ollama req role msgs sid).
Proof.
  unfold dispatch. apply respects_bind; [apply _|apply store_resolve|]. intros q.
  destruct USE_LITELLM; [apply store_http|].
  repeat case_match; first
    [ apply respects_bind; [apply _|first [apply store_http|apply store_outcome]|intros; apply (respects_ret _)]
    | apply store_http ].
Qed.

(** A session is not stored under a key of the task queue. *)
Lemma register_agent_frame now sid aid r k :
  RedisLaws R → (0 < SESSION_TTL)%Z → is_task_key k = true →
  r_key (register_agent SESSION_TTL now sid aid r).1 k = r_key r k.
Proof.
  intros HR HT Hk. unfold register_agent. destruct (_read_state sid r) as [st|]; [|done].
  case_bool_decide; [done|]. cbn [fst]. rewrite write_key by done. rewrite decide_False; [done|]. by intros ->.
Qed.

Lemma ext_frame {B} (m : M X B) : respects same_task_keys (on_ext m).
Proof. intros w k Hk. unfold on_ext. by destruct (m _) as [x b]. Qed.

#[export] Instance OrchestratorEnvLaws `{!RedisLaws R} (HT : (0 < SESSION_TTL)%Z) : AgentEnvLaws R (process X).
Proof.
  split; cbn.
  - intros sid aid w k Hk. unfold on_redis_only. pose proof (register_agent_frame (clock 0) sid aid w.1 k _ HT Hk).
    by destruct (register_agent _ _ _ _ _) as [r b].
  - done.
  - intros. apply ext_frame.
  - intros role sid msgs w k Hk. unfold on_router.
    pose proof (dispatch_store true true (agent_request (to_message <$> msgs)) role (Some (to_message <$> msgs)) sid
                  (w.1, (s_cache w.2, s_ext w.2))) as Hs.
    destruct (dispatch _ _ _ _ _ _ _ _ _ _ _ _ _) as [[r [c x]] b]. unfold same_store in Hs. cbn in *. by subst.
  - intros. apply ext_frame.
  - done.
Qed.

(** ** The whole *)

Context (TASK_LEASE_TTL : Z) (MAX_PARALLEL_AGENTS : nat) (worker_id : string → string).

(** [TaskQueue.execute_plan] as the orchestrator runs it. *)
Definition run_plan (fuel : nat) (sid : string) : M (R * (pqueue * Agents)) plan_result :=
  execute_plan TASK_LEASE_TTL MAX_PARALLEL_AGENTS worker_id fuel sid.

(** [PatchQueue.process_all] as the orchestrator runs it. *)
Definition run_patches (fuel : nat) : M (R * (pqueue * Agents)) (list apply_outcome) :=
  process_all sha256 true true fuel [].

(** C5: in the orchestrator as it is wired, a loaded plan runs in dependency
    order, each task at most once, and nothing is left to run, whatever the
    model servers, the vector store and the executor answer: no component an
    agent run passes through touches the plan. *)
Theorem orchestrator_runs_plan_in_order `{!RedisLaws R} sid ts r r1 a :
  (0 < SESSION_TTL)%Z → 1 ≤ MAX_PARALLEL_AGENTS → stored_under_id sid r →
  load_plan sid ts r = (r1, Ok (length ts)) →
  ∃ w' p, run_plan (length ts) sid (r1, a) = (w', Ok p) ∧
    get_ready_tasks sid w'.1 = [] ∧ NoDup (executed_ids (pr_tasks p)) ∧
    ∀ i rec d, pr_tasks p !! i = Some rec → d ∈ task_deps (er_task rec) →
      ∃ j rec', j < i ∧ pr_tasks p !! j = Some rec' ∧
        t_id (er_task rec') = d ∧ er_status rec' = ExComplete.
Proof.
  intros HT HM Hst Hload. pose proof (OrchestratorEnvLaws HT) as Henv.
  pose proof (AgentManagerRunnerLaws parse_chunk MAX_AGENT_HISTORY MAX_AGENT_RUNTIME uuid8 clock) as Hrun.
  pose proof (PatchQueueSinkLaws (E:=Agents) sha256 uuid8 uuid4 clock MAX_PATCH_QUEUE_DEPTH 0 true) as Hsink.
  by apply (execute_plan_ordered TASK_LEASE_TTL MAX_PARALLEL_AGENTS worker_id sid ts r r1 a).
Qed.
End system.

(** ** The executor behind its client *)

Section service.
Context (WORKSPACE_DIR : path) (ALLOWED_COMMANDS : list string) (CMD_TIMEOUT : Z).
Context (run_process : list string → path → option Z → fs → fs * proc_outcome).
Context (decode : string → string) (glob : string → fs → list string) (temp_patch : path).
(** The message of the exception [raise_for_status] raises for a status. *)
Context (status_message : Z → string).

(** What the client gets of an endpoint: its answer, or what [raise_for_status]
    makes of an [HTTPException]; any other exception is a status 500. *)
Definition answer {A B} (f : A → B) (m : M fs A) : M fs B := λ w,
  let '(w', r) := m w in
  (w', match r with
       | Ok a => Ok (f a)
       | Raise (HTTPException code _) => Raise (OtherError (status_message code))
       | Raise _ => Raise (OtherError (status_message 500))
       end).

(** The requests of the client, served by the endpoints. *)
Definition ExecutorService : ExecutorHttp fs :=
  {| post_execute c t d :=
       answer (λ r, ExecuteResponse (er_stdout r) (er_stderr r) (er_exit_code r))
         (Executor.execute WORKSPACE_DIR ALLOWED_COMMANDS CMD_TIMEOUT run_process (ExecRequest c t d));
     post_apply_patch diff target :=
       answer (λ r, ApplyResponse (pr_applied r) (Some (pr_message r)))
         (Executor.apply_patch WORKSPACE_DIR run_process temp_patch (PatchRequest diff target));
     post_read_file p :=
       answer (λ r, ReadResponse (fr_path r) (fr_content r) (fr_size_bytes r))
         (Executor.read_file WORKSPACE_DIR decode p);
     post_list_files p := answer (λ l, l) (Executor.list_files WORKSPACE_DIR glob p);
     get_health := λ f, (f, Ok 200%Z) |}.
End service.

(** ** A concrete orchestrator

    The laptop profile, an Ollama server that answers every request with the
    same diff of the file f.py, and the executor service over a workspace
    with that file. *)

Module Concrete.
Definition ws : path := ["workspace"].
Definition f_py : path := ["workspace"; "f.py"].

(** git: the check succeeds, the live application rewrites the file. *)
Definition git (args : list string) (cwd : path) (timeout : option Z) (f : fs) : fs * proc_outcome :=
  (if bool_decide ("--check" ∈ args) then f else FS (<[f_py := "b"]> (fs_files f)) (fs_dirs f),
   Completed 0 "" "").

#[local] Instance executor : ExecutorHttp fs :=
  ExecutorService ws ["pytest"] 120 git (λ s, s) (λ _ _, []) ["tmp"; "p.patch"] pretty.
#[local] Instance memory : MemorySearch fs :=
  {| search_codebase _ _ := mret []; search_antipatterns _ _ := mret []; recall _ _ := mret [] |}.
#[local] Instance failures : MemoryFailures fs :=
  {| record_failure _ _ _ _ _ := mret tt; prompt_file _ := None |}.

Definition diff_lines : list string :=
  ["```diff"; "--- a/f.py"; "+++ b/f.py"; "@@ -1 +1 @@"; "-a"; "+b"; "```"].

(** Ollama answers, or refuses every connection. *)
Definition ollama (up : bool) : RouterHttp fs :=
  {| rt_time _ := 0%Z;
     rt_get url f := (f, if up && contains "11434" url then Ok 200%Z else Raise (OtherError "refused"));
     post_ollama _ _ f := (f, Raise (OtherError "refused"));
     post_vllm _ _ f := (f, Raise (OtherError "refused"));
     stream_post_ollama _ _ f :=
       (f, if up then Ok (StreamResponse 200 diff_lines None) else Raise (OtherError "refused"));
     stream_post_vllm _ _ f := (f, Raise (OtherError "refused"));
     litellm _ _ _ _ _ f := (f, Raise (OtherError "refused")) |}.

Definition cfg : config :=
  Config "laptop" "http://ollama:11434" "http://vllm-coder:8000/v1" "http://vllm-architect:8000/v1"
    "http://vllm-reviewer:8000/v1" "qwen2.5-coder:7b" "c" "a" "r" "s".

Definition plan : list task :=
  [Task "t1" (Some "architect") (Some "design") (DepsList []) Pending None;
   Task "t2" (Some "coder") (Some "write f.py") (DepsList ["t1"]) Pending None].
Definition loaded : store := (load_plan "s" plan (∅ : store)).1.
Definition start : pqueue * ((list (string * agent) * nat) * process fs) :=
  (PQ [] [] [], (([], 0), Process [] empty_bus [] (FS {[f_py := "a"]} {[ws]}))).

(** Ollama sends each line of the text with its line break. *)
Definition parse_line (s : string) : option (res (string * bool)) := Some (Ok (s +:+ nl, false)).

Definition execute (up : bool) : (store * (pqueue * ((list (string * agent) * nat) * process fs))) * res plan_result :=
  run_plan (H := StoreRedis) (RouterHttp0 := ollama up) cfg 100 60 24000 20 50 false true
    (λ n, pretty n) (λ n, pretty n) Z.of_nat (λ x, x) (λ x, x) (λ _, "") Router.Concrete.json_error
    Router.Concrete.json_chunk parse_line Router.Concrete.parse_chunk 60 2 (λ x, x) 2 "s" (loaded, start).

Definition applied (up : bool) := run_patches (H := StoreRedis) true (λ x, x) 5 (execute up).1.

Definition result (up : bool) : nat * nat :=
  match (execute up).2 with Ok p => (pr_executed p, pr_complete p) | Raise _ => (0, 0) end.
Definition the_process (w : store * (pqueue * ((list (string * agent) * nat) * process fs))) : process fs := w.2.2.2.

(** Two agents run, the coder's diff is queued, processed and applied, and the
    bus told the session about it. *)
Example plan_runs_and_patch_lands :
  result true = (2, 2) ∧
  fs_files (s_ext (the_process (applied true).1)) !! f_py = Some "b" ∧
  (λ e, ev_type e.2) <$> ab_channel (s_bus (the_process (applied true).1))
    = [WORK_COMPLETE; WORK_COMPLETE; PATCH_APPLIED].
Proof. by vm_compute. Qed.

(** With a dead Ollama the plan is reported as complete all the same, and the
    bus announces two completed works. *)
Example dead_model_completes_plan :
  result false = (2, 2) ∧
  (λ e, ev_type e.2) <$> ab_channel (s_bus (the_process (execute false).1)) = [WORK_COMPLETE; WORK_COMPLETE].
Proof. by vm_compute. Qed.

Lemma system_witness :
  ∃ w' p, execute true = (w', Ok p) ∧
    get_ready_tasks "s" w'.1 = [] ∧ NoDup (executed_ids (pr_tasks p)) ∧
    ∀ i rec d, pr_tasks p !! i = Some rec → d ∈ task_deps (er_task rec) →
      ∃ j rec', j < i ∧ pr_tasks p !! j = Some rec' ∧
        t_id (er_task rec') = d ∧ er_status rec' = ExComplete.
Proof.
  apply (orchestrator_runs_plan_in_order (RouterHttp0 := ollama true) cfg 100 60 24000 20 50 false true
    (λ n, pretty n) (λ n, pretty n) Z.of_nat (λ x, x) (λ x, x) (λ _, "") Router.Concrete.json_error
    Router.Concrete.json_chunk parse_line Router.Concrete.parse_chunk 60 2 (λ x, x) "s" plan ∅ loaded start).
  - lia.
  - lia.
  - exact (TaskQueueProps.Concrete.empty_stored "s").
  - by vm_compute.
Defined.
End Concrete.
