(* ===== verification/Lifespan.v ===== *)
(** * Start-up and shutdown of the orchestrator
    (orchestrator/main.py: [lifespan]; the [init_*] and [get_*] functions of the
    components and the setters that wire them)

    The objects the modules hold globally, as references: what matters is which
    of them are the same.  An agent manager changes after it was handed out, so
    it lives in a heap; the other objects are what they were made with.  The
    services a start-up waits for are a class. *)

From S2P Require Import Prelude PyStr.
Local Open Scope string_scope.
Local Open Scope list_scope.
Local Open Scope nat_scope.
Local Open Scope py_scope.

(** A Redis connection, by its identity. *)
Definition connection : Type := nat.

(** What is outside: the vector store, Redis, the files of the skills, the model
    servers, the file system observer and the HTTP clients. *)
Class Services (X : Type) := {
  memory_connect : M X unit;
  from_url : M X connection;
  ping : connection → M X unit;
  load_skills : M X unit;
  detect_available : M X unit;
  watcher_start : connection → M X unit;
  watcher_stop : M X unit;
  registry_close : M X unit;
  memory_close : M X unit;
  redis_close : connection → M X unit
}.

(** Objects, each with its own identity. *)
Record routing_policy := RoutingPolicy { rp_id : nat; rp_redis : option connection }.
Record agent_bus := AgentBus { ab_id : nat; ab_redis : connection }.
Record debate_engine := DebateEngine { de_id : nat; de_mgr : nat }.
Record session_manager := SessionManager { sm_id : nat; sm_redis : connection; sm_mgr : nat; sm_bus : option agent_bus }.
Record manager_object := ManagerObject { mo_redis : option connection; mo_bus : option agent_bus }.

(** The variables [_policy], [_agent_manager], ... of the modules. *)
Record singletons := Singletons {
  sg_policy : option routing_policy; sg_manager : option nat; sg_debate : option debate_engine;
  sg_hooks : option nat; sg_registry : option nat; sg_bus : option agent_bus;
  sg_sessions : option session_manager
}.
Definition no_singletons : singletons := Singletons None None None None None None None.

(** The attributes of the objects made at import: [task_queue], [patch_queue],
    [router], [skill_loader], [file_watcher]. *)
Record wires := Wires {
  wi_tq_redis : option connection; wi_tq_patch_queue : bool;
  wi_pq_redis : option connection; wi_pq_bus : option agent_bus;
  wi_router_policy : option routing_policy; wi_skills_loaded : bool
}.
Definition no_wires : wires := Wires None false None None None false.

Record process (X : Type) := Process {
  pr_next : nat; pr_managers : gmap nat manager_object; pr_globals : singletons; pr_wires : wires; pr_ext : X
}.
Arguments Process {X}.
Arguments pr_next {X}.
Arguments pr_managers {X}.
Arguments pr_globals {X}.
Arguments pr_wires {X}.
Arguments pr_ext {X}.

Section lifespan.
Context {X : Type} `{!Services X}.
Local Abbreviation W := (process X).

Definition on_ext {A} (m : M X A) : M W A := λ w,
  let (x, r) := m (pr_ext w) in (Process (pr_next w) (pr_managers w) (pr_globals w) (pr_wires w) x, r).
Definition on_globals (f : singletons → singletons) : M W unit :=
  mmodify (λ w : W, Process (pr_next w) (pr_managers w) (f (pr_globals w)) (pr_wires w) (pr_ext w)).
Definition on_wires (f : wires → wires) : M W unit :=
  mmodify (λ w : W, Process (pr_next w) (pr_managers w) (pr_globals w) (f (pr_wires w)) (pr_ext w)).
Definition fresh : M W nat := λ w,
  (Process (S (pr_next w)) (pr_managers w) (pr_globals w) (pr_wires w) (pr_ext w), Ok (pr_next w)).

(** ** The getters *)
Definition needed {A} (name init : string) (field : singletons → option A) : M W A :=
  let! g := mgets pr_globals in
  match field g with
  | Some a => mret a
  | None => mraise (RuntimeError (name +:+ " not initialised" +:+ init))
  end.
Definition init_first (f : string) : string := " — call " +:+ f +:+ "() first".
Definition get_routing_policy := needed "RoutingPolicy" (init_first "init_routing_policy") sg_policy.
Definition get_agent_manager := needed "AgentManager" "" sg_manager.
Definition get_debate_engine := needed "DebateEngine" "" sg_debate.
Definition get_session_hooks := needed "SessionHooks" "" sg_hooks.
Definition get_model_registry := needed "ModelRegistry" (init_first "init_model_registry") sg_registry.
Definition get_agent_bus := needed "AgentBus" (init_first "init_agent_bus") sg_bus.
Definition get_session_manager := needed "SessionManager" (init_first "init_session_manager") sg_sessions.

(** ** The initialisers *)
Definition init_routing_policy (redis : option connection) : M W routing_policy :=
  let! i := fresh in
  let p := RoutingPolicy i redis in
  do! on_globals (λ g, Singletons (Some p) (sg_manager g) (sg_debate g) (sg_hooks g) (sg_registry g) (sg_bus g) (sg_sessions g)) in
  mret p.

Definition set_manager (i : nat) (o : manager_object) : M W unit :=
  mmodify (λ w : W, Process (pr_next w) (<[i := o]> (pr_managers w)) (pr_globals w) (pr_wires w) (pr_ext w)).
Definition init_agent_manager (redis : option connection) : M W nat :=
  let! i := fresh in
  do! set_manager i (ManagerObject redis None) in
  do! on_globals (λ g, Singletons (sg_policy g) (Some i) (sg_debate g) (sg_hooks g) (sg_registry g) (sg_bus g) (sg_sessions g)) in
  mret i.
(** [mgr.set_bus(bus)]. *)
Definition manager_set_bus (i : nat) (b : agent_bus) : M W unit :=
  let! ms := mgets pr_managers in
  match ms !! i with Some o => set_manager i (ManagerObject (mo_redis o) (Some b)) | None => mret tt end.

Definition init_debate_engine (mgr : nat) : M W unit :=
  let! i := fresh in
  on_globals (λ g, Singletons (sg_policy g) (sg_manager g) (Some (DebateEngine i mgr)) (sg_hooks g) (sg_registry g)
                     (sg_bus g) (sg_sessions g)).
Definition init_session_hooks : M W unit :=
  let! i := fresh in
  on_globals (λ g, Singletons (sg_policy g) (sg_manager g) (sg_debate g) (Some i) (sg_registry g) (sg_bus g) (sg_sessions g)).
Definition init_model_registry : M W unit :=
  let! i := fresh in
  on_globals (λ g, Singletons (sg_policy g) (sg_manager g) (sg_debate g) (sg_hooks g) (Some i) (sg_bus g) (sg_sessions g)).
Definition init_agent_bus (redis : connection) : M W agent_bus :=
  let! i := fresh in
  let b := AgentBus i redis in
  do! on_globals (λ g, Singletons (sg_policy g) (sg_manager g) (sg_debate g) (sg_hooks g) (sg_registry g) (Some b) (sg_sessions g)) in
  mret b.
Definition init_session_manager (redis : connection) (mgr : nat) (bus : option agent_bus) : M W unit :=
  let! i := fresh in
  on_globals (λ g, Singletons (sg_policy g) (sg_manager g) (sg_debate g) (sg_hooks g) (sg_registry g) (sg_bus g)
                     (Some (SessionManager i redis mgr bus))).

(** ** The objects made at import *)

(** [task_queue.connect()]: the connection is kept before it is tried. *)
Definition task_queue_connect : M W connection :=
  let! c := on_ext from_url in
  do! on_wires (λ v, Wires (Some c) (wi_tq_patch_queue v) (wi_pq_redis v) (wi_pq_bus v) (wi_router_policy v) (wi_skills_loaded v)) in
  do! on_ext (ping c) in
  mret c.
Definition set_patch_queue : M W unit :=
  on_wires (λ v, Wires (wi_tq_redis v) true (wi_pq_redis v) (wi_pq_bus v) (wi_router_policy v) (wi_skills_loaded v)).
Definition patch_queue_set_redis (c : connection) : M W unit :=
  on_wires (λ v, Wires (wi_tq_redis v) (wi_tq_patch_queue v) (Some c) (wi_pq_bus v) (wi_router_policy v) (wi_skills_loaded v)).
Definition patch_queue_set_bus (b : agent_bus) : M W unit :=
  on_wires (λ v, Wires (wi_tq_redis v) (wi_tq_patch_queue v) (wi_pq_redis v) (Some b) (wi_router_policy v) (wi_skills_loaded v)).
Definition set_policy (p : routing_policy) : M W unit :=
  on_wires (λ v, Wires (wi_tq_redis v) (wi_tq_patch_queue v) (wi_pq_redis v) (wi_pq_bus v) (Some p) (wi_skills_loaded v)).
Definition skill_loader_load : M W unit :=
  do! on_ext load_skills in
  on_wires (λ v, Wires (wi_tq_redis v) (wi_tq_patch_queue v) (wi_pq_redis v) (wi_pq_bus v) (wi_router_policy v) true).
Definition task_queue_close : M W unit :=
  let! v := mgets pr_wires in
  match wi_tq_redis v with Some c => on_ext (redis_close c) | None => mret tt end.

(** ** [lifespan] *)
Definition startup : M W unit :=
  do! on_ext memory_connect in
  let! redis := task_queue_connect in
  do! set_patch_queue in
  do! patch_queue_set_redis redis in
  let! policy := init_routing_policy (Some redis) in
  do! set_policy policy in
  let! mgr := init_agent_manager (Some redis) in
  do! init_debate_engine mgr in
  do! init_session_hooks in
  do! skill_loader_load in
  do! init_model_registry in
  do! on_ext detect_available in
  let! bus := init_agent_bus redis in
  do! manager_set_bus mgr bus in
  do! patch_queue_set_bus bus in
  do! init_session_manager redis mgr (Some bus) in
  on_ext (watcher_start redis).

Definition shutdown : M W unit :=
  do! on_ext watcher_stop in
  do! get_model_registry in
  do! on_ext registry_close in
  do! on_ext memory_close in
  task_queue_close.

(** The requests are served between the two; what follows the [yield] is not
    guarded, and is not reached when the start-up raises. *)
Definition lifespan (serve : M W unit) : M W unit :=
  do! startup in do! serve in shutdown.

(** ** Facts *)

(** A service the process waits for raised [e]. *)
Definition service_raised (e : exn) : Prop :=
  ∃ x x' : X, memory_connect x = (x', Raise e) ∨ from_url x = (x', Raise e) ∨ (∃ c, ping c x = (x', Raise e)) ∨
    load_skills x = (x', Raise e) ∨ detect_available x = (x', Raise e) ∨ ∃ c, watcher_start c x = (x', Raise e).

(** One connection, one agent manager and one bus, wherever they are used. *)
Record wired (w : W) (c : connection) (mgr : nat) (b : agent_bus) : Prop := {
  wired_manager : (get_agent_manager w).2 = Ok mgr;
  wired_manager_object : pr_managers w !! mgr = Some (ManagerObject (Some c) (Some b));
  wired_bus : (get_agent_bus w).2 = Ok b ∧ ab_redis b = c;
  wired_policy : ∃ p, (get_routing_policy w).2 = Ok p ∧ rp_redis p = Some c ∧ wi_router_policy (pr_wires w) = Some p;
  wired_sessions : ∃ s, (get_session_manager w).2 = Ok s ∧ sm_redis s = c ∧ sm_mgr s = mgr ∧ sm_bus s = Some b;
  wired_debate : ∃ d, (get_debate_engine w).2 = Ok d ∧ de_mgr d = mgr;
  wired_others : (∃ h, (get_session_hooks w).2 = Ok h) ∧ (∃ r, (get_model_registry w).2 = Ok r);
  wired_queues : wi_tq_redis (pr_wires w) = Some c ∧ wi_tq_patch_queue (pr_wires w) = true ∧
    wi_pq_redis (pr_wires w) = Some c ∧ wi_pq_bus (pr_wires w) = Some b ∧ wi_skills_loaded (pr_wires w) = true
}.

Ltac service m :=
  let x := fresh "x" in let u := fresh "u" in let E := fresh "E" in
  destruct m as [x [u|?]] eqn:E; [|eexists _, _; naive_solver].

Lemma startup_spec w :
  match startup w with
  | (w', Ok _) => ∃ c mgr b, wired w' c mgr b
  | (_, Raise e) => service_raised e
  end.
Proof.
  destruct w as [n ms g v x]. unfold startup, task_queue_connect, skill_loader_load, mbind, on_ext. cbn.
  service (memory_connect x). cbn. service (from_url x0). cbn. service (ping u0 x1). cbn.
  service (load_skills x2). cbn. service (detect_available x3). cbn.
  unfold manager_set_bus, mbind, mgets. cbn. rewrite lookup_insert_eq. cbn.
  service (watcher_start u0 x4). cbn.
  eexists u0, _, _. split; cbn.
  - reflexivity.
  - apply lookup_insert_eq.
  - by split.
  - by eexists.
  - by eexists.
  - by eexists.
  - by split; eexists.
  - done.
Qed.
(** A start-up ends with every component initialised and wired to the same
    connection, agent manager and bus, whatever an earlier one left; or it
    raises what one of the services raised. *)
Theorem startup_wires w :
  match startup w with
  | (w', Ok _) => ∃ c mgr b, wired w' c mgr b
  | (_, Raise e) => service_raised e
  end.
Proof. apply startup_spec. Qed.

Lemma needed_ok {A} name init (f : singletons → option A) w a :
  (needed name init f w).2 = Ok a ↔ f (pr_globals w) = Some a.
Proof. unfold needed, mbind, mgets. cbn. destruct (f (pr_globals w)); cbn; naive_solver. Qed.

Lemma wired_ext w c mgr b x :
  wired w c mgr b → wired (Process (pr_next w) (pr_managers w) (pr_globals w) (pr_wires w) x) c mgr b.
Proof.
  assert (∀ A name init (f : singletons → option A) a, (needed name init f w).2 = Ok a →
    (needed name init f (Process (pr_next w) (pr_managers w) (pr_globals w) (pr_wires w) x)).2 = Ok a) as Hn.
  { intros A name init f a. by rewrite !needed_ok. }
  intros [Hm ? [Hb ?] (p & Hp & ? & ?) (s & Hs & ?) (d & Hd & ?) [[h Hh] [r Hr]] ?].
  split; [apply Hn, Hm|done|split; [apply Hn, Hb|done]| | | | |done].
  - exists p. split; [apply Hn, Hp|done].
  - exists s. split; [apply Hn, Hs|done].
  - exists d. split; [apply Hn, Hd|done].
  - split; eexists; [apply Hn, Hh|apply Hn, Hr].
Qed.

Lemma shutdown_wired w c mgr b : wired w c mgr b →
  shutdown w = on_ext (do! watcher_stop in do! registry_close in do! memory_close in redis_close c) w.
Proof.
  intros [_ _ _ _ _ _ [_ [r Hr]] [Hc _]]. destruct w as [n ms g v x]. cbn in Hc.
  unfold shutdown, on_ext, mbind. cbn. destruct (watcher_stop x) as [x1 [u|e]]; [|done]. cbn.
  unfold get_model_registry, needed, mbind, mgets in *. cbn in *. destruct (sg_registry g); [|done]. cbn.
  destruct (registry_close x1) as [x2 [u2|e]]; [|done]. cbn. destruct (memory_close x2) as [x3 [u3|e]]; [|done].
  unfold task_queue_close, mbind, mgets. cbn. by rewrite Hc.
Qed.

(** Requests change the services, not the wiring. *)
Definition keeps_wiring (m : M W unit) : Prop := ∀ w,
  ∃ x, m w = (Process (pr_next w) (pr_managers w) (pr_globals w) (pr_wires w) x, Ok tt).

(** A run of the application that ends without an exception closed, last, the
    connection that its start-up opened and handed to every component. *)
Theorem lifespan_closes serve w w' :
  keeps_wiring serve → lifespan serve w = (w', Ok tt) →
  ∃ c mgr b x, wired w' c mgr b ∧ redis_close c x = (pr_ext w', Ok tt).
Proof.
  intros Hs. unfold lifespan, mbind at 1. pose proof (startup_spec w) as Hw.
  destruct (startup w) as [w1 [u|e]]; [|done]. destruct Hw as (c & mgr & b & Hw).
  unfold mbind at 1. destruct (Hs w1) as [x ->].
  rewrite (shutdown_wired _ c mgr b (wired_ext _ _ _ _ x Hw)). unfold on_ext, mbind at 1. cbn.
  destruct (watcher_stop x) as [x1 [u1|e]]; [|done]. unfold mbind at 1. destruct (registry_close x1) as [x2 [u2|e]]; [|done].
  unfold mbind. destruct (memory_close x2) as [x3 [u3|e]]; [|done].
  destruct (redis_close c x3) as [x4 [[]|e]] eqn:Ec; [|done]. intros [= <-]. exists c, mgr, b, x3. split; [by apply wired_ext|done].
Qed.
End lifespan.

Module Concrete.
(** The calls of the services, in order; the file with the skills may be unreadable. *)
Definition call (name : string) : M (list string) unit := λ l, (l ++ [name], Ok tt).
Definition services_with (skills : M (list string) unit) : Services (list string) := {|
  memory_connect := call "memory.connect";
  from_url l := (l ++ ["from_url"], Ok (length l));
  ping _ := call "ping";
  load_skills := skills;
  detect_available := call "detect_available";
  watcher_start _ := call "watcher.start";
  watcher_stop := call "watcher.stop";
  registry_close := call "registry.close";
  memory_close := call "memory.close";
  redis_close _ := call "redis.close"
|}.
Definition p0 : process (list string) := Process 0 ∅ no_singletons no_wires [].
Definition serve : M (process (list string)) unit := @on_ext _ _ (call "requests").

#[local] Instance services : Services (list string) := services_with (call "skills").
Definition ended : process (list string) := (lifespan serve p0).1.

Lemma lifespan_witness : ∃ c mgr b x, wired ended c mgr b ∧ redis_close c x = (pr_ext ended, Ok tt).
Proof.
  assert (H : (lifespan serve p0).2 = Ok tt) by reflexivity.
  apply (lifespan_closes serve p0 ended); [intros w; eexists; reflexivity|].
  rewrite (surjective_pairing (lifespan serve p0)), H. unfold ended. reflexivity.
Defined.

Example calls_in_order : pr_ext ended =
  ["memory.connect"; "from_url"; "ping"; "skills"; "detect_available"; "watcher.start"; "requests";
   "watcher.stop"; "registry.close"; "memory.close"; "redis.close"].
Proof. reflexivity. Qed.

(** A getter before the start-up, and a start-up whose skills cannot be read:
    the connection it opened is not closed. *)
Example not_started : (get_session_manager p0).2 =
  Raise (RuntimeError "SessionManager not initialised — call init_session_manager() first").
Proof. reflexivity. Qed.
Example failed_start :
  let r := @lifespan _ (services_with (λ l, (l, Raise (OtherError "unreadable")))) serve p0 in
  r.2 = Raise (OtherError "unreadable") ∧ pr_ext r.1 = ["memory.connect"; "from_url"; "ping"] ∧
  wi_tq_redis (pr_wires r.1) = Some 1.
Proof. vm_compute. split_and!; reflexivity. Qed.
End Concrete.
