(* ===== verification/TuiState.v ===== *)
(** * The state of the terminal interface (tui/tui/state.py)

    [AppState] owns the interface, project and session states; the dicts keep
    their insertion order.  The objects of the orchestrator's answers are
    records whose optional fields say which keys are present. *)

From S2P Require Import Prelude PyStr.
Local Open Scope string_scope.
Local Open Scope list_scope.
Local Open Scope nat_scope.
Local Open Scope py_scope.

(** ** Sub-states *)
Record ui_state := UIState {
  ui_screen : string; ui_focus_widget : string; ui_connection_status : string;
  ui_dag_sidebar_open : bool; ui_following_agent_id : string; ui_notifications : list string
}.

Record project_state := ProjectState {
  ps_project_id : string; ps_name : string; ps_workspace : string; ps_session_ids : list string;
  ps_git_branch : string; ps_git_dirty : bool; ps_orchestrator_url : string
}.

Record agent_info := AgentInfo {
  ai_agent_id : string; ai_role : string; ai_status : string; ai_model : string; ai_task : string;
  ai_started_at : option Z; ai_ended_at : Z; ai_inbox_depth : Z
}.

Record task_info := TaskInfo {
  ti_id : string; ti_role : string; ti_desc : string; ti_status : string; ti_deps : list string;
  ti_result_preview : string
}.

Record patch_info := PatchInfo {
  pi_patch_id : string; pi_agent_id : string; pi_description : string; pi_status : string;
  pi_files : list string; pi_created_at : Z
}.

Record log_entry := LogEntry {
  le_ts : Z; le_source : string; le_type : string; le_content : string
}.

Record tui_session := SessionState {
  us_session_id : string; us_status : string; us_task : string;
  us_agents : list (string * agent_info);
  us_tasks : list (string * task_info);
  us_patches : list (string * patch_info);
  us_token_count : Z; us_patch_count : nat; us_elapsed_start : Z;
  us_models : list (string * string);
  us_event_log : list log_entry
}.

Record app_state := AppState {
  as_ui : ui_state; as_project : option project_state; as_session : option tui_session
}.

(** ** What the orchestrator sends: an absent key is [None] *)
Record agent_dict := AgentDict {
  ad_agent_id : string; ad_session_id : option string; ad_role : option string; ad_status : option string;
  ad_model : option string; ad_task : option string;
  ad_started_at : option (option Z); ad_ended_at : option Z
}.

Record task_dict := TaskDict {
  td_id : string; td_role : option string; td_desc : option string; td_status : option string;
  td_deps : option (list string); td_result : option string
}.

Record patch_entry := PatchDict {
  pe_patch_id : string; pe_agent_id : option string; pe_description : option string;
  pe_status : option string; pe_files : option (list string); pe_created_at : option Z
}.

(** ** Field updates *)
Definition with_agents (d : list (string * agent_info)) (s : tui_session) : tui_session :=
  SessionState (us_session_id s) (us_status s) (us_task s) d (us_tasks s) (us_patches s)
    (us_token_count s) (us_patch_count s) (us_elapsed_start s) (us_models s) (us_event_log s).
Definition with_tasks (d : list (string * task_info)) (s : tui_session) : tui_session :=
  SessionState (us_session_id s) (us_status s) (us_task s) (us_agents s) d (us_patches s)
    (us_token_count s) (us_patch_count s) (us_elapsed_start s) (us_models s) (us_event_log s).
Definition with_patches (d : list (string * patch_info)) (n : nat) (s : tui_session) : tui_session :=
  SessionState (us_session_id s) (us_status s) (us_task s) (us_agents s) (us_tasks s) d
    (us_token_count s) n (us_elapsed_start s) (us_models s) (us_event_log s).
Definition with_tokens (n : Z) (s : tui_session) : tui_session :=
  SessionState (us_session_id s) (us_status s) (us_task s) (us_agents s) (us_tasks s) (us_patches s)
    n (us_patch_count s) (us_elapsed_start s) (us_models s) (us_event_log s).
Definition with_log (l : list log_entry) (s : tui_session) : tui_session :=
  SessionState (us_session_id s) (us_status s) (us_task s) (us_agents s) (us_tasks s) (us_patches s)
    (us_token_count s) (us_patch_count s) (us_elapsed_start s) (us_models s) l.
Definition with_status (v : string) (s : tui_session) : tui_session :=
  SessionState (us_session_id s) v (us_task s) (us_agents s) (us_tasks s) (us_patches s)
    (us_token_count s) (us_patch_count s) (us_elapsed_start s) (us_models s) (us_event_log s).

Definition with_agent_status (v : string) (a : agent_info) : agent_info :=
  AgentInfo (ai_agent_id a) (ai_role a) v (ai_model a) (ai_task a) (ai_started_at a) (ai_ended_at a)
    (ai_inbox_depth a).

(** ** SessionState *)
Definition active_statuses : list string := ["idle"; "running"; "done"; "failed"; "killed"].

Definition active_agents (s : tui_session) : list agent_info :=
  List.filter (λ a, bool_decide (ai_status a ∈ active_statuses)) (us_agents s).*2.

Definition running_agents (s : tui_session) : list agent_info :=
  List.filter (λ a, bool_decide (ai_status a = "running")) (us_agents s).*2.

Definition tasks_list (s : tui_session) : list task_info := (us_tasks s).*2.

(** [sorted(…, key=created_at, reverse=True)]: stable, newest first. *)
Definition newer (p q : patch_info) : bool := (pi_created_at q <=? pi_created_at p)%Z.
Definition patches_list (s : tui_session) : list patch_info := sort_by newer (us_patches s).*2.

Definition elapsed_seconds (now : Z) (s : tui_session) : Z := (now - us_elapsed_start s)%Z.

(** ** AppState *)
Definition initial_ui : ui_state := UIState "launcher" "" "disconnected" true "" [].
Definition initial_state : app_state := AppState initial_ui None None.

Definition on_ui (f : ui_state → ui_state) (st : app_state) : app_state :=
  AppState (f (as_ui st)) (as_project st) (as_session st).

(** The guard [if self.session is None: return] of the session helpers. *)
Definition on_session (f : tui_session → tui_session) (st : app_state) : app_state :=
  AppState (as_ui st) (as_project st) (f <$> as_session st).

Definition set_connection (v : string) : app_state → app_state :=
  on_ui (λ u, UIState (ui_screen u) (ui_focus_widget u) v (ui_dag_sidebar_open u)
                (ui_following_agent_id u) (ui_notifications u)).

Definition set_following (agent_id : string) : app_state → app_state :=
  on_ui (λ u, UIState (ui_screen u) (ui_focus_widget u) (ui_connection_status u) (ui_dag_sidebar_open u)
                agent_id (ui_notifications u)).

Definition toggle_dag (st : app_state) : app_state * bool :=
  let st' := on_ui (λ u, UIState (ui_screen u) (ui_focus_widget u) (ui_connection_status u)
                           (negb (ui_dag_sidebar_open u)) (ui_following_agent_id u) (ui_notifications u)) st in
  (st', ui_dag_sidebar_open (as_ui st')).

Definition push_notification (msg : string) : app_state → app_state :=
  on_ui (λ u,
    let l := ui_notifications u ++ [msg] in
    UIState (ui_screen u) (ui_focus_widget u) (ui_connection_status u) (ui_dag_sidebar_open u)
      (ui_following_agent_id u) (if 10 <? length l then drop 1 l else l)).

Definition init_session (now : Z) (session_id task : string) (models : option (list (string * string)))
    (st : app_state) : app_state :=
  AppState (as_ui st) (as_project st)
    (Some (SessionState session_id "" task [] [] [] 0 0 now (default [] models) [])).

Definition clear_session (st : app_state) : app_state := AppState (as_ui st) (as_project st) None.

Definition set_project (p : project_state) (st : app_state) : app_state :=
  AppState (as_ui st) (Some p) (as_session st).

(** [x or y] on numbers. *)
Definition num_or (x : option Z) (y : Z) : Z :=
  match x with Some v => if (v =? 0)%Z then y else v | None => y end.

Definition update_agent (d : agent_dict) (a : agent_info) : agent_info :=
  AgentInfo (ai_agent_id a) (ai_role a) (default (ai_status a) (ad_status d))
    (py_or (default (ai_model a) (ad_model d)) (ai_model a))
    (py_or (default (ai_task a) (ad_task d)) (ai_task a))
    (ai_started_at a) (num_or (ad_ended_at d) (ai_ended_at a)) (ai_inbox_depth a).

Definition new_agent (now : Z) (d : agent_dict) : agent_info :=
  AgentInfo (ad_agent_id d) (default "" (ad_role d)) (default "idle" (ad_status d))
    (default "" (ad_model d)) (default "" (ad_task d)) (default (Some now) (ad_started_at d)) 0 0.

(** [upsert_agent], [upsert_task] and [upsert_patch]: an entry known is
    updated where it is, a new one is added at the end. *)
Definition upsert_agent (now : Z) (d : agent_dict) : app_state → app_state :=
  on_session (λ s,
    let aid := ad_agent_id d in
    let a := match dict_get aid (us_agents s) with
             | Some a => update_agent d a
             | None => new_agent now d
             end in
    with_agents (dict_set aid a (us_agents s)) s).

Definition update_task (d : task_dict) (t : task_info) : task_info :=
  TaskInfo (ti_id t) (ti_role t) (ti_desc t) (default (ti_status t) (td_status d)) (ti_deps t)
    (stake 100 (default "" (td_result d))).

Definition new_task (d : task_dict) : task_info :=
  TaskInfo (td_id d) (default "" (td_role d)) (default "" (td_desc d)) (default "pending" (td_status d))
    (default [] (td_deps d)) "".

Definition upsert_task (d : task_dict) : app_state → app_state :=
  on_session (λ s,
    let tid := td_id d in
    let t := match dict_get tid (us_tasks s) with Some t => update_task d t | None => new_task d end in
    with_tasks (dict_set tid t (us_tasks s)) s).

Definition update_patch (d : patch_entry) (p : patch_info) : patch_info :=
  PatchInfo (pi_patch_id p) (pi_agent_id p) (pi_description p) (default "pending" (pe_status d))
    (pi_files p) (pi_created_at p).

Definition new_patch (now : Z) (d : patch_entry) : patch_info :=
  PatchInfo (pe_patch_id d) (default "" (pe_agent_id d)) (default "" (pe_description d))
    (default "pending" (pe_status d)) (default [] (pe_files d)) (default now (pe_created_at d)).

Definition is_applied (p : patch_info) : bool := bool_decide (pi_status p = "applied").

Definition upsert_patch (now : Z) (d : patch_entry) : app_state → app_state :=
  on_session (λ s,
    let pid := pe_patch_id d in
    let p := match dict_get pid (us_patches s) with
             | Some p => update_patch d p
             | None => new_patch now d
             end in
    let ps := dict_set pid p (us_patches s) in
    with_patches ps (count_if is_applied ps.*2) s).

Definition add_tokens (count : Z) : app_state → app_state :=
  on_session (λ s, with_tokens (us_token_count s + count)%Z s).

Definition log_event (now : Z) (source event_type content : string) : app_state → app_state :=
  on_session (λ s,
    let l := us_event_log s ++ [LogEntry now source event_type content] in
    with_log (if 500 <? length l then last_n 500 l else l) s).

(** The two assignments the services make on the session themselves. *)
Definition set_agent_status (agent_id v : string) : app_state → app_state :=
  on_session (λ s,
    match dict_get agent_id (us_agents s) with
    | Some a => with_agents (dict_set agent_id (with_agent_status v a) (us_agents s)) s
    | None => s
    end).
Definition set_session_status (v : string) : app_state → app_state := on_session (with_status v).

(** ** The operations as steps *)
Inductive state_op :=
  | SetConnection (v : string) | SetFollowing (agent_id : string) | ToggleDag
  | PushNotification (msg : string)
  | InitSession (now : Z) (session_id task : string) (models : option (list (string * string)))
  | ClearSession | SetProject (p : project_state)
  | UpsertAgent (now : Z) (d : agent_dict) | UpsertTask (d : task_dict) | UpsertPatch (now : Z) (d : patch_entry)
  | AddTokens (count : Z) | LogEvent (now : Z) (source event_type content : string)
  | SetAgentStatus (agent_id v : string) | SetSessionStatus (v : string).

Definition apply_op (o : state_op) : app_state → app_state :=
  match o with
  | SetConnection v => set_connection v
  | SetFollowing a => set_following a
  | ToggleDag => λ st, (toggle_dag st).1
  | PushNotification msg => push_notification msg
  | InitSession now sid task models => init_session now sid task models
  | ClearSession => clear_session
  | SetProject p => set_project p
  | UpsertAgent now d => upsert_agent now d
  | UpsertTask d => upsert_task d
  | UpsertPatch now d => upsert_patch now d
  | AddTokens n => add_tokens n
  | LogEvent now src ty c => log_event now src ty c
  | SetAgentStatus a v => set_agent_status a v
  | SetSessionStatus v => set_session_status v
  end.

Definition apply_ops (os : list state_op) (st : app_state) : app_state :=
  foldl (λ st o, apply_op o st) st os.

(** ** Well-formed states *)
Definition keyed {A} (key : A → string) (d : list (string * A)) : Prop :=
  NoDup d.*1 ∧ ∀ k v, (k, v) ∈ d → key v = k.

Record session_ok (s : tui_session) : Prop := {
  so_agents : keyed ai_agent_id (us_agents s);
  so_tasks : keyed ti_id (us_tasks s);
  so_patches : keyed pi_patch_id (us_patches s);
  so_patch_count : us_patch_count s = count_if is_applied (us_patches s).*2;
  so_previews : ∀ t, t ∈ tasks_list s → String.length (ti_result_preview t) ≤ 100;
  so_event_log : length (us_event_log s) ≤ 500
}.

Definition state_ok (st : app_state) : Prop :=
  length (ui_notifications (as_ui st)) ≤ 10 ∧ (∀ s, as_session st = Some s → session_ok s).

Lemma keyed_nil {A} (key : A → string) : keyed key [].
Proof. split; [constructor|]. intros k v H. by apply elem_of_nil in H. Qed.

Lemma dict_set_in {V} (k k' : string) (v v' : V) (d : list (string * V)) :
  NoDup d.*1 → (k', v') ∈ dict_set k v d → (k' = k ∧ v' = v) ∨ (k', v') ∈ d.
Proof.
  intros Hnd H. apply (dict_get_NoDup _ _ _ (NoDup_dict_set k v d Hnd)) in H. rewrite dict_get_set in H.
  case_decide; [left; by simplify_eq|]. right. by apply dict_get_elem.
Qed.

Lemma keyed_set {A} (key : A → string) k v d : keyed key d → key v = k → keyed key (dict_set k v d).
Proof.
  intros [Hnd Hk] Hv. split; [by apply NoDup_dict_set|]. intros k' v' Hin.
  destruct (dict_set_in _ _ _ _ _ Hnd Hin) as [[-> ->]|]; auto.
Qed.

Lemma keyed_get {A} (key : A → string) k v d : keyed key d → dict_get k d = Some v → key v = k.
Proof. intros [_ Hk] H. apply Hk. by apply dict_get_elem. Qed.

Lemma on_session_ok f st :
  (∀ s, session_ok s → session_ok (f s)) → state_ok st → state_ok (on_session f st).
Proof.
  intros Hf [Hn Hs]. split; [done|]. simpl. intros s. destruct (as_session st) as [s0|]; [|done].
  intros [= <-]. auto.
Qed.

Lemma on_ui_ok f st :
  (∀ u, length (ui_notifications u) ≤ 10 → length (ui_notifications (f u)) ≤ 10) →
  state_ok st → state_ok (on_ui f st).
Proof. intros Hf [Hn Hs]. split; [by apply Hf|done]. Qed.

Lemma with_agents_ok d s : keyed ai_agent_id d → session_ok s → session_ok (with_agents d s).
Proof. intros Hd []. by constructor. Qed.

Lemma upsert_task_ok d s :
  session_ok s →
  session_ok (with_tasks (dict_set (td_id d)
    (match dict_get (td_id d) (us_tasks s) with Some t => update_task d t | None => new_task d end)
    (us_tasks s)) s).
Proof.
  intros [? Ht ? ? Hp ?]. constructor; simpl; try done.
  - apply keyed_set; [done|]. destruct (dict_get _ _) eqn:E; [|done]. by apply (keyed_get ti_id) in E.
  - unfold tasks_list. simpl. intros t ([k t'] & -> & Hin)%list_elem_of_fmap. simpl.
    destruct (dict_set_in _ _ _ _ _ (proj1 Ht) Hin) as [[-> ->]|Hold].
    + destruct (dict_get _ _) as [t0|] eqn:E.
      * unfold update_task; cbn [ti_result_preview]. rewrite stake_length. apply Nat.le_min_l.
      * cbn. apply Nat.le_0_l.
    + apply Hp, list_elem_of_fmap. by exists (k, t').
Qed.

Lemma upsert_patch_ok now d s :
  session_ok s →
  let ps := dict_set (pe_patch_id d)
    (match dict_get (pe_patch_id d) (us_patches s) with Some p => update_patch d p | None => new_patch now d end)
    (us_patches s) in
  session_ok (with_patches ps (count_if is_applied ps.*2) s).
Proof.
  intros [? ? Hp ? ? ?]. constructor; simpl; try done.
  apply keyed_set; [done|]. destruct (dict_get _ _) eqn:E; [|done]. by apply (keyed_get pi_patch_id) in E.
Qed.

Lemma apply_op_ok o st : state_ok st → state_ok (apply_op o st).
Proof.
  intros Hok. destruct o; cbn [apply_op]; try (apply on_ui_ok; [|done]); try (apply on_session_ok; [|done]).
  - done.
  - done.
  - done.
  - intros u Hu. simpl. case_match eqn:E.
    + rewrite length_drop, length_app. simpl. lia.
    + apply Nat.ltb_ge in E. lia.
  - destruct Hok as [Hn _]. split; [done|]. simpl. intros s [= <-].
    constructor; simpl; try apply keyed_nil; try done; try lia. intros t H. by apply elem_of_nil in H.
  - destruct Hok as [Hn _]. by split.
  - destruct Hok as [Hn Hs]. by split.
  - intros s Hs. apply with_agents_ok; [|done]. apply keyed_set; [apply Hs|].
    destruct (dict_get _ _) eqn:E; [|done]. by apply (keyed_get ai_agent_id) in E; [|apply Hs].
  - intros s Hs. by apply upsert_task_ok.
  - intros s Hs. by apply upsert_patch_ok.
  - intros s []. by constructor.
  - intros s []. constructor; try done. simpl. case_match eqn:E.
    + rewrite last_n_length. lia.
    + apply Nat.ltb_ge in E. lia.
  - intros s Hs. case_match eqn:E; [|done]. apply with_agents_ok; [|done]. apply keyed_set; [apply Hs|].
    by apply (keyed_get ai_agent_id) in E; [|apply Hs].
  - intros s []. by constructor.
Qed.

(** ** The order of the tasks *)
Definition task_ids_of (os : list state_op) : list string :=
  omap (λ o, match o with UpsertTask d => Some (td_id d) | _ => None end) os.

Definition keeps_session (o : state_op) : bool :=
  match o with InitSession _ _ _ _ | ClearSession => false | _ => true end.

Lemma dict_set_keys {V} (k : string) (v : V) d :
  (dict_set k v d).*1 = if bool_decide (k ∈ d.*1) then d.*1 else d.*1 ++ [k].
Proof.
  induction d as [|[k0 v0] d IH]; [done|]. cbn [dict_set]. rewrite fmap_cons. cbn [fst].
  destruct (decide (k0 = k)) as [->|Hne].
  - rewrite bool_decide_true; [done|]. left.
  - rewrite fmap_cons, IH. cbn [fst]. destruct (decide (k ∈ d.*1)) as [Hin|Hni].
    + rewrite !bool_decide_true; [done| |done]. by right.
    + rewrite !bool_decide_false; [done| |done]. rewrite elem_of_cons. intros [|]; auto.
Qed.

Lemma dict_keys_snoc (l : list string) k :
  dict_keys (l ++ [k]) = if bool_decide (k ∈ l) then dict_keys l else dict_keys l ++ [k].
Proof.
  unfold dict_keys. rewrite reverse_snoc. cbn [remove_dups].
  destruct (decide_rel elem_of k (reverse l)) as [E|E]; rewrite elem_of_reverse in E.
  - by rewrite bool_decide_true.
  - rewrite bool_decide_false; [|done]. by rewrite reverse_cons.
Qed.

Lemma apply_op_tasks o st s ids :
  keeps_session o = true → as_session st = Some s → (us_tasks s).*1 = dict_keys ids →
  ∃ s', as_session (apply_op o st) = Some s' ∧ (us_tasks s').*1 = dict_keys (ids ++ task_ids_of [o]).
Proof.
  intros Hk Hs Hids. destruct o; simpl in Hk; try discriminate; simpl; rewrite Hs, ?app_nil_r; simpl;
    (eexists; split; [reflexivity|]); try done.
  - cbn [us_tasks with_tasks]. rewrite dict_set_keys, dict_keys_snoc, Hids.
    destruct (decide (td_id d ∈ ids)) as [Hin|Hni].
    + rewrite !bool_decide_true; [done|done|]. by apply elem_of_dict_keys.
    + rewrite !bool_decide_false; [done|done|]. by rewrite elem_of_dict_keys.
  - by case_match.
Qed.

Lemma task_ids_of_cons o os : task_ids_of (o :: os) = task_ids_of [o] ++ task_ids_of os.
Proof. unfold task_ids_of. simpl. by case_match. Qed.

Lemma apply_ops_tasks os st s ids :
  Forall (λ o, keeps_session o = true) os → as_session st = Some s → (us_tasks s).*1 = dict_keys ids →
  ∃ s', as_session (apply_ops os st) = Some s' ∧ (us_tasks s').*1 = dict_keys (ids ++ task_ids_of os).
Proof.
  revert st s ids. induction os as [|o os IH]; intros st s ids Hf Hs Hids.
  - exists s. by rewrite app_nil_r.
  - apply Forall_cons in Hf as [Hk Hf]. rewrite task_ids_of_cons, app_assoc.
    destruct (apply_op_tasks o st s ids Hk Hs Hids) as (s1 & Hs1 & Ht). by apply (IH (apply_op o st) s1).
Qed.

Lemma apply_ops_ok os st : state_ok st → state_ok (apply_ops os st).
Proof. revert st. induction os as [|o os IH]; intros st Hok; simpl; [done|]. by apply IH, apply_op_ok. Qed.

Lemma keyed_keys {A} (key : A → string) d : keyed key d → map key d.*2 = d.*1.
Proof.
  intros [_ Hk]. induction d as [|[k v] d IH]; simpl; [done|]. f_equal.
  - apply Hk. left.
  - apply IH. intros k' v' Hin. apply Hk. by right.
Qed.

(** C14: Whatever operations the screens and services make, the state stays well
    formed: every entry is filed once under its own id, [patch_count] is the
    number of applied patches, the previews, notifications and the event log
    stay within their bounds. *)
Theorem reachable_state_ok os : state_ok (apply_ops os initial_state).
Proof. apply apply_ops_ok. split; [simpl; lia|done]. Qed.

(** While a session is open its tasks are listed once each, in the order in
    which the orchestrator first reported them, whatever else happens. *)
Theorem tasks_keep_load_order os now sid task models st :
  state_ok st → Forall (λ o, keeps_session o = true) os →
  ∃ s, as_session (apply_ops os (init_session now sid task models st)) = Some s ∧
       map ti_id (tasks_list s) = dict_keys (task_ids_of os).
Proof.
  intros Hok Hf.
  destruct (apply_ops_tasks os (init_session now sid task models st) _ [] Hf eq_refl eq_refl) as (s & Hs & Hk).
  exists s. split; [done|]. rewrite <- (app_nil_l (task_ids_of os)), <- Hk.
  apply (keyed_keys ti_id), so_tasks.
  refine (proj2 (apply_ops_ok os _ (apply_op_ok (InitSession now sid task models) st Hok)) s Hs).
Qed.

Module Concrete.

Definition ops : list state_op :=
  [UpsertTask (TaskDict "t2" None None None None None);
   UpsertAgent 3 (AgentDict "a1" (Some "s") (Some "coder") (Some "running") None None None None);
   UpsertTask (TaskDict "t1" None None None None None);
   UpsertTask (TaskDict "t2" None None (Some "complete") None (Some "ok"))].

Lemma order_witness :
  ∃ s, as_session (apply_ops ops (init_session 0 "s" "job" None initial_state)) = Some s ∧
       map ti_id (tasks_list s) = ["t2"; "t1"].
Proof.
  apply (tasks_keep_load_order ops 0 "s" "job" None initial_state).
  - split; [vm_compute; lia|done].
  - repeat constructor.
Defined.

End Concrete.
