(* ===== verification/TuiClient.v ===== *)
(** * The transport of the terminal interface (tui/tui/client.py)

    [AicafClient]: the requests as the constructors of [request] with the
    method and path of each, the error mapping of [_get] and [_post], the two
    parsers of event streams; the orchestrator behind HTTP is a class.
    [ConnectionSupervisor]: its loop as a step on the outcome of a ping. *)

From S2P Require Import Prelude PyStr TuiState.
Local Open Scope string_scope.
Local Open Scope list_scope.
Local Open Scope nat_scope.
Local Open Scope py_scope.

(** ** Answers read by the services: an absent key is [None] *)
Record session_dict := SessionDict {
  sd_session_id : option string; sd_status : option string; sd_task : option string;
  sd_models : option (list (string * string))
}.
Record execute_reply := ExecuteReply {
  er_executed : option Z; er_complete : option Z; er_failed : option Z
}.
Record index_reply := IndexReply {
  ir_files_indexed : option Z; ir_files_unchanged : option Z; ir_chunks : option Z
}.
Record memory_entry := MemoryEntry { me_collection : option string; me_content : option string }.
Record debate_reply := DebateReply {
  dr_consensus : bool; dr_rounds : option Z; dr_final_plan : option string
}.
(** [choices[i]]: the content of its message, if both keys are there. *)
Definition chat_choice : Type := option string.

(** ** Requests *)
Inductive request : Type → Type :=
  | GetHealth : request unit
  | GetSessions (status : option string) : request (option (list session_dict))
  | GetSession (session_id : string) : request session_dict
  | PostSession (task : string) (session_id : option string) (models : option (list (string * string))) :
      request session_dict
  | PostEnd (session_id summary : string) : request unit
  | PostPause (session_id : string) : request unit
  | PostResume (session_id : string) : request unit
  | PostConfigure (session_id : string) (models : list (string * string)) : request unit
  | GetSessionModels (session_id : string) : request (list (string * string))
  | GetAgents : request (option (list agent_dict))
  | PostSpawn (role task session_id : string) : request (option string)
  | PostMessage (agent_id message sender : string) : request unit
  | GetTaskStatus (session_id : string) : request (option (list task_dict))
  | PostTasks (session_id : string) (tasks : list task_dict) : request unit
  | PostExecute (session_id : string) : request execute_reply
  | GetPatches (session_id : string) : request (option (list patch_entry))
  | PostProcess : request unit
  | GetCatalog : request (option (list string))
  | GetModelsForRole (role : string) : request (option (list string))
  | PostRefresh : request unit
  | PostIndex : request index_reply
  | GetRecall (query : string) : request (option (list memory_entry))
  | PostChat (content : string) : request (option (list chat_choice))
  | PostDebate (topic session_id : string) : request debate_reply
  | PostLearn (session_id : string) (transcript : list log_entry) : request (option string).

Definition request_path {A} (r : request A) : string :=
  match r with
  | GetHealth => "/health"
  | GetSessions _ | PostSession _ _ _ => "/v1/sessions"
  | GetSession sid => "/v1/sessions/" +:+ sid
  | PostEnd sid _ => "/v1/sessions/" +:+ sid +:+ "/end"
  | PostPause sid => "/v1/sessions/" +:+ sid +:+ "/pause"
  | PostResume sid => "/v1/sessions/" +:+ sid +:+ "/resume"
  | PostConfigure _ _ => "/v1/session/configure"
  | GetSessionModels _ => "/v1/session/models"
  | GetAgents => "/v1/agents/list"
  | PostSpawn _ _ _ => "/v1/agents/spawn"
  | PostMessage aid _ _ => "/v1/agents/" +:+ aid +:+ "/message"
  | GetTaskStatus _ => "/v1/tasks/status"
  | PostTasks _ _ => "/v1/tasks/load"
  | PostExecute _ => "/v1/tasks/execute"
  | GetPatches _ => "/v1/patches/list"
  | PostProcess => "/v1/patches/process"
  | GetCatalog => "/v1/models/catalog"
  | GetModelsForRole _ => "/v1/models/for-role"
  | PostRefresh => "/v1/models/refresh"
  | PostIndex => "/v1/index"
  | GetRecall _ => "/v1/memory/recall"
  | PostChat _ => "/v1/chat/completions"
  | PostDebate _ _ => "/v1/agents/debate"
  | PostLearn _ _ => "/v1/skills/learn"
  end.

Definition is_get {A} (r : request A) : bool :=
  match r with
  | GetHealth | GetSessions _ | GetSession _ | GetSessionModels _ | GetAgents | GetTaskStatus _
  | GetPatches _ | GetCatalog | GetModelsForRole _ | GetRecall _ => true
  | _ => false
  end.

(** [params={k: v for k, v in params.items() if v is not None}]. *)
Definition request_query {A} (r : request A) : list (string * string) :=
  match r with
  | GetSessions (Some status) => [("status", status)]
  | GetSessionModels sid | GetTaskStatus sid | GetPatches sid => [("session_id", sid)]
  | GetModelsForRole role => [("role", role)]
  | GetRecall q => [("q", q)]
  | _ => []
  end.

(** A body, an error status with the [detail] of its JSON body if there is
    one, or the text of any other exception of the transport. *)
Inductive http_result (A : Type) :=
  | HttpOk (a : A)
  | HttpStatus (code : Z) (detail : option string)
  | HttpFailure (msg : string).
Arguments HttpOk {A} a.
Arguments HttpStatus {A} code detail.
Arguments HttpFailure {A} msg.

(** What the orchestrator answers, the state it has when it is done with the
    request, and the seconds in which nothing is read from it before the answer.
    A connection that is not made within its 5 seconds is an [HttpFailure].
    [timeout_text]: the text of an [httpx.ReadTimeout]. *)
Class Orchestrator (X : Type) := {
  send : ∀ {A : Type}, request A → X → X * http_result A;
  silence : ∀ {A : Type}, request A → X → Z;
  timeout_text : string
}.

(** [httpx.Timeout(30.0, connect=5.0)] of [connect]. *)
Definition READ_TIMEOUT : Z := 30.

Record client (X : Type) := Client { cl_base_url : string; cl_http : bool; cl_ext : X }.
Arguments Client {X}.
Arguments cl_base_url {X}.
Arguments cl_http {X}.
Arguments cl_ext {X}.

Section client.
Context {X : Type} `{!Orchestrator X}.

(** The client stops reading after [READ_TIMEOUT]; the request goes on. *)
Definition answer {A} (r : request A) (x : X) : X * http_result A :=
  let (x', res) := send r x in
  (x', if (READ_TIMEOUT <? silence r x)%Z then HttpFailure (timeout_text (X:=X)) else res).

(** [cl_http]: whether there is an [httpx.AsyncClient], with its timeouts. *)
Definition new_client (base_url : string) (x : X) : client X := Client (rstrip_char "/" base_url) false x.
Definition connect (c : client X) : client X := Client (cl_base_url c) true (cl_ext c).
Definition close (c : client X) : client X := Client (cl_base_url c) false (cl_ext c).

Definition _check : M (client X) unit := λ c,
  (c, if cl_http c then Ok tt else Raise (AicafConnectionError "Client not connected — call connect() first")).

Definition status_message {A} (r : request A) (code : Z) (detail : option string) : string :=
  "HTTP " +:+ pretty code +:+ ": " +:+
  (if is_get r then request_path r else py_or (default "" detail) (request_path r)).

(** [_get] and [_post]. *)
Definition call {A} (r : request A) : M (client X) A :=
  do! _check in
  λ c, let (x, res) := answer r (cl_ext c) in
       (Client (cl_base_url c) (cl_http c) x,
        match res with
        | HttpOk a => Ok a
        | HttpStatus code detail => Raise (AicafConnectionError (status_message r code detail))
        | HttpFailure msg => Raise (AicafConnectionError msg)
        end).

Definition list_of {A} (r : request (option (list A))) : M (client X) (list A) :=
  let! data := call r in mret (default [] data).

Definition health : M (client X) unit := call GetHealth.
Definition list_sessions (status : option string) : M (client X) (list session_dict) :=
  list_of (GetSessions status).
Definition get_session (session_id : string) : M (client X) session_dict := call (GetSession session_id).

(** An empty identifier or dict of models is left out of the body. *)
Definition create_session (task session_id : string) (models : list (string * string)) :
    M (client X) session_dict :=
  call (PostSession task (if truthy session_id then Some session_id else None)
          (match models with [] => None | _ => Some models end)).
Definition end_session (session_id summary : string) : M (client X) unit := call (PostEnd session_id summary).
Definition configure_models (session_id : string) (models : list (string * string)) : M (client X) unit :=
  call (PostConfigure session_id models).
Definition list_agents : M (client X) (list agent_dict) := list_of GetAgents.
Definition spawn_agent (role task session_id : string) : M (client X) (option string) :=
  call (PostSpawn role task session_id).
Definition send_agent_message (agent_id message sender : string) : M (client X) unit :=
  call (PostMessage agent_id message sender).
Definition execute_tasks (session_id : string) : M (client X) execute_reply := call (PostExecute session_id).
Definition list_patches (session_id : string) : M (client X) (list patch_entry) := list_of (GetPatches session_id).
Definition get_models_for_role (role : string) : M (client X) (list string) := list_of (GetModelsForRole role).
Definition index_codebase : M (client X) index_reply := call PostIndex.
Definition recall (query : string) : M (client X) (list memory_entry) := list_of (GetRecall query).

Lemma answer_in_time {A} (r : request A) x : (silence r x ≤ READ_TIMEOUT)%Z → answer r x = send r x.
Proof. intros Ht. unfold answer. destruct (send r x). destruct (Z.ltb_spec READ_TIMEOUT (silence r x)); [lia|done]. Qed.

(** A call raises nothing but [AicafConnectionError]. *)
Lemma call_raises {A} (r : request A) c c' e :
  call r c = (c', Raise e) → ∃ msg, e = AicafConnectionError msg.
Proof.
  unfold call, mbind, _check. destruct (cl_http c); [|intros [= <- <-]; eauto].
  destruct (answer r (cl_ext c)) as [x [a|code d|msg]]; intros [= <- <-]; eauto.
Qed.

End client.

(** ** Event streams *)

(** The lines of [GET /v1/agents/{id}/stream]: what is yielded. *)
Fixpoint stream_agent_tokens (lines : list string) : list string :=
  match lines with
  | [] => []
  | l :: lines' =>
      let line := strip l in
      if negb (truthy line) || negb (startswith "data:" line) then stream_agent_tokens lines'
      else
        let token := strip (sdrop 5 line) in
        if bool_decide (token = "[DONE]") then []
        else if truthy token then token :: stream_agent_tokens lines' else stream_agent_tokens lines'
  end.

(** A line of a stream, after so many seconds in which nothing was read. *)
Record stream_line := StreamLine { ln_silence : Z; ln_text : string }.

Section chat.
(** [json.loads] of a chunk: [None] when it is not JSON, the exception of
    reading it when it is not what is expected, else the [content] of the delta
    of each choice, [None] when absent or null. *)
Context (loads : string → option (res (list (option string)))) (timeout_text : string).

(** What is yielded of the lines, and the exception at the end: that of reading
    a chunk or of a line that does not come in time, or that of the connection. *)
Fixpoint chat_stream (failure : option string) (lines : list stream_line) : list string * option exn :=
  match lines with
  | [] => ([], AicafConnectionError <$> failure)
  | l :: lines' =>
      if (READ_TIMEOUT <? ln_silence l)%Z then ([], Some (AicafConnectionError timeout_text))
      else
      let line := strip (ln_text l) in
      if negb (truthy line) || negb (startswith "data:" line) then chat_stream failure lines'
      else
        let data_str := strip (sdrop 5 line) in
        if bool_decide (data_str = "[DONE]") then ([], None)
        else match loads data_str with
             | Some (Ok (choice :: _)) =>
                 let token := default "" choice in
                 let (tokens, e) := chat_stream failure lines' in
                 (if truthy token then token :: tokens else tokens, e)
             | Some (Raise e) => ([], Some (AicafConnectionError (exn_str e)))
             | _ => chat_stream failure lines'
             end
  end.
End chat.

(** ** ConnectionSupervisor *)
Definition PING_INTERVAL : Z := 10.
Definition RETRY_DELAYS : list Z := [1; 2; 4; 8; 16; 30]%Z.
Definition MAX_RETRIES : nat := 10.

Inductive ping := PingOk | PingFail | PingError.
#[export] Instance ping_eq_dec : EqDecision ping.
Proof. solve_decision. Defined.

(** The state of [_loop], the calls of [on_status_change] so far and the
    seconds slept. *)
Record supervisor := Supervisor {
  sv_status : string; sv_retries : nat; sv_done : bool; sv_calls : list string; sv_slept : Z
}.

Definition new_supervisor : supervisor := Supervisor "disconnected" 0 false [] 0.

Definition _set_status (v : string) (s : supervisor) : supervisor :=
  if bool_decide (v = sv_status s) then s
  else Supervisor v (sv_retries s) (sv_done s) (sv_calls s ++ [v]) (sv_slept s).

Definition sleep (d : Z) (s : supervisor) : supervisor :=
  Supervisor (sv_status s) (sv_retries s) (sv_done s) (sv_calls s) (sv_slept s + d)%Z.
Definition with_retries (n : nat) (s : supervisor) : supervisor :=
  Supervisor (sv_status s) n (sv_done s) (sv_calls s) (sv_slept s).
Definition stop_loop (s : supervisor) : supervisor :=
  Supervisor (sv_status s) (sv_retries s) true (sv_calls s) (sv_slept s).

Definition retry_delay (retries : nat) : Z :=
  nth (Nat.min retries (length RETRY_DELAYS - 1)) RETRY_DELAYS 0%Z.

(** One turn of the loop. *)
Definition _loop (s : supervisor) (p : ping) : supervisor :=
  if sv_done s then s
  else match p with
       | PingOk => sleep PING_INTERVAL (_set_status "connected" (with_retries 0 s))
       | PingFail =>
           let s := if bool_decide (sv_status s = "connected") then _set_status "disconnected" s else s in
           if sv_retries s <? MAX_RETRIES
           then let s' := sleep (retry_delay (sv_retries s)) (_set_status "reconnecting" s) in
                with_retries (S (sv_retries s')) s'
           else stop_loop (_set_status "failed" s)
       | PingError => sleep 5 s
       end.

Definition supervise (ps : list ping) : supervisor := foldl _loop new_supervisor ps.

(** ** Facts *)

Lemma rstrip_app_blank a b : rstrip b = "" → rstrip (a +:+ b) = rstrip a.
Proof.
  intros Hb. induction a as [|c a IH]; simpl; [done|]. by rewrite IH.
Qed.

Lemma strip_data_line t :
  strip ("data: " +:+ t) = "data:" +:+ (if truthy (strip t) then " " +:+ rstrip t else "").
Proof.
  unfold strip at 1. change (lstrip ("data: " +:+ t)) with ("data: " +:+ t).
  destruct (truthy (strip t)) eqn:E.
  - rewrite rstrip_app; [done|]. intros H. apply truthy_true in E. apply E.
    unfold strip. apply rstrip_nonempty in H. by rewrite H.
  - apply truthy_false in E. rewrite rstrip_app_blank; [done|].
    apply rstrip_nonempty. apply rstrip_nonempty in E. by rewrite (lstrip_id (lstrip t)) in E by apply lstrip_head.
Qed.

Lemma sdrop_data t : sdrop 5 ("data:" +:+ t) = t.
Proof. reflexivity. Qed.

Lemma data_token t : strip (sdrop 5 (strip ("data: " +:+ t))) = strip t.
Proof.
  rewrite strip_data_line, sdrop_data. destruct (truthy (strip t)) eqn:E.
  - change (strip (" " +:+ rstrip t)) with (strip (rstrip t)). apply strip_strip_r.
  - apply truthy_false in E. by rewrite E.
Qed.

Lemma data_line_ok t : truthy (strip ("data: " +:+ t)) = true ∧ startswith "data:" (strip ("data: " +:+ t)) = true.
Proof. rewrite strip_data_line. split; [done|]. apply startswith_app. Qed.

Section sse.
(** The lines the client reads for an event, and the lines of its data: each is
    sent by [sse_starlette] as a [data:] line of its own, with an empty line
    after the last. *)
Context (sse_event event_lines : string → list string).

Definition event_sent (t : string) : Prop := sse_event t = map (λ l, "data: " +:+ l) (event_lines t) ++ [""].

(** The body of [agent_stream]: an event per token and the end mark. *)
Definition agent_stream_lines (tokens : list string) : list string :=
  concat (map sse_event (tokens ++ ["[DONE]"])).

(** The lines of the tokens, without the spaces around them; those of spaces
    only are dropped. *)
Definition stripped (tokens : list string) : list string :=
  List.filter truthy (map strip (concat (map event_lines tokens))).

Lemma data_lines_read ls k :
  Forall (λ l, strip l ≠ "[DONE]") ls →
  stream_agent_tokens (map (λ l, "data: " +:+ l) ls ++ k) = List.filter truthy (map strip ls) ++ stream_agent_tokens k.
Proof.
  induction ls as [|l ls IH]; intros Hd; [done|]. apply Forall_cons in Hd as [Hl Hd].
  cbn [map Datatypes.app stream_agent_tokens]. destruct (data_line_ok l) as [-> ->]. cbn [negb orb].
  rewrite data_token, bool_decide_false by done. cbn [List.filter]. rewrite IH by done. by destruct (truthy (strip l)).
Qed.

(** What the client yields of an agent's stream: every line of a token loses the
    spaces around it, one of spaces only is dropped, and the end mark ends the
    stream. *)
Theorem agent_tokens_are_stripped tokens :
  Forall event_sent tokens → sse_event "[DONE]" = ["data: [DONE]"; ""] →
  Forall (λ l, strip l ≠ "[DONE]") (concat (map event_lines tokens)) →
  stream_agent_tokens (agent_stream_lines tokens) = stripped tokens.
Proof.
  intros Hs He Hd. unfold agent_stream_lines, stripped. rewrite map_app, concat_app. induction tokens as [|t ts IH].
  - cbn [map concat Datatypes.app]. by rewrite He.
  - apply Forall_cons in Hs as [Ht Hs]. cbn [map concat] in *. apply Forall_app in Hd as [Hdt Hd].
    rewrite Ht, <-!app_assoc, (data_lines_read _ _ Hdt). cbn [Datatypes.app].
    change (stream_agent_tokens ("" :: ?k)) with (stream_agent_tokens k). rewrite IH by done.
    by rewrite map_app, List.filter_app.
Qed.
End sse.

(** *** The supervisor *)

(** The failures since the last answer. *)
Definition failures_step (n : nat) (p : ping) : nat :=
  match p with PingOk => 0 | PingFail => S n | PingError => n end.
Definition failures (ps : list ping) : nat := foldl failures_step 0 ps.

(** The status the number of failures stands for. *)
Definition expected_status (ps : list ping) : string :=
  if failures ps =? 0 then if existsb (λ p, match p with PingOk => true | _ => false end) ps
                           then "connected" else "disconnected"
  else if failures ps <=? MAX_RETRIES then "reconnecting" else "failed".

(** What the loop announces for a ping after [ps]: that it is connected, when it
    was not; that it no longer is, before anything else; a new number of
    failures when it stands for another status. *)
Definition announced (ps : list ping) (p : ping) : list string :=
  let before := expected_status ps in
  let after := expected_status (ps ++ [p]) in
  (if bool_decide (before = "connected" ∧ p = PingFail) then ["disconnected"] else []) ++
  (if bool_decide (after = before) then [] else [after]).

(** Some eleven failures in a row were never interrupted by an answer. *)
Definition gave_up (ps : list ping) : Prop := ∃ k, failures (take k ps) = S MAX_RETRIES.

(** The statuses announced: the current one last, none twice in a row. *)
Definition calls_ok (s : supervisor) : Prop :=
  let l := "disconnected" :: sv_calls s in
  last l = Some (sv_status s) ∧ ∀ i x, l !! i = Some x → l !! S i = Some x → False.

Lemma set_status_calls v s : calls_ok s → calls_ok (_set_status v s).
Proof.
  unfold _set_status. intros [Hl Hr]. case_bool_decide as Hv; [by split|]. split.
  - cbn [sv_calls sv_status]. rewrite app_comm_cons. apply last_snoc.
  - cbn [sv_calls]. intros i x. rewrite !app_comm_cons. intros Hi Hsi.
    apply lookup_snoc_Some in Hsi as [[Hlt Hsi]|[Hlen ->]].
    + rewrite lookup_app_l in Hi by lia. eauto.
    + rewrite lookup_app_l in Hi by lia. rewrite last_lookup, <- Hlen in Hl. cbn in Hl, Hi. congruence.
Qed.

Lemma calls_same s s' : sv_status s' = sv_status s → sv_calls s' = sv_calls s → calls_ok s → calls_ok s'.
Proof. unfold calls_ok. by intros -> ->. Qed.

Lemma set_status_status v s : sv_status (_set_status v s) = v.
Proof. unfold _set_status. by case_bool_decide. Qed.
Lemma set_status_retries v s : sv_retries (_set_status v s) = sv_retries s.
Proof. unfold _set_status. by case_bool_decide. Qed.
Lemma set_status_done v s : sv_done (_set_status v s) = sv_done s.
Proof. unfold _set_status. by case_bool_decide. Qed.

Lemma loop_calls s p : calls_ok s → calls_ok (_loop s p).
Proof.
  intros H. unfold _loop. destruct (sv_done s); [done|]. destruct p.
  - eapply calls_same; [| |apply (set_status_calls "connected" (with_retries 0 s)), (calls_same s); done]; done.
  - set (s1 := if bool_decide _ then _ else s).
    assert (calls_ok s1) as H1. { unfold s1. case_bool_decide; [by apply set_status_calls|done]. }
    destruct (_ <? _).
    + eapply calls_same; [| |apply (set_status_calls "reconnecting" s1), H1]; done.
    + eapply calls_same; [| |apply (set_status_calls "failed" s1), H1]; done.
  - by eapply calls_same; [| |apply H].
Qed.

Lemma failures_snoc ps p : failures (ps ++ [p]) = failures_step (failures ps) p.
Proof. unfold failures. by rewrite foldl_app. Qed.

Lemma gave_up_snoc ps p : gave_up (ps ++ [p]) ↔ gave_up ps ∨ failures (ps ++ [p]) = S MAX_RETRIES.
Proof.
  split.
  - intros [k Hk]. destruct (decide (k ≤ length ps)) as [Hle|Hgt].
    + left. exists k. by rewrite take_app_le in Hk.
    + right. by rewrite take_ge in Hk by (rewrite length_app; simpl; lia).
  - intros [[k Hk]|H].
    + destruct (decide (k ≤ length ps)) as [Hle|Hgt].
      * exists k. by rewrite take_app_le.
      * exists (length ps). rewrite take_ge in Hk by lia. by rewrite take_app_length.
    + exists (length (ps ++ [p])). by rewrite firstn_all.
Qed.

Definition trying (ps : list ping) (s : supervisor) : Prop :=
  ¬ gave_up ps ∧ failures ps ≤ MAX_RETRIES ∧
  sv_done s = false ∧ sv_retries s = failures ps ∧ sv_status s = expected_status ps.

Definition stopped (ps : list ping) (s : supervisor) : Prop :=
  gave_up ps ∧ sv_done s = true ∧ sv_status s = "failed".

Lemma expected_snoc ps p :
  expected_status (ps ++ [p]) =
    match p with
    | PingOk => "connected"
    | PingFail => if failures ps <? MAX_RETRIES then "reconnecting" else "failed"
    | PingError => expected_status ps
    end.
Proof.
  unfold expected_status. rewrite failures_snoc, existsb_app. destruct p; simpl.
  - by rewrite orb_true_r.
  - reflexivity.
  - by rewrite !orb_false_r.
Qed.

Lemma loop_trying ps s p : trying ps s → trying (ps ++ [p]) (_loop s p) ∨ stopped (ps ++ [p]) (_loop s p).
Proof.
  intros (Hg & Hf & Hd & Hr & Hs). unfold trying, stopped, _loop.
  rewrite Hd, gave_up_snoc, failures_snoc, expected_snoc. destruct p; cbn [failures_step].
  - left. cbn [sleep sv_done sv_retries sv_status]. rewrite set_status_status, set_status_retries, set_status_done.
    split_and!; try done; [|lia]. intros [|]; [auto|discriminate].
  - set (s1 := if bool_decide _ then _ else s).
    assert (sv_retries s1 = failures ps ∧ sv_done s1 = false) as [Hr1 Hd1].
    { unfold s1. case_bool_decide; [|done]. by rewrite set_status_retries, set_status_done. }
    rewrite Hr1. destruct (failures ps <? MAX_RETRIES) eqn:E.
    + apply Nat.ltb_lt in E. left. cbn [sleep with_retries sv_done sv_retries sv_status].
      rewrite set_status_status, set_status_retries, set_status_done, Hr1, Hd1.
      split_and!; try done; try lia. intros [|]; [auto|unfold MAX_RETRIES in *; lia].
    + apply Nat.ltb_ge in E. right. cbn [stop_loop sv_done sv_status]. rewrite set_status_status.
      split_and!; try done. right. lia.
  - left. split_and!; try done. intros [|]; [auto|lia].
Qed.

Lemma supervise_cases ps : trying ps (supervise ps) ∨ stopped ps (supervise ps).
Proof.
  induction ps as [|p ps IH] using rev_ind.
  - left. split_and!; try done; [|vm_compute; lia]. intros [k Hk]. by rewrite take_nil in Hk.
  - unfold supervise in *. rewrite foldl_app. cbn [foldl]. destruct IH as [IH|(Hg & Hd & Hs)].
    + by apply loop_trying.
    + right. assert (∀ s, sv_done s = true → _loop s p = s) as Hid by (intros s Hsd; unfold _loop; by rewrite Hsd).
      rewrite Hid by done.
      split_and!; try done. apply gave_up_snoc. by left.
Qed.

(** The calls of a turn that is not the last one. *)
Lemma loop_announces ps s p : trying ps s → sv_calls (_loop s p) = sv_calls s ++ announced ps p.
Proof.
  intros (_ & _ & Hd & Hr & Hs). unfold _loop, announced. rewrite Hd, expected_snoc, <-Hs, <-Hr.
  assert (∀ v (t : supervisor), sv_calls (_set_status v t)
            = sv_calls t ++ (if bool_decide (v = sv_status t) then [] else [v])) as Hset.
  { intros v t. unfold _set_status. case_bool_decide; [by rewrite app_nil_r|done]. }
  destruct p; cbn [sleep stop_loop with_retries sv_calls].
  - rewrite Hset. cbn. rewrite (bool_decide_eq_false_2 (_ ∧ _)) by naive_solver. done.
  - destruct (decide (sv_status s = "connected")) as [Hc|Hc].
    + rewrite !(bool_decide_eq_true_2 (sv_status s = "connected")), (bool_decide_eq_true_2 (_ ∧ _)) by done.
      rewrite set_status_retries. destruct (_ <? _); cbn [sleep stop_loop with_retries sv_calls];
        rewrite !Hset, set_status_status, Hc, <-app_assoc; done.
    + rewrite !(bool_decide_eq_false_2 (sv_status s = "connected")), (bool_decide_eq_false_2 (_ ∧ _)) by naive_solver.
      destruct (_ <? _); cbn [sleep stop_loop with_retries sv_calls]; by rewrite !Hset.
  - rewrite (bool_decide_eq_false_2 (_ ∧ _)) by naive_solver. rewrite bool_decide_eq_true_2 by done.
    by rewrite app_nil_r.
Qed.

(** C32: The supervisor shows the status its pings stand for, stops for good when
    eleven pings failed without an answer between them, and announces, at each
    ping until then, exactly what that ping changes: so no status is announced
    twice in a row. *)
Theorem supervisor_correct ps :
  let s := supervise ps in
  (sv_done s = true ↔ gave_up ps) ∧
  sv_status s = (if sv_done s then "failed" else expected_status ps) ∧
  (∀ p, sv_calls (supervise (ps ++ [p])) = sv_calls s ++ (if sv_done s then [] else announced ps p)) ∧
  calls_ok s.
Proof.
  cbv zeta. split_and!.
  - destruct (supervise_cases ps) as [(Hg & _ & Hd & _)|(Hg & Hd & _)]; rewrite Hd; [|done].
    split; [discriminate|]. intros. by destruct Hg.
  - by destruct (supervise_cases ps) as [(_ & _ & -> & _ & ->)|(_ & -> & ->)].
  - intros p. replace (supervise (ps ++ [p])) with (_loop (supervise ps) p) by (unfold supervise; by rewrite foldl_app).
    destruct (supervise_cases ps) as [Ht|(_ & Hd & _)].
    + pose proof Ht as (_ & _ & -> & _). by apply loop_announces.
    + unfold _loop. rewrite Hd. by rewrite app_nil_r.
  - unfold supervise. assert (calls_ok new_supervisor) as H.
    { split; [done|]. by intros [|i] x. }
    revert H. generalize new_supervisor. induction ps as [|p ps IH]; intros s H; simpl; [done|].
    by apply IH, loop_calls.
Qed.

Module Concrete.

Definition sse (t : string) : list string := map (λ l, "data: " +:+ l) (splitlines t) ++ [""].

(** The words of an answer run together in the log of the session. *)
Lemma tokens_witness :
  stream_agent_tokens (agent_stream_lines sse ["Hello"; " world"; " "; "!" +:+ nl +:+ "Bye"]) = ["Hello"; "world"; "!"; "Bye"].
Proof.
  apply (agent_tokens_are_stripped sse splitlines ["Hello"; " world"; " "; "!" +:+ nl +:+ "Bye"]).
  - by repeat constructor.
  - reflexivity.
  - repeat constructor; discriminate.
Defined.

(** From the first failure the supervisor tries for about three minutes; the
    orchestrator coming back after that is not noticed. *)
Example gives_up :
  supervise (replicate 11 PingFail ++ [PingOk]) = Supervisor "failed" 10 true ["reconnecting"; "failed"] 181.
Proof. reflexivity. Qed.

End Concrete.
