(* ===== verification/TuiStore.v ===== *)
(** * The local project store (tui/tui/store.py, tui/tui/main.py)

    [ProjectStore] keeps its projects, chat history and interface state in
    memory and in two JSON files.  JSON objects are records whose optional
    fields say which keys are present, with the list of the keys no field of
    the dataclass has; the texts of the files are parameters with the
    round-trip law of [json].  Writing a file is taken to succeed. *)

From S2P Require Import Prelude PyStr.
Local Open Scope string_scope.
Local Open Scope list_scope.
Local Open Scope nat_scope.
Local Open Scope py_scope.

Definition PROJECTS_VERSION : Z := 1.
Definition UI_STATE_VERSION : Z := 1.
Definition DEFAULT_ORCH_URL : string := "http://localhost:9000".

(** ** Data models: [J] stands for JSON values *)
Record project (J : Type) := Project {
  pj_id : string; pj_name : string; pj_workspace : string; pj_orchestrator_url : string;
  pj_created_at : Z; pj_last_active : Z; pj_session_ids : list string;
  pj_default_models : list (string * string); pj_metadata : list (string * J)
}.
Arguments Project {J}.
Arguments pj_id {J}.
Arguments pj_name {J}.
Arguments pj_workspace {J}.
Arguments pj_orchestrator_url {J}.
Arguments pj_created_at {J}.
Arguments pj_last_active {J}.
Arguments pj_session_ids {J}.
Arguments pj_default_models {J}.
Arguments pj_metadata {J}.

Record chat_record := ChatRecord {
  cr_id : string; cr_role : string; cr_model : string; cr_orchestrator_url : string; cr_started_at : Z
}.

Record ui_prefs := UIState {
  up_version : Z; up_last_project_id : string; up_last_session_id : string; up_last_screen : string;
  up_dag_sidebar_open : bool; up_last_orchestrator_url : string
}.
Definition default_ui : ui_prefs := UIState UI_STATE_VERSION "" "" "launcher" true DEFAULT_ORCH_URL.

(** ** The objects of the files *)
Record raw_project (J : Type) := RawProject {
  rp_id : option string; rp_name : option string; rp_workspace : option string;
  rp_orchestrator_url : option string; rp_created_at : option Z; rp_last_active : option Z;
  rp_session_ids : option (list string); rp_default_models : option (list (string * string));
  rp_metadata : option (list (string * J)); rp_unknown : list string
}.
Arguments RawProject {J}.
Arguments rp_id {J}.
Arguments rp_name {J}.
Arguments rp_workspace {J}.
Arguments rp_orchestrator_url {J}.
Arguments rp_created_at {J}.
Arguments rp_last_active {J}.
Arguments rp_session_ids {J}.
Arguments rp_default_models {J}.
Arguments rp_metadata {J}.
Arguments rp_unknown {J}.

Record raw_chat := RawChat {
  rc_id : option string; rc_role : option string; rc_model : option string;
  rc_orchestrator_url : option string; rc_started_at : option Z; rc_unknown : list string
}.

Record raw_projects (J : Type) := RawProjects {
  rf_version : option Z; rf_projects : option (list (raw_project J));
  rf_chat_history : option (list raw_chat); rf_last_orchestrator_url : option string
}.
Arguments RawProjects {J}.
Arguments rf_version {J}.
Arguments rf_projects {J}.
Arguments rf_chat_history {J}.
Arguments rf_last_orchestrator_url {J}.

Record raw_ui := RawUi {
  ru_version : option Z; ru_last_project_id : option string; ru_last_session_id : option string;
  ru_last_screen : option string; ru_dag_sidebar_open : option bool; ru_last_orchestrator_url : option string
}.

Definition setdefault {A} (x : option A) (v : A) : option A := Some (default v x).

Definition _migrate_projects {J} (data : raw_projects J) : raw_projects J :=
  if (default 0 (rf_version data) <? 1)%Z
  then RawProjects (Some 1%Z) (rf_projects data) (setdefault (rf_chat_history data) [])
         (setdefault (rf_last_orchestrator_url data) DEFAULT_ORCH_URL)
  else data.

Definition _migrate_ui_state (data : raw_ui) : raw_ui :=
  if (default 0 (ru_version data) <? 1)%Z
  then RawUi (Some 1%Z) (ru_last_project_id data) (ru_last_session_id data) (ru_last_screen data)
         (setdefault (ru_dag_sidebar_open data) true)
         (setdefault (ru_last_orchestrator_url data) DEFAULT_ORCH_URL)
  else data.

(** [Project( **p)] and [ChatRecord( **c)]: an unknown key or a missing field
    without default is a [TypeError]. *)
Definition make_project {J} (now : Z) (p : raw_project J) : res (project J) :=
  match rp_unknown p, rp_id p, rp_name p, rp_workspace p with
  | [], Some id, Some name, Some ws =>
      Ok (Project id name ws (default DEFAULT_ORCH_URL (rp_orchestrator_url p))
            (default now (rp_created_at p)) (default now (rp_last_active p))
            (default [] (rp_session_ids p)) (default [] (rp_default_models p)) (default [] (rp_metadata p)))
  | _, _, _, _ => Raise (OtherError "TypeError")
  end.

Definition make_chat (now : Z) (c : raw_chat) : res chat_record :=
  match rc_unknown c, rc_id c, rc_role c, rc_model c with
  | [], Some id, Some role, Some model =>
      Ok (ChatRecord id role model (default DEFAULT_ORCH_URL (rc_orchestrator_url c))
            (default now (rc_started_at c)))
  | _, _, _, _ => Raise (OtherError "TypeError")
  end.

(** A list comprehension whose element expression may raise. *)
Fixpoint res_all {A B} (f : A → res B) (l : list A) : res (list B) :=
  match l with
  | [] => Ok []
  | x :: l' => match f x with
               | Ok y => res_map (cons y) (res_all f l')
               | Raise e => Raise e
               end
  end.

(** [asdict]. *)
Definition project_dict {J} (p : project J) : raw_project J :=
  RawProject (Some (pj_id p)) (Some (pj_name p)) (Some (pj_workspace p)) (Some (pj_orchestrator_url p))
    (Some (pj_created_at p)) (Some (pj_last_active p)) (Some (pj_session_ids p))
    (Some (pj_default_models p)) (Some (pj_metadata p)) [].
Definition chat_dict (c : chat_record) : raw_chat :=
  RawChat (Some (cr_id c)) (Some (cr_role c)) (Some (cr_model c)) (Some (cr_orchestrator_url c))
    (Some (cr_started_at c)) [].
Definition ui_dict (u : ui_prefs) : raw_ui :=
  RawUi (Some (up_version u)) (Some (up_last_project_id u)) (Some (up_last_session_id u))
    (Some (up_last_screen u)) (Some (up_dag_sidebar_open u)) (Some (up_last_orchestrator_url u)).

Record store_files := StoreFiles { sf_projects : option string; sf_ui : option string }.

Record pstore (J : Type) := ProjectStore {
  st_projects : list (project J); st_chats : list chat_record; st_last_url : string; st_ui : ui_prefs;
  st_files : store_files
}.
Arguments ProjectStore {J}.
Arguments st_projects {J}.
Arguments st_chats {J}.
Arguments st_last_url {J}.
Arguments st_ui {J}.
Arguments st_files {J}.

Section store.
Context {J : Type}.
(** [json.dumps] and [json.loads] on the two files; a text that is no JSON
    object is [None]. *)
Context (dumps_projects : raw_projects J → string) (loads_projects : string → option (raw_projects J)).
Context (dumps_ui : raw_ui → string) (loads_ui : string → option raw_ui).

Definition set_projects (l : list (project J)) (s : pstore J) : pstore J :=
  ProjectStore l (st_chats s) (st_last_url s) (st_ui s) (st_files s).
Definition set_chats (l : list chat_record) (s : pstore J) : pstore J :=
  ProjectStore (st_projects s) l (st_last_url s) (st_ui s) (st_files s).
Definition set_last_url (u : string) (s : pstore J) : pstore J :=
  ProjectStore (st_projects s) (st_chats s) u (st_ui s) (st_files s).
Definition set_ui (u : ui_prefs) (s : pstore J) : pstore J :=
  ProjectStore (st_projects s) (st_chats s) (st_last_url s) u (st_files s).

Definition lift_res {A} (r : res A) : M (pstore J) A := λ s, (s, r).
Definition parsed {A} (r : option A) : M (pstore J) A :=
  lift_res (match r with Some a => Ok a | None => Raise (ValueError "JSON") end).

Definition load_projects (now : Z) : M (pstore J) unit := λ s,
  match sf_projects (st_files s) with
  | None => (s, Ok tt)
  | Some text =>
      mtry (let! raw := parsed (loads_projects text) in
            let data := _migrate_projects raw in
            let! ps := lift_res (res_all (make_project now) (default [] (rf_projects data))) in
            do! mmodify (set_projects ps) in
            let! cs := lift_res (res_all (make_chat now) (default [] (rf_chat_history data))) in
            do! mmodify (set_chats cs) in
            mmodify (set_last_url (default DEFAULT_ORCH_URL (rf_last_orchestrator_url data))))
           (λ _, mmodify (set_projects [])) s
  end.

Definition load_ui : M (pstore J) unit := λ s,
  match sf_ui (st_files s) with
  | None => (s, Ok tt)
  | Some text =>
      mtry (let! raw := parsed (loads_ui text) in
            let data := _migrate_ui_state raw in
            mmodify (set_ui (UIState (default 1%Z (ru_version data)) (default "" (ru_last_project_id data))
                               (default "" (ru_last_session_id data)) (default "launcher" (ru_last_screen data))
                               (default true (ru_dag_sidebar_open data))
                               (default DEFAULT_ORCH_URL (ru_last_orchestrator_url data)))))
           (λ _, mmodify (set_ui default_ui)) s
  end.

Definition _load (now : Z) : M (pstore J) unit := do! load_projects now in load_ui.

Definition new_store (now : Z) (files : store_files) : pstore J :=
  (_load now (ProjectStore [] [] DEFAULT_ORCH_URL default_ui files)).1.

Definition projects_data (s : pstore J) : raw_projects J :=
  RawProjects (Some PROJECTS_VERSION) (Some (map project_dict (st_projects s)))
    (Some (map chat_dict (st_chats s))) (Some (st_last_url s)).

Definition _save_projects (s : pstore J) : pstore J :=
  ProjectStore (st_projects s) (st_chats s) (st_last_url s) (st_ui s)
    (StoreFiles (Some (dumps_projects (projects_data s))) (sf_ui (st_files s))).
Definition _save_ui_state (s : pstore J) : pstore J :=
  ProjectStore (st_projects s) (st_chats s) (st_last_url s) (st_ui s)
    (StoreFiles (sf_projects (st_files s)) (Some (dumps_ui (ui_dict (st_ui s))))).

(** ** Projects *)
Definition create_project (now : Z) (hex name workspace orchestrator_url : string)
    (default_models : option (list (string * string))) (s : pstore J) : pstore J * project J :=
  let p := Project ("proj-" +:+ hex) name workspace orchestrator_url now now []
             (default [] default_models) [] in
  (_save_projects (set_projects (p :: st_projects s) s), p).

Definition has_id (id : string) (p : project J) : bool := bool_decide (pj_id p = id).
Definition get_project (project_id : string) (s : pstore J) : option (project J) :=
  find (has_id project_id) (st_projects s).

(** Most recently active first; [sorted] is stable. *)
Definition more_recent (p q : project J) : bool := (pj_last_active q <=? pj_last_active p)%Z.
Definition list_projects (s : pstore J) : list (project J) := sort_by more_recent (st_projects s).

(** A change of the object [get_project] returns: it is the one in the list. *)
Fixpoint update_first (id : string) (f : project J → project J) (l : list (project J)) : list (project J) :=
  match l with
  | [] => []
  | p :: l' => if has_id id p then f p :: l' else p :: update_first id f l'
  end.

(** A keyword of [update_project]: a field, or a name the object has not. *)
Inductive project_change :=
  | SetId (v : string) | SetCreatedAt (v : Z)
  | SetName (v : string) | SetWorkspace (v : string) | SetUrl (v : string) | SetLastActive (v : Z)
  | SetSessionIds (v : list string) | SetDefaultModels (v : list (string * string))
  | SetMetadata (v : list (string * J)) | SetUnknown (k : string).

Definition apply_change (p : project J) (c : project_change) : project J :=
  match p with
  | Project id name ws url created active sids models meta =>
      match c with
      | SetId v => Project v name ws url created active sids models meta
      | SetCreatedAt v => Project id name ws url v active sids models meta
      | SetName v => Project id v ws url created active sids models meta
      | SetWorkspace v => Project id name v url created active sids models meta
      | SetUrl v => Project id name ws v created active sids models meta
      | SetLastActive v => Project id name ws url created v sids models meta
      | SetSessionIds v => Project id name ws url created active v models meta
      | SetDefaultModels v => Project id name ws url created active sids v meta
      | SetMetadata v => Project id name ws url created active sids models v
      | SetUnknown _ => p
      end
  end.

Definition update_project (project_id : string) (kwargs : list project_change) (s : pstore J) :
    pstore J * option (project J) :=
  match get_project project_id s with
  | None => (s, None)
  | Some p =>
      (_save_projects (set_projects (update_first project_id (λ p, foldl apply_change p kwargs) (st_projects s)) s),
       Some (foldl apply_change p kwargs))
  end.

Definition delete_project (project_id : string) (s : pstore J) : pstore J * bool :=
  let l := List.filter (λ p, negb (has_id project_id p)) (st_projects s) in
  if length l <? length (st_projects s) then (_save_projects (set_projects l s), true)
  else (set_projects l s, false).

Definition append_session (now : Z) (session_id : string) (p : project J) : project J :=
  foldl apply_change p [SetSessionIds (pj_session_ids p ++ [session_id]); SetLastActive now].

Definition add_session_to_project (now : Z) (project_id session_id : string) (s : pstore J) : pstore J :=
  match get_project project_id s with
  | Some p =>
      if bool_decide (session_id ∈ pj_session_ids p) then s
      else _save_projects (set_projects (update_first project_id (append_session now session_id) (st_projects s)) s)
  | None => s
  end.

Definition touch_project (now : Z) (project_id : string) (s : pstore J) : pstore J :=
  match get_project project_id s with
  | Some _ =>
      _save_projects (set_projects (update_first project_id (λ p, apply_change p (SetLastActive now)) (st_projects s)) s)
  | None => s
  end.

(** ** Chat history, orchestrator URL and interface state *)
Definition add_chat_record (now : Z) (hex role model orchestrator_url : string) (s : pstore J) : pstore J * chat_record :=
  let c := ChatRecord ("chat-" +:+ hex) role model orchestrator_url now in
  (_save_projects (set_chats (take 20 (c :: st_chats s)) s), c).

Definition set_orchestrator_url (url : string) (s : pstore J) : pstore J :=
  let u := rstrip_char "/" url in
  let ui := st_ui s in
  let s := set_ui (UIState (up_version ui) (up_last_project_id ui) (up_last_session_id ui) (up_last_screen ui)
                     (up_dag_sidebar_open ui) u) (set_last_url u s) in
  _save_ui_state (_save_projects s).

Definition save_ui_state (last_project_id last_session_id last_screen : option string)
    (dag_sidebar_open : option bool) (s : pstore J) : pstore J :=
  let ui := st_ui s in
  _save_ui_state (set_ui (UIState (up_version ui) (default (up_last_project_id ui) last_project_id)
    (default (up_last_session_id ui) last_session_id) (default (up_last_screen ui) last_screen)
    (default (up_dag_sidebar_open ui) dag_sidebar_open) (up_last_orchestrator_url ui)) s).

(** ** Start-up ([main]): the orchestrator, and the project of [--session] *)
Definition startup_url (url : option string) (s : pstore J) : pstore J * string :=
  match url with
  | Some u => if truthy u then let u := rstrip_char "/" u in (set_orchestrator_url u s, u)
              else (s, py_or (st_last_url s) DEFAULT_ORCH_URL)
  | None => (s, py_or (st_last_url s) DEFAULT_ORCH_URL)
  end.

Definition startup_project (project_id session_id : option string) (s : pstore J) : option string :=
  match project_id, session_id with
  | (None | Some ""), Some sid =>
      if truthy sid
      then match find (λ p, bool_decide (sid ∈ pj_session_ids p)) (list_projects s) with
           | Some p => Some (pj_id p)
           | None => project_id
           end
      else project_id
  | _, _ => project_id
  end.

(** ** The operations as steps *)
Inductive store_op :=
  | CreateProject (now : Z) (hex name workspace url : string) (models : option (list (string * string)))
  | UpdateProject (project_id : string) (kwargs : list project_change)
  | DeleteProject (project_id : string)
  | AddSession (now : Z) (project_id session_id : string)
  | TouchProject (now : Z) (project_id : string)
  | AddChat (now : Z) (hex role model url : string)
  | SetOrchestratorUrl (url : string)
  | SaveUiState (last_project_id last_session_id last_screen : option string) (dag : option bool).

Definition store_step (o : store_op) (s : pstore J) : pstore J :=
  match o with
  | CreateProject now hex name ws url models => (create_project now hex name ws url models s).1
  | UpdateProject id kwargs => (update_project id kwargs s).1
  | DeleteProject id => (delete_project id s).1
  | AddSession now id sid => add_session_to_project now id sid s
  | TouchProject now id => touch_project now id s
  | AddChat now hex role model url => (add_chat_record now hex role model url s).1
  | SetOrchestratorUrl url => set_orchestrator_url url s
  | SaveUiState p sid screen dag => save_ui_state p sid screen dag s
  end.

Definition store_run (os : list store_op) (s : pstore J) : pstore J := foldl (λ s o, store_step o s) s os.

(** ** Facts *)

(** What the two files hold, by themselves. *)
Definition projects_of (now : Z) (text : option string) : list (project J) * list chat_record * string :=
  let s := (load_projects now (ProjectStore [] [] DEFAULT_ORCH_URL default_ui (StoreFiles text None))).1 in
  (st_projects s, st_chats s, st_last_url s).
Definition ui_of (text : option string) : ui_prefs :=
  st_ui (load_ui (ProjectStore [] [] DEFAULT_ORCH_URL default_ui (StoreFiles None text))).1.

Lemma new_store_parts now f :
  new_store now f =
    ProjectStore (projects_of now (sf_projects f)).1.1 (projects_of now (sf_projects f)).1.2
      (projects_of now (sf_projects f)).2 (ui_of (sf_ui f)) f.
Proof.
  unfold new_store, _load, projects_of, ui_of, load_projects, mbind, mtry, parsed, lift_res, mmodify.
  cbn [st_files sf_projects sf_ui fst snd].
  assert (∀ s : pstore J, st_files s = f → st_ui s = default_ui →
            (load_ui s).1 = ProjectStore (st_projects s) (st_chats s) (st_last_url s) (ui_of (sf_ui f)) f) as Hui.
  { intros [ps cs u ui f'] Hf Hu. cbn in Hf, Hu. subst.
    unfold ui_of, load_ui, mtry, mbind, parsed, lift_res, mmodify. cbn.
    destruct (sf_ui f) as [text|]; [|done]. by destruct (loads_ui text). }
  destruct (sf_projects f) as [text|]; [|by rewrite Hui].
  destruct (loads_projects text) as [raw|]; cbn; [|by rewrite Hui].
  destruct (res_all (make_project now) _) as [ps|e]; cbn; [|by rewrite Hui].
  destruct (res_all (make_chat now) _) as [cs|e]; cbn; by rewrite Hui.
Qed.

Lemma new_store_files now f : st_files (new_store now f) = f.
Proof. by rewrite new_store_parts. Qed.

Definition files_hold_projects (s : pstore J) : Prop :=
  ∀ now, projects_of now (sf_projects (st_files s)) = (st_projects s, st_chats s, st_last_url s).
Definition file_holds_ui (s : pstore J) : Prop := ui_of (sf_ui (st_files s)) = st_ui s.
Definition in_sync (s : pstore J) : Prop := files_hold_projects s ∧ file_holds_ui s.

Lemma in_sync_reload s : in_sync s ↔ ∀ now, new_store now (st_files s) = s.
Proof.
  split.
  - intros [Hp Hu] now. rewrite new_store_parts, Hp, Hu. by destruct s.
  - intros H. split.
    + intros now. specialize (H now). rewrite new_store_parts in H.
      assert (∀ a b c d e, ProjectStore a b c d e = s → (a, b, c) = (st_projects s, st_chats s, st_last_url s)) as Hi
        by (by intros; subst).
      apply Hi in H. rewrite <- H. by destruct (projects_of _ _) as [[? ?] ?].
    + specialize (H 0%Z). rewrite new_store_parts in H. unfold file_holds_ui. by rewrite <- H at 2.
Qed.

Lemma ui_of_version text : (1 <= up_version (ui_of text))%Z.
Proof.
  unfold ui_of, load_ui, mtry, mbind, parsed, lift_res, mmodify. cbn.
  destruct text as [t|]; [|vm_compute; discriminate].
  destruct (loads_ui t) as [raw|]; [|vm_compute; discriminate].
  cbn. unfold _migrate_ui_state. case_match eqn:E; cbn; [lia|]. apply Z.ltb_ge in E.
  destruct (ru_version raw); cbn in *; lia.
Qed.

Lemma filter_full {A} (p : A → bool) l : length l ≤ length (List.filter p l) → List.filter p l = l.
Proof.
  induction l as [|x l IH]; simpl; [done|]. intros H. destruct (p x); simpl in H.
  - f_equal. apply IH. lia.
  - pose proof (List.filter_length_le p l). lia.
Qed.

Lemma res_all_map {A B} (f : A → res B) (g : B → A) l : (∀ y, f (g y) = Ok y) → res_all f (map g l) = Ok l.
Proof. intros H. induction l as [|y l IH]; simpl; [done|]. by rewrite H, IH. Qed.

Section laws.
Hypothesis loads_dumps_projects : ∀ d, loads_projects (dumps_projects d) = Some d.
Hypothesis loads_dumps_ui : ∀ d, loads_ui (dumps_ui d) = Some d.

Lemma save_projects_sync s : file_holds_ui s → in_sync (_save_projects s).
Proof.
  intros Hu. split; [|done]. intros now. cbn [st_files sf_projects _save_projects st_projects st_chats st_last_url].
  unfold projects_of, load_projects, mtry, mbind, parsed, lift_res, mmodify. cbn.
  rewrite loads_dumps_projects. cbn.
  rewrite (res_all_map (make_project now) project_dict) by (by intros []).
  by rewrite (res_all_map (make_chat now) chat_dict) by (by intros []).
Qed.

Lemma save_ui_holds s : (1 <= up_version (st_ui s))%Z → file_holds_ui (_save_ui_state s).
Proof.
  intros Hv. unfold file_holds_ui, ui_of, load_ui, mtry, mbind, parsed, lift_res, mmodify. cbn.
  rewrite loads_dumps_ui. unfold _migrate_ui_state. cbn.
  replace (up_version (st_ui s) <? 1)%Z with false by (symmetry; by apply Z.ltb_ge). cbn. by destruct (st_ui s).
Qed.

Lemma store_step_sync o s : in_sync s → in_sync (store_step o s).
Proof.
  intros [Hp Hu]. assert (1 <= up_version (st_ui s))%Z as Hv by (rewrite <- Hu; apply ui_of_version).
  destruct o; cbn [store_step].
  - by apply save_projects_sync.
  - unfold update_project. case_match; [by apply save_projects_sync|done].
  - unfold delete_project. case_match eqn:E; cbn [fst]; [by apply save_projects_sync|].
    apply Nat.ltb_ge in E. split; [|done]. intros now. rewrite Hp. cbn [set_projects st_projects st_chats st_last_url].
    by rewrite filter_full.
  - unfold add_session_to_project. case_match; [|done]. case_match; [done|by apply save_projects_sync].
  - unfold touch_project. case_match; [by apply save_projects_sync|done].
  - by apply save_projects_sync.
  - unfold set_orchestrator_url. split; [|by apply save_ui_holds].
    intros now. unfold projects_of, load_projects, mtry, mbind, parsed, lift_res, mmodify. cbn.
    rewrite loads_dumps_projects. cbn.
    rewrite (res_all_map (make_project now) project_dict) by (by intros []).
    by rewrite (res_all_map (make_chat now) chat_dict) by (by intros []).
  - split; [done|]. by apply save_ui_holds.
Qed.

(** C15: Whatever is done to the store, a store opened later on its files is the
    same store. *)
Theorem store_survives_restart now files os :
  (∀ now', new_store now' files = new_store now files) →
  let s := store_run os (new_store now files) in
  ∀ now', new_store now' (st_files s) = s.
Proof.
  intros Hfiles. cbv zeta. apply in_sync_reload. unfold store_run.
  assert (in_sync (new_store now files)) as Hs.
  { apply in_sync_reload. intros now'. by rewrite new_store_files, Hfiles. }
  revert Hs. generalize (new_store now files). induction os as [|o os IH]; intros s Hs; simpl; [done|].
  by apply IH, store_step_sync.
Qed.

Lemma res_all_raises {A B} (f : A → res B) l x e : x ∈ l → f x = Raise e → ∃ e', res_all f l = Raise e'.
Proof.
  intros Hx Hf. induction Hx as [l|x y l Hx IH]; simpl; [rewrite Hf; eauto|].
  destruct (f y); [|eauto]. destruct (IH Hf) as [e' ->]. by exists e'.
Qed.

(** A key unknown to this version in one entry of [projects.json] empties the
    list of projects, and the next change of the store writes that to the
    file: the projects are lost. *)
Theorem unknown_key_loses_projects now files text raw r now' hex role model url :
  sf_projects files = Some text → loads_projects text = Some raw →
  r ∈ default [] (rf_projects raw) → rp_unknown r ≠ [] →
  let s := (add_chat_record now' hex role model url (new_store now files)).1 in
  st_projects (new_store now files) = [] ∧
  ∃ text', sf_projects (st_files s) = Some text' ∧ rf_projects <$> loads_projects text' = Some (Some []).
Proof.
  intros Hf Hl Hr Hu. cbv zeta.
  assert (st_projects (new_store now files) = []) as Hnil.
  { rewrite new_store_parts, Hf. unfold projects_of, load_projects, mtry, mbind, parsed, lift_res, mmodify. cbn.
    rewrite Hl. cbn. destruct (res_all_raises (make_project now) (default [] (rf_projects (_migrate_projects raw))) r
                                 (OtherError "TypeError")) as [e ->]; [..|done].
    - unfold _migrate_projects. by case_match.
    - unfold make_project. by destruct (rp_unknown r). }
  split; [done|]. cbn. eexists. split; [reflexivity|]. rewrite loads_dumps_projects. cbn. by rewrite Hnil.
Qed.

End laws.

End store.

(** ** A JSON text for the witnesses: the binary digits of an encoding *)
Fixpoint digits (p : positive) : string :=
  match p with xH => "" | xO q => String "0" (digits q) | xI q => String "1" (digits q) end.
Fixpoint of_digits (s : string) : positive :=
  match s with
  | "" => xH
  | String c s' => if bool_decide (c = "0"%char) then xO (of_digits s') else xI (of_digits s')
  end.

Lemma of_digits_digits p : of_digits (digits p) = p.
Proof. by induction p as [p IH|p IH|]; simpl; rewrite ?IH. Qed.

Definition raw_project_tuple (r : raw_project string) :=
  (rp_id r, rp_name r, rp_workspace r, rp_orchestrator_url r, rp_created_at r, rp_last_active r,
   rp_session_ids r, rp_default_models r, rp_metadata r, rp_unknown r).
#[export] Instance raw_project_eq_dec : EqDecision (raw_project string).
Proof. solve_decision. Defined.
#[export] Instance raw_project_countable : Countable (raw_project string).
Proof.
  refine (inj_countable' raw_project_tuple
            (λ '(a, b, c, d, e, f, g, h, i, j), RawProject a b c d e f g h i j) _). by intros [].
Defined.

#[export] Instance raw_chat_eq_dec : EqDecision raw_chat.
Proof. solve_decision. Defined.
#[export] Instance raw_chat_countable : Countable raw_chat.
Proof.
  refine (inj_countable' (λ c, (rc_id c, rc_role c, rc_model c, rc_orchestrator_url c, rc_started_at c, rc_unknown c))
            (λ '(a, b, c, d, e, f), RawChat a b c d e f) _). by intros [].
Defined.

#[export] Instance raw_projects_eq_dec : EqDecision (raw_projects string).
Proof. solve_decision. Defined.
#[export] Instance raw_projects_countable : Countable (raw_projects string).
Proof.
  refine (inj_countable' (λ d, (rf_version d, rf_projects d, rf_chat_history d, rf_last_orchestrator_url d))
            (λ '(a, b, c, d), RawProjects a b c d) _). by intros [].
Defined.

#[export] Instance raw_ui_eq_dec : EqDecision raw_ui.
Proof. solve_decision. Defined.
#[export] Instance raw_ui_countable : Countable raw_ui.
Proof.
  refine (inj_countable' (λ u, (ru_version u, ru_last_project_id u, ru_last_session_id u, ru_last_screen u,
                               ru_dag_sidebar_open u, ru_last_orchestrator_url u))
            (λ '(a, b, c, d, e, f), RawUi a b c d e f) _). by intros [].
Defined.

Module Concrete.

Definition dumps {A} `{Countable A} (a : A) : string := digits (encode a).
Definition loads {A} `{Countable A} (s : string) : option A := decode (of_digits s).
Lemma loads_dumps {A} `{Countable A} (a : A) : loads (dumps a) = Some a.
Proof. unfold loads, dumps. rewrite of_digits_digits. apply decode_encode. Qed.

Definition fresh : store_files := StoreFiles None None.
Definition ops : list (store_op (J:=string)) :=
  [CreateProject 1 "0a" "app" "/w" DEFAULT_ORCH_URL None; AddSession 2 "proj-0a" "s1";
   SetOrchestratorUrl "http://h:9000/"; AddChat 3 "0b" "coder" "m" "http://h:9000"; DeleteProject "none"].

Definition opened (now : Z) (f : store_files) : pstore string := new_store loads loads now f.
Definition final : pstore string := store_run dumps dumps ops (opened 0 fresh).

Lemma restart_witness : st_last_url final = "http://h:9000" ∧ ∀ now, opened now (st_files final) = final.
Proof.
  split; [reflexivity|].
  apply (store_survives_restart dumps loads dumps loads (λ d, loads_dumps d) (λ d, loads_dumps d) 0 fresh ops).
  reflexivity.
Defined.

(** A project written by a later version, with a key of its own. *)
Definition later : raw_project string :=
  RawProject (Some "proj-1") (Some "app") (Some "/w") None None None None None None ["theme"].
Definition later_files : store_files :=
  StoreFiles (Some (dumps (RawProjects (Some 2%Z) (Some [later]) None None))) None.

Lemma unknown_key_witness : st_projects (opened 0 later_files) = [].
Proof.
  apply (unknown_key_loses_projects dumps loads loads (λ d, loads_dumps d) 0 later_files
           (dumps (RawProjects (Some 2%Z) (Some [later]) None None))
           (RawProjects (Some 2%Z) (Some [later]) None None) later 1 "0b" "coder" "m" "u").
  - reflexivity.
  - apply loads_dumps.
  - by left.
  - discriminate.
Defined.

End Concrete.
