(* ===== verification/TuiServices.v ===== *)
(** * The services of the terminal interface
    (tui/tui/services/session_service.py, tui/tui/services/project_service.py)

    Message routing, the inline commands, the processing of events and the
    project operations over the client, the store and the state of the
    interface.  All calls of the clock within an operation give one time. *)

From S2P Require Import Prelude PyStr TuiState TuiStore TuiClient.
Local Open Scope string_scope.
Local Open Scope list_scope.
Local Open Scope nat_scope.
Local Open Scope py_scope.

(** The objects the services share. *)
Record tui (X J : Type) := Tui { tu_client : client X; tu_store : pstore J; tu_state : app_state }.
Arguments Tui {X J}.
Arguments tu_client {X J}.
Arguments tu_store {X J}.
Arguments tu_state {X J}.

(** ** Texts *)

(** The characters up to the first space, and the rest. *)
Fixpoint take_word (s : string) : string * string :=
  match s with
  | "" => ("", "")
  | String c s' => if is_space c then ("", s) else let (a, b) := take_word s' in (String c a, b)
  end.

(** [_AT_PATTERN.match]: an at sign, a word, and what follows its spaces. *)
Definition _AT_PATTERN (s : string) : option (string * string) :=
  match s with
  | String "@" rest =>
      let (hint, rest) := take_word rest in
      if truthy hint then Some (hint, lstrip rest) else None
  | _ => None
  end.

(** [s.strip().split(None, 1)]: the name in lower case and the arguments,
    both empty where there is none. *)
Definition split_command (cmd_str : string) : string * string :=
  let (name, rest) := take_word (strip cmd_str) in (lower name, strip (lstrip rest)).

(** ** Events of the session socket: an absent key is [None] *)
Record ws_payload := WsPayload {
  wp_result_preview : option string; wp_tokens_in : option Z; wp_tokens_out : option Z;
  wp_error : option string; wp_patch_id : option string; wp_agent_id : option string;
  wp_description : option string; wp_files : option (list string); wp_summary : option string;
  wp_lifecycle : option string
}.
Record session_event := SessionEvent {
  sv_type : option string; sv_agent_id : option string; sv_payload : ws_payload
}.

Section services.
Context {X J : Type} `{!Orchestrator X}.
Context (dumps_projects : raw_projects J → string) (dumps_ui : raw_ui → string).
Context (now : Z).
Local Abbreviation W := (tui X J).

Definition on_client {A} (m : M (client X) A) : M W A := λ w,
  let (c, r) := m (tu_client w) in (Tui c (tu_store w) (tu_state w), r).
Definition on_state (f : app_state → app_state) : M W unit :=
  mmodify (λ w : W, Tui (tu_client w) (tu_store w) (f (tu_state w))).
Definition on_store (f : pstore J → pstore J) : M W unit :=
  mmodify (λ w : W, Tui (tu_client w) (f (tu_store w)) (tu_state w)).
Definition session : M W (option tui_session) := mgets (λ w : W, as_session (tu_state w)).

(** [try: m except AicafConnectionError as e: h(str(e))]. *)
Definition catching {A} (m : M W A) (h : string → M W A) : M W A :=
  mtry m (λ e, match e with AicafConnectionError msg => h msg | e => mraise e end).

(** ** SessionService *)

Definition upsert_own_agents (session_id : string) (agents : list agent_dict) : M W unit :=
  mfor agents (λ a, if bool_decide (ad_session_id a = Some session_id) then on_state (upsert_agent now a)
                    else mret tt).

Definition refresh_tasks (session_id : string) : M W unit :=
  catching (let! tasks := on_client (list_of (GetTaskStatus session_id)) in
            mfor tasks (λ t, on_state (upsert_task t)))
           (λ _, mret tt).

Definition refresh_patches (session_id : string) : M W unit :=
  catching (let! patches := on_client (list_patches session_id) in
            mfor patches (λ p, on_state (upsert_patch now p)))
           (λ _, mret tt).

Definition refresh_agents (session_id : string) : M W unit :=
  catching (let! agents := on_client list_agents in upsert_own_agents session_id agents) (λ _, mret tt).

Definition load_session (session_id : string) : M W unit :=
  let! sess := catching (let! s := on_client (get_session session_id) in mret (Some s)) (λ _, mret None) in
  match sess with
  | None => mret tt
  | Some sess =>
      do! on_state (init_session now session_id (default "" (sd_task sess)) (sd_models sess)) in
      do! on_state (set_session_status (default "active" (sd_status sess))) in
      do! refresh_agents session_id in
      do! refresh_tasks session_id in
      refresh_patches session_id
  end.

(** [(running or by_role)[0]]. *)
Definition _resolve_agent (s : tui_session) (hint : string) : option string :=
  match dict_get hint (us_agents s) with
  | Some _ => Some hint
  | None =>
      let by_role := List.filter (λ a, bool_decide (ai_role a = hint)) (us_agents s).*2 in
      let running := List.filter (λ a, bool_decide (ai_status a = "running")) by_role in
      match running, by_role with
      | a :: _, _ | [], a :: _ => Some (ai_agent_id a)
      | [], [] => None
      end
  end.

Definition deliver (agent_id message entry : string) : M W unit :=
  catching (do! on_client (send_agent_message agent_id message "user") in
            on_state (log_event now "user" "message" entry))
           (λ _, mret tt).

Definition bare_target (s : tui_session) : option string :=
  match _resolve_agent s "architect" with
  | Some aid => Some aid
  | None => ai_agent_id <$> head (running_agents s)
  end.

Definition send_message (raw_message : string) : M W unit :=
  let! s := session in
  match s with
  | None => mret tt
  | Some s =>
      match _AT_PATTERN (strip raw_message) with
      | Some (target_hint, message) =>
          let message := strip message in
          if negb (truthy message) then mret tt
          else match _resolve_agent s target_hint with
               | Some aid => deliver aid message ("@" +:+ target_hint +:+ ": " +:+ message)
               | None => mret tt
               end
      | None =>
          let message := strip raw_message in
          match bare_target s with
          | Some aid => deliver aid message message
          | None => mret tt
          end
      end
  end.

Definition end_session_of (session_id summary : string) : M W unit :=
  do! catching (on_client (end_session session_id summary)) (λ _, mret tt) in
  on_state clear_session.

Definition tui_end_session (summary : string) : M W unit :=
  let! s := session in
  match s with None => mret tt | Some s => end_session_of (us_session_id s) summary end.

(** *** Inline commands *)

(** [result.get("choices", [{}])[0].get("message", {}).get("content", "")]. *)
Definition first_content (choices : option (list chat_choice)) : res string :=
  match choices with
  | None => Ok ""
  | Some [] => Raise (IndexError "list index out of range")
  | Some (c :: _) => Ok (default "" c)
  end.

Definition chat_command (content otherwise : string) : M W string :=
  let! choices := on_client (call (PostChat content)) in
  match first_content choices with
  | Ok text => mret (py_or text otherwise)
  | Raise e => mraise e
  end.

Definition with_args (args usage : string) (m : M W string) : M W string :=
  if truthy args then m else mret usage.

Definition number (x : option Z) : string := pretty (default 0%Z x).

Definition memory_line (i : nat) (r : memory_entry) : string :=
  "  " +:+ pretty (i + 1) +:+ ". [" +:+ default "?" (me_collection r) +:+ "] " +:+
  stake 120 (default "" (me_content r)).

Definition memory_command (args : string) : M W string :=
  let! results := on_client (recall args) in
  match results with
  | [] => mret ("No memories found for: " +:+ args)
  | _ => mret (join nl (("Memory search: " +:+ args) :: imap memory_line (take 5 results)))
  end.

Definition debate_command (session_id args : string) : M W string :=
  let! r := on_client (call (PostDebate args session_id)) in
  mret ("Debate (" +:+ number (dr_rounds r) +:+ " rounds, " +:+
        (if dr_consensus r then "✓ consensus" else "⚠ no consensus") +:+ ")" +:+ nl +:+
        stake 300 (default "" (dr_final_plan r))).

Definition learn_command (s : tui_session) : M W string :=
  let! skill := on_client (call (PostLearn (us_session_id s) (last_n 20 (us_event_log s)))) in
  match skill with
  | Some name => if truthy name then mret ("Skill extracted: " +:+ name)
                 else mret "No reusable skill identified in recent events."
  | None => mret "No reusable skill identified in recent events."
  end.

Definition SPAWN_ROLES : list string := ["architect"; "coder"; "reviewer"; "tester"; "documenter"].

Definition spawn_command (session_id args : string) : M W string :=
  let role := py_or args "coder" in
  if bool_decide (role ∈ SPAWN_ROLES)
  then let! aid := on_client (spawn_agent role "(standby)" session_id) in
       mret ("Spawned " +:+ role +:+ " agent: " +:+ default "?" aid)
  else mret ("Unknown role: " +:+ role).

Definition kill_command (args : string) : M W string :=
  do! on_client (send_agent_message args "__interrupt__" "system") in
  mret ("Interrupt sent to agent " +:+ args).

Definition execute_command (session_id : string) : M W string :=
  let! r := on_client (execute_tasks session_id) in
  mret ("Execution complete — " +:+ number (er_executed r) +:+ " tasks run, " +:+ number (er_complete r) +:+
        " complete, " +:+ number (er_failed r) +:+ " failed").

Definition index_command : M W string :=
  let! r := on_client index_codebase in
  mret ("Indexed " +:+ number (ir_files_indexed r) +:+ " files (" +:+ number (ir_files_unchanged r) +:+
        " unchanged), " +:+ number (ir_chunks r) +:+ " chunks").

Definition run_inline (s : tui_session) (name args : string) : M W string :=
  let sid := us_session_id s in
  if bool_decide (name = "architect") then
    with_args args "Usage: /architect <task description>" (chat_command ("/architect " +:+ args) "(no response)")
  else if bool_decide (name = "execute") then execute_command sid
  else if bool_decide (name = "status") then chat_command "/status" "(no status)"
  else if bool_decide (name = "index") then index_command
  else if bool_decide (name = "memory") then with_args args "Usage: /memory <query>" (memory_command args)
  else if bool_decide (name = "review") then
    with_args args "Usage: /review <text or task>" (chat_command ("/review " +:+ args) "(no response)")
  else if bool_decide (name = "test") then
    with_args args "Usage: /test <task>" (chat_command ("/test " +:+ args) "(no response)")
  else if bool_decide (name = "debate") then with_args args "Usage: /debate <topic>" (debate_command sid args)
  else if bool_decide (name = "learn") then learn_command s
  else if bool_decide (name = "spawn") then spawn_command sid args
  else if bool_decide (name = "kill") then with_args args "Usage: /kill <agent_id>" (kill_command args)
  else if bool_decide (name = "model") then mret "__open_model_config__"
  else if bool_decide (name = "end") then
    do! tui_end_session "Session ended by user." in mret "Session ended."
  else if bool_decide (name = "help") then mret "__open_help__"
  else mret "__open_command_palette__".

Definition handle_inline_command (cmd_str : string) : M W string :=
  let! s := session in
  match s with
  | None => mret "No active session."
  | Some s =>
      let (name, args) := split_command cmd_str in
      mtry (run_inline s name args)
           (λ e, match e with
                 | AicafConnectionError msg => mret ("Connection error: " +:+ msg)
                 | e => mret ("Error: " +:+ exn_str e)
                 end)
  end.

(** *** Events *)

(** [x or y] on strings that may be absent. *)
Definition str_or (x : option string) (y : string) : string := py_or (default "" x) y.

(** The agent of an event, if it is an agent of the session. *)
Definition known_agent (st : app_state) (agent_id : option string) : option string :=
  match as_session st, agent_id with
  | Some s, Some aid =>
      if truthy aid && bool_decide (is_Some (dict_get aid (us_agents s))) then Some aid else None
  | _, _ => None
  end.

Definition mark_agent (v : string) (agent_id : option string) (st : app_state) : app_state * list string :=
  match known_agent st agent_id with
  | Some aid => (set_agent_status aid v st, ["dag-sidebar"; "agent-pane-" +:+ aid])
  | None => (st, [])
  end.

Definition event_tokens (p : ws_payload) : Z := (default 0 (wp_tokens_in p) + default 0 (wp_tokens_out p))%Z.
Definition has_tokens (p : ws_payload) : bool :=
  negb (bool_decide (default 0%Z (wp_tokens_in p) = 0%Z)) || negb (bool_decide (default 0%Z (wp_tokens_out p) = 0%Z)).

Definition on_work_complete (agent_id : option string) (p : ws_payload) (st : app_state) : app_state * list string :=
  let (st, refresh) := mark_agent "done" agent_id st in
  let st := log_event now (str_or agent_id "system") "work_complete" (default "" (wp_result_preview p)) st in
  if has_tokens p then (add_tokens (event_tokens p) st, refresh ++ ["header-bar"]) else (st, refresh).

Definition on_work_failed (agent_id : option string) (p : ws_payload) (st : app_state) : app_state * list string :=
  let (st, refresh) := mark_agent "failed" agent_id st in
  (log_event now (str_or agent_id "system") "work_failed" (default "" (wp_error p)) st, refresh).

Definition on_patch_applied (agent_id : option string) (p : ws_payload) (st : app_state) : app_state * list string :=
  let d := PatchDict (default "" (wp_patch_id p)) (Some (default (default "" agent_id) (wp_agent_id p)))
             (Some (default "" (wp_description p))) (Some "applied") (Some (default [] (wp_files p))) None in
  (log_event now "system" "patch_applied"
     ("patch " +:+ default "None" (wp_patch_id p) +:+ " → " +:+ join ", " (default [] (wp_files p)))
     (upsert_patch now d st), ["dag-sidebar"]).

Definition on_status (p : ws_payload) (st : app_state) : app_state * list string :=
  if bool_decide (wp_lifecycle p = Some "ended") then (set_session_status "ended" st, ["header-bar"]) else (st, []).

Definition handle_ws_event (e : session_event) (st : app_state) : app_state * list string :=
  match as_session st with
  | None => (st, [])
  | Some _ =>
      let p := sv_payload e in
      let etype := default "" (sv_type e) in
      if bool_decide (etype = "work_complete") then on_work_complete (sv_agent_id e) p st
      else if bool_decide (etype = "work_failed") then on_work_failed (sv_agent_id e) p st
      else if bool_decide (etype = "patch_applied") then on_patch_applied (sv_agent_id e) p st
      else if bool_decide (etype = "test_result") then
        (log_event now "system" "test_result" (default "" (wp_summary p)) st, ["dag-sidebar"])
      else if bool_decide (etype = "status") then on_status p st
      else (st, [])
  end.

(** ** ProjectService *)

Definition session_key (s : session_dict) : M W string :=
  match sd_session_id s with Some sid => mret sid | None => mraise (KeyError "session_id") end.

Definition configure_or_warn (session_id : string) (models : list (string * string)) : M W unit :=
  match models with
  | [] => mret tt
  | _ => catching (on_client (configure_models session_id models)) (λ _, mret tt)
  end.

Definition create_project (hex name workspace task : string) (models : list (string * string)) :
    M W (project J * string) :=
  let! base_url := mgets (λ w : W, cl_base_url (tu_client w)) in
  let! store := mgets tu_store in
  let (store', p) := create_project dumps_projects now hex name workspace base_url (Some models) store in
  do! on_store (λ _, store') in
  let! sess := on_client (create_session task "" models) in
  let! sid := session_key sess in
  do! on_store (add_session_to_project dumps_projects now (pj_id p) sid) in
  do! configure_or_warn sid models in
  let! store := mgets tu_store in
  mret (default p (get_project (pj_id p) store), sid).

(** The branch and the changes [detect_repo] reads of a workspace. *)
Context (repo_info : string → string * bool).

Definition load_project (project_id : string) : M W (option (project J)) :=
  let! store := mgets tu_store in
  match get_project project_id store with
  | None => mret None
  | Some p =>
      let (branch, dirty) := repo_info (pj_workspace p) in
      do! on_state (set_project (ProjectState (pj_id p) (pj_name p) (pj_workspace p) (pj_session_ids p)
                                   branch dirty (pj_orchestrator_url p))) in
      do! on_store (touch_project dumps_projects now project_id) in
      let! store := mgets tu_store in
      mret (get_project project_id store)
  end.

(** A session with the key [expired]. *)
Definition project_session (sid : string) : M W (session_dict * bool) :=
  catching (let! s := on_client (get_session sid) in mret (s, false))
           (λ _, mret (SessionDict (Some sid) (Some "expired") (Some "(expired)") None, true)).

Definition get_project_sessions (project_id : string) : M W (list (session_dict * bool)) :=
  let! store := mgets tu_store in
  match get_project project_id store with
  | None => mret []
  | Some p => mmap project_session (rev (pj_session_ids p))
  end.

Definition new_session (project_id task : string) (models : list (string * string)) : M W string :=
  let! store := mgets tu_store in
  match get_project project_id store with
  | None => mraise (ValueError ("Project " +:+ repr project_id +:+ " not found"))
  | Some p =>
      let effective := match models with [] => pj_default_models p | _ => models end in
      let! sess := on_client (create_session task "" effective) in
      let! sid := session_key sess in
      do! configure_or_warn sid effective in
      do! on_store (add_session_to_project dumps_projects now project_id sid) in
      mret sid
  end.

Definition all_known (s : pstore J) : list string := concat (map pj_session_ids (list_projects s)).

Fixpoint unknown_sessions (known : list string) (active : list session_dict) : M W (list session_dict) :=
  match active with
  | [] => mret []
  | s :: active' =>
      let! sid := session_key s in
      let! rest := unknown_sessions known active' in
      mret (if bool_decide (sid ∈ known) then rest else s :: rest)
  end.

Definition find_orphan_sessions : M W (list session_dict) :=
  let! active := catching (let! l := on_client (list_sessions (Some "active")) in mret (Some l)) (λ _, mret None) in
  match active with
  | None => mret []
  | Some active =>
      let! store := mgets tu_store in
      unknown_sessions (all_known store) active
  end.

End services.

(** ** Facts *)
Section facts.
Context {X J : Type} `{!Orchestrator X}.
Context (dumps_projects : raw_projects J → string).
Context (now : Z).
Local Abbreviation W := (tui X J).

Lemma filter_nil_None {A} (p : A → bool) l : List.filter p l = [] → ∀ x, x ∈ l → p x = false.
Proof.
  intros H x Hx. destruct (p x) eqn:E; [|done]. exfalso.
  assert (x ∈ List.filter p l) as Hin by (by apply filter_In_elem). rewrite H in Hin. by apply elem_of_nil in Hin.
Qed.

Lemma agent_of_value s a : session_ok s → a ∈ (us_agents s).*2 → dict_get (ai_agent_id a) (us_agents s) = Some a.
Proof.
  intros Hs ([k a'] & -> & Hin)%list_elem_of_fmap. destruct (so_agents _ Hs) as [Hnd Hk].
  cbn. rewrite (Hk k a' Hin). by apply dict_get_NoDup.
Qed.

(** What a target of a message resolves to: the agent of that id, else a
    running agent of that role if there is one, else any agent of that role. *)
Lemma resolve_agent_spec s hint :
  session_ok s →
  match _resolve_agent s hint with
  | Some aid =>
      ∃ a, dict_get aid (us_agents s) = Some a ∧
        (aid = hint ∨
         ai_role a = hint ∧
         (ai_status a = "running" ∨
          ∀ b, b ∈ (us_agents s).*2 → ai_role b = hint → ai_status b ≠ "running"))
  | None => dict_get hint (us_agents s) = None ∧ ∀ b, b ∈ (us_agents s).*2 → ai_role b ≠ hint
  end.
Proof.
  intros Hs. unfold _resolve_agent. destruct (dict_get hint (us_agents s)) as [a|] eqn:E; [eauto|].
  set (by_role := List.filter _ (us_agents s).*2).
  assert (∀ b, b ∈ by_role ↔ b ∈ (us_agents s).*2 ∧ ai_role b = hint) as Hrole.
  { intros b. unfold by_role. rewrite filter_In_elem, bool_decide_eq_true. done. }
  destruct (List.filter _ by_role) as [|a running] eqn:Er.
  - destruct by_role as [|a l] eqn:Eb.
    + split; [done|]. intros b Hb He. by apply (not_elem_of_nil b), Hrole.
    + assert (a ∈ (us_agents s).*2 ∧ ai_role a = hint) as [Ha Hah] by (apply Hrole; left).
      exists a. split; [by apply agent_of_value|]. right. split; [done|]. right. intros b Hb He Hst.
      assert (b ∈ a :: l) as Hbl by (by apply Hrole). apply (filter_nil_None _ _ Er) in Hbl.
      by apply bool_decide_eq_false_1 in Hbl.
  - assert (a ∈ List.filter (λ a, bool_decide (ai_status a = "running")) by_role) as Hin by (rewrite Er; left).
    apply filter_In_elem in Hin as [Ha Hst].
    apply Hrole in Ha as [Ha Hah]. exists a. split; [by apply agent_of_value|]. right. split; [done|].
    left. by apply bool_decide_eq_true_1 in Hst.
Qed.

Lemma deliver_spec aid message entry (w : W) :
  cl_http (tu_client w) = true →
  let (x, answer) := answer (PostMessage aid message "user") (cl_ext (tu_client w)) in
  deliver now aid message entry w =
    (Tui (Client (cl_base_url (tu_client w)) true x) (tu_store w)
       (match answer with HttpOk _ => log_event now "user" "message" entry (tu_state w) | _ => tu_state w end),
     Ok tt).
Proof.
  intros Hc. unfold deliver, catching, mtry, mbind, on_client, send_agent_message, call, _check, mbind. cbn.
  rewrite Hc. cbn. by destruct (answer _ _) as [x [u|code d|msg]].
Qed.

(** A message [@role text] goes in one request to a running agent of the role,
    if there is one, and is logged when the orchestrator took it. *)
Theorem message_reaches_running_role raw hint m s b :
  session_ok s → _AT_PATTERN (strip raw) = Some (hint, m) → truthy (strip m) = true →
  dict_get hint (us_agents s) = None →
  b ∈ (us_agents s).*2 → ai_role b = hint → ai_status b = "running" →
  ∃ a, dict_get (ai_agent_id a) (us_agents s) = Some a ∧ ai_role a = hint ∧ ai_status a = "running" ∧
    ∀ w : W, as_session (tu_state w) = Some s → cl_http (tu_client w) = true →
      let (x, answer) := answer (PostMessage (ai_agent_id a) (strip m) "user") (cl_ext (tu_client w)) in
      send_message now raw w =
        (Tui (Client (cl_base_url (tu_client w)) true x) (tu_store w)
           (match answer with
            | HttpOk _ => log_event now "user" "message" ("@" +:+ hint +:+ ": " +:+ strip m) (tu_state w)
            | _ => tu_state w
            end),
         Ok tt).
Proof.
  intros Hok Hat Hm Hid Hb Hrole Hrun. pose proof (resolve_agent_spec s hint Hok) as Hr.
  destruct (_resolve_agent s hint) as [aid|] eqn:E; [|by destruct Hr as [_ Hr]; destruct (Hr b)].
  destruct Hr as (a & Ha & Hcase).
  destruct Hcase as [->|[Har [Hst|Hno]]]; [congruence| |by destruct (Hno b)].
  assert (ai_agent_id a = aid) as Haid by (by apply (keyed_get ai_agent_id _ _ _ (so_agents _ Hok))).
  exists a. rewrite Haid. split_and!; try done. intros w Hs Hc.
  assert (send_message now raw w = deliver now aid (strip m) ("@" +:+ hint +:+ ": " +:+ strip m) w) as ->.
  { unfold send_message, session, mbind, mgets. rewrite Hs, Hat, Hm. cbn. by rewrite E. }
  apply (deliver_spec aid (strip m) ("@" +:+ hint +:+ ": " +:+ strip m) w Hc).
Qed.

(** ** Inline commands *)
Definition is_end (cmd_str : string) : bool := bool_decide ((split_command cmd_str).1 = "end").

(** A computation that touches only the client. *)
Definition client_only {A} (m : M W A) : Prop :=
  ∀ w, tu_store (m w).1 = tu_store w ∧ tu_state (m w).1 = tu_state w.

Lemma on_client_only {A} (m : M (client X) A) : client_only (on_client m).
Proof. intros w. unfold on_client. by destruct (m (tu_client w)). Qed.

Lemma ret_only {A} (a : A) : client_only (mret a).
Proof. by intros w. Qed.

Lemma raise_only {A} e : client_only (mraise (A:=A) e).
Proof. by intros w. Qed.

Lemma bind_only {A B} (m : M W A) (k : A → M W B) :
  client_only m → (∀ a, client_only (k a)) → client_only (mbind m k).
Proof.
  intros Hm Hk w. unfold mbind. specialize (Hm w). destruct (m w) as [w' [a|e]]; [|done].
  destruct Hm as [<- <-]. apply Hk.
Qed.

Ltac solve_only :=
  repeat (first [ apply bind_only; [|intros ?] | progress case_match | apply on_client_only | apply ret_only
                | apply raise_only ]).

Lemma chat_command_only content otherwise : client_only (chat_command content otherwise).
Proof. unfold chat_command. solve_only. Qed.

Lemma run_inline_only s name args : name ≠ "end" → client_only (run_inline s name args).
Proof.
  intros Hn. unfold run_inline, with_args, memory_command, debate_command, learn_command, spawn_command,
    kill_command, execute_command, index_command.
  repeat (case_bool_decide; [try (apply chat_command_only); try solve_only; try (apply chat_command_only)|]);
    try solve_only; congruence.
Qed.

(** A call caught for [AicafConnectionError] raises nothing. *)
Lemma catching_call {A} (r : request A) (f : A → M W unit) (w : W) :
  (∀ a w, ∃ w', f a w = (w', Ok tt)) →
  ∃ w', catching (let! a := on_client (call r) in f a) (λ _, mret tt) w = (w', Ok tt).
Proof.
  intros Hf. unfold catching, mtry, mbind, on_client. destruct (call r (tu_client w)) as [c [a|e]] eqn:E.
  - destruct (Hf a (Tui c (tu_store w) (tu_state w))) as [w' ->]. by exists w'.
  - apply call_raises in E as [msg ->]. cbn. eauto.
Qed.

Lemma end_session_spec sid summary (w : W) :
  ∃ w', end_session_of sid summary w = (w', Ok tt) ∧ tu_store w' = tu_store w ∧
        tu_state w' = clear_session (tu_state w).
Proof.
  unfold end_session_of, mbind, end_session, catching, mtry, on_client.
  destruct (call (PostEnd sid summary) (tu_client w)) as [c [[]|e]] eqn:E.
  - eexists. split; [reflexivity|]. done.
  - apply call_raises in E as [msg ->]. cbn. eexists. split; [reflexivity|]. done.
Qed.

(** Every inline command answers with a text: it never raises, it leaves the
    store alone, and only [/end] changes the state, closing the session even
    when the orchestrator is out of reach. *)
Theorem inline_command_answers cmd_str (w : W) :
  ∃ w' text, handle_inline_command cmd_str w = (w', Ok text) ∧ tu_store w' = tu_store w ∧
             tu_state w' = if is_end cmd_str then clear_session (tu_state w) else tu_state w.
Proof.
  unfold handle_inline_command, session, mbind at 1, mgets. destruct (as_session (tu_state w)) as [s|] eqn:Hs.
  - unfold is_end. destruct (split_command cmd_str) as [name args]. cbn [fst].
    destruct (decide (name = "end")) as [->|Hne].
    + rewrite bool_decide_true by done. unfold mtry, run_inline, tui_end_session, session, mbind, mgets.
      rewrite !bool_decide_false by discriminate. rewrite bool_decide_true by done. rewrite Hs.
      destruct (end_session_spec (us_session_id s) "Session ended by user." w) as (w' & -> & Hst & Hcl).
      by exists w', "Session ended.".
    + rewrite bool_decide_false by done. unfold mtry. pose proof (run_inline_only s name args Hne w) as [Hst Hss].
      destruct (run_inline s name args w) as [w' [text|e]]; cbn in Hst, Hss.
      * by exists w', text.
      * destruct e; cbn; eauto 6.
  - exists w, "No active session.". split_and!; try done. case_match; [|done].
    destruct w as [c st [ui pr ss]]. cbn in *. by subst.
Qed.

Lemma configure_or_warn_spec sid models (w : W) :
  ∃ w', configure_or_warn sid models w = (w', Ok tt) ∧ tu_store w' = tu_store w ∧ tu_state w' = tu_state w.
Proof.
  unfold configure_or_warn. destruct models as [|m models]; [by exists w|].
  unfold catching, mtry, on_client, configure_models.
  destruct (call (PostConfigure sid (m :: models)) (tu_client w)) as [c [[]|e]] eqn:E; [by eexists|].
  apply call_raises in E as [msg ->]. by eexists.
Qed.

(** The project [create_project] makes, and the store with it. *)
Definition made_project (hex name workspace : string) (models : list (string * string)) (w : W) : project J :=
  Project ("proj-" +:+ hex) name workspace (cl_base_url (tu_client w)) now now [] models [].
Definition made_store (hex name workspace : string) (models : list (string * string)) (w : W) : pstore J :=
  (TuiStore.create_project dumps_projects now hex name workspace (cl_base_url (tu_client w)) (Some models) (tu_store w)).1.

Lemma made_store_get hex name workspace models (w : W) :
  get_project ("proj-" +:+ hex) (made_store hex name workspace models w) =
    Some (made_project hex name workspace models w).
Proof.
  unfold get_project, made_store. cbn [TuiStore.create_project fst _save_projects set_projects st_projects find].
  unfold has_id. by rewrite bool_decide_true.
Qed.

(** The store after [create_project]: with the project and its session, or,
    when the orchestrator fails, with the project only. *)
Lemma create_project_store hex name workspace task models (w : W) :
  let p := made_project hex name workspace models w in
  match create_project dumps_projects now hex name workspace task models w with
  | (w', Ok (p', sid)) =>
      p' = append_session now sid p ∧ tu_state w' = tu_state w ∧
      tu_store w' = add_session_to_project dumps_projects now (pj_id p) sid (made_store hex name workspace models w) ∧
      st_projects (tu_store w') = append_session now sid p :: st_projects (tu_store w)
  | (w', Raise _) => tu_state w' = tu_state w ∧ tu_store w' = made_store hex name workspace models w
  end.
Proof.
  pose proof (made_store_get hex name workspace models w) as Hget. set (p0 := made_project _ _ _ _ _) in *.
  unfold create_project, mbind, mgets, on_store, mmodify, on_client. cbn [fst snd].
  destruct (TuiStore.create_project dumps_projects now hex name workspace _ _ _) as [store' p] eqn:Ec.
  assert (p = p0) as -> by (unfold TuiStore.create_project in Ec; by injection Ec).
  assert (store' = made_store hex name workspace models w) as -> by (unfold made_store; by rewrite Ec).
  clear Ec. cbn [tu_client tu_store tu_state].
  destruct (create_session task "" models (tu_client w)) as [c [sess|e]]; [|done].
  unfold session_key. destruct (sd_session_id sess) as [sid|]; [|done]. cbn [mret tu_store tu_client tu_state].
  change (pj_id p0) with ("proj-" +:+ hex).
  match goal with |- context [configure_or_warn sid models ?w0] =>
    destruct (configure_or_warn_spec sid models w0) as (w1 & -> & Hst & Hss) end.
  destruct w1 as [c1 st1 ss1]. cbn [tu_store tu_state] in Hst, Hss. subst st1 ss1.
  unfold mret. cbn [tu_store tu_state].
  assert (Hps : st_projects (add_session_to_project dumps_projects now ("proj-" +:+ hex) sid (made_store hex name workspace models w)) =
                append_session now sid p0 :: st_projects (tu_store w)).
  { unfold add_session_to_project. rewrite Hget, bool_decide_false by apply not_elem_of_nil.
    cbn [st_projects _save_projects set_projects]. unfold made_store.
    cbn [TuiStore.create_project fst st_projects _save_projects set_projects update_first default from_option id].
    unfold has_id. by rewrite bool_decide_true. }
  unfold get_project. rewrite Hps. cbn [find]. unfold has_id. by rewrite bool_decide_true.
Qed.

(** A project created has the session it was created with; when the
    orchestrator fails, the call raises and the project stays in the store
    without a session. *)
Theorem create_project_outcome hex name workspace task models (w : W) :
  match create_project dumps_projects now hex name workspace task models w with
  | (w', Ok (p, sid)) =>
      st_projects (tu_store w') = p :: st_projects (tu_store w) ∧ tu_state w' = tu_state w ∧
      pj_name p = name ∧ pj_workspace p = workspace ∧ pj_default_models p = models ∧ pj_session_ids p = [sid]
  | (w', Raise _) =>
      ∃ p, st_projects (tu_store w') = p :: st_projects (tu_store w) ∧ tu_state w' = tu_state w ∧
           pj_name p = name ∧ pj_session_ids p = []
  end.
Proof.
  pose proof (create_project_store hex name workspace task models w) as H. cbv zeta in H.
  destruct (create_project _ _ _ _ _ _ _ w) as [w' [[p sid]|e]].
  - destruct H as (-> & Hs & _ & Hp). by split_and!.
  - destruct H as [Hs ->]. by exists (made_project hex name workspace models w).
Qed.

End facts.

Module Concrete.

(** An orchestrator that takes messages and fails otherwise; it keeps the
    messages it took. *)
#[local] Instance inbox : Orchestrator (list (string * string)) := {|
  send A r x :=
    match r in request A return list (string * string) * http_result A with
    | PostMessage aid m _ => (x ++ [(aid, m)], HttpOk tt)
    | _ => (x, HttpStatus 503 None)
    end;
  silence _ _ _ := 0%Z;
  timeout_text := ""
|}.

Definition agent (id role status : string) : string * agent_info :=
  (id, AgentInfo id role status "" "" None 0 0).
Definition sess : tui_session :=
  SessionState "s" "active" "" [agent "a1" "architect" "done"; agent "c1" "coder" "done"; agent "c2" "coder" "running"]
    [] [] 0 0 0 [] [].
Definition w0 : tui (list (string * string)) string :=
  Tui (Client "http://h" true []) (ProjectStore [] [] "" default_ui (StoreFiles None None))
    (AppState initial_ui None (Some sess)).

Lemma sess_ok : session_ok sess.
Proof.
  constructor; try apply keyed_nil; try (vm_compute; lia); try done.
  - split; [apply (bool_decide_unpack _); vm_compute; exact I|].
    intros k v H. cbn [us_agents sess] in H. rewrite !elem_of_cons in H.
    destruct H as [H|[H|[H|H]]]; [..|by apply elem_of_nil in H]; injection H as -> ->; reflexivity.
  - intros t H. by apply elem_of_nil in H.
Qed.

Lemma message_witness :
  ∃ a, dict_get (ai_agent_id a) (us_agents sess) = Some a ∧ ai_role a = "coder" ∧ ai_status a = "running" ∧
    cl_ext (tu_client (send_message 7 "@coder  fix it " w0).1) = [(ai_agent_id a, "fix it")].
Proof.
  destruct (message_reaches_running_role (J := string) 7 "@coder  fix it " "coder" "fix it" sess
              (agent "c2" "coder" "running").2) as (a & Ha & Hr & Hs & Hsend);
    [apply sess_ok|reflexivity..|right; right; left|reflexivity|reflexivity|].
  exists a. split_and!; try done. specialize (Hsend w0 eq_refl eq_refl).
  change (answer (X := list (string * string)) _ _) with ([(ai_agent_id a, "fix it")], HttpOk tt) in Hsend. by rewrite Hsend.
Defined.

(** A message for nobody in particular goes to the architect even when it is
    done and others run. *)
Example bare_goes_to_finished_architect : bare_target sess = Some "a1".
Proof. reflexivity. Qed.

End Concrete.
