(* ===== verification/Status.v ===== *)
(** * Status endpoints and the response schema (orchestrator/main.py, models.py)

    The endpoints that only report ([health], [agent_status], [patches_status],
    [finetune_stats], [list_models]), and the body of a chat completion,
    [_make_response], with the schema of models.py it follows and what the
    client reads of it. *)

From S2P Require Import Prelude PyStr Models AgentManager PatchQueue FineTune TuiClient TuiServices.
Local Open Scope string_scope.
Local Open Scope list_scope.
Local Open Scope nat_scope.

(** ** models.py *)
Record choice_delta := ChoiceDelta { cd_role : option string; cd_content : option string }.
Record choice := Choice {
  ch_index : Z; ch_message : option message; ch_delta : option choice_delta; ch_finish_reason : option string
}.
Record usage := Usage { ug_prompt_tokens : Z; ug_completion_tokens : Z; ug_total_tokens : Z }.
Record chat_completion_response := ChatCompletionResponse {
  cc_id : string; cc_object : string; cc_created : Z; cc_model : string;
  cc_choices : list choice; cc_usage : option usage
}.

(** The bodies of a message to an agent and of a new session; the endpoint of
    the latter reads a dict and does not use the class.  [J] is a JSON value. *)
Record agent_message_request := AgentMessageRequest { am_message : string; am_sender : string }.
Definition default_sender : string := "user".
Record session_config_request (J : Type) := SessionConfigRequest {
  sq_task : string; sq_session_id : option string;
  sq_models : option (list (string * string)); sq_metadata : option (list (string * J))
}.

(** ** main.py *)

(** [hex] is [uuid.uuid4().hex], [now] the time in seconds. *)
Definition _make_response (hex : string) (now : Z) (content model : string) : chat_completion_response :=
  ChatCompletionResponse ("chatcmpl-" +:+ stake 12 hex) "chat.completion" now model
    [Choice 0 (Some (Message "assistant" (CText content))) None (Some "stop")] (Some (Usage 0 0 0)).

Record health_reply := HealthReply { he_status : string; he_profile : string; he_version : string }.
Definition health (profile : string) : health_reply := HealthReply "ok" profile "0.5.0".

Record model_entry := ModelEntry { me_id : string; me_object : string; me_created : Z; me_owned_by : string }.
Definition list_models (now : Z) : string * list model_entry := ("list", [ModelEntry "orchestrator" "model" now "local"]).

Definition agent_status (g : registry) : manager_status := get_status g.
Definition patches_status (q : pqueue) : depth_counts := queue_depth q.
Definition finetune_stats (f : training_file) : ft_stats := get_stats f.

(** ** Facts *)

(** What the client reads of the choices. *)
Definition read_choices (r : chat_completion_response) : option (list chat_choice) :=
  Some (map (λ c, match ch_message c with Some (Message _ (CText t)) => Some t | _ => None end) (cc_choices r)).

(** The text of a response is what the client answers with. *)
Lemma client_reads_response hex now content model :
  first_content (read_choices (_make_response hex now content model)) = Ok content.
Proof. done. Qed.

Section counts.
Context {A : Type}.

(** Counts of disjoint kinds that cover a list. *)
Lemma count_if_split (p q : A → bool) l :
  (∀ x, p x = true → q x = false) → count_if p l + count_if q l = count_if (λ x, p x || q x) l.
Proof.
  intros Hpq. induction l as [|x l IH]; [done|]. rewrite !count_if_cons, <-IH.
  specialize (Hpq x). destruct (p x), (q x); cbn; try lia; by destruct Hpq.
Qed.
End counts.

(** The counts of [agent_status] and the idle agents are all the agents. *)
Theorem agent_status_counts g :
  let s := agent_status g in
  mg_running s + mg_done s + mg_failed s + count_if (λ p, bool_decide (a_status p.2 = Idle)) g = mg_total s.
Proof.
  cbn. rewrite !count_if_split by (intros [? a]; cbn; by destruct (a_status a)).
  apply count_if_all. intros [i a] _. cbn. by destruct (a_status a).
Qed.

(** The counts of [patches_status] and the patches being processed are all the
    patches of the queue, when each entry is one of the heap. *)
Theorem patches_status_counts q :
  Forall (λ a, is_Some (patch_at q a)) (_queue q) →
  let s := patches_status q in
  dc_pending s + dc_applied s + dc_rejected s + dc_conflict s + occ PProcessing (p_status <$> omap (patch_at q) (_queue q))
  = dc_total s.
Proof.
  intros Hq. cbn. assert (length (p_status <$> omap (patch_at q) (_queue q)) = length (_queue q)) as <-.
  { rewrite length_fmap. induction Hq as [|a l [p Hp] Hl IH]; [done|]. cbn. rewrite Hp. cbn. by rewrite IH. }
  generalize (p_status <$> omap (patch_at q) (_queue q)) as l. induction l as [|s l IH]; [done|].
  rewrite !occ_cons. cbn [length]. rewrite <-IH. destruct s; repeat case_decide; try done; lia.
Qed.
