(* ===== verification/TuiScreens.v ===== *)
(** * The screens of the terminal interface
    (tui/tui/screens/session.py, command_palette.py, chat.py, model_config.py,
    tui/tui/widgets/input_bar.py, agent_pane.py, tui/tui/layout/session_layout.py)

    The logic behind the widgets: what the session screen writes, which streams
    it starts and which screens it opens; the command palette; the histories of
    the inputs; the placement of the panes.  Colours are left out: an entry of
    a log is the data that is written to it, without the times and the verdict
    of a test run.  The log is a RichLog with markup: a write raises when Rich
    cannot parse the text as markup, which the class [Markup] says; what Rich
    makes of a text it can parse is not modelled. *)

From S2P Require Import Prelude PyStr TuiState TuiStore TuiClient TuiServices.
Local Open Scope string_scope.
Local Open Scope list_scope.
Local Open Scope nat_scope.
Local Open Scope py_scope.

(** Rich: whether the text of an entry is markup it can parse, and the text of
    the exception if it is not. *)
Class Markup (E : Type) := { renders : E → bool; markup_error : E → string }.

(** [deque(maxlen=20).append]. *)
Definition _HISTORY_MAXLEN : nat := 20.
Definition push_history (x : string) (h : list string) : list string := last_n _HISTORY_MAXLEN (h ++ [x]).

(** The guard [if not history or history[-1] != x]. *)
Definition remember (x : string) (h : list string) : list string :=
  if bool_decide (last h = Some x) then h else push_history x h.

(** ** SessionScreen *)
Inductive conv_entry :=
  | CSystem (text : string) | CUser (text : string) | CHeader (role model : string) | CToken (text : string)
  | CDone (role : string) (tokens : Z) | CFailed (role error : string)
  | CPatch (files : list string) (patch_id : string) | CTests (summary : string).

Inductive pushed_screen :=
  | ModelConfigPushed | HelpPushed | LogsPushed | NewSessionPushed | ProjectPushed
  | PalettePushed (partial : string) (history : list string).

Record screen (X J : Type) := Screen {
  sc_tui : tui X J; sc_log : list conv_entry; sc_history : list string; sc_streamed : list string;
  sc_outputs : list string; sc_pushed : list pushed_screen
}.
Arguments Screen {X J}.
Arguments sc_tui {X J}.
Arguments sc_log {X J}.
Arguments sc_history {X J}.
Arguments sc_streamed {X J}.
Arguments sc_outputs {X J}.
Arguments sc_pushed {X J}.

Section session_screen.
Context {X J : Type} `{!Orchestrator X} `{!Markup conv_entry}.
Context (dumps_ui : raw_ui → string).
Context (now : Z).
Local Abbreviation W := (screen X J).

Definition set_tui (t : tui X J) (w : W) : W :=
  Screen t (sc_log w) (sc_history w) (sc_streamed w) (sc_outputs w) (sc_pushed w).
Definition on_tui {A} (m : M (tui X J) A) : M W A := λ w, let (t, r) := m (sc_tui w) in (set_tui t w, r).
Definition on_app (f : app_state → app_state) : M W unit := on_tui (on_state f).
Definition write (e : conv_entry) : M W unit := λ w,
  if renders e
  then (Screen (sc_tui w) (sc_log w ++ [e]) (sc_history w) (sc_streamed w) (sc_outputs w) (sc_pushed w), Ok tt)
  else (w, Raise (OtherError (markup_error e))).
Definition _show_cmd_output (text : string) : M W unit := mmodify (λ w : W,
  Screen (sc_tui w) (sc_log w) (sc_history w) (sc_streamed w) (sc_outputs w ++ [text]) (sc_pushed w)).
Definition push_screen (p : pushed_screen) : M W unit := mmodify (λ w : W,
  Screen (sc_tui w) (sc_log w) (sc_history w) (sc_streamed w) (sc_outputs w) (sc_pushed w ++ [p])).
Definition set_history (h : list string) : M W unit := mmodify (λ w : W,
  Screen (sc_tui w) (sc_log w) h (sc_streamed w) (sc_outputs w) (sc_pushed w)).
Definition add_streamed (agent_id : string) : M W unit := mmodify (λ w : W,
  Screen (sc_tui w) (sc_log w) (sc_history w) (agent_id :: sc_streamed w) (sc_outputs w) (sc_pushed w)).
Definition current : M W (option tui_session) := mgets (λ w : W, as_session (tu_state (sc_tui w))).

(** *** Streams *)

(** The loop over the tokens the stream delivers, with [token_count]; a token
    that cannot be written ends it, counted. *)
Fixpoint stream_tokens (tokens : list string) (token_count : nat) : M W nat :=
  match tokens with
  | [] => mret token_count
  | t :: tokens' =>
      do! on_app (add_tokens 1) in
      let! written := mtry (do! write (CToken t) in mret true) (λ _, mret false) in
      if written : bool then stream_tokens tokens' (S token_count) else mret (S token_count)
  end.

Definition _stream_agent (agent_id role : string) (tokens : list string) : M W unit :=
  let! token_count := stream_tokens tokens 0 in
  write (CDone role (Z.of_nat token_count)).

(** [_start_stream]: an agent is streamed once; [true] when the task starts.
    A task still running is that of an agent streamed already. *)
Definition _start_stream (agent_id role model : string) : M W bool :=
  let! streamed := mgets sc_streamed in
  if bool_decide (agent_id ∈ streamed) then mret false
  else do! add_streamed agent_id in do! write (CHeader role model) in mret true.

(** *** Events *)
Definition show_missed_result (agent_id : string) (p : ws_payload) : M W unit :=
  let! s := current in
  match s with
  | None => mret tt
  | Some s =>
      match dict_get agent_id (us_agents s) with
      | None => mret tt
      | Some a =>
          do! write (CHeader (ai_role a) (ai_model a)) in
          let preview := default "" (wp_result_preview p) in
          do! (if truthy preview then write (CToken ("  " +:+ preview)) else mret tt) in
          write (CDone (ai_role a) (default 0%Z (wp_tokens_out p)))
      end
  end.

(** The role is a key of the payload of [work_failed]. *)
Definition _handle_ws_event (e : session_event) (role : option string) : M W unit :=
  do! on_app (λ st, (handle_ws_event now e st).1) in
  let p := sv_payload e in
  let etype := default "" (sv_type e) in
  let agent_id := default "" (sv_agent_id e) in
  if bool_decide (etype = "work_complete") then
    let! streamed := mgets sc_streamed in
    if truthy agent_id && negb (bool_decide (agent_id ∈ streamed)) then show_missed_result agent_id p else mret tt
  else if bool_decide (etype = "work_failed") then
    write (CFailed (default "agent" role) (default "unknown error" (wp_error p)))
  else if bool_decide (etype = "patch_applied") then
    write (CPatch (take 3 (default [] (wp_files p))) (stake 10 (default "" (wp_patch_id p))))
  else if bool_decide (etype = "test_result") then write (CTests (default "" (wp_summary p)))
  else if bool_decide (etype = "status") then
    if bool_decide (wp_lifecycle p = Some "ended") then write (CSystem "Session ended.") else mret tt
  else mret tt.

(** *** Input *)

(** [cmd_str.split()[0]]. *)
Definition first_word (s : string) : M W string :=
  match words s with w :: _ => mret w | [] => mraise (IndexError "list index out of range") end.

Definition show_result (cmd_str result : string) : M W unit :=
  if truthy result
  then do! _show_cmd_output result in
       do! (if 60 <? String.length result then write (CSystem result) else mret tt) in
       let! name := first_word cmd_str in
       on_app (log_event now "system" ("/" +:+ name) result)
  else mret tt.

Definition handle_command (cmd_str : string) : M W unit :=
  do! write (CUser ("/" +:+ cmd_str)) in
  let! name := first_word cmd_str in
  do! _show_cmd_output ("running /" +:+ name) in
  let! result := on_tui (handle_inline_command cmd_str) in
  let! history := mgets sc_history in
  do! (if bool_decide (result = "__open_model_config__") then push_screen ModelConfigPushed
       else if bool_decide (result = "__open_command_palette__") then push_screen (PalettePushed cmd_str history)
       else if bool_decide (result = "__open_help__") then push_screen HelpPushed
       else show_result cmd_str result) in
  if truthy cmd_str then set_history (remember cmd_str history) else mret tt.

(** The agents whose streams the input starts, in order. *)
Fixpoint start_streams (agents : list agent_info) : M W (list string) :=
  match agents with
  | [] => mret []
  | a :: agents' =>
      let! started := _start_stream (ai_agent_id a) (ai_role a) (ai_model a) in
      let! rest := start_streams agents' in
      mret (if started : bool then ai_agent_id a :: rest else rest)
  end.

Definition handle_message (text : string) : M W (list string) :=
  do! write (CUser text) in
  do! on_tui (send_message now text) in
  let! s := current in
  match s with
  | None => mret []
  | Some s => start_streams (active_agents s)
  end.

Definition _handle_input (text : string) : M W (list string) :=
  if startswith "/" text then do! handle_command (strip (sdrop 1 text)) in mret [] else handle_message text.

Definition on_input_submitted (value : string) : M W (list string) :=
  let text := strip value in if truthy text then _handle_input text else mret [].

Definition _run_cmd_and_show (cmd_str : string) : M W string :=
  let! result := on_tui (handle_inline_command cmd_str) in
  do! (if truthy result && negb (startswith "__" result)
       then do! _show_cmd_output result in
            if 60 <? String.length result then write (CSystem result) else mret tt
       else mret tt) in
  mret result.

Definition _cancel_active_agents : M W unit :=
  let! s := current in
  match s with
  | None => mret tt
  | Some s => mfor (running_agents s) (λ a,
      mtry (on_tui (on_client (send_agent_message (ai_agent_id a) "__interrupt__" "system"))) (λ _, mret tt))
  end.

(** The keys of the screen when no input has the focus. *)
Definition on_key (key : string) : M W unit :=
  if bool_decide (key = "d") then
    on_tui (λ t, let (st, open) := toggle_dag (tu_state t) in
                 (Tui (tu_client t) (save_ui_state dumps_ui None None None (Some open) (tu_store t)) st, Ok tt))
  else if bool_decide (key = "l") then push_screen LogsPushed
  else if bool_decide (key = "m") then push_screen ModelConfigPushed
  else if bool_decide (key = "question_mark") then push_screen HelpPushed
  else if bool_decide (key = "n") then push_screen NewSessionPushed
  else if bool_decide (key = "p") then push_screen ProjectPushed
  else if bool_decide (key = "ctrl+c") then _cancel_active_agents
  else if bool_decide (key = "escape") then push_screen ProjectPushed
  else mret tt.

(** ModelConfigScreen._apply: the models of the session are updated when the
    orchestrator took them; [dict.update]. *)
Definition update_models (models : list (string * string)) (s : tui_session) : tui_session :=
  SessionState (us_session_id s) (us_status s) (us_task s) (us_agents s) (us_tasks s) (us_patches s)
    (us_token_count s) (us_patch_count s) (us_elapsed_start s)
    (foldl (λ d kv, dict_set kv.1 kv.2 d) (us_models s) models) (us_event_log s).

Definition _apply (session_id : string) (models : list (string * string)) : M (tui X J) bool :=
  catching (do! on_client (configure_models session_id models) in
            do! on_state (on_session (update_models models)) in mret true)
           (λ _, mret false).

End session_screen.

(** ** CommandPaletteScreen *)
Definition COMMANDS : list string :=
  ["architect"; "execute"; "review"; "test"; "debate"; "memory"; "spawn"; "kill"; "model"; "index"; "status";
   "learn"; "end"; "help"].

Definition _fuzzy_match (query name : string) : bool := startswith (strip (lower query)) (lower name).

Definition filter_commands (query : string) : list string :=
  if truthy (strip query) then List.filter (_fuzzy_match query) COMMANDS else COMMANDS.

(** [pa_shared]: whether the history is the deque of the session screen;
    [command_history or deque()] makes a new one when that is empty.
    [pa_hist_idx]: [None] for -1. *)
Record palette := Palette {
  pa_value : string; pa_filtered : list string; pa_selected : nat; pa_history : list string;
  pa_shared : bool; pa_hist_idx : option nat
}.

Fixpoint lstrip_slash (s : string) : string :=
  match s with String "/" s' => lstrip_slash s' | _ => s end.

Definition _apply_filter (query : string) (p : palette) : palette :=
  Palette (pa_value p) (filter_commands query) 0 (pa_history p) (pa_shared p) (pa_hist_idx p).

Definition set_value (v : string) (idx : option nat) (p : palette) : palette :=
  _apply_filter v (Palette v (pa_filtered p) (pa_selected p) (pa_history p) (pa_shared p) idx).

(** [__init__] and [on_mount]: [given] is the deque of the session screen when
    the palette is opened, [history] what it holds once the palette is used. *)
Definition open_palette (partial : string) (given history : list string) : palette :=
  let partial := strip (lstrip_slash partial) in
  _apply_filter partial
    (match given with
     | [] => Palette partial COMMANDS 0 [] false None
     | _ => Palette partial COMMANDS 0 history true None
     end).

Definition with_selected (n : nat) (p : palette) : palette :=
  Palette (pa_value p) (pa_filtered p) n (pa_history p) (pa_shared p) (pa_hist_idx p).

(** The user edits the filter, or Textual reports a value set by the code. *)
Definition on_input_changed (v : string) (p : palette) : palette := set_value v None p.

Definition key_up (p : palette) : palette :=
  match truthy (strip (pa_value p)), pa_history p with
  | false, _ :: _ =>
      let idx := match pa_hist_idx p with None => length (pa_history p) - 1 | Some i => i - 1 end in
      set_value (nth idx (pa_history p) "") (Some idx) p
  | _, _ => if 0 <? pa_selected p then with_selected (pa_selected p - 1) p else p
  end.

Definition key_down (p : palette) : palette :=
  match truthy (strip (pa_value p)), pa_history p, pa_hist_idx p with
  | false, _ :: _, Some i =>
      if i <? length (pa_history p) - 1 then set_value (nth (S i) (pa_history p) "") (Some (S i)) p
      else set_value "" None p
  | _, _, _ => if S (pa_selected p) <? length (pa_filtered p) then with_selected (S (pa_selected p)) p else p
  end.

(** [_run_selected]: the command run, and the history after it. *)
Definition _run_selected (p : palette) : option (string * list string) :=
  match pa_filtered p with
  | [] => None
  | _ =>
      let filter_val := strip (pa_value p) in
      let cmd := nth (pa_selected p) (pa_filtered p) "" in
      let cmd_string := if contains " " filter_val then filter_val else cmd in
      Some (cmd_string, remember cmd_string (pa_history p))
  end.

Inductive palette_key := Typed (v : string) | KeyUp | KeyDown | Changed.

Definition palette_step (p : palette) (k : palette_key) : palette :=
  match k with
  | Typed v => on_input_changed v p
  | KeyUp => key_up p
  | KeyDown => key_down p
  | Changed => on_input_changed (pa_value p) p
  end.

Definition palette_run (ks : list palette_key) (p : palette) : palette := foldl palette_step p ks.

(** ** InputBar *)
Record input_bar := InputBar { ib_value : string; ib_history : list string; ib_idx : option nat }.

Inductive input_message := CommandTriggered (partial : string) | Submitted (text : string).

Definition submit_input (value : string) (b : input_bar) : input_bar * option input_message :=
  let text := strip value in
  if negb (truthy text) then (b, None)
  else (InputBar "" (remember text (ib_history b)) None,
        Some (if startswith "/" text then CommandTriggered (sdrop 1 text) else Submitted text)).

Definition input_up (b : input_bar) : input_bar :=
  match ib_history b with
  | [] => b
  | h => let i := match ib_idx b with None => length h - 1 | Some i => i - 1 end in
         InputBar (nth i h "") h (Some i)
  end.

Definition input_down (b : input_bar) : input_bar :=
  match ib_history b, ib_idx b with
  | [], _ | _, None => b
  | h, Some i => if i <? length h - 1 then InputBar (nth (S i) h "") h (Some (S i)) else InputBar "" h None
  end.

(** [InputBar.on_key]. *)
Definition input_key (key : string) (b : input_bar) : input_bar :=
  if bool_decide (key = "up") then input_up b else if bool_decide (key = "down") then input_down b else b.

(** ** Facts *)

(** The index of a recalled entry is one of the history, which [nth] relies on. *)
Definition input_ok (b : input_bar) : Prop := match ib_idx b with Some i => i < length (ib_history b) | None => True end.

Lemma input_key_ok key b : input_ok b → input_ok (input_key key b).
Proof.
  unfold input_ok, input_key, input_up, input_down. intros Hb. destruct b as [v [|x h] idx]; cbn [ib_history ib_idx] in *.
  - by repeat case_bool_decide.
  - repeat case_bool_decide; destruct idx as [i|]; cbn [ib_history ib_idx]; try done; try (cbn [length] in *; lia).
    destruct (Nat.ltb_spec i (length (x :: h) - 1)); cbn [ib_history ib_idx]; [lia|done].
Qed.

Lemma submit_input_ok value b : input_ok b → input_ok (submit_input value b).1.
Proof. unfold submit_input. by destruct (truthy (strip value)). Qed.

(** The keys recall the entries from the last to the first, where they stay, and
    come back to an empty line. *)
Lemma input_ups n v h : n < length h →
  Nat.iter (S n) (input_key "up") (InputBar v h None) = InputBar (nth (length h - S n) h "") h (Some (length h - S n)).
Proof.
  destruct h as [|x h]; [cbn; lia|]. induction n as [|n IH]; intros Hn; [done|].
  rewrite Nat.iter_succ, IH by lia. unfold input_key, input_up. cbn [ib_history ib_idx]. rewrite bool_decide_eq_true_2 by done.
  by replace (length (x :: h) - S n - 1) with (length (x :: h) - S (S n)) by lia.
Qed.

Theorem recalled_and_left n v h : n < length h →
  Nat.iter (S n) (input_key "down") (Nat.iter (S n) (input_key "up") (InputBar v h None)) = InputBar "" h None.
Proof.
  intros Hn. rewrite (input_ups n v h Hn). destruct h as [|x h]; [cbn in Hn; lia|]. induction n as [|n IH].
  - change (input_down (InputBar (nth (length (x :: h) - 1) (x :: h) "") (x :: h) (Some (length (x :: h) - 1))) = InputBar "" (x :: h) None).
    unfold input_down. cbn [ib_history ib_idx]. by rewrite Nat.ltb_irrefl.
  - rewrite Nat.iter_succ_r. rewrite <-IH by lia. f_equal.
    change (input_key "down") with input_down. unfold input_down. cbn [ib_history ib_idx].
    destruct (Nat.ltb_spec (length (x :: h) - S (S n)) (length (x :: h) - 1)); [|lia].
    by replace (S (length (x :: h) - S (S n))) with (length (x :: h) - S n) by lia.
Qed.

Lemma is_space_lower c : is_space (lower_char c) = is_space c.
Proof. by destruct c as [[] [] [] [] [] [] [] []]. Qed.

Lemma lstrip_lower s : lstrip (lower s) = lower (lstrip s).
Proof.
  induction s as [|c s IH]; [done|]. cbn [lower smap lstrip]. rewrite is_space_lower.
  by destruct (is_space c).
Qed.

Lemma rstrip_lower s : rstrip (lower s) = lower (rstrip s).
Proof.
  induction s as [|c s IH]; [done|]. unfold lower in *. cbn [smap rstrip]. rewrite IH, is_space_lower.
  destruct (rstrip s) as [|d t]; [|done]. cbn [smap]. by destruct (is_space c).
Qed.

Lemma strip_lower s : strip (lower s) = lower (strip s).
Proof. unfold strip. by rewrite lstrip_lower, rstrip_lower. Qed.

Lemma contains_space_cons c s :
  contains " " (String c s) = bool_decide (c = " "%char) || contains " " s.
Proof.
  cbn [contains startswith]. f_equal. rewrite andb_true_r. apply bool_decide_ext. split; congruence.
Qed.

Lemma contains_space_lower s : contains " " (lower s) = contains " " s.
Proof.
  induction s as [|c s IH]; [done|]. unfold lower in *. cbn [smap].
  rewrite !contains_space_cons, IH. f_equal. apply bool_decide_ext.
  destruct c as [[] [] [] [] [] [] [] []]; vm_compute; split; congruence.
Qed.

Lemma contains_startswith x p s : startswith p s = true → contains x p = true → contains x s = true.
Proof.
  intros [t ->]%startswith_spec [a [b ->]]%contains_spec. apply contains_spec. exists a, (b +:+ t).
  by rewrite !sapp_assoc.
Qed.

(** With a space in the filter no command matches. *)
Lemma filter_with_space v : contains " " (strip v) = true → filter_commands v = [].
Proof.
  intros Hs. unfold filter_commands. replace (truthy (strip v)) with true by (by destruct (strip v)).
  assert (∀ l, forallb (λ n, negb (contains " " (lower n))) l = true → List.filter (_fuzzy_match v) l = []) as Hl.
  { induction l as [|n l IH]; simpl; [done|]. intros [Hn Hl]%andb_true_iff. apply negb_true_iff in Hn.
    destruct (_fuzzy_match v n) eqn:E; [|auto]. unfold _fuzzy_match in E. rewrite strip_lower in E.
    apply (contains_startswith " ") in E; [congruence|]. by rewrite contains_space_lower. }
  apply Hl. reflexivity.
Qed.

Definition palette_ok (p : palette) : Prop :=
  pa_filtered p = filter_commands (pa_value p) ∧
  (pa_filtered p = [] ∨ pa_selected p < length (pa_filtered p)).

Lemma set_value_ok v idx p : palette_ok (set_value v idx p).
Proof.
  split; [done|]. cbn. destruct (filter_commands v); [by left|right; simpl; lia].
Qed.

Lemma palette_step_ok p k : palette_ok p → palette_ok (palette_step p k).
Proof.
  intros Hok. destruct k as [v| | |]; cbn [palette_step]; [apply set_value_ok| | |apply set_value_ok].
  - unfold key_up. destruct (truthy _); [|destruct (pa_history p); [|apply set_value_ok]].
    all: destruct (0 <? pa_selected p) eqn:E; [|done].
    all: destruct Hok as [Hf Hs]; split; [done|]; cbn; destruct Hs; [by left|right; lia].
  - assert (palette_ok (if S (pa_selected p) <? length (pa_filtered p)
                        then with_selected (S (pa_selected p)) p else p)) as Hsel.
    { case_match eqn:E; [|done]. apply Nat.ltb_lt in E. destruct Hok as [Hf _]. split; [done|by right]. }
    unfold key_down. destruct (truthy _); [done|]. destruct (pa_history p); [done|].
    destruct (pa_hist_idx p) as [i|]; [|done]. destruct (i <? _); apply set_value_ok.
Qed.

Lemma palette_run_ok ks p : palette_ok p → palette_ok (palette_run ks p).
Proof. revert p. induction ks as [|k ks IH]; intros p Hok; simpl; [done|]. by apply IH, palette_step_ok. Qed.

Lemma open_palette_ok partial given history : palette_ok (open_palette partial given history).
Proof.
  unfold open_palette. split; [by destruct given|].
  cbn. destruct (filter_commands _); [by left|right; simpl; lia].
Qed.

(** Enter runs the name that is selected: a filter with a space matches none. *)
Lemma run_selected_spec p cmd h : palette_ok p → _run_selected p = Some (cmd, h) →
  cmd ∈ COMMANDS ∧ pa_filtered p !! pa_selected p = Some cmd ∧ contains " " (strip (pa_value p)) = false.
Proof.
  intros [Hf Hsel]. unfold _run_selected.
  destruct (pa_filtered p) as [|c l] eqn:E; [discriminate|]. destruct Hsel as [|Hsel]; [discriminate|].
  destruct (contains " " (strip (pa_value p))) eqn:Es.
  - rewrite filter_with_space in Hf by done. discriminate.
  - intros [= <- _]. destruct (nth_lookup_or_length (c :: l) (pa_selected p) "") as [Hn|Hn]; [|simpl in *; lia].
    split; [|by split]. apply list_elem_of_lookup_2 in Hn. rewrite Hf in Hn at 2. unfold filter_commands in Hn.
    destruct (truthy _); [by apply filter_In_elem in Hn as [? _]|done].
Qed.

(** Whatever is typed, the palette runs nothing but the bare name of a command
    that is selected: the arguments typed after a name are never run. *)
Theorem palette_runs_bare_names partial given history ks cmd h :
  _run_selected (palette_run ks (open_palette partial given history)) = Some (cmd, h) →
  cmd ∈ COMMANDS ∧ (contains " " (strip (pa_value (palette_run ks (open_palette partial given history)))) = false).
Proof.
  intros Hr. by destruct (run_selected_spec _ cmd h (palette_run_ok ks _ (open_palette_ok partial given history)) Hr) as (? & _ & ?).
Qed.

(** ** The session screen *)
Section session_facts.
Context {X J : Type} `{!Orchestrator X} `{!Markup conv_entry}.
Context (now : Z).
Local Abbreviation W := (screen X J).

Definition tokens_of (w : W) : option Z := us_token_count <$> as_session (tu_state (sc_tui w)).

Definition token_renders (t : string) : bool := renders (CToken t).

(** The tokens that are written, and how many are counted: the one that could
    not be written, too. *)
Fixpoint written_tokens (tokens : list string) : list string :=
  match tokens with t :: ts => if token_renders t then t :: written_tokens ts else [] | [] => [] end.
Fixpoint counted_tokens (tokens : list string) : nat :=
  match tokens with t :: ts => S (if token_renders t then counted_tokens ts else 0) | [] => 0 end.

Lemma all_written tokens : Forall (λ t, token_renders t = true) tokens →
  written_tokens tokens = tokens ∧ counted_tokens tokens = length tokens.
Proof. induction 1 as [|t ts Ht _ [IHw IHc]]; [done|]. cbn. by rewrite Ht, IHw, IHc. Qed.

Lemma stream_tokens_spec tokens k (w : W) n :
  tokens_of w = Some n →
  ∃ w', stream_tokens tokens k w = (w', Ok (k + counted_tokens tokens)) ∧
        tokens_of w' = Some (n + Z.of_nat (counted_tokens tokens))%Z ∧
        sc_log w' = sc_log w ++ map CToken (written_tokens tokens) ∧ sc_streamed w' = sc_streamed w.
Proof.
  revert w n k. induction tokens as [|t ts IH]; intros w n k Hn.
  - exists w. cbn. rewrite app_nil_r, Nat.add_0_r, Z.add_0_r. done.
  - cbn [stream_tokens counted_tokens written_tokens]. unfold mbind at 1.
    set (w1 := (on_app (add_tokens 1) w).1). assert (tokens_of w1 = Some (n + 1)%Z) as Hn1.
    { unfold tokens_of in *. cbn. destruct (as_session _); [|done]. cbn in *. congruence. }
    change (on_app (add_tokens 1) w) with (w1, Ok tt : res ()). unfold mbind, mtry, write, token_renders.
    destruct (renders (CToken t)); unfold mret.
    + set (w2 := Screen _ _ _ _ _ _). destruct (IH w2 (n + 1)%Z (S k) Hn1) as (w' & -> & Hw & Hl & Hs).
      exists w'. split_and!; [do 2 f_equal; lia|rewrite Hw; f_equal; lia| |done]. rewrite Hl. cbn. by rewrite <-app_assoc.
    + exists w1. split_and!; [do 2 f_equal; lia|rewrite Hn1; f_equal; lia| |done]. cbn. by rewrite app_nil_r.
Qed.

(** A stream shown in the log, up to a token that cannot be written. *)
Lemma stream_agent_spec agent_id role tokens (w : W) n :
  tokens_of w = Some n → (∀ k, renders (CDone role k) = true) →
  ∃ w', _stream_agent agent_id role tokens w = (w', Ok tt) ∧
    tokens_of w' = Some (n + Z.of_nat (counted_tokens tokens))%Z ∧
    sc_log w' = sc_log w ++ map CToken (written_tokens tokens) ++ [CDone role (Z.of_nat (counted_tokens tokens))] ∧
    sc_streamed w' = sc_streamed w.
Proof.
  intros Hn Hd. unfold _stream_agent, mbind. destruct (stream_tokens_spec tokens 0 w n Hn) as (w1 & -> & Hw & Hl & Hs).
  unfold write. rewrite Hd. eexists. split; [done|]. split_and!; [done| |done]. cbn. by rewrite Hl, <-app_assoc.
Qed.

Lemma set_agent_status_tokens aid v st :
  us_token_count <$> as_session (set_agent_status aid v st) = us_token_count <$> as_session st.
Proof. destruct st as [ui pr [s|]]; [|done]. cbn. by case_match. Qed.

Lemma work_complete_tokens agent_id p st n :
  us_token_count <$> as_session st = Some n →
  us_token_count <$> as_session (on_work_complete now agent_id p st).1 = Some (n + event_tokens p)%Z.
Proof.
  intros Hn. unfold on_work_complete, mark_agent.
  destruct (known_agent st agent_id) as [aid|]; cbn [fst].
  - rewrite <- (set_agent_status_tokens aid "done" st) in Hn.
    destruct (set_agent_status aid "done" st) as [ui pr [s|]]; [|done]. injection Hn as <-.
    destruct (has_tokens p) eqn:E; cbn; [done|]. unfold has_tokens in E. breflect. unfold event_tokens.
    f_equal. lia.
  - destruct st as [ui pr [s|]]; [|done]. injection Hn as <-.
    destruct (has_tokens p) eqn:E; cbn; [done|]. unfold has_tokens in E. breflect. unfold event_tokens.
    f_equal. lia.
Qed.

(** An agent that was streamed has its answer shown once, but counted twice:
    each streamed token counts one, and the completion event adds the tokens
    the run reports, its output included. *)
Theorem streamed_tokens_counted_twice agent_id role tokens e erole (w : W) n :
  tokens_of w = Some n → agent_id ∈ sc_streamed w → (∀ k, renders (CDone role k) = true) →
  Forall (λ t, token_renders t = true) tokens →
  sv_type e = Some "work_complete" → sv_agent_id e = Some agent_id →
  ∃ w1 w2, _stream_agent agent_id role tokens w = (w1, Ok tt) ∧ _handle_ws_event now e erole w1 = (w2, Ok tt) ∧
    tokens_of w2 = Some (n + Z.of_nat (length tokens) + event_tokens (sv_payload e))%Z ∧
    sc_log w2 = sc_log w ++ map CToken tokens ++ [CDone role (Z.of_nat (length tokens))].
Proof.
  intros Hn Hin Hd [Hwr Hct]%all_written Ht Ha.
  destruct (stream_agent_spec agent_id role tokens w n Hn Hd) as (w1 & Hs1 & Hw1 & Hl1 & Hst). rewrite Hwr, Hct in *.
  eexists _, _. split; [exact Hs1|].
  assert (_handle_ws_event now e erole w1 =
      (set_tui (Tui (tu_client (sc_tui w1)) (tu_store (sc_tui w1)) (handle_ws_event now e (tu_state (sc_tui w1))).1) w1,
       Ok tt)) as Hev.
  { unfold _handle_ws_event, mbind, mgets, on_app, on_tui, on_state, mmodify. rewrite Ht, Ha. cbn [default from_option id].
    rewrite bool_decide_true by done. cbn [set_tui sc_streamed]. rewrite Hst.
    by rewrite (bool_decide_true (agent_id ∈ sc_streamed w)), andb_false_r by done. }
  rewrite Hev. split; [reflexivity|]. split; [|exact Hl1].
  unfold tokens_of in *. cbn [set_tui sc_tui tu_state]. unfold handle_ws_event.
  destruct (as_session (tu_state (sc_tui w1))) as [s|] eqn:Es; [|done].
  rewrite Ht. cbn [default from_option id]. rewrite bool_decide_true by done. cbn [fst].
  apply work_complete_tokens. rewrite Es. exact Hw1.
Qed.

End session_facts.

Module Concrete.
Import TuiServices.Concrete.
#[local] Existing Instance inbox.

(** Everything renders but a closing tag without its opening one. *)
#[local] Instance rich : Markup conv_entry :=
  {| renders e := match e with CToken t => negb (contains "[/" t) | _ => true end; markup_error _ := "closing tag" |}.

Definition scr : screen (list (string * string)) string := Screen w0 [] [] ["c2"] [] [].

Definition done_event : session_event :=
  SessionEvent (Some "work_complete") (Some "c2")
    (WsPayload (Some "ok") (Some 10%Z) (Some 2%Z) None None None None None None None).

(** Two tokens are streamed and two reported: four are counted with the ten of
    the prompt. *)
Lemma twice_witness :
  ∃ w1 w2, _stream_agent "c2" "coder" ["a"; "b"] scr = (w1, Ok tt) ∧ _handle_ws_event 9 done_event None w1 = (w2, Ok tt) ∧
    tokens_of w2 = Some 14%Z.
Proof.
  destruct (streamed_tokens_counted_twice 9 "c2" "coder" ["a"; "b"] done_event None scr 0) as (w1 & w2 & H1 & H2 & Ht & _).
  - reflexivity.
  - left.
  - done.
  - by repeat constructor.
  - reflexivity.
  - reflexivity.
  - by exists w1, w2.
Defined.

(** A token that is no markup ends the stream: the rest is not shown. *)
Example unmatched_tag_ends_the_stream :
  sc_log (_stream_agent "c2" "coder" ["a"; "[/b]"; "c"] scr).1 = [CToken "a"; CDone "coder" 2].
Proof. reflexivity. Qed.

(** A slash alone raises in the task of the input: nothing is answered. *)
Example bare_slash : ∃ w e, on_input_submitted 9 " / " scr = (w, Raise (IndexError e)).
Proof. eexists _, _. reflexivity. Qed.

Lemma palette_witness :
  "review" ∈ COMMANDS ∧
  contains " " (strip (pa_value (palette_run [Typed "re"] (open_palette "/arch add" ["x"] ["x"])))) = false.
Proof.
  apply (palette_runs_bare_names "/arch add" ["x"] ["x"] [Typed "re"] "review" ["x"; "review"]). reflexivity.
Defined.

(** The second press of the up key moves the selection, not the history. *)
Example history_stuck :
  pa_value (palette_run [KeyUp; KeyUp] (open_palette "" ["a"; "execute"] ["a"; "execute"])) = "execute".
Proof. reflexivity. Qed.

End Concrete.
