(* ===== verification/TuiUtils.v ===== *)
(** * Formatting and git helpers of the terminal interface
    (tui/tui/utils/format.py, tui/tui/utils/git.py)

    Times are whole seconds; [subprocess.run] and the file system are
    parameters of [detect_repo].  [fmt_tokens] and [fmt_datetime] print
    floating-point numbers and calendar dates and are not modelled. *)

From S2P Require Import Prelude PyStr.
Local Open Scope string_scope.
Local Open Scope list_scope.
Local Open Scope nat_scope.

(** ** Formatting *)

(** [f"{n:02d}"] for a non-negative number. *)
Definition pad2 (n : Z) : string := if (n <? 10)%Z then "0" +:+ pretty n else pretty n.

Definition fmt_elapsed (now start : Z) : string :=
  let secs := (now - start)%Z in
  let h := (secs / 3600)%Z in
  let rem := (secs mod 3600)%Z in
  let m := (rem / 60)%Z in
  let s := (rem mod 60)%Z in
  if bool_decide (h ≠ 0%Z) then pad2 h +:+ ":" +:+ pad2 m +:+ ":" +:+ pad2 s
  else pad2 m +:+ ":" +:+ pad2 s.

Definition plural (n : Z) (unit : string) : string :=
  pretty n +:+ " " +:+ unit +:+ (if (1 <? n)%Z then "s" else "") +:+ " ago".

Definition fmt_relative (now ts : Z) : string :=
  if bool_decide (ts = 0%Z) then "never"
  else
    let delta := (now - ts)%Z in
    if (delta <? 60)%Z then "just now"
    else if (delta <? 3600)%Z then pretty (delta / 60)%Z +:+ " min ago"
    else if (delta <? 86400)%Z then plural (delta / 3600)%Z "hour"
    else plural (delta / 86400)%Z "day".

(** [s[:k]]; a negative bound counts from the end. *)
Definition slice_to (k : Z) (s : string) : string :=
  if (k <? 0)%Z then stake (Z.to_nat (Z.of_nat (String.length s) + k)) s else stake (Z.to_nat k) s.

Definition truncate (s : string) (max_len : Z) (suffix : string) : string :=
  if (Z.of_nat (String.length s) <=? max_len)%Z then s
  else slice_to (max_len - Z.of_nat (String.length suffix))%Z s +:+ suffix.

(** The home directory and the ellipsis character are parameters. *)
Definition fmt_path (home ellipsis path : string) (max_len : Z) : string :=
  let path := if startswith home path then "~" +:+ sdrop (String.length home) path else path in
  truncate path max_len ellipsis.

(** [s.split("/")[-1]]. *)
Fixpoint after_last_slash (s : string) : string :=
  match s with
  | "" => ""
  | String c s' => if contains "/" s' then after_last_slash s'
                   else if bool_decide (c = "/"%char) then s' else s
  end.

Definition fmt_model (model : string) : string :=
  let model := if contains "/" model then after_last_slash model else model in
  replace "-A22B" "" (replace "-A3B" "" (replace "-Instruct" "" model)).

(** [progress_bar]: the ratio as a fraction in lowest terms of the callers. *)
Definition progress_bar (num den width : Z) : nat * nat :=
  let filled := (num * width / den)%Z in (Z.to_nat filled, Z.to_nat (width - filled)).

(** ** Git *)

Record git_info := GitInfo {
  gi_is_repo : bool; gi_root : string; gi_branch : string; gi_has_changes : bool; gi_ahead : Z; gi_behind : Z
}.

Section git.
(** The exit code and output of a command, or [None] when it could not run. *)
Context (subprocess : list string → string → option (Z * string)).
Context (exists_path : string → bool).

Definition _run (args : list string) (cwd : string) : Z * string :=
  match subprocess args cwd with Some (rc, out) => (rc, strip out) | None => ((-1)%Z, "") end.

Definition ahead_behind (ab : string) : Z * Z :=
  match words ab with
  | [b; a] => match parse_int b, parse_int a with Some b, Some a => (a, b) | _, _ => (0, 0)%Z end
  | _ => (0, 0)%Z
  end.

Definition detect_repo (path : string) : git_info :=
  let none := GitInfo false path "" false 0 0 in
  if negb (exists_path path) then none
  else
    let (rc, root) := _run ["git"; "rev-parse"; "--show-toplevel"] path in
    if bool_decide (rc ≠ 0%Z) then none
    else
      let (_, branch) := _run ["git"; "rev-parse"; "--abbrev-ref"; "HEAD"] root in
      let (rc_status, status_out) := _run ["git"; "status"; "--porcelain"] root in
      let has_changes := if bool_decide (rc_status = 0%Z) then truthy (strip status_out) else false in
      let (_, ab) := _run ["git"; "rev-list"; "--left-right"; "--count"; branch +:+ "@{u}...HEAD"] root in
      let (ahead, behind) := ahead_behind ab in
      GitInfo true root (py_or branch "HEAD") has_changes ahead behind.

Definition short_status (up down dot : string) (g : git_info) : string :=
  if negb (gi_is_repo g) then "not a git repo"
  else join ("  " +:+ dot +:+ "  ")
         ([gi_branch g] ++ (if gi_has_changes g then ["uncommitted changes"] else [])
          ++ (if bool_decide (gi_ahead g = 0%Z) then [] else [up +:+ pretty (gi_ahead g)])
          ++ (if bool_decide (gi_behind g = 0%Z) then [] else [down +:+ pretty (gi_behind g)])).
End git.

(** ** Facts *)

(** A shortened text fits when the suffix does. *)
Lemma truncate_bound s max_len suffix :
  (Z.of_nat (String.length suffix) <= max_len)%Z →
  (Z.of_nat (String.length (truncate s max_len suffix)) <= max_len)%Z.
Proof.
  intros H. unfold truncate. destruct (Z.leb_spec (Z.of_nat (String.length s)) max_len); [done|].
  unfold slice_to. destruct (Z.ltb_spec (max_len - Z.of_nat (String.length suffix)) 0); [lia|].
  rewrite sapp_length, stake_length. lia.
Qed.

(** A workspace that is no repository, and one two commits behind. *)
Example parse_counts : ahead_behind "2 0" = (0, 2)%Z ∧ ahead_behind "1_0 +3" = (3, 10)%Z ∧ ahead_behind "x 1" = (0, 0)%Z.
Proof. by vm_compute. Qed.
Example elapsed : fmt_elapsed 3725 0 = "01:02:05" ∧ fmt_elapsed 59 0 = "00:59".
Proof. by vm_compute. Qed.
Example short_model : fmt_model "Qwen/Qwen3.5-35B-A3B" = "Qwen3.5-35B".
Proof. by vm_compute. Qed.
