(* ===== verification/TuiPanes.v ===== *)
(** * Panes of the terminal interface
    (tui/tui/layout/session_layout.py, tui/tui/widgets/agent_pane.py)

    The placement of the agents' panes on the grid, and the buffer of an agent's
    tokens as a step relation. *)

From S2P Require Import Prelude PyStr TuiState TuiClient.
Local Open Scope string_scope.
Local Open Scope list_scope.
Local Open Scope nat_scope.

(** ** SessionLayoutManager *)
Definition ROLE_PRIORITY : list string := ["coder"; "architect"; "reviewer"; "tester"; "documenter"].

Definition get_layout_class (agent_count : Z) : string :=
  if (agent_count <=? 1)%Z then "layout-full"
  else if (agent_count =? 2)%Z then "layout-half-half"
  else if (agent_count =? 3)%Z then "layout-two-one"
  else if (agent_count =? 4)%Z then "layout-two-two"
  else "layout-scroll".

Record pane := PaneAssignment {
  pn_agent_id : string; pn_role : string; pn_css_id : string; pn_col : nat; pn_row : nat; pn_large : bool
}.

Definition priority (a : agent_info) : nat :=
  match list_find (λ r, r = ai_role a) ROLE_PRIORITY with Some (i, _) => i | None => 99 end.
Definition by_priority (a b : agent_info) : bool := priority a <=? priority b.

Definition assign (col row : nat) (large : bool) (a : agent_info) : pane :=
  PaneAssignment (ai_agent_id a) (ai_role a) ("agent-pane-" +:+ ai_agent_id a) col row large.

Definition is_coder (a : agent_info) : bool := bool_decide (ai_role a = "coder").

(** The coder on the right, the others stacked on the left. *)
Definition two_one (first : agent_info) (sorted_agents : list agent_info) : list pane :=
  let coder := default first (find is_coder sorted_agents) in
  let others := List.filter (λ a, negb (bool_decide (ai_agent_id a = ai_agent_id coder))) sorted_agents in
  assign 1 0 true coder :: imap (λ i a, assign 0 i false a) others.

Definition assign_panes (agents : list agent_info) : list pane :=
  let sorted_agents := sort_by by_priority agents in
  match sorted_agents with
  | [] => []
  | [a] => [assign 0 0 true a]
  | [a; b] => [assign 0 0 true a; assign 1 0 false b]
  | [a; _; _] => two_one a sorted_agents
  | _ => imap (λ i a, assign (i mod 2) (i / 2) (i =? 0) a) sorted_agents
  end.

Definition should_show_agent (a : agent_info) : bool :=
  match ai_started_at a with
  | None => false
  | Some t => negb (bool_decide (t = 0%Z)) && negb (bool_decide (ai_status a = ""))
  end.
Definition filter_display_agents (agents : list agent_info) : list agent_info := List.filter should_show_agent agents.

(** ** AgentStreamBuffer: the tokens held, whether the task runs, and what was
    handed to [on_flush] *)
Record stream_buffer := StreamBuffer { sb_buf : list string; sb_running : bool; sb_flushed : list string }.
Definition new_buffer : stream_buffer := StreamBuffer [] false [].

Definition flush (b : stream_buffer) : stream_buffer :=
  match sb_buf b with
  | [] => b
  | l => StreamBuffer [] (sb_running b) (sb_flushed b ++ [join "" l])
  end.

Inductive buffer_step := Push (token : string) | Start | Tick | Stop.

(** [Tick]: the task wakes up from its sleep. *)
Definition buffer_apply (b : stream_buffer) (s : buffer_step) : stream_buffer :=
  match s with
  | Push t => StreamBuffer (sb_buf b ++ [t]) (sb_running b) (sb_flushed b)
  | Start => StreamBuffer (sb_buf b) true (sb_flushed b)
  | Tick => if sb_running b then flush b else b
  | Stop => flush (StreamBuffer (sb_buf b) false (sb_flushed b))
  end.

Definition buffer_run (ss : list buffer_step) (b : stream_buffer) : stream_buffer := foldl buffer_apply b ss.

(** ** Facts *)

(** Nothing pushed is lost: what was flushed and what is held is what was
    pushed, in order. *)
Definition pushed (ss : list buffer_step) : string :=
  join "" (omap (λ s, match s with Push t => Some t | _ => None end) ss).

Lemma flush_keeps b : join "" (sb_flushed (flush b) ++ sb_buf (flush b)) = join "" (sb_flushed b ++ sb_buf b).
Proof.
  unfold flush. destruct (sb_buf b) as [|t l] eqn:E; [by rewrite E|]. cbn [sb_flushed sb_buf].
  by rewrite app_nil_r, !join_nil_app.
Qed.

Lemma flush_empties b : sb_buf (flush b) = [].
Proof. unfold flush. by destruct (sb_buf b) eqn:E. Qed.

Lemma buffer_apply_keeps b s :
  join "" (sb_flushed (buffer_apply b s) ++ sb_buf (buffer_apply b s)) =
    join "" (sb_flushed b ++ sb_buf b) +:+ pushed [s].
Proof.
  destruct s; cbn [buffer_apply].
  - cbn [sb_flushed sb_buf]. rewrite app_assoc, join_nil_app. done.
  - cbn [sb_flushed sb_buf]. by rewrite sapp_nil_r.
  - rewrite sapp_nil_r. destruct (sb_running b); [apply flush_keeps|done].
  - rewrite sapp_nil_r. apply (flush_keeps (StreamBuffer (sb_buf b) false (sb_flushed b))).
Qed.

Lemma pushed_cons s ss : pushed (s :: ss) = pushed [s] +:+ pushed ss.
Proof. unfold pushed. destruct s; cbn [omap list_omap]; [apply join_nil_cons|done..]. Qed.

Lemma buffer_run_keeps ss b :
  join "" (sb_flushed (buffer_run ss b) ++ sb_buf (buffer_run ss b)) = join "" (sb_flushed b ++ sb_buf b) +:+ pushed ss.
Proof.
  revert b. induction ss as [|s ss IH]; intros b; [by cbn; rewrite sapp_nil_r|].
  cbn [buffer_run foldl]. unfold buffer_run in IH. rewrite IH, buffer_apply_keeps, (pushed_cons s ss). apply sapp_assoc.
Qed.

(** However the pushes and the wake-ups of the flushing task interleave, when
    the buffer is stopped every token pushed has been written once, in order. *)
Theorem stopped_buffer_wrote_all ss :
  let b := buffer_run (ss ++ [Stop]) new_buffer in
  sb_buf b = [] ∧ join "" (sb_flushed b) = pushed ss.
Proof.
  cbv zeta. assert (sb_buf (buffer_run (ss ++ [Stop]) new_buffer) = []) as Hb.
  { unfold buffer_run. rewrite foldl_app. cbn [foldl buffer_apply]. apply flush_empties. }
  split; [done|]. pose proof (buffer_run_keeps (ss ++ [Stop]) new_buffer) as H.
  rewrite Hb, app_nil_r in H. rewrite H. cbn [new_buffer sb_flushed sb_buf app join].
  unfold pushed. rewrite omap_app. cbn [omap list_omap]. by rewrite app_nil_r.
Qed.

(** *** Panes *)
Definition position (p : pane) : nat * nat := (pn_col p, pn_row p).

Lemma imap_fmap_ids {A B C} (f : nat → A → B) (g : B → C) (h : A → C) l :
  (∀ i a, g (f i a) = h a) → map g (imap f l) = map h l.
Proof.
  intros H. revert f H. induction l as [|a l IH]; intros f H; [done|]. cbn. rewrite H. f_equal.
  apply IH. intros. apply H.
Qed.

Lemma imap_fmap_position (g : nat → nat * nat) (f : nat → agent_info → pane) l :
  (∀ i a, position (f i a) = g i) → imap (λ i _, g i) l = map position (imap f l).
Proof.
  intros H. revert f g H. induction l as [|a l IH]; intros f g H; [done|]. cbn. rewrite H. f_equal.
  apply (IH (λ i, f (S i)) (λ i, g (S i))). intros. apply H.
Qed.

Lemma imap_NoDup {A B} (f : nat → A → B) l :
  (∀ i j a b, f i a = f j b → i = j) → NoDup (imap f l).
Proof.
  intros Hf. apply NoDup_alt. intros i j x Hi Hj. rewrite list_lookup_imap in Hi, Hj.
  apply fmap_Some in Hi as (a & _ & ->). apply fmap_Some in Hj as (b & _ & Hb). by apply Hf in Hb.
Qed.

Lemma filter_full_iff {A} (p : A → bool) l : List.filter p l = l ↔ ∀ x, x ∈ l → p x = true.
Proof.
  split.
  - intros H x Hx. rewrite <- H in Hx. by apply filter_In_elem in Hx as [_ ?].
  - induction l as [|x l IH]; [done|]. intros H. cbn. rewrite H by left. f_equal. apply IH. intros y Hy. apply H. by right.
Qed.

(** An agent taken out by its id and put in front. *)
Lemma others_perm (a : agent_info) l :
  NoDup (map ai_agent_id l) → a ∈ l →
  Permutation (a :: List.filter (λ b, negb (bool_decide (ai_agent_id b = ai_agent_id a))) l) l.
Proof.
  intros Hnd Ha. induction Ha as [l|a b l Ha IH]; cbn in Hnd; apply NoDup_cons in Hnd as [Hni Hnd]; cbn.
  - rewrite bool_decide_true by done. cbn. rewrite (proj2 (filter_full_iff _ _)); [done|].
    intros b Hb. apply negb_true_iff, bool_decide_false. intros He. apply Hni. rewrite <- He.
    apply list_elem_of_In, in_map. by apply list_elem_of_In.
  - rewrite bool_decide_false.
    + cbn. rewrite perm_swap. by rewrite IH.
    + intros He. apply Hni. rewrite He. apply list_elem_of_In, in_map. by apply list_elem_of_In.
Qed.

Definition panes_ok (agents : list agent_info) (ps : list pane) : Prop :=
  Permutation (map pn_agent_id ps) (map ai_agent_id agents) ∧ NoDup (map position ps) ∧
  Forall (λ p, pn_col p ≤ 1) ps ∧ length (List.filter pn_large ps) = 1.

Lemma not_large_imap (f : nat → agent_info → pane) l :
  (∀ i a, pn_large (f i a) = false) → List.filter pn_large (imap f l) = [].
Proof.
  intros H. revert f H. induction l as [|a l IH]; intros f H; [done|]. cbn. rewrite H. apply IH. intros. apply H.
Qed.

Lemma two_one_ok a l : NoDup (map ai_agent_id l) → a ∈ l → panes_ok l (two_one a l).
Proof.
  intros Hnd Ha. unfold two_one.
  assert (default a (find is_coder l) ∈ l) as Hc.
  { destruct (find is_coder l) eqn:E; [|done]. apply list_elem_of_In. by apply find_some in E as [? _]. }
  set (c := default a (find is_coder l)) in *. set (os := List.filter _ l).
  pose proof (others_perm c l Hnd Hc) as Hperm. fold os in Hperm. unfold panes_ok. cbn [map List.filter assign pn_large].
  split_and!.
  - rewrite (imap_fmap_ids _ _ ai_agent_id) by done. by rewrite <- Hperm.
  - constructor.
    + intros (p & Hp & Hin)%list_elem_of_fmap. apply elem_of_lookup_imap in Hin as (i & b & -> & _). discriminate.
    + rewrite <- (imap_fmap_position (λ i, (0, i)) (λ i b, assign 0 i false b)) by done.
      apply imap_NoDup. intros i j _ _ [=]. done.
  - constructor; [cbn; lia|]. apply Forall_forall. intros p (i & b & -> & _)%elem_of_lookup_imap. cbn. lia.
  - by rewrite not_large_imap.
Qed.

Lemma grid_ok l :
  l ≠ [] → panes_ok l (imap (λ i a, assign (i mod 2) (i / 2) (i =? 0) a) l).
Proof.
  intros Hl. unfold panes_ok. split_and!.
  - by rewrite (imap_fmap_ids _ _ ai_agent_id).
  - rewrite <- (imap_fmap_position (λ i, (i mod 2, i / 2)) (λ i b, assign (i mod 2) (i / 2) (i =? 0) b)) by done.
    apply imap_NoDup. intros i j _ _ [Hm Hd]%pair_equal_spec. cbv beta in Hm, Hd. pose proof (Nat.div_mod_eq i 2). pose proof (Nat.div_mod_eq j 2). lia.
  - apply Forall_forall. intros p (i & b & -> & _)%elem_of_lookup_imap. cbn [assign pn_col].
    pose proof (Nat.mod_upper_bound i 2). lia.
  - destruct l as [|a l]; [done|]. cbn [imap List.filter assign pn_large Nat.eqb]. by rewrite not_large_imap.
Qed.

(** Every agent gets one pane at a place of its own in two columns, and one
    pane is the large one. *)
Theorem panes_cover_agents agents :
  agents ≠ [] → NoDup (map ai_agent_id agents) → panes_ok agents (assign_panes agents).
Proof.
  intros Hne Hnd. pose proof (sort_by_perm by_priority agents) as Hp. unfold assign_panes.
  set (l := sort_by by_priority agents) in *.
  assert (∀ ps, panes_ok l ps → panes_ok agents ps) as Hback.
  { intros ps (H1 & H2). split; [|done]. rewrite H1. by rewrite Hp. }
  assert (NoDup (map ai_agent_id l)) as Hndl by (by rewrite Hp).
  assert (l ≠ []) as Hlne.
  { intros Hl. rewrite Hl in Hp. by apply Permutation_nil_l in Hp. }
  apply Hback. destruct l as [|a [|b [|c [|d l']]]]; [done| | | |by apply grid_ok].
  - split_and!; cbn; [done|apply NoDup_singleton|repeat constructor; cbn; lia|done].
  - split_and!; cbn; [done| |repeat constructor; cbn; lia|done].
    apply NoDup_cons. split; [|apply NoDup_singleton]. rewrite list_elem_of_singleton. discriminate.
  - apply two_one_ok; [done|left].
Qed.

Module Concrete.
Definition agent (id role : string) : agent_info := AgentInfo id role "running" "" "" (Some 1%Z) 0 0.
Definition three : list agent_info := [agent "r" "reviewer"; agent "a" "architect"; agent "c" "coder"].

Lemma panes_witness : panes_ok three (assign_panes three) ∧ (pn_agent_id <$> assign_panes three) = ["c"; "a"; "r"].
Proof.
  split; [|reflexivity]. apply (panes_cover_agents three); [discriminate|].
  apply (bool_decide_unpack _). vm_compute. exact I.
Defined.
End Concrete.
