(* ===== verification/TuiWidgets.v ===== *)
(** * Widgets of the terminal interface
    (tui/tui/theme.py, tui/tui/widgets/, tui/tui/screens/logs.py)

    The colours and indicators, and the texts the bars, cards and panes render
    of the state, as the markup they hand to the renderer.  The home directory,
    the ellipsis (one character) and [fmt_tokens] and [fmt_datetime], which print
    floating-point numbers and calendar dates, are arguments. *)

From S2P Require Import Prelude PyStr TuiState TuiStore TuiClient TuiUtils TuiPanes.
Local Open Scope string_scope.
Local Open Scope list_scope.
Local Open Scope nat_scope.

(** ** theme.py *)
Module Theme.
Definition SURFACE1 := "#45475a".
Definition SURFACE2 := "#585b70".
Definition OVERLAY0 := "#6c7086".
Definition OVERLAY1 := "#7f849c".
Definition SUBTEXT0 := "#a6adc8".
Definition TEXT := "#cdd6f4".
Definition MAUVE := "#cba6f7".
Definition RED := "#f38ba8".
Definition PEACH := "#fab387".
Definition YELLOW := "#f9e2af".
Definition GREEN := "#a6e3a1".
Definition SKY := "#89dceb".
Definition BLUE := "#89b4fa".
Definition LAVENDER := "#b4befe".
Definition SUCCESS := GREEN.

Definition ROLE_COLORS : list (string * string) :=
  [("architect", BLUE); ("coder", GREEN); ("reviewer", PEACH); ("tester", YELLOW); ("documenter", MAUVE);
   ("general", LAVENDER)].

Definition INDICATOR : list (string * (string * string)) :=
  [("streaming", ("●", SKY)); ("active", ("◉", GREEN)); ("idle", ("◉", GREEN)); ("waiting", ("○", OVERLAY0));
   ("done", ("⊙", BLUE)); ("hibernating", ("⊙", BLUE)); ("failed", ("✕", RED)); ("killed", ("✕", RED));
   ("running", ("●", SKY))].

Definition STREAMING_FRAMES : list string := ["●"; "◐"; "○"; "◑"].

Definition CONNECTION_INDICATORS : list (string * (string * string)) :=
  [("connected", ("●", GREEN)); ("reconnecting", ("◐", YELLOW)); ("disconnected", ("○", OVERLAY0));
   ("failed", ("✕", RED))].

Definition TASK_STATUS : list (string * (string * string)) :=
  [("pending", ("○", OVERLAY0)); ("running", ("●", SKY)); ("complete", ("✓", GREEN)); ("failed", ("✕", RED));
   ("blocked", ("⊘", PEACH)); ("skipped", ("−", OVERLAY0))].

Definition PATCH_STATUS : list (string * (string * string)) :=
  [("pending", ("●", YELLOW)); ("applied", ("✓", GREEN)); ("rejected", ("✕", RED)); ("conflict", ("⚠", PEACH));
   ("processing", ("◐", SKY))].

Definition role_color (role : string) : string := default LAVENDER (dict_get role ROLE_COLORS).
Definition indicator (status : string) : string * string := default ("?", OVERLAY0) (dict_get status INDICATOR).
Definition task_indicator (status : string) : string * string := default ("?", OVERLAY0) (dict_get status TASK_STATUS).
Definition patch_indicator (status : string) : string * string := default ("?", OVERLAY0) (dict_get status PATCH_STATUS).

Definition markup (text color : string) : string := "[" +:+ color +:+ "]" +:+ text +:+ "[/" +:+ color +:+ "]".
Definition role_markup (text role : string) : string := markup text (role_color role).
End Theme.
Import Theme.

(** [f"[{style}]{text}[/]"], [f"{s:<n}"] and [s * n]. *)
Definition tag (style text : string) : string := "[" +:+ style +:+ "]" +:+ text +:+ "[/]".
Fixpoint times (n : nat) (s : string) : string := match n with 0 => "" | S n' => s +:+ times n' s end.
Definition ljust (n : nat) (s : string) : string := s +:+ times (n - String.length s) " ".

(** ** footer_bar.py *)
Definition HINTS : list (string * list (string * string)) :=
  [("launcher", [("↑↓", "navigate"); ("Enter", "open"); ("n", "new project"); ("c", "chat"); ("q", "quit")]);
   ("project", [("Enter", "open session"); ("n", "new session"); ("i", "index"); ("Esc", "back")]);
   ("new_project", [("Tab", "next field"); ("Enter", "create"); ("Esc", "back")]);
   ("new_session", [("Tab", "next field"); ("Enter", "start"); ("Esc", "back")]);
   ("session", [("Tab", "pane"); ("f", "follow"); ("d", "DAG"); ("l", "logs"); ("m", "models"); ("/", "commands");
                ("Ctrl+C", "cancel"); ("?", "help"); ("Ctrl+Q", "quit")]);
   ("chat", [("r", "role"); ("m", "model"); ("/", "commands"); ("p", "projects"); ("Ctrl+Q", "quit")]);
   ("logs", [("/", "search"); ("Esc", "back")]);
   ("help", [("Esc", "close")]);
   ("model_config", [("Tab", "next role"); ("Enter", "apply"); ("Esc", "cancel")]);
   ("command_palette", [("↑↓", "navigate"); ("Enter", "run"); ("Esc", "dismiss")])].

Definition hint_markup (h : string * string) : string :=
  tag ("bold " +:+ OVERLAY1) (replace "[" "\[" h.1) +:+ " " +:+ tag OVERLAY0 h.2.
Definition _build_markup (hints : list (string * string)) : string := join "  " (map hint_markup hints).
Definition footer (screen_name : string) : string := _build_markup (default [] (dict_get screen_name HINTS)).

Section widgets.
Context (home ellipsis : string) (now : Z) (fmt_tokens fmt_datetime : Z → string).
Local Abbreviation cut n s := (truncate s n%Z ellipsis).

(** ** header_bar.py *)
Definition header_left (st : app_state) : list string :=
  tag ("bold " +:+ BLUE) "AICAF" ::
  match as_project st with
  | Some p =>
      ("  " +:+ tag SUBTEXT0 (cut 20 (ps_name p))) ::
      match as_session st with
      | Some s => ["  " +:+ tag OVERLAY0 "›" +:+ "  " +:+ tag TEXT (cut 30 (us_task s))]
      | None => []
      end
  | None => []
  end ++
  match as_session st with
  | Some s =>
      let coder_model := default "" (dict_get "coder" (us_models s)) in
      if truthy coder_model then ["  " +:+ tag OVERLAY0 "·" +:+ "  " +:+ tag OVERLAY1 (fmt_model coder_model)] else []
  | None => []
  end.

Definition header_right (st : app_state) : list string :=
  match as_session st with
  | Some s =>
      (tag OVERLAY1 "tokens:" +:+ " " +:+ tag TEXT (fmt_tokens (us_token_count s))) ::
      (if 0 <? us_patch_count s then [tag OVERLAY1 "patches:" +:+ " " +:+ tag SUCCESS (pretty (us_patch_count s))] else []) ++
      [tag OVERLAY0 (fmt_elapsed now (us_elapsed_start s))]
  | None => []
  end ++
  let conn := default ("?", OVERLAY0) (dict_get (ui_connection_status (as_ui st)) CONNECTION_INDICATORS) in
  [tag conn.2 conn.1].

Definition header_bar (st : app_state) : string :=
  join "  " (header_left st) +:+ "   " +:+ tag OVERLAY0 "|" +:+ "   " +:+ join "  " (header_right st).

(** ** dag_sidebar.py *)
Definition bar_cells (f : nat * nat) : string := times f.1 "█" +:+ times f.2 "░".

Definition task_row (t : task_info) : string :=
  let (sym, col) := task_indicator (ti_status t) in
  tag col sym +:+ "  " +:+ tag OVERLAY0 (cut 4 (ti_id t)) +:+ "  " +:+
  tag (role_color (ti_role t)) (cut 18 (ti_desc t)) +:+ "  " +:+ tag col (cut 8 (ti_status t)).

(** The ratio as a fraction. *)
Definition agent_bar (status : string) : string :=
  bar_cells (if bool_decide (status = "done") then progress_bar 1 1 8
             else if bool_decide (status = "running") then progress_bar 1 2 8 else progress_bar 0 1 8).

Definition agent_row (a : agent_info) : string :=
  let (sym, col) := indicator (ai_status a) in
  tag col sym +:+ " " +:+ tag (role_color (ai_role a)) (ljust 10 (cut 10 (ai_role a))) +:+ "  " +:+
  tag SURFACE2 (agent_bar (ai_status a)) +:+ "  " +:+ tag col (ai_status a).

Definition patch_row (p : patch_info) : string :=
  let (sym, col) := patch_indicator (pi_status p) in
  tag col sym +:+ " " +:+ tag OVERLAY1 (cut 10 (pi_patch_id p)) +:+ "  " +:+
  tag OVERLAY0 (match pi_files p with [] => "" | fs => cut 14 (join ", " (take 2 fs)) end) +:+ "  " +:+
  tag col (pi_status p).

Definition model_row (rm : string * string) : string :=
  tag (role_color rm.1) (ljust 10 rm.1) +:+ "  " +:+ tag OVERLAY1 (fmt_model rm.2).

Definition ruled (title : string) (rows : list string) : list string := title :: tag SURFACE1 (times 30 "─") :: rows.
Definition part (title : string) (rows : list string) : list string :=
  match rows with [] => [] | _ => ruled (tag ("bold " +:+ OVERLAY0) title) rows ++ [""] end.

Definition sidebar_lines (s : tui_session) : list string :=
  part "TASKS" (map task_row (tasks_list s)) ++
  part "AGENTS" (map agent_row (active_agents s)) ++
  part "PATCHES" (map patch_row (take 6 (patches_list s))) ++
  match us_models s with
  | [] => []
  | ms => ruled (tag ("bold " +:+ OVERLAY0) "MODELS" +:+ "  " +:+ tag BLUE "\[m] reconfigure") (map model_row ms)
  end.

Definition dag_sidebar (st : app_state) : string :=
  match as_session st with
  | None => tag OVERLAY0 "No active session"
  | Some s => match sidebar_lines s with [] => tag OVERLAY0 "No data yet" | ls => join nl ls end
  end.

(** ** session_card.py, project_card.py *)

(** The session as listed, whether it has expired, and its time stamp. *)
Definition session_badge (s : session_dict * bool) : string * string * string :=
  if s.2 then ("⊘", SURFACE2, "expired")
  else if bool_decide (sd_status s.1 = Some "active") then ("●", GREEN, "active")
  else if bool_decide (sd_status s.1 = Some "paused") then ("◐", YELLOW, "paused")
  else ("⊙", OVERLAY0, "ended").

Definition session_card (s : session_dict * bool) (ts : Z) : string :=
  let '(dot, col, st) := session_badge s in
  tag col dot +:+ "  " +:+ tag TEXT (ljust 44 (cut 44 (default "(no task)" (sd_task s.1)))) +:+ "  " +:+
  tag col (ljust 8 st) +:+ "  " +:+ tag OVERLAY0 (fmt_relative now ts).

Definition project_card {J} (p : project J) (active : bool) : string :=
  let nsess := length (pj_session_ids p) in
  (if active then tag GREEN "▶" +:+ "  " else "   ") +:+
  tag ("bold " +:+ (if active then BLUE else TEXT)) (ljust 24 (cut 24 (pj_name p))) +:+ "  " +:+
  tag OVERLAY0 (ljust 30 (fmt_path home ellipsis (pj_workspace p) 28)) +:+ "  " +:+
  tag OVERLAY0 (pretty nsess +:+ " session" +:+ (if nsess =? 1 then "" else "s")) +:+ "  " +:+
  tag OVERLAY0 (fmt_relative now (pj_last_active p)).

(** ** logs.py *)
Definition log_row (e : log_entry) : string :=
  let src_col := if bool_decide (le_source e ∈ ["architect"; "coder"; "reviewer"; "tester"; "documenter"])
                 then role_color (le_source e) else OVERLAY0 in
  tag OVERLAY0 (fmt_datetime (le_ts e)) +:+ "  " +:+ tag src_col (ljust 12 (le_source e)) +:+ "  " +:+
  tag BLUE (ljust 16 (le_type e)) +:+ "  " +:+ tag TEXT (stake 120 (le_content e)).

Definition log_rows (st : app_state) : list string :=
  match as_session st with
  | Some s => match us_event_log s with
              | [] => [tag OVERLAY0 "No events yet in this session."]
              | l => map log_row l
              end
  | None => [tag OVERLAY0 "No events yet in this session."]
  end.

(** ** agent_pane.py *)

(** [pa_animating]: the task of the animation runs; [pa_css]: the one of the
    three classes the pane has. *)
Record agent_pane := AgentPane {
  pa_agent : agent_info; pa_buffer : stream_buffer; pa_frame_idx : nat; pa_animating : bool;
  pa_token_count : nat; pa_css : option string
}.
Definition new_pane (a : agent_info) : agent_pane := AgentPane a new_buffer 0 false 0 None.

Definition css_class (status : string) : option string :=
  if bool_decide (status = "running") then Some "streaming"
  else if bool_decide (status = "failed") || bool_decide (status = "killed") then Some "failed"
  else if bool_decide (status = "done") then Some "hibernating" else None.

Definition status_label (status : string) : string :=
  if bool_decide (status = "running") then tag SKY "streaming"
  else if bool_decide (status = "done") then tag BLUE "done"
  else if bool_decide (status = "failed") then tag RED "failed"
  else if bool_decide (status = "killed") then tag RED "killed"
  else tag OVERLAY0 status.

Definition _header_text (p : agent_pane) : string :=
  let a := pa_agent p in
  let (sym, col) :=
    if bool_decide (ai_status a = "running") || bool_decide (ai_status a = "streaming")
    then (nth (pa_frame_idx p mod length STREAMING_FRAMES) STREAMING_FRAMES "", SKY) else indicator (ai_status a) in
  let model_str := if truthy (ai_model a) then tag OVERLAY0 (fmt_model (ai_model a)) else "" in
  let tok_str := if 0 <? pa_token_count p then tag OVERLAY0 (pretty (pa_token_count p) +:+ " tok") else "" in
  " " +:+ tag col sym +:+ " " +:+ tag ("bold " +:+ role_color (ai_role a)) (upper (ai_role a)) +:+ "  " +:+ model_str +:+
  "  " +:+ tag OVERLAY0 "│" +:+ "  " +:+ tok_str +:+ "  " +:+ status_label (ai_status a) +:+ " ".

(** What happens to a pane: it is mounted and unmounted, gets a token, its agent
    changes; the task of its buffer, and that of the animation, wake up. *)
Inductive pane_step := Mounted | Unmounted | Token (t : string) | AgentChanged (a : agent_info) | BufferTick | Frame.

Definition with_buffer (s : buffer_step) (p : agent_pane) : agent_pane :=
  AgentPane (pa_agent p) (buffer_apply (pa_buffer p) s) (pa_frame_idx p) (pa_animating p) (pa_token_count p) (pa_css p).
Definition _update_css_class (p : agent_pane) : agent_pane :=
  AgentPane (pa_agent p) (pa_buffer p) (pa_frame_idx p) (pa_animating p) (pa_token_count p) (css_class (ai_status (pa_agent p))).
Definition animate (b : bool) (p : agent_pane) : agent_pane :=
  AgentPane (pa_agent p) (pa_buffer p) (pa_frame_idx p) b (pa_token_count p) (pa_css p).

Definition push_token (t : string) (p : agent_pane) : agent_pane :=
  let p := with_buffer (Push t) p in
  AgentPane (pa_agent p) (pa_buffer p) (pa_frame_idx p) true (pa_token_count p + String.length t) (pa_css p).

Definition is_running (a : agent_info) : bool := bool_decide (ai_status a = "running").

(** A round of [while self._agent.status in ("running",)]. *)
Definition _animate (p : agent_pane) : agent_pane :=
  if negb (pa_animating p) then p
  else if is_running (pa_agent p)
  then AgentPane (pa_agent p) (pa_buffer p) (S (pa_frame_idx p) mod 4) true (pa_token_count p) (pa_css p)
  else animate false p.

Definition update_agent (a : agent_info) (p : agent_pane) : agent_pane :=
  let p := _update_css_class (AgentPane a (pa_buffer p) (pa_frame_idx p) (pa_animating p) (pa_token_count p) (pa_css p)) in
  if is_running a then p else animate false p.

Definition pane_apply (p : agent_pane) (s : pane_step) : agent_pane :=
  match s with
  | Mounted => _update_css_class (with_buffer Start p)
  | Unmounted => animate false (with_buffer Stop p)
  | Token t => push_token t p
  | AgentChanged a => update_agent a p
  | BufferTick => with_buffer Tick p
  | Frame => _animate p
  end.
Definition pane_run (ss : list pane_step) (p : agent_pane) : agent_pane := foldl pane_apply p ss.
End widgets.

(** ** Facts *)

Definition tokens_of (ss : list pane_step) : list string :=
  omap (λ s, match s with Token t => Some t | _ => None end) ss.

Definition buffer_steps (ss : list pane_step) : list buffer_step :=
  omap (λ s, match s with Mounted => Some Start | Unmounted => Some Stop | Token t => Some (Push t) | BufferTick => Some Tick
             | _ => None end) ss.

Lemma pane_buffer ss p : pa_buffer (pane_run ss p) = buffer_run (buffer_steps ss) (pa_buffer p).
Proof.
  revert p. induction ss as [|s ss IH]; intros p; [done|]. change (pane_run (s :: ss) p) with (pane_run ss (pane_apply p s)). rewrite IH.
  destruct s; try done; cbn [pane_apply buffer_steps omap list_omap].
  - unfold update_agent. by destruct (is_running a).
  - unfold _animate. destruct (negb _); [done|]. by destruct (is_running _).
Qed.

Lemma pushed_tokens ss : pushed (buffer_steps ss) = join "" (tokens_of ss).
Proof.
  unfold pushed. f_equal. induction ss as [|s ss IH]; [done|].
  destruct s; [exact IH|exact IH|exact (f_equal (cons t) IH)|exact IH|exact IH|exact IH].
Qed.

(** A pane that is unmounted has written every token it got, in order, and
    counted their characters; while it lives its class is that of the status of
    its agent, and only the pane of a running agent goes on animating. *)
Theorem pane_shows_its_agent a ss :
  let p := pane_run (Mounted :: ss) (new_pane a) in
  pa_css p = css_class (ai_status (pa_agent p)) ∧
  pa_token_count p = String.length (join "" (tokens_of ss)) ∧
  join "" (sb_flushed (pa_buffer (pane_apply p Unmounted))) = join "" (tokens_of ss) ∧
  (is_running (pa_agent p) = false → pa_animating (pane_apply p Frame) = false).
Proof.
  cbv zeta. set (p := pane_run (Mounted :: ss) (new_pane a)).
  assert (pa_css p = css_class (ai_status (pa_agent p)) ∧ pa_token_count p = String.length (join "" (tokens_of ss))) as [H1 H2].
  { unfold p. change (pane_run (Mounted :: ss) (new_pane a)) with (pane_run ss (pane_apply (new_pane a) Mounted)).
    assert (∀ q, pa_css q = css_class (ai_status (pa_agent q)) →
      pa_css (pane_run ss q) = css_class (ai_status (pa_agent (pane_run ss q))) ∧
      pa_token_count (pane_run ss q) = pa_token_count q + String.length (join "" (tokens_of ss))) as Hall.
    { induction ss as [|s ss IH]; intros q Hq; [by rewrite Nat.add_0_r|].
      change (pane_run (s :: ss) q) with (pane_run ss (pane_apply q s)).
      destruct (IH (pane_apply q s)) as [IH1 IH2].
      - destruct s; try done; cbn [pane_apply].
        + unfold update_agent. by destruct (is_running a0).
        + unfold _animate. destruct (negb _); [done|]. by destruct (is_running _).
      - split; [done|]. rewrite IH2. destruct s; try done.
        + change (tokens_of (Token t :: ss)) with (t :: tokens_of ss). rewrite join_nil_cons, sapp_length.
          cbn [pane_apply push_token pa_token_count with_buffer]. by rewrite Nat.add_assoc.
        + cbn [pane_apply]. unfold update_agent. by destruct (is_running a0).
        + cbn [pane_apply]. unfold _animate. destruct (negb _); [done|]. by destruct (is_running _). }
    by apply Hall. }
  split; [done|]. split; [done|]. split.
  - change (pane_apply p Unmounted) with (animate false (with_buffer Stop p)). cbn [pa_buffer animate with_buffer].
    unfold p. rewrite pane_buffer. change (pa_buffer (new_pane a)) with new_buffer.
    destruct (stopped_buffer_wrote_all (buffer_steps (Mounted :: ss))) as [_ Hw].
    unfold buffer_run at 1 in Hw. rewrite foldl_app in Hw. rewrite pushed_tokens in Hw. exact Hw.
  - intros Hr. cbn [pane_apply]. unfold _animate. rewrite Hr. by destruct (pa_animating p) eqn:E.
Qed.
