(* ===== verification/TuiApp.v ===== *)
(** * The application and its forms
    (tui/tui/app.py, tui/tui/screens/launcher.py, project.py, new_project.py,
    new_session.py)

    [AicafApp]: the objects every screen shares, the first screen, the router
    of [push_screen]; the launcher, the project screen and the two forms as
    their handlers.  The stack holds the screens pushed over the blank one
    Textual starts with; a label is the text it shows, without colours. *)

From S2P Require Import Prelude PyStr TuiState TuiStore TuiClient TuiServices TuiUtils.
Local Open Scope string_scope.
Local Open Scope list_scope.
Local Open Scope nat_scope.
Local Open Scope py_scope.

(** A screen with the arguments its factory gives it. *)
Inductive app_screen :=
  | LauncherScreen | ProjectScreen (project_id : string) | NewProjectScreen
  | NewSessionScreen (project_id : string) | SessionScreen (project_id session_id : string)
  | ChatScreen (role : string) | LogsScreen | ModelConfigScreen (session_id : string)
  | CommandPaletteScreen (partial : string) (command_history : list string) | HelpScreen.

(** The keyword arguments of [push_screen], beside the callback of the palette. *)
Record kwargs := Kwargs {
  kw_project_id : option string; kw_session_id : option string; kw_role : option string;
  kw_partial : option string; kw_command_history : option (list string)
}.
Definition no_kwargs : kwargs := Kwargs None None None None None.

(** The top of the stack is its head. *)
Record app (X J : Type) := App {
  ap_tui : tui X J; ap_stack : list app_screen; ap_supervised : bool; ap_exited : bool
}.
Arguments App {X J}.
Arguments ap_tui {X J}.
Arguments ap_stack {X J}.
Arguments ap_supervised {X J}.
Arguments ap_exited {X J}.

Section app.
Context {X J : Type} `{!Orchestrator X}.
Context (dumps_projects : raw_projects J → string) (dumps_ui : raw_ui → string).
Context (now : Z).
(** The character of an ellipsis. *)
Context (ellipsis : string).
Local Abbreviation W := (app X J).

Definition on_tui {A} (m : M (tui X J) A) : M W A := λ w,
  let (t, r) := m (ap_tui w) in (App t (ap_stack w) (ap_supervised w) (ap_exited w), r).
Definition push (s : app_screen) : M W unit :=
  mmodify (λ w : W, App (ap_tui w) (s :: ap_stack w) (ap_supervised w) (ap_exited w)).
Definition pop_screen : M W unit := λ w,
  match ap_stack w with
  | [] => (w, Raise (OtherError "Can't pop screen; there must be at least one screen on the stack"))
  | _ :: l => (App (ap_tui w) l (ap_supervised w) (ap_exited w), Ok tt)
  end.
Definition exit : M W unit :=
  mmodify (λ w : W, App (ap_tui w) (ap_stack w) (ap_supervised w) true).
Definition set_supervised (b : bool) : M W unit :=
  mmodify (λ w : W, App (ap_tui w) (ap_stack w) b (ap_exited w)).

(** ** AicafApp *)

(** [kwargs[k]]. *)
Definition needed (k : string) (x : option string) : M W string :=
  match x with Some v => mret v | None => mraise (KeyError (repr k)) end.

(** [push_screen] with a name. *)
Definition push_screen (name : string) (kw : kwargs) : M W unit :=
  if bool_decide (name = "launcher") then push LauncherScreen
  else if bool_decide (name = "project") then
    let! pid := needed "project_id" (kw_project_id kw) in push (ProjectScreen pid)
  else if bool_decide (name = "new_project") then push NewProjectScreen
  else if bool_decide (name = "new_session") then
    let! pid := needed "project_id" (kw_project_id kw) in push (NewSessionScreen pid)
  else if bool_decide (name = "session") then
    let! pid := needed "project_id" (kw_project_id kw) in
    let! sid := needed "session_id" (kw_session_id kw) in
    push (SessionScreen pid sid)
  else if bool_decide (name = "chat") then push (ChatScreen (default "coder" (kw_role kw)))
  else if bool_decide (name = "logs") then push LogsScreen
  else if bool_decide (name = "model_config") then
    let! sid := needed "session_id" (kw_session_id kw) in push (ModelConfigScreen sid)
  else if bool_decide (name = "command_palette") then
    push (CommandPaletteScreen (default "" (kw_partial kw)) (default [] (kw_command_history kw)))
  else if bool_decide (name = "help") then push HelpScreen
  else mraise (ValueError ("Unknown screen: " +:+ repr name)).

Definition push_project (project_id : string) : M W unit :=
  push_screen "project" (Kwargs (Some project_id) None None None None).
Definition push_session (project_id session_id : string) : M W unit :=
  push_screen "session" (Kwargs (Some project_id) (Some session_id) None None None).

Definition truthy_opt (x : option string) : bool := truthy (default "" x).

Definition first_screen (initial_project initial_session chat_role : option string) : app_screen :=
  if truthy_opt chat_role then ChatScreen (default "" chat_role)
  else if truthy_opt initial_project && truthy_opt initial_session then
    SessionScreen (default "" initial_project) (default "" initial_session)
  else if truthy_opt initial_project then ProjectScreen (default "" initial_project)
  else LauncherScreen.

Definition on_client_state (f : client X → client X) : M W unit :=
  on_tui (mmodify (λ t : tui X J, Tui (f (tu_client t)) (tu_store t) (tu_state t))).

Definition on_mount (initial_project initial_session chat_role : option string) : M W unit :=
  do! on_client_state connect in
  do! set_supervised true in
  push (first_screen initial_project initial_session chat_role).

Definition on_unmount : M W unit :=
  do! set_supervised false in on_client_state close.

(** [_on_connection_change]: what the supervisor calls. *)
Definition _on_connection_change (status : string) : M W unit := on_tui (on_state (set_connection status)).

(** [main]: the store is read, the URL and the project resolved, and the
    application started over a store of its own, read from the same files. *)
Definition new_app (url : string) (x : X) (store : pstore J) : W :=
  App (Tui (new_client (rstrip_char "/" url) x) store initial_state) [] false false.

(** ** LauncherScreen *)

Record launcher := Launcher { la_projects : list (project J); la_selected_idx : nat }.

Definition _load_projects (la : launcher) (w : W) : launcher :=
  Launcher (list_projects (tu_store (ap_tui w))) (la_selected_idx la).

Definition _open_project (project_id : string) : M W unit :=
  do! on_tui (on_store (save_ui_state dumps_ui (Some project_id) None None None)) in
  push_project project_id.

Definition _open_chat (role : option string) : M W unit :=
  push_screen "chat" (Kwargs None None (Some (default "coder" role)) None None).

Definition with_idx (n : nat) (la : launcher) : launcher := Launcher (la_projects la) n.

(** [focused_button]: a button has the focus; [role]: the value of the
    selector, if it is found. *)
Definition launcher_key (k : string) (focused_button : bool) (role : option string) (la : launcher)
    : M W launcher :=
  let idx := la_selected_idx la in
  if bool_decide (k = "up") || bool_decide (k = "k") then
    mret (if 0 <? idx then with_idx (idx - 1) la else la)
  else if bool_decide (k = "down") || bool_decide (k = "j") then
    mret (if S idx <? length (la_projects la) then with_idx (S idx) la else la)
  else if bool_decide (k = "enter") then
    if focused_button then mret la
    else match la_projects la with
         | [] => mret la
         | _ =>
             match la_projects la !! idx with
             | Some p => do! _open_project (pj_id p) in mret la
             | None => mraise (IndexError "list index out of range")
             end
         end
  else if bool_decide (k = "n") then do! push_screen "new_project" no_kwargs in mret la
  else if bool_decide (k = "c") then do! _open_chat role in mret la
  else if bool_decide (k = "q") || bool_decide (k = "ctrl+q") then do! exit in mret la
  else mret la.

(** The button of the chat, by its id, and a click on a card. *)
Definition launcher_button (id : string) (role : option string) : M W unit :=
  if bool_decide (id = "open-chat-btn") then _open_chat role else mret tt.
Definition project_card_selected (project_id : string) : M W unit := _open_project project_id.

(** [_async_init]: the label of the default model, and the sessions listed as
    orphans with their task and the start of their id. *)
Definition default_model : M W (option string) :=
  mtry (let! models := on_tui (on_client (get_models_for_role "coder")) in mret (head models)) (λ _, mret None).

Definition orphan_row (s : session_dict) : string * string :=
  (truncate (default "" (sd_task s)) 40 ellipsis, stake 12 (default "" (sd_session_id s)) +:+ ellipsis).

Definition orphan_rows : M W (list (string * string)) :=
  mtry (let! active := on_tui (on_client (list_sessions (Some "active"))) in
        let! store := mgets (λ w : W, tu_store (ap_tui w)) in
        let! orphans := on_tui (unknown_sessions (all_known store) active) in
        mret (orphan_row <$> take 5 orphans))
       (λ _, mret []).

(** ** The forms *)

(** What a status line says: work in progress, success or an error. *)
Inductive notice := Busy (text : string) | Success (text : string) | Failed (text : string).

(** *** NewProjectScreen *)

Record new_project_form := NewProjectForm {
  nf_models : list (string * string); nf_creating : bool; nf_status : option notice; nf_title : string
}.
Definition new_form : new_project_form :=
  NewProjectForm [] false None "▸ Model configuration  (using profile defaults)".

(** A handler of a form works on the form and the application. *)
Definition on_app {F A} (m : M W A) : M (F * W) A := λ w,
  let (a, r) := m w.2 in ((w.1, a), r).
Definition on_form {F} (f : F → F) : M (F * W) unit := mmodify (λ w : F * W, (f w.1, w.2)).

Definition set_creating (b : bool) (f : new_project_form) : new_project_form :=
  NewProjectForm (nf_models f) b (nf_status f) (nf_title f).
Definition set_notice (n : notice) (f : new_project_form) : new_project_form :=
  NewProjectForm (nf_models f) (nf_creating f) (Some n) (nf_title f).

Definition models_configured (models : list (string * string)) (f : new_project_form) : new_project_form :=
  NewProjectForm models (nf_creating f) (nf_status f)
    ("▾ Model configuration  (" +:+ pretty (length models) +:+ " roles configured)").

(** [_check_git] on what [detect_repo] says of the path. *)
Definition _check_git (info : git_info) (path : string) : option string :=
  if negb (truthy path) then None
  else if gi_is_repo info then Some ("git repo detected  branch: " +:+ gi_branch info)
  else Some "not a git repo".

Definition create_and_open (hex name workspace task : string) : M (new_project_form * W) unit :=
  let! f := mgets fst in
  let! r := on_app (on_tui (create_project dumps_projects now hex name workspace task (nf_models f))) in
  do! on_form (set_notice (Success "Project created")) in
  do! on_app (on_tui (on_store (save_ui_state dumps_ui (Some (pj_id r.1)) (Some r.2) None None))) in
  on_app (push_session (pj_id r.1) r.2).

(** The three fields as typed; [hex] is the fresh part of the identifier. *)
Definition _create (hex name workspace task : string) : M (new_project_form * W) unit :=
  do! on_form (set_creating true) in
  let refuse msg := do! on_form (set_notice (Failed msg)) in on_form (set_creating false) in
  if negb (truthy (strip name)) then refuse "Project name is required"
  else if negb (truthy (strip workspace)) then refuse "Workspace path is required"
  else if negb (truthy (strip task)) then refuse "First task is required"
  else
    do! on_form (set_notice (Busy "Creating project…")) in
    mfinally (mtry (create_and_open hex (strip name) (strip workspace) (strip task))
                   (λ e, on_form (set_notice (Failed (exn_str e)))))
             (λ w, (set_creating false w.1, w.2)).

Definition create_pressed (hex name workspace task : string) : M (new_project_form * W) unit := λ w,
  if nf_creating w.1 then (w, Ok tt) else _create hex name workspace task w.

(** *** NewSessionScreen *)

Record new_session_form := NewSessionForm { sf_working : bool; sf_status : option notice }.

Definition start_and_open (project_id task : string) : M (new_session_form * W) unit :=
  let! sid := on_app (on_tui (new_session dumps_projects now project_id task [])) in
  do! on_app (on_tui (on_store (save_ui_state dumps_ui None (Some sid) None None))) in
  do! on_app pop_screen in
  on_app (push_session project_id sid).

Definition _start (project_id task : string) : M (new_session_form * W) unit :=
  do! on_form (λ f, NewSessionForm true (sf_status f)) in
  mfinally
    (if negb (truthy (strip task)) then on_form (λ f, NewSessionForm (sf_working f) (Some (Failed "Task is required")))
     else
       do! on_form (λ f, NewSessionForm (sf_working f) (Some (Busy "Creating session…"))) in
       mtry (start_and_open project_id (strip task))
            (λ e, on_form (λ f, NewSessionForm (sf_working f) (Some (Failed (exn_str e))))))
    (λ w, (NewSessionForm false (sf_status w.1), w.2)).

Definition new_session_key (key project_id task : string) : M (new_session_form * W) unit := λ w,
  if bool_decide (key = "escape") then on_app pop_screen w
  else if bool_decide (key = "enter") then
    if sf_working w.1 then (w, Ok tt) else _start project_id task w
  else (w, Ok tt).

(** *** ProjectScreen *)

(** What the screen shows: a missing project, or its name, path and branch,
    its sessions, and how many there are and are active. *)
Record project_info := ProjectInfo {
  pv_name : string; pv_path : string; pv_branch : string;
  pv_sessions : list (session_dict * bool); pv_total : nat; pv_active : nat
}.

(** The home directory and the three arrows and the dot of the texts. *)
Context (home up down dot : string).
Context (detect : string → git_info).

Definition is_active (s : session_dict * bool) : bool := bool_decide (sd_status s.1 = Some "active").

Definition load_screen (project_id : string) : M W (option project_info) :=
  let repo_info path := (gi_branch (detect path), gi_has_changes (detect path)) in
  let! p := on_tui (load_project dumps_projects now repo_info project_id) in
  match p with
  | None => mret None
  | Some p =>
      let! sessions := on_tui (get_project_sessions project_id) in
      mret (Some (ProjectInfo (pj_name p) (pj_workspace p) (short_status up down dot (detect (pj_workspace p)))
                    sessions (length sessions) (count_if is_active sessions)))
  end.

(** The cards of [_render_sessions]. *)
Definition session_cards (v : project_info) : list (session_dict * bool) := take 10 (pv_sessions v).

Definition session_card_selected (project_id session_id : string) : M W unit :=
  if truthy session_id then push_session project_id session_id else mret tt.

Definition _index : M W notice :=
  mtry (let! r := on_tui (on_client index_codebase) in
        mret (Success ("Indexed " +:+ pretty (default 0%Z (ir_files_indexed r)) +:+ " files  (" +:+
                       pretty (default 0%Z (ir_files_unchanged r)) +:+ " unchanged)  " +:+
                       pretty (default 0%Z (ir_chunks r)) +:+ " chunks")))
       (λ e, mret (Failed ("Index failed: " +:+ exn_str e))).

Definition project_key (key project_id : string) : M W (option notice) :=
  if bool_decide (key = "escape") then do! pop_screen in mret None
  else if bool_decide (key = "n") then
    do! push_screen "new_session" (Kwargs (Some project_id) None None None None) in mret None
  else if bool_decide (key = "i") then let! n := _index in mret (Some n)
  else mret None.

(** The log and help screens only close. *)
Definition closing_key (key : string) : M W unit :=
  if bool_decide (key = "escape") then pop_screen else mret tt.
End app.

(** ** Facts *)
Section facts.
Context {X J : Type} `{!Orchestrator X}.
Context (dumps_projects : raw_projects J → string) (dumps_ui : raw_ui → string).
Context (now : Z).
Local Abbreviation W := (app X J).

Definition on_stack (f : list app_screen → list app_screen) (w : W) : W :=
  App (ap_tui w) (f (ap_stack w)) (ap_supervised w) (ap_exited w).

Lemma push_project_spec pid (w : W) : push_project pid w = (on_stack (cons (ProjectScreen pid)) w, Ok tt).
Proof. done. Qed.
Lemma push_session_spec pid sid (w : W) : push_session pid sid w = (on_stack (cons (SessionScreen pid sid)) w, Ok tt).
Proof. done. Qed.

(** The router pushes one screen, or raises and changes nothing. *)
Lemma push_screen_spec name kw (w : W) :
  (∃ s, push_screen name kw w = (on_stack (cons s) w, Ok tt)) ∨ ∃ e, push_screen name kw w = (w, Raise e).
Proof.
  unfold push_screen, needed, mbind, mret, mraise. destruct kw as [pid sid role partial history]. cbn.
  repeat (destruct (bool_decide _)); try (left; by eexists); try (right; by eexists);
    destruct pid as [pid|]; try destruct sid as [sid|]; try (left; by eexists); right; by eexists.
Qed.

(** *** The launcher *)

(** The selection is on a project, or there is none. *)
Definition launcher_ok (la : launcher (J:=J)) : Prop :=
  la_selected_idx la < length (la_projects la) ∨ la_selected_idx la = 0 ∧ la_projects la = [].

Definition saved (pid : string) (w : W) : W :=
  App (Tui (tu_client (ap_tui w)) (save_ui_state dumps_ui (Some pid) None None None (tu_store (ap_tui w)))
         (tu_state (ap_tui w))) (ProjectScreen pid :: ap_stack w) (ap_supervised w) (ap_exited w).

Lemma launcher_key_spec k focused role la (w : W) :
  launcher_ok la →
  ∃ w' la', launcher_key dumps_ui k focused role la w = (w', Ok la') ∧ launcher_ok la' ∧
    la_projects la' = la_projects la ∧
    (k = "enter" → focused = false →
     la' = la ∧ w' = match la_projects la !! la_selected_idx la with Some p => saved (pj_id p) w | None => w end).
Proof.
  intros Hok. unfold launcher_key, mbind, mret.
  assert (Hdone : ∀ w' : W, k ≠ "enter" → ∃ w0 la', (w', Ok la) = (w0, Ok la') ∧ launcher_ok la' ∧
    la_projects la' = la_projects la ∧ (k = "enter" → focused = false →
     la' = la ∧ w0 = match la_projects la !! la_selected_idx la with Some p => saved (pj_id p) w | None => w end))
    by (intros w' Hk; by exists w', la).
  destruct (bool_decide (k = "up") || bool_decide (k = "k")) eqn:E1.
  { eexists _, _. split; [done|].
    assert (k ≠ "enter") by (intros ->; done). split_and!; [|by destruct (0 <? _)|done].
    destruct (Nat.ltb_spec 0 (la_selected_idx la)); [|done].
    destruct Hok as [Hok|[Hok _]]; [left; cbn; lia|lia]. }
  destruct (bool_decide (k = "down") || bool_decide (k = "j")) eqn:E2.
  { eexists _, _. split; [done|].
    assert (k ≠ "enter") by (intros ->; done). split_and!; [|by destruct (S _ <? _)|done].
    destruct (Nat.ltb_spec (S (la_selected_idx la)) (length (la_projects la))); [left; cbn; lia|done]. }
  destruct (bool_decide (k = "enter")) eqn:E3.
  { destruct focused; [by exists w, la|]. destruct (la_projects la) as [|p l] eqn:El.
    - exists w, la. split; [done|]. by rewrite El.
    - destruct Hok as [Hok|[_ Hok]]; [|congruence]. rewrite El in Hok.
      apply lookup_lt_is_Some in Hok as [q Hq]. rewrite Hq. exists (saved (pj_id q) w), la.
      split; [done|]. split; [left; rewrite El; by eapply lookup_lt_Some|]. by rewrite El. }
  apply bool_decide_eq_false in E3.
  repeat match goal with |- context [if ?b then _ else _] => destruct b end; by apply Hdone.
Qed.

(** Keys typed one after the other, each with what has the focus and what the
    selector shows. *)
Fixpoint launcher_keys (ks : list (string * bool * option string)) (la : launcher) : M W launcher :=
  match ks with
  | [] => mret la
  | (k, focused, role) :: ks' => mbind (launcher_key dumps_ui k focused role la) (launcher_keys ks')
  end.

(** Whatever keys are typed on the launcher, none raises, the selection stays
    on a project, and Enter then opens the project it is on and remembers it. *)
Theorem launcher_opens_selected ks role (w : W) :
  let la := _load_projects (Launcher [] 0) w in
  ∃ w1 la1, launcher_keys ks la w = (w1, Ok la1) ∧ launcher_ok la1 ∧ la_projects la1 = la_projects la ∧
    launcher_key dumps_ui "enter" false role la1 w1 =
      (match la_projects la !! la_selected_idx la1 with Some p => saved (pj_id p) w1 | None => w1 end, Ok la1).
Proof.
  intros la. assert (launcher_ok la) as Hok.
  { unfold launcher_ok, la, _load_projects. cbn. destruct (list_projects _); [by right|]. left. cbn. lia. }
  clearbody la. revert la w Hok. induction ks as [|[[k focused] r] ks IH]; intros la w Hok.
  - exists w, la. split; [done|]. split; [done|]. split; [done|].
    destruct (launcher_key_spec "enter" false role la w Hok) as (w' & la' & -> & _ & _ & He).
    by destruct (He eq_refl eq_refl) as [-> ->].
  - cbn [launcher_keys]. unfold mbind at 1.
    destruct (launcher_key_spec k focused r la w Hok) as (w' & la' & -> & Hok' & Hp & _).
    destruct (IH la' w' Hok') as (w1 & la1 & H1 & H2 & H3 & H4). exists w1, la1.
    rewrite Hp in H3, H4. by split_and!.
Qed.

(** *** Creating a project *)

Definition filled (x : string) : Prop := truthy (strip x) = true.

(** The application after the form of [name] and [workspace] was sent and the
    orchestrator answered with the session [sid]. *)
Definition opened_project (f : new_project_form) (hex name workspace sid : string) (w w' : W) : Prop :=
  let pid := "proj-" +:+ hex in
  ap_stack w' = SessionScreen pid sid :: ap_stack w ∧
  ap_supervised w' = ap_supervised w ∧ ap_exited w' = ap_exited w ∧
  tu_store (ap_tui w') =
    save_ui_state dumps_ui (Some pid) (Some sid) None None
      (add_session_to_project dumps_projects now pid sid
         (made_store dumps_projects now (J:=J) hex (strip name) (strip workspace) (nf_models f) (ap_tui w))) ∧
  st_projects (tu_store (ap_tui w')) =
    append_session now sid (made_project now hex (strip name) (strip workspace) (nf_models f) (ap_tui w)) ::
    st_projects (tu_store (ap_tui w)).

Lemma create_spec hex name workspace task f (w : W) :
  nf_creating f = false → filled name → filled workspace → filled task →
  ∃ f' w', create_pressed dumps_projects dumps_ui now hex name workspace task (f, w) = ((f', w'), Ok tt) ∧
    nf_creating f' = false ∧ nf_models f' = nf_models f ∧
    ((nf_status f' = Some (Success "Project created") ∧ ∃ sid, opened_project f hex name workspace sid w w') ∨
     (∃ msg, nf_status f' = Some (Failed msg)) ∧ ap_stack w' = ap_stack w ∧
       tu_store (ap_tui w') = made_store dumps_projects now hex (strip name) (strip workspace) (nf_models f) (ap_tui w)).
Proof.
  intros Hc Hn Hw Ht. unfold create_pressed. cbn [fst]. rewrite Hc. unfold _create. rewrite Hn, Hw, Ht. cbn [negb].
  unfold mbind at 1, on_form at 1, mmodify at 1. unfold mbind at 1, on_form at 1, mmodify at 1. cbn [fst snd].
  unfold mfinally, mtry, create_and_open. unfold mbind at 1, mgets. cbn [fst snd nf_models set_notice set_creating].
  unfold mbind at 1, on_app at 1, on_tui at 1. cbn [fst snd].
  pose proof (create_project_store dumps_projects now hex (strip name) (strip workspace) (strip task) (nf_models f) (ap_tui w)) as H.
  cbv zeta in H.
  destruct (create_project _ _ _ _ _ _ _ (ap_tui w)) as [t' [[p sid]|e]]; cbn [fst snd] in *.
  - destruct H as (-> & Hs & Hst & Hps). eexists _, _. split; [reflexivity|]. split; [done|]. split; [done|]. left.
    split; [done|]. exists sid. split_and!; [done|done|done| |exact Hps]. cbn. by rewrite Hst.
  - destruct H as [Hs Hst]. eexists _, _. split; [reflexivity|]. split; [done|]. split; [done|]. right.
    split; [by eexists|]. by split.
Qed.

(** *** Starting a session *)

Lemma update_first_find id f (ps : list (project J)) p :
  (∀ q, pj_id (f q) = pj_id q) → find (has_id id) ps = Some p → find (has_id id) (update_first id f ps) = Some (f p).
Proof.
  intros Hf. induction ps as [|q ps IH]; cbn; [done|]. destruct (has_id id q) eqn:E.
  - intros [= ->]. cbn. unfold has_id in *. by rewrite Hf, E.
  - cbn. by rewrite E.
Qed.

Lemma session_added pid sid (s : pstore J) p :
  get_project pid s = Some p →
  ∃ p', get_project pid (add_session_to_project dumps_projects now pid sid s) = Some p' ∧
    sid ∈ pj_session_ids p' ∧ pj_session_ids p `prefix_of` pj_session_ids p'.
Proof.
  intros Hp. unfold add_session_to_project. rewrite Hp. destruct (decide (sid ∈ pj_session_ids p)) as [Hin|Hin].
  - rewrite bool_decide_eq_true_2 by done. by exists p.
  - rewrite bool_decide_eq_false_2 by done. exists (append_session now sid p). split.
    + apply update_first_find; [by intros []|done].
    + destruct p. cbn. split; [apply elem_of_app; right; by left|]. by apply prefix_app_r.
Qed.

(** The form of a session ends with the session in its project and in place of
    the screen then on top (the form, unless it was left meanwhile), or with an
    error on the form; it can be sent again. *)
Theorem start_outcome pid task top l f (w : W) :
  filled task → ap_stack w = top :: l →
  ∃ f' w', _start dumps_projects dumps_ui now pid task (f, w) = ((f', w'), Ok tt) ∧ sf_working f' = false ∧
    ((∃ sid p, ap_stack w' = SessionScreen pid sid :: l ∧
        get_project pid (tu_store (ap_tui w')) = Some p ∧ sid ∈ pj_session_ids p ∧
        up_last_session_id (st_ui (tu_store (ap_tui w'))) = sid) ∨
     (∃ msg, sf_status f' = Some (Failed msg)) ∧ ap_stack w' = ap_stack w ∧
       tu_store (ap_tui w') = tu_store (ap_tui w)).
Proof.
  intros Ht Hst. unfold _start. rewrite Ht. cbn [negb].
  unfold mbind at 1, on_form at 1, mmodify at 1. unfold mfinally. unfold mbind at 1, on_form at 1, mmodify at 1.
  cbn [fst snd sf_working sf_status]. unfold mtry, start_and_open. unfold mbind at 1, on_app at 1, on_tui at 1. cbn [fst snd].
  unfold new_session. unfold mbind at 1, mgets at 1.
  destruct (get_project pid (tu_store (ap_tui w))) as [p|] eqn:Ep.
  2: { cbn. eexists _, _. split; [reflexivity|]. split; [done|]. right. split; [by eexists|]. by destruct w as [[]]. }
  unfold mbind at 1, on_client at 1.
  destruct (create_session (strip task) "" (pj_default_models p) (tu_client (ap_tui w))) as [c [sess|e]].
  2: { cbn. eexists _, _. split; [reflexivity|]. split; [done|]. right. split; [by eexists|]. done. }
  unfold session_key. destruct (sd_session_id sess) as [sid|].
  2: { cbn. eexists _, _. split; [reflexivity|]. split; [done|]. right. split; [by eexists|]. done. }
  unfold mbind at 1, mret at 1. unfold mbind at 1.
  match goal with |- context [configure_or_warn sid ?m ?w0] =>
    destruct (configure_or_warn_spec sid m w0) as (w1 & -> & Hs1 & Hs2) end.
  destruct w1 as [c1 st1 ss1]. cbn [tu_store tu_state] in Hs1, Hs2. subst st1 ss1.
  unfold mbind at 1, on_store at 1, mmodify at 1, mret at 1. cbn [tu_client tu_store tu_state].
  unfold mbind at 1, on_app at 1, on_tui at 1, on_store at 1, mmodify at 1. cbn [fst snd ap_tui tu_client tu_store tu_state].
  unfold mbind at 1, on_app at 1, pop_screen. cbn [fst snd ap_stack]. rewrite Hst.
  eexists _, _. split; [reflexivity|]. split; [done|]. left.
  destruct (session_added pid sid _ p Ep) as (p' & Hp' & Hin & _). by exists sid, p'.
Qed.

(** The first project in a list with a session, when only one has it. *)
Lemma find_project (sid : string) (p : project J) ps :
  p ∈ ps → sid ∈ pj_session_ids p → (∀ q, q ∈ ps → sid ∈ pj_session_ids q → q = p) →
  find (λ q, bool_decide (sid ∈ pj_session_ids q)) ps = Some p.
Proof.
  intros Hp Hs Hu. destruct (find _ ps) as [q|] eqn:E.
  - apply find_some in E as [Hq Hb%bool_decide_eq_true]. f_equal. apply Hu; [by apply list_elem_of_In|done].
  - pose proof (find_none _ _ E p ltac:(by apply list_elem_of_In)) as Hn. cbn beta in Hn.
    by rewrite bool_decide_eq_true_2 in Hn.
Qed.

Context (loads_projects : string → option (raw_projects J)) (loads_ui : string → option raw_ui).
Context (Hprojects : ∀ d, loads_projects (dumps_projects d) = Some d) (Hui : ∀ d, loads_ui (dumps_ui d) = Some d).

Lemma opened_project_sync f hex name workspace sid (w w' : W) :
  in_sync loads_projects loads_ui (tu_store (ap_tui w)) → opened_project f hex name workspace sid w w' →
  in_sync loads_projects loads_ui (tu_store (ap_tui w')).
Proof.
  intros Hs (_ & _ & _ & -> & _).
  apply (store_step_sync dumps_projects loads_projects dumps_ui loads_ui Hprojects Hui (SaveUiState _ _ _ _)).
  apply (store_step_sync dumps_projects loads_projects dumps_ui loads_ui Hprojects Hui (AddSession _ _ _)).
  by apply (store_step_sync dumps_projects loads_projects dumps_ui loads_ui Hprojects Hui (CreateProject _ _ _ _ _ _)).
Qed.

(** C16: the form of a new project, sent with its three fields, ends ready to be
    sent again: with an error and the screen as it was (and one more project in
    the list), or with the session of the new project on the screen; the
    interface started anew with [--session] opens that session again. *)
Theorem created_project_reopens hex name workspace task f (w : W) :
  in_sync loads_projects loads_ui (tu_store (ap_tui w)) →
  nf_creating f = false → filled name → filled workspace → filled task →
  ∃ f' w', create_pressed dumps_projects dumps_ui now hex name workspace task (f, w) = ((f', w'), Ok tt) ∧
    nf_creating f' = false ∧
    ((∃ msg, nf_status f' = Some (Failed msg) ∧ ap_stack w' = ap_stack w ∧
        length (st_projects (tu_store (ap_tui w'))) = S (length (st_projects (tu_store (ap_tui w))))) ∨
     (∃ sid, ap_stack w' = SessionScreen ("proj-" +:+ hex) sid :: ap_stack w ∧
        (truthy sid = true → (∀ q, q ∈ st_projects (tu_store (ap_tui w)) → sid ∉ pj_session_ids q) →
         ∀ now',
           let store := new_store loads_projects loads_ui now' (st_files (tu_store (ap_tui w'))) in
           up_last_session_id (st_ui store) = sid ∧
           first_screen (startup_project None (Some sid) store) (Some sid) None = SessionScreen ("proj-" +:+ hex) sid))).
Proof.
  intros Hsync Hc Hn Hw Ht. destruct (create_spec hex name workspace task f w Hc Hn Hw Ht) as (f' & w' & Hr & Hc' & _ & Ho).
  exists f', w'. split; [done|]. split; [done|]. destruct Ho as [[_ [sid Ho]]|[[msg Hm] [Hst Hs]]].
  - right. exists sid. split; [apply Ho|]. intros Hsid Hnew now'.
    pose proof (opened_project_sync _ _ _ _ _ _ _ Hsync Ho) as Hs'.
    rewrite (proj1 (in_sync_reload loads_projects loads_ui _) Hs' now'). cbn zeta.
    destruct Ho as (_ & _ & _ & Hstore & Hps). split; [by rewrite Hstore|].
    unfold startup_project. rewrite Hsid.
    rewrite (find_project sid (append_session now sid (made_project now hex (strip name) (strip workspace) (nf_models f) (ap_tui w)))).
    + unfold first_screen, truthy_opt. cbn. by rewrite Hsid.
    + unfold list_projects. rewrite sort_by_perm, Hps. by left.
    + cbn. by left.
    + intros q Hq Hin. unfold list_projects in Hq. rewrite sort_by_perm, Hps in Hq.
      apply elem_of_cons in Hq as [->|Hq]; [done|]. by apply Hnew in Hq.
  - left. exists msg. split; [done|]. split; [done|]. by rewrite Hs.
Qed.
End facts.

(** ** Concrete runs *)
Module Concrete.
Import TuiStore.Concrete.

(** An orchestrator with the identifiers of its next sessions. *)
#[local] Instance sessions : Orchestrator (list string) := {|
  send A r x :=
    match r in request A return list string * http_result A with
    | PostSession task _ _ =>
        match x with
        | sid :: x' => (x', HttpOk (SessionDict (Some sid) (Some "active") (Some task) None))
        | [] => ([], HttpStatus 503 None)
        end
    | _ => (x, HttpStatus 503 None)
    end;
  silence _ _ _ := 0%Z;
  timeout_text := ""
|}.

Definition started (x : list string) : app (list string) string :=
  (on_mount None None None (new_app "http://h:9000/" x (opened 0 fresh))).1.

Definition submit (hex : string) (fw : new_project_form * app (list string) string) :=
  create_pressed dumps dumps 7 hex " p " "/w" "build" fw.

Lemma reopens_witness :
  ∃ f' w', submit "1a" (new_form, started ["s1"]) = ((f', w'), Ok tt) ∧ nf_creating f' = false ∧
    ((∃ msg, nf_status f' = Some (Failed msg) ∧ ap_stack w' = [LauncherScreen] ∧
        length (st_projects (tu_store (ap_tui w'))) = 1) ∨
     (∃ sid, ap_stack w' = [SessionScreen "proj-1a" sid; LauncherScreen] ∧
        (truthy sid = true → (∀ q : project string, q ∈ [] → sid ∉ pj_session_ids q) →
         ∀ now',
           let store := opened now' (st_files (tu_store (ap_tui w'))) in
           up_last_session_id (st_ui store) = sid ∧
           first_screen (startup_project None (Some sid) store) (Some sid) None = SessionScreen "proj-1a" sid))).
Proof.
  apply (created_project_reopens dumps dumps 7 loads loads loads_dumps loads_dumps "1a" " p " "/w" "build" new_form (started ["s1"])).
  - by apply in_sync_reload.
  - reflexivity.
  - reflexivity.
  - reflexivity.
  - reflexivity.
Defined.

(** A form sent while the orchestrator is down, and again when it answers,
    leaves two projects. *)
Example sent_twice :
  let failed := (submit "1a" (new_form, started [])).1 in
  nf_status failed.1 = Some (Failed "HTTP 503: /v1/sessions") ∧
  let again := (submit "2b" (failed.1, App (Tui (Client "http://h:9000" true ["s1"]) (tu_store (ap_tui failed.2)) initial_state)
                                         (ap_stack failed.2) true false)).1 in
  pj_id <$> st_projects (tu_store (ap_tui again.2)) = ["proj-2b"; "proj-1a"] ∧
  pj_session_ids <$> st_projects (tu_store (ap_tui again.2)) = [["s1"]; []].
Proof. vm_compute. split_and!; reflexivity. Qed.

(** Escape on the screen the interface was started on leaves none. *)
Example escape_to_nothing :
  let w := (on_mount (Some "proj-1a") None None (new_app "http://h" [] (opened 0 fresh))).1 in
  ap_stack w = [ProjectScreen "proj-1a"] ∧ ap_stack (project_key "escape" "proj-1a" w).1 = [].
Proof. split; reflexivity. Qed.
End Concrete.
