(* ===== verification/TuiPalette.v ===== *)
(** * The command palette on the screen
    (tui/tui/screens/command_palette.py, tui/tui/widgets/input_bar.py)

    What the palette renders, the hint of the input bar, and what choosing a
    command does to the session screen below: the palette leaves the stack of
    screens and its callback runs the command there. *)

From S2P Require Import Prelude PyStr TuiState TuiStore TuiClient TuiServices TuiWidgets TuiApp TuiScreens.
Import Theme.
Local Open Scope string_scope.
Local Open Scope list_scope.
Local Open Scope nat_scope.
Local Open Scope py_scope.

(** ** Rendering *)
Record command_entry := CommandEntry { ce_name : string; ce_args : string; ce_desc : string }.

Definition REGISTRY : list command_entry :=
  [CommandEntry "architect" "<task>" "Generate implementation plan";
   CommandEntry "execute" "" "Execute the task queue (DAG)";
   CommandEntry "review" "<text>" "Review code or a plan";
   CommandEntry "test" "<task>" "Write tests for a task";
   CommandEntry "debate" "<topic>" "Architect vs Reviewer debate (opt-in)";
   CommandEntry "memory" "<query>" "Search past session memories";
   CommandEntry "spawn" "<role>" "Spawn a specific agent role";
   CommandEntry "kill" "<agent_id>" "Send interrupt to running agent";
   CommandEntry "model" "" "Open model configuration overlay";
   CommandEntry "index" "" "Re-index the codebase (AST-aware)";
   CommandEntry "status" "" "Show system status inline";
   CommandEntry "learn" "" "Extract reusable skill from session";
   CommandEntry "end" "" "End this session with a summary";
   CommandEntry "help" "" "Open keybinding reference"].

(** The entry of a name: [_filtered] holds the entries themselves. *)
Definition entry_of (name : string) : command_entry :=
  default (CommandEntry name "" "") (find (λ e, bool_decide (ce_name e = name)) REGISTRY).

Definition command_row (selected : bool) (e : command_entry) : string :=
  let name_col := if selected then BLUE else TEXT in
  let prefix := if selected then tag ("bold " +:+ MAUVE) ">" +:+ " " else "  " in
  let args_s := if truthy (ce_args e) then " " +:+ ce_args e else "" in
  prefix +:+ tag ("bold " +:+ name_col) ("/" +:+ ce_name e) +:+ tag OVERLAY1 (ljust 16 args_s) +:+ "  " +:+
  tag OVERLAY0 (ce_desc e).

Definition command_rows (p : palette) : list string :=
  imap (λ i name, command_row (bool_decide (i = pa_selected p)) (entry_of name)) (pa_filtered p).

Definition _render_list (p : palette) : string :=
  match pa_filtered p with
  | [] => tag OVERLAY0 "No matching commands"
  | _ => join nl (command_rows p)
  end.

(** The hint before the input. *)
Definition DEFAULT_HINT : string := tag OVERLAY0 ">" +:+ "  " +:+ tag OVERLAY0 "@agent  /commands".
Definition input_hint (value : string) : string :=
  if startswith "@" value then tag BLUE "@" +:+ tag TEXT "agent" +:+ "  " +:+ tag OVERLAY0 "route to specific agent"
  else if startswith "/" value then
    tag MAUVE "/" +:+ tag TEXT "command" +:+ "  " +:+ tag OVERLAY0 "architect · execute · status · index…"
  else DEFAULT_HINT.

(** ** Running a command *)
Section palette_screen.
Context {X J : Type} `{!Orchestrator X} `{!Markup conv_entry}.
(** The stack of screens, and the session screen the palette was opened on. *)
Local Abbreviation W := (list app_screen * screen X J)%type.

Definition pop : M W unit := λ w,
  match w.1 with
  | [] => (w, Raise (OtherError "Can't pop screen; there must be at least one screen on the stack"))
  | _ :: l => ((l, w.2), Ok tt)
  end.
Definition below {A} (m : M (screen X J) A) : M W A := λ w, let (s, r) := m w.2 in ((w.1, s), r).

Definition _execute_and_close (cmd_string : string) : M W unit :=
  do! pop in
  mtry (do! below (_run_cmd_and_show cmd_string) in mret tt) (λ _, mret tt).
End palette_screen.

(** ** Facts *)

Lemma registry_names : map ce_name REGISTRY = COMMANDS.
Proof. reflexivity. Qed.

Definition marker : string := tag ("bold " +:+ MAUVE) ">".

Lemma command_row_marked b e : startswith marker (command_row b e) = b.
Proof. by destruct b. Qed.

Lemma command_rows_lookup p i l : command_rows p !! i = Some l ↔
  ∃ name, pa_filtered p !! i = Some name ∧ l = command_row (bool_decide (i = pa_selected p)) (entry_of name).
Proof. unfold command_rows. rewrite list_lookup_imap, fmap_Some. naive_solver. Qed.

Lemma entry_of_name name : name ∈ COMMANDS → entry_of name ∈ REGISTRY ∧ ce_name (entry_of name) = name.
Proof.
  intros H. rewrite <-registry_names in H. apply list_elem_of_fmap in H as (e & -> & He).
  unfold REGISTRY in He. rewrite !elem_of_cons in He.
  repeat (destruct He as [->|He]; [split; [apply list_elem_of_In; vm_compute; tauto|done]|]). by apply elem_of_nil in He.
Qed.

(** The marked row is the command that Enter runs, and no other row is marked,
    whatever was typed before. *)
Theorem enter_runs_marked_row partial given history ks cmd h :
  let p := palette_run ks (open_palette partial given history) in
  _run_selected p = Some (cmd, h) →
  ∃ i e, e ∈ REGISTRY ∧ ce_name e = cmd ∧ command_rows p !! i = Some (command_row true e) ∧
    ∀ j l, command_rows p !! j = Some l → (startswith marker l = true ↔ j = i).
Proof.
  intros p Hr. destruct (run_selected_spec _ cmd h (palette_run_ok ks _ (open_palette_ok partial given history)) Hr) as (Hin & Hsel & _).
  destruct (entry_of_name cmd Hin) as [He Hn]. exists (pa_selected p), (entry_of cmd). split_and!; [done|done| |].
  - apply command_rows_lookup. exists cmd. split; [done|]. by rewrite bool_decide_eq_true_2.
  - intros j l (name & Hj & ->)%command_rows_lookup. rewrite command_row_marked. apply bool_decide_eq_true.
Qed.

Section palette_facts.
Context {X J : Type} `{!Orchestrator X} `{!Markup conv_entry}.

(** What a command answers when it is given no arguments it needs. *)
Definition usage (cmd : string) : option string :=
  dict_get cmd
    [("architect", "Usage: /architect <task description>"); ("memory", "Usage: /memory <query>");
     ("review", "Usage: /review <text or task>"); ("test", "Usage: /test <task>");
     ("debate", "Usage: /debate <topic>"); ("kill", "Usage: /kill <agent_id>")].

Definition shown (text : string) (w : screen X J) : screen X J :=
  Screen (sc_tui w) (sc_log w) (sc_history w) (sc_streamed w) (sc_outputs w ++ [text]) (sc_pushed w).

Lemma run_cmd_keeps_pushed cmd (w : screen X J) : sc_pushed (_run_cmd_and_show cmd w).1 = sc_pushed w.
Proof.
  unfold _run_cmd_and_show, mbind, TuiScreens.on_tui.
  destruct (handle_inline_command cmd (sc_tui w)) as [t [r|e]]; [|done].
  destruct (truthy r && negb (startswith "__" r)); [|done].
  destruct (60 <? String.length r); [|reflexivity]. unfold write. by destruct (renders _).
Qed.

Lemma run_cmd_answered cmd r (w : screen X J) :
  handle_inline_command cmd (sc_tui w) = (sc_tui w, Ok r) → String.length r ≤ 60 →
  _run_cmd_and_show cmd w = (if truthy r && negb (startswith "__" r) then shown r w else w, Ok r).
Proof.
  intros Hh Hl. unfold _run_cmd_and_show, mbind, TuiScreens.on_tui. rewrite Hh. apply Nat.ltb_ge in Hl.
  destruct (truthy r && negb (startswith "__" r)); [|by destruct w].
  rewrite Hl. by destruct w.
Qed.

(** Whatever is typed in the palette, the command that Enter runs opens no
    screen, and eight of the fourteen do no more than this: the six that need
    arguments show how they are written, "model" and "help" show nothing. *)
Theorem palette_choice_effect partial given history ks cmd h top l (w : screen X J) s :
  _run_selected (palette_run ks (open_palette partial given history)) = Some (cmd, h) →
  as_session (tu_state (sc_tui w)) = Some s →
  ∃ w', _execute_and_close cmd (top :: l, w) = ((l, w'), Ok tt) ∧ sc_pushed w' = sc_pushed w ∧
    (∀ text, usage cmd = Some text → w' = shown text w) ∧
    (cmd ∈ ["model"; "help"] → w' = w).
Proof.
  intros Hr Hs. destruct (run_selected_spec _ cmd h (palette_run_ok ks _ (open_palette_ok partial given history)) Hr)
    as (Hin & _ & _). clear Hr.
  assert (∀ r, String.length r ≤ 60 → run_inline s cmd "" = (mret r : M (tui X J) string) →
    split_command cmd = (cmd, "") →
    (_run_cmd_and_show cmd w).1 = if truthy r && negb (startswith "__" r) then shown r w else w) as Hq.
  { intros r Hlen Hi Hsp. rewrite (run_cmd_answered cmd r); [done| |done].
    unfold handle_inline_command, session, mbind, mgets. rewrite Hs, Hsp, Hi. reflexivity. }
  exists (_run_cmd_and_show cmd w).1. split; [|split; [apply run_cmd_keeps_pushed|split]].
  - unfold _execute_and_close, pop, mbind, mtry, below. cbn [fst snd].
    by destruct (_run_cmd_and_show cmd w) as [w' [r|e]].
  - intros text Hu. assert (usage cmd = Some text → String.length text ≤ 60 ∧ run_inline s cmd "" = (mret text : M (tui X J) string) ∧
      split_command cmd = (cmd, "") ∧ truthy text && negb (startswith "__" text) = true) as Hc.
    { unfold COMMANDS in Hin. rewrite !elem_of_cons in Hin.
      repeat (destruct Hin as [->|Hin]; [intros Hx; vm_compute in Hx; first [discriminate Hx|injection Hx as <-; split_and!; [vm_compute; lia|reflexivity..]]|]).
      by apply elem_of_nil in Hin. }
    destruct (Hc Hu) as (H1 & H2 & H3 & H4). by rewrite (Hq text H1 H2 H3), H4.
  - rewrite !elem_of_cons. intros [->|[->|H]]; [..|by apply elem_of_nil in H].
    + exact (Hq "__open_model_config__" ltac:(vm_compute; lia) eq_refl eq_refl).
    + exact (Hq "__open_help__" ltac:(vm_compute; lia) eq_refl eq_refl).
Qed.
End palette_facts.

Module Concrete.
Import TuiServices.Concrete TuiScreens.Concrete.
#[local] Existing Instances inbox TuiScreens.Concrete.rich.

(** The palette was opened over a session, and "re" typed. *)
Definition typed : palette := palette_run [Typed "re"] (open_palette "" [] []).

Lemma marked_witness : ∃ i e, ce_name e = "review" ∧ command_rows typed !! i = Some (command_row true e).
Proof.
  destruct (enter_runs_marked_row "" [] [] [Typed "re"] "review" ["review"] eq_refl) as (i & e & _ & He & Hl & _).
  by exists i, e.
Defined.

Lemma choice_witness :
  _execute_and_close "review" ([CommandPaletteScreen "" []; SessionScreen "p" "s"], scr) =
    (([SessionScreen "p" "s"], shown "Usage: /review <text or task>" scr), Ok tt).
Proof.
  destruct (palette_choice_effect "" [] [] [Typed "re"] "review" ["review"] (CommandPaletteScreen "" []) [SessionScreen "p" "s"] scr sess
              eq_refl eq_refl) as (w' & He & _ & Hu & _).
  by rewrite He, (Hu "Usage: /review <text or task>" eq_refl).
Defined.

Example filtered_rows : length (command_rows typed) = 1 ∧ _render_list (palette_run [Typed "zz"] (open_palette "" [] [])) = "[#6c7086]No matching commands[/]".
Proof. by vm_compute. Qed.
End Concrete.
