(* ===== verification/TuiView.v ===== *)
(** * What the screens show
    (tui/tui/screens/help.py, launcher.py, project.py)

    The table of the help screen, and the texts of the launcher and of the
    project screen from the data that TuiApp.v loads for them, with the cards of
    TuiWidgets.v.  The layout of these widgets on the terminal is Textual's. *)

From S2P Require Import Prelude PyStr TuiState TuiStore TuiClient TuiServices TuiUtils TuiScreens TuiWidgets TuiApp.
Import Theme.
Local Open Scope string_scope.
Local Open Scope list_scope.
Local Open Scope nat_scope.
Local Open Scope py_scope.

(** ** help.py *)
Definition _SECTIONS : list (string * list (string * string)) :=
  [("Global", [("Ctrl+Q", "Quit AICAF"); ("?", "Open this help screen")]);
   ("Session",
     [("Tab", "Cycle focus between agent panes"); ("f", "Follow: focus the first running agent");
      ("d", "Toggle DAG sidebar"); ("l", "Open event log viewer"); ("m", "Open model configuration overlay");
      ("/", "Open command palette"); ("Ctrl+C", "Send interrupt to focused agent");
      ("n", "New session in same project"); ("p", "Go to project screen")]);
   ("Chat",
     [("r", "Cycle agent role"); ("m", "Cycle available models for current role"); ("p", "Return to launcher");
      ("/", "Command palette")]);
   ("Launcher",
     [("↑ / k", "Move selection up"); ("↓ / j", "Move selection down"); ("Enter", "Open selected project");
      ("n", "Create new project"); ("c", "Open quick chat"); ("q", "Quit")]);
   ("Project", [("Enter", "Open selected session"); ("n", "New session"); ("i", "Re-index codebase"); ("Esc", "Go back")]);
   ("Command Palette", [("↑ / ↓", "Navigate commands"); ("Enter", "Execute selected command"); ("Esc", "Dismiss")]);
   ("Input Bar",
     [("@role", "Route message to agent by role (e.g. @coder)"); ("@id", "Route message to specific agent by ID");
      ("↑ / ↓", "Cycle command history")])].

(** [f"{s:<n}"] pads by characters, of which an arrow is one: [wide] counts the
    bytes that are not. *)
Definition continuation (c : ascii) : bool := let n := nat_of_ascii c in (128 <=? n) && (n <? 192).
Fixpoint char_length (s : string) : nat :=
  match s with "" => 0 | String c s' => (if continuation c then 0 else 1) + char_length s' end.
Definition pad (n : nat) (s : string) : string := s +:+ times (n - char_length s) " ".

Definition section_head (section : string) : string :=
  nl +:+ tag ("bold " +:+ OVERLAY1) section +:+ nl +:+ tag SURFACE1 (times 50 "─").
Definition binding_row (b : string * string) : string :=
  "  " +:+ tag ("bold " +:+ BLUE) (pad 18 b.1) +:+ "  " +:+ tag TEXT b.2.
(** The entries written to the log of the screen. *)
Definition help_rows : list string := mjoin (map (λ s, section_head s.1 :: map binding_row s.2) _SECTIONS).

Section launcher.
Context {J : Type}.
Context (home ellipsis : string) (now : Z).

(** ** launcher.py *)

(** [_render_projects]. *)
Definition project_rows (la : launcher (J:=J)) : list string :=
  match la_projects la with
  | [] => ["  " +:+ tag OVERLAY0 ("No projects yet — press " +:+ tag ("bold " +:+ BLUE) "n" +:+ " to create one")]
  | ps => imap (λ i p, project_card home ellipsis now p (bool_decide (i = la_selected_idx la))) ps
  end.

(** The line of the connection: the health of the orchestrator, or its failure. *)
Definition health_line (base_url : string) (r : res (option string * option string)) : option string :=
  match r with
  | Ok (version, profile) =>
      Some (tag GREEN "●" +:+ "  " +:+ tag OVERLAY0
              (base_url +:+ "  ·  " +:+ default "?" profile +:+ "  ·  v" +:+ default "?" version))
  | Raise (AicafConnectionError _) =>
      Some (tag RED "✕" +:+ "  " +:+ tag RED ("orchestrator unreachable — " +:+ base_url))
  | Raise _ => None
  end.

Definition model_label (model : option string) : option string :=
  (λ m, tag OVERLAY0 "Default model:" +:+ " " +:+ tag OVERLAY1 m) <$> model.

(** The heading over the orphans, and their rows. *)
Definition orphan_lines (rows : list (string * string)) : list string :=
  match rows with
  | [] => []
  | _ => (nl +:+ tag ("bold " +:+ YELLOW) "Active orphan sessions (not linked to a local project)") ::
         map (λ r, "  " +:+ tag YELLOW "◐" +:+ "  " +:+ tag TEXT r.1 +:+ "  " +:+ tag OVERLAY0 r.2) rows
  end.

(** ** project.py *)
Definition project_header (v : option project_info) : string :=
  match v with
  | None => tag RED "Project not found"
  | Some v => tag ("bold " +:+ BLUE) (pv_name v) +:+ "  " +:+ tag OVERLAY0 (fmt_path home ellipsis (pv_path v) 40) +:+
              "  " +:+ tag BLUE "[config]" +:+ "  " +:+ tag OVERLAY0 "[← back]"
  end.
Definition workspace_lines (v : project_info) : string :=
  tag OVERLAY0 "Path:   " +:+ tag TEXT (pv_path v) +:+ nl +:+ tag OVERLAY0 "Branch: " +:+ tag BLUE (pv_branch v).
Definition stats_line (v : project_info) : string :=
  tag OVERLAY0 "Sessions: " +:+ tag TEXT (pretty (pv_total v)) +:+ "  " +:+
  tag OVERLAY0 "Active: " +:+ tag GREEN (pretty (pv_active v)).
Definition session_rows (ts : session_dict → Z) (v : project_info) : list string :=
  match pv_sessions v with
  | [] => ["  " +:+ tag OVERLAY0 "No sessions yet — press [bold]n[/] to start one"]
  | _ => map (λ s, session_card ellipsis now s (ts s.1)) (session_cards v)
  end.
End launcher.

(** ** Facts *)

Definition mark : string := tag GREEN "▶".

Lemma project_card_marked {J} home ellipsis now (p : project J) b :
  startswith mark (project_card home ellipsis now p b) = b.
Proof. by destruct b. Qed.

Section marked.
Context {X J : Type} `{!Orchestrator X}.
Context (dumps_ui : raw_ui → string) (home ellipsis : string) (now : Z).

(** After any keys on the launcher one card is marked, and it is the card of the
    project that Enter opens. *)
Theorem marked_card_is_opened ks role (w : app X J) p0 ps :
  let la : launcher := _load_projects (Launcher [] 0) w in
  la_projects la = p0 :: ps →
  ∃ w1 la1 i (p : project J), launcher_keys dumps_ui ks la w = (w1, Ok la1) ∧
    project_rows home ellipsis now la1 !! i = Some (project_card home ellipsis now p true) ∧
    (∀ j l, project_rows home ellipsis now la1 !! j = Some l → (startswith mark l = true ↔ j = i)) ∧
    launcher_key dumps_ui "enter" false role la1 w1 = (saved dumps_ui (pj_id p) w1, Ok la1).
Proof.
  intros la Hps. destruct (launcher_opens_selected dumps_ui ks role w) as (w1 & la1 & Hk & Hok & Hp & He).
  fold la in Hk, Hp, He. destruct Hok as [Hi|[_ Hn]]; [|by rewrite Hp, Hps in Hn].
  apply lookup_lt_is_Some_2 in Hi as [p Hi]. rewrite Hp in Hi. rewrite Hi in He.
  assert (∀ j, project_rows home ellipsis now la1 !! j =
    (λ q, project_card home ellipsis now q (bool_decide (j = la_selected_idx la1))) <$> la_projects la !! j) as Hrow.
  { intros j. unfold project_rows. rewrite Hp, Hps. apply list_lookup_imap. }
  exists w1, la1, (la_selected_idx la1), p. split; [done|]. split; [|split; [|done]].
  - by rewrite Hrow, Hi, bool_decide_eq_true_2.
  - intros j l. rewrite Hrow. destruct (la_projects la !! j) as [q|]; [|done]. intros [= <-].
    rewrite project_card_marked. apply bool_decide_eq_true.
Qed.
End marked.

(** The keys of the session that the help announces: "f" does nothing. *)
Lemma follow_does_nothing {X J} `{!Orchestrator X} dumps_ui (w : screen X J) :
  ("f", "Follow: focus the first running agent") ∈ default [] (dict_get "Session" _SECTIONS) ∧
  TuiScreens.on_key dumps_ui "f" w = (w, Ok tt).
Proof. split; [apply list_elem_of_In; vm_compute; tauto|reflexivity]. Qed.

Example help_lines : length help_rows = 38 ∧
  nth 19 help_rows "" = "  [bold #89b4fa]↑ / k             [/]  [#cdd6f4]Move selection up[/]".
Proof. vm_compute. split; reflexivity. Qed.
