(* ===== verification/TuiMain.v ===== *)
(** * The command line of the terminal interface (tui/tui/main.py)

    [main] on the arguments the parser gives it: the store is opened, the URL
    and the project resolved, and the application mounted over a store of its
    own that is read from the same files. *)

From S2P Require Import Prelude PyStr TuiState TuiStore TuiClient TuiServices TuiApp.
Local Open Scope string_scope.
Local Open Scope list_scope.
Local Open Scope nat_scope.

Record cli_args := CliArgs {
  ar_url : option string; ar_project : option string; ar_session : option string; ar_chat : bool; ar_role : string
}.
(** No argument given. *)
Definition no_args : cli_args := CliArgs None None None false "coder".

Section main.
Context {X J : Type} `{!Orchestrator X}.
Context (dumps_projects : raw_projects J → string) (loads_projects : string → option (raw_projects J)).
Context (dumps_ui : raw_ui → string) (loads_ui : string → option raw_ui).
Local Abbreviation W := (app X J).
Local Abbreviation open_store := (new_store loads_projects loads_ui).

(** [now] is the time the store of [main] is read, [now'] that of the application. *)
Definition main (now now' : Z) (args : cli_args) (x : X) (files : store_files) : W * res unit :=
  let (store, orch_url) := startup_url dumps_projects dumps_ui (ar_url args) (open_store now files) in
  let project_id := startup_project (ar_project args) (ar_session args) store in
  let chat_role := if ar_chat args then Some (ar_role args) else None in
  on_mount project_id (ar_session args) chat_role (new_app orch_url x (open_store now' (st_files store))).

(** ** Facts *)
Section facts.
Hypothesis loads_dumps_projects : ∀ d, loads_projects (dumps_projects d) = Some d.
Hypothesis loads_dumps_ui : ∀ d, loads_ui (dumps_ui d) = Some d.
Local Abbreviation in_sync := (in_sync loads_projects loads_ui).
Local Abbreviation store_run := (store_run dumps_projects dumps_ui).

Lemma rstrip_char_idem x s : rstrip_char x (rstrip_char x s) = rstrip_char x s.
Proof.
  induction s as [|c s IH]; [done|]. cbn [rstrip_char]. destruct (rstrip_char x s) as [|d t] eqn:E.
  - destruct (bool_decide (c = x)) eqn:Ec; [done|]. cbn. by rewrite Ec.
  - change (match rstrip_char x (String d t) with "" => if bool_decide (c = x) then "" else String c "" | u => String c u end
            = String c (String d t)). by rewrite IH.
Qed.

Lemma store_run_sync os s : in_sync s → in_sync (store_run os s).
Proof.
  revert s. induction os as [|o os IH]; intros s Hs; simpl; [done|].
  by apply IH, (store_step_sync dumps_projects loads_projects dumps_ui loads_ui).
Qed.

(** An operation that is not the choice of an URL. *)
Definition keeps_url (o : store_op (J:=J)) : Prop := match o with SetOrchestratorUrl _ => False | _ => True end.

Lemma store_run_keeps_url os s : Forall keeps_url os → st_last_url (store_run os s) = st_last_url s.
Proof.
  intros Hos. revert s. induction Hos as [|o os Ho Hos IH]; intros s; simpl; [done|]. rewrite IH. clear IH Hos.
  destruct o; cbn [store_step]; try done.
  - unfold update_project. by case_match.
  - unfold delete_project. by case_match.
  - unfold add_session_to_project. by repeat case_match.
  - unfold touch_project. by case_match.
Qed.

Lemma startup_url_spec url s : in_sync s →
  let r := startup_url dumps_projects dumps_ui url s in
  in_sync r.1 ∧ r.2 = (if truthy_opt url then rstrip_char "/" (default "" url) else py_or (st_last_url s) DEFAULT_ORCH_URL) ∧
  st_last_url r.1 = (if truthy_opt url then rstrip_char "/" (default "" url) else st_last_url s) ∧
  st_projects r.1 = st_projects s.
Proof.
  intros Hs. unfold startup_url, truthy_opt. destruct url as [u|]; cbn [default from_option id].
  - destruct (truthy u); cbn [fst snd]; [|done]. split_and!; try done.
    + by apply (store_step_sync dumps_projects loads_projects dumps_ui loads_ui loads_dumps_projects loads_dumps_ui
                  (SetOrchestratorUrl (rstrip_char "/" u))).
    + unfold set_orchestrator_url. cbn. by rewrite rstrip_char_idem.
  - by cbn.
Qed.

Lemma main_spec now now' args x files : in_sync (open_store now files) →
  let s := open_store now files in
  let url := if truthy_opt (ar_url args) then rstrip_char "/" (default "" (ar_url args))
             else py_or (st_last_url s) DEFAULT_ORCH_URL in
  ∃ store, in_sync store ∧ st_projects store = st_projects s ∧
    st_last_url store = (if truthy_opt (ar_url args) then url else st_last_url s) ∧
    main now now' args x files =
      (App (Tui (connect (new_client (rstrip_char "/" url) x)) store initial_state)
         [first_screen (startup_project (ar_project args) (ar_session args) s) (ar_session args)
            (if ar_chat args then Some (ar_role args) else None)] true false, Ok tt).
Proof.
  intros Hs. destruct (startup_url_spec (ar_url args) _ Hs) as (Hs' & Hurl & Hlast & Hps).
  cbv zeta. unfold main. destruct (startup_url dumps_projects dumps_ui (ar_url args) (open_store now files)) as [store url].
  cbn [fst snd] in *. exists store. split; [done|]. split; [done|]. split.
  - rewrite Hlast. by destruct (truthy_opt _).
  - subst url. rewrite (proj1 (in_sync_reload loads_projects loads_ui store) Hs' now').
    assert (startup_project (ar_project args) (ar_session args) store =
            startup_project (ar_project args) (ar_session args) (open_store now files)) as ->.
    { unfold startup_project, list_projects. by rewrite Hps. }
    reflexivity.
Qed.

(** C34: The orchestrator a start names with --url is the one that later starts
    without the argument connect to, whatever the interface stored in between. *)
Theorem url_is_remembered now now' now1 now2 args args' u x x' files os :
  in_sync (open_store now files) → ar_url args = Some u → truthy (rstrip_char "/" u) = true → ar_url args' = None →
  Forall keeps_url os →
  let first := (main now now' args x files).1 in
  let stored := st_files (store_run os (tu_store (ap_tui first))) in
  cl_base_url (tu_client (ap_tui first)) = rstrip_char "/" u ∧
  cl_base_url (tu_client (ap_tui (main now1 now2 args' x' stored).1)) = rstrip_char "/" u.
Proof.
  intros Hs Hu Ht Hu' Hos. assert (truthy u = true) as Htu by (by destruct u).
  destruct (main_spec now now' args x files Hs) as (store & Hstore & _ & Hlast & ->).
  rewrite Hu in *. unfold truthy_opt in *. cbn [default from_option id fst ap_tui tu_store tu_client] in *. rewrite Htu in *.
  pose proof (store_run_sync os store Hstore) as Hs2.
  pose proof (proj1 (in_sync_reload loads_projects loads_ui _) Hs2 now1) as Hre.
  split; [cbn; by rewrite !rstrip_char_idem|].
  destruct (main_spec now1 now2 args' x' (st_files (store_run os store)) ltac:(by rewrite Hre)) as (store' & _ & _ & _ & ->).
  rewrite Hu', Hre. cbn. rewrite store_run_keeps_url, Hlast by done. unfold py_or. by rewrite Ht, !rstrip_char_idem.
Qed.

Lemma find_sorted (P : project J → bool) l p : StronglySorted (λ x y, more_recent x y = true) l →
  find P l = Some p → ∀ q, q ∈ l → P q = true → (pj_last_active q <= pj_last_active p)%Z.
Proof.
  induction 1 as [|a l Hl IH Ha]; [done|]. cbn. destruct (P a) eqn:E.
  - intros [= ->] q [->|Hq]%elem_of_cons _; [done|]. rewrite Forall_forall in Ha.
    specialize (Ha q Hq). unfold more_recent in Ha. by apply Z.leb_le in Ha.
  - intros Hf q [->|Hq]%elem_of_cons Hp; [congruence|]. by apply IH.
Qed.

Lemma list_projects_sorted (s : pstore J) : StronglySorted (λ x y, more_recent x y = true) (list_projects s).
Proof.
  apply sort_by_sorted; unfold more_recent.
  - intros x y. rewrite !Z.leb_le. lia.
  - intros x y z. rewrite !Z.leb_le. lia.
Qed.

(** A start opens one screen: a chat when it is asked for; with --session and
    without --project the session in the project that has it, the one used last
    when there are more, and the list of projects when none has it. *)
Theorem main_first_screen now now' args x files :
  in_sync (open_store now files) →
  let ps := st_projects (open_store now files) in
  (∀ p, p ∈ ps → truthy (pj_id p) = true) →
  ∃ s, ap_stack (main now now' args x files).1 = [s] ∧
    let chat := ar_chat args && truthy (ar_role args) in
    (chat = true → s = ChatScreen (ar_role args)) ∧
    ∀ sid, chat = false → ar_session args = Some sid → truthy sid = true → truthy_opt (ar_project args) = false →
      ((∀ p, p ∈ ps → sid ∉ pj_session_ids p) ∧ s = LauncherScreen) ∨
      (∃ p, p ∈ ps ∧ sid ∈ pj_session_ids p ∧ s = SessionScreen (pj_id p) sid ∧
         ∀ q, q ∈ ps → sid ∈ pj_session_ids q → (pj_last_active q <= pj_last_active p)%Z).
Proof.
  intros Hs ps Hids. destruct (main_spec now now' args x files Hs) as (store & _ & _ & _ & ->).
  eexists. split; [reflexivity|]. unfold first_screen.
  set (role := if ar_chat args then Some (ar_role args) else None).
  assert (truthy_opt role = ar_chat args && truthy (ar_role args)) as Hrole by (subst role; by destruct (ar_chat args)).
  rewrite Hrole. cbv zeta. split.
  - intros Hc. rewrite Hc. subst role. by destruct (ar_chat args).
  - intros sid -> Hsid Ht Hp. unfold startup_project. rewrite Hsid, Ht.
    assert (∀ q, q ∈ list_projects (open_store now files) ↔ q ∈ ps) as Hin.
    { intros q. unfold list_projects. by rewrite (sort_by_perm more_recent). }
    assert (truthy_opt (Some sid) = true) as Hts by done.
    destruct (find (λ p, bool_decide (sid ∈ pj_session_ids p)) (list_projects (open_store now files))) as [p|] eqn:Ef.
    + right. pose proof (find_some _ _ Ef) as [Hpin%list_elem_of_In Hps%bool_decide_eq_true]. apply Hin in Hpin.
      exists p. split; [done|]. split; [done|]. split.
      * destruct (ar_project args) as [[|c t]|]; [|discriminate Hp|]; rewrite Hts; unfold truthy_opt; cbn;
          by rewrite (Hids p Hpin).
      * intros q Hq Hqs. apply (find_sorted _ _ _ (list_projects_sorted _) Ef q); [by apply Hin|by apply bool_decide_eq_true].
    + left. split.
      * intros p Hpin Hps. pose proof (find_none _ _ Ef p ltac:(apply list_elem_of_In; by apply Hin)) as Hn. cbn beta in Hn.
        by apply bool_decide_eq_false in Hn.
      * destruct (ar_project args) as [[|c t]|]; [|discriminate Hp|]; reflexivity.
Qed.
End facts.
End main.

Module Concrete.
Import TuiStore.Concrete TuiApp.Concrete.
#[local] Existing Instance sessions.

Definition run (args : cli_args) (files : store_files) : app (list string) string :=
  (main dumps loads dumps loads 0 1 args [] files).1.
Definition url_args : cli_args := CliArgs (Some "http://gpu:9000//") None None false "coder".
Definition session_args (sid : string) : cli_args := CliArgs None None (Some sid) false "coder".
Definition between : list (store_op (J:=string)) :=
  [CreateProject 5 "0a" "app" "/w" "http://gpu:9000" None; AddSession 6 "proj-0a" "s1"].
(** The files after the start with an URL, and a project with a session. *)
Definition later : store_files := st_files (store_run dumps dumps between (tu_store (ap_tui (run url_args fresh)))).

Lemma url_witness :
  cl_base_url (tu_client (ap_tui (run url_args fresh))) = "http://gpu:9000" ∧
  cl_base_url (tu_client (ap_tui (run no_args later))) = "http://gpu:9000".
Proof.
  assert (in_sync loads loads (opened 0 fresh)) as Hs by (by apply in_sync_reload).
  pose proof (url_is_remembered dumps loads dumps loads (λ d, loads_dumps d) (λ d, loads_dumps d) 0 1 0 1 url_args no_args
           "http://gpu:9000//" ([] : list string) [] fresh between Hs eq_refl eq_refl eq_refl) as H.
  unfold later, run. apply H. repeat constructor.
Defined.

Definition made : project string := Project "proj-0a" "app" "/w" "http://gpu:9000" 5 6 ["s1"] [] [].

Lemma later_store : in_sync loads loads (opened 0 later) ∧ st_projects (opened 0 later) = [made].
Proof.
  assert (in_sync loads loads (opened 0 fresh)) as Hs by (by apply in_sync_reload).
  destruct (main_spec dumps loads dumps loads (λ d, loads_dumps d) (λ d, loads_dumps d) 0 1 url_args ([] : list string) fresh Hs)
    as (store & Hst & Hps & _ & Hm).
  pose proof (store_run_sync dumps loads dumps loads (λ d, loads_dumps d) (λ d, loads_dumps d) between store Hst) as Hr.
  unfold opened, later, run. rewrite Hm. cbn [fst ap_tui tu_store].
  rewrite (proj1 (in_sync_reload loads loads _) Hr 0%Z). split; [exact Hr|].
  assert (st_projects store = []) as Hn by (rewrite Hps; reflexivity). destruct store as [ps chats url ui files]. cbn in Hn. by subst ps.
Qed.

Lemma only_made p : p ∈ [made] → p = made.
Proof. by intros ?%list_elem_of_singleton. Qed.

#[local] Opaque later.
Lemma session_witness : ap_stack (run (session_args "s1") later) = [SessionScreen "proj-0a" "s1"].
Proof.
  destruct later_store as [Hs Hps]. unfold opened in Hs, Hps.
  destruct (main_first_screen dumps loads dumps loads (λ d, loads_dumps d) (λ d, loads_dumps d) 0 1 (session_args "s1")
              ([] : list string) later Hs) as (s & Hst & _ & Hp).
  - intros p Hp. rewrite Hps in Hp. apply only_made in Hp. subst p. reflexivity.
  - unfold run. rewrite Hst. rewrite Hps in Hp. destruct (Hp "s1" eq_refl eq_refl eq_refl eq_refl) as [[Hn _]|(p & Hpin & _ & -> & _)].
    + exfalso. apply (Hn made); left.
    + apply only_made in Hpin. rewrite Hpin. exact eq_refl.
Defined.
#[local] Transparent later.
(** A session of no project, and a project that is not stored. *)
Example unknown_start :
  ap_stack (run (session_args "s9") later) = [LauncherScreen] ∧
  ap_stack (run (CliArgs None (Some "proj-9") None false "coder") later) = [ProjectScreen "proj-9"].
Proof. split; vm_compute; reflexivity. Qed.
End Concrete.
