(* ===== verification/TuiChat.v ===== *)
(** * The chat screen (tui/tui/screens/chat.py)

    A conversation with one model: the history sent with each message, and what
    is written to the log it is shown in, a RichLog with markup whose writes can
    raise ([Markup] of TuiScreens.v).  While an answer comes the role and the
    model can be switched; a message submitted then is ignored.  At the end of
    the file the screen is put behind the chat endpoint (orchestrator/main.py)
    and the Ollama stream of the router. *)

From S2P Require Import Prelude PyStr Models Utils Redis Interfaces AgentManagerProps Router CommandParser Api.
From S2P Require Import TuiState TuiStore TuiClient TuiServices TuiScreens TuiApp.
Local Open Scope string_scope.
Local Open Scope list_scope.
Local Open Scope nat_scope.
Local Open Scope py_scope.

Definition ALL_ROLES : list string := ["architect"; "coder"; "reviewer"; "tester"; "documenter"; "general"].

(** What is written to the log: the labels of the user and of the agent, the spinner, a
    token as it came, an answer drawn again, and the rest. *)
Inductive chat_entry :=
  | Hint | System (text : string) | Blank | YouLabel | UserText (text : string) | AgentLabel (role : string)
  | Thinking | TokenLine (token : string) | ReplyText (content : string)
  | ConnectionLost (msg : string) | ChatError (msg : string).

Record chat_screen := ChatScreen {
  ch_role : string; ch_model : string; ch_history : list (string * string); ch_streaming : bool;
  ch_token_count : nat; ch_log : list chat_entry
}.
Definition new_chat (role : string) : chat_screen := ChatScreen role "" [] false 0 [].

(** ** Field updates *)
Definition with_role (r : string) (c : chat_screen) : chat_screen :=
  ChatScreen r (ch_model c) (ch_history c) (ch_streaming c) (ch_token_count c) (ch_log c).
Definition with_model (m : string) (c : chat_screen) : chat_screen :=
  ChatScreen (ch_role c) m (ch_history c) (ch_streaming c) (ch_token_count c) (ch_log c).
Definition with_log (l : list chat_entry) (c : chat_screen) : chat_screen :=
  ChatScreen (ch_role c) (ch_model c) (ch_history c) (ch_streaming c) (ch_token_count c) l.
Definition with_streaming (b : bool) (c : chat_screen) : chat_screen :=
  ChatScreen (ch_role c) (ch_model c) (ch_history c) b (ch_token_count c) (ch_log c).
Definition add_message (m : string * string) (c : chat_screen) : chat_screen :=
  ChatScreen (ch_role c) (ch_model c) (ch_history c ++ [m]) (ch_streaming c) (ch_token_count c) (ch_log c).
Definition count_token (t : string) (c : chat_screen) : chat_screen :=
  ChatScreen (ch_role c) (ch_model c) (ch_history c) (ch_streaming c) (ch_token_count c + String.length t) (ch_log c).

(** ** The log *)

Section chat.
Context `{!Markup chat_entry}.
Local Abbreviation C := chat_screen.

Definition write (e : chat_entry) : M C unit := λ c,
  if renders e then (with_log (ch_log c ++ [e]) c, Ok tt) else (c, Raise (OtherError (markup_error e))).
Definition write_all (l : list chat_entry) : M C unit := mfor l write.

(** An exception is swallowed. *)
Definition _write_system (e : chat_entry) (c : C) : C := (write e c).1.

(** ** Keys *)

(** The element after [x] in a list, cyclically; the one after the first (the
    first itself for models) when [x] is not in it. *)
Definition index_of (x : string) (l : list string) : option nat := fst <$> list_find (λ y, y = x) l.

Definition _cycle_role (c : chat_screen) : chat_screen :=
  let idx := default 0 (index_of (ch_role c) ALL_ROLES) in
  let role := nth (S idx mod length ALL_ROLES) ALL_ROLES "" in
  _write_system (System ("role → " +:+ role)) (with_role role c).

(** On the names [get_models_for_role] answers, [None] when it fails. *)
Definition _cycle_model (names : option (list string)) (c : chat_screen) : chat_screen :=
  match names with
  | Some (_ :: _ as names) =>
      let next := match index_of (ch_model c) names with Some i => S i | None => 0 end in
      let model := nth (next mod length names) names "" in
      _write_system (System ("model → " +:+ model)) (with_model model c)
  | _ => c
  end.

Inductive pressed := RoleKey | ModelKey (names : option (list string)).
Definition press (k : pressed) : C → C :=
  match k with RoleKey => _cycle_role | ModelKey names => _cycle_model names end.

(** The placeholder of the input. *)
Definition placeholder (c : C) : string :=
  if ch_streaming c then "  Waiting for response…"
  else "  [" +:+ ch_role c +:+ ":" +:+ py_or (ch_model c) "?" +:+ "]  Type and press Enter…".

(** ** Sending *)

Definition user_bubble (text : string) : list chat_entry := [Blank; YouLabel; UserText text; Blank].

Definition drawn (role : string) (m : string * string) : list chat_entry :=
  if bool_decide (m.1 = "user") then user_bubble m.2
  else if bool_decide (m.1 = "assistant") then [AgentLabel role; ReplyText m.2; Blank] else [].

(** All messages but the last, which is drawn when it is the user's. *)
Definition _redraw_history : M C unit :=
  do! mmodify (_write_system Hint) in
  let! c := mgets id in
  do! mfor (removelast (ch_history c)) (λ m, write_all (drawn (ch_role c) m)) in
  match last (ch_history c) with
  | Some (role, text) => if bool_decide (role = "user") then write_all (user_bubble text) else mret tt
  | None => mret tt
  end.

(** [log.clear()] and what is written before the first token. *)
Definition start_answer : M C unit :=
  do! mmodify (with_log []) in
  do! _redraw_history in
  let! role := mgets ch_role in write (AgentLabel role).

(** What comes of an answer: a token of the stream, and a key meanwhile. *)
Inductive stream_item := Token (t : string) | Pressed (k : pressed).

(** [async for token], with [full_response] so far and the exception that ends
    the stream, if one does: [full_response] and the exception at the end. *)
Fixpoint receive (first_token : bool) (full_response : string) (items : list stream_item) (failure : option exn) :
    M C (string * option exn) :=
  match items with
  | [] => mret (full_response, failure)
  | Pressed k :: items' => do! mmodify (press k) in receive first_token full_response items' failure
  | Token t :: items' =>
      do! (if first_token then mtry start_answer (λ _, mret tt) else mret tt) in
      let full_response := full_response +:+ t in
      do! mmodify (count_token t) in
      let! raised := mtry (do! write (TokenLine t) in mret None) (λ e, mret (Some e)) in
      match raised with
      | None => receive false full_response items' failure
      | Some e => mret (full_response, Some e)
      end
  end.

(** The two handlers, and [finally]. *)
Definition error_entry (e : exn) : chat_entry :=
  match e with AicafConnectionError msg => ConnectionLost msg | e => ChatError (exn_str e) end.
Definition report (raised : option exn) : M C unit :=
  match raised with None => mret tt | Some e => write (error_entry e) end.
Definition close_answer (c : C) : C := with_log (ch_log c ++ [Blank]) (with_streaming false c).

Definition _send (text : string) (items : list stream_item) (failure : option exn) : M C unit :=
  do! write_all (user_bubble text) in
  do! mmodify (add_message ("user", text)) in
  let! role := mgets ch_role in
  do! write_all [AgentLabel role; Thinking] in
  do! mmodify (with_streaming true) in
  let! full_response :=
    mfinally (let! r := receive true "" items failure in do! report r.2 in mret r.1) close_answer in
  if truthy full_response then mmodify (add_message ("assistant", full_response)) else mret tt.

Definition on_input_submitted (value : string) (items : list stream_item) (failure : option exn) : M C unit :=
  let text := strip value in
  let! streaming := mgets ch_streaming in
  if negb (truthy text) || streaming then mret tt else _send text items failure.
End chat.

Section screen.
Context {X J : Type} `{!Orchestrator X} `{!Markup chat_entry}.
Context (dumps_projects : raw_projects J → string).
Context (now : Z).
Local Abbreviation W := (chat_screen * app X J)%type.

Definition models_of (role : string) : M (app X J) (option (list string)) :=
  mtry (let! names := on_tui (on_client (get_models_for_role role)) in mret (Some names)) (λ _, mret None).

(** [hex]: the fresh part of the record's identifier. *)
Definition _init (hex : string) : M W unit :=
  let! c := mgets fst in
  let! names := on_app (models_of (ch_role c)) in
  let model := match names with None => "orchestrator" | Some names => default (ch_model c) (head names) end in
  do! on_form (with_model model) in
  do! on_app (λ a : app X J,
        on_tui (on_store (λ s, (add_chat_record dumps_projects now hex (ch_role c) model (cl_base_url (tu_client (ap_tui a))) s).1)) a) in
  on_form (_write_system (System ("Connected · " +:+ ch_role c +:+ " · " +:+ py_or model "default"))).

Definition chat_key (k : string) (focused_is_input : bool) : M W unit :=
  if bool_decide (k = "r") && negb focused_is_input then on_form _cycle_role
  else if bool_decide (k = "m") && negb focused_is_input then
    let! c := mgets fst in
    let! names := on_app (models_of (ch_role c)) in
    on_form (_cycle_model names)
  else if bool_decide (k = "escape") then on_app pop_screen
  else if bool_decide (k = "ctrl+q") then on_app exit
  else mret tt.
End screen.

(** ** What an exchange adds *)
Section facts.
Context `{!Markup chat_entry}.
Local Abbreviation C := chat_screen.

(** The labels and the spinner are markup of the code. *)
Definition fixed (e : chat_entry) : bool :=
  match e with Hint | Blank | YouLabel | AgentLabel _ | Thinking => true | _ => false end.
Hypothesis fixed_renders : ∀ e, fixed e = true → renders e = true.

(** The tokens that stand in a log. *)
Definition token_of (e : chat_entry) : option string := match e with TokenLine t => Some t | _ => None end.
Definition log_tokens (l : list chat_entry) : list string := omap token_of l.

Lemma log_tokens_app l k : log_tokens (l ++ k) = log_tokens l ++ log_tokens k.
Proof. apply omap_app. Qed.

(** What a step that is no token leaves alone. *)
Definition same_talk (c c' : C) : Prop :=
  ch_history c' = ch_history c ∧ ch_streaming c' = ch_streaming c ∧ log_tokens (ch_log c') = log_tokens (ch_log c).

#[local] Instance same_talk_preorder : PreOrder same_talk.
Proof. split; [done|]. intros ??? (?&?&?) (?&?&?). unfold same_talk. split_and!; congruence. Qed.

Lemma write_talk e : token_of e = None → respects same_talk (write e).
Proof.
  intros He c. unfold write. destruct (renders e); [|done]. unfold same_talk. cbn.
  split_and!; [done..|]. rewrite log_tokens_app. cbn. by rewrite He, app_nil_r.
Qed.

Lemma write_all_talk l : Forall (λ e, token_of e = None) l → respects same_talk (write_all l).
Proof.
  unfold write_all. induction 1 as [|e l He _ IH]; [apply respects_ret, _|]. cbn [mfor].
  apply respects_bind; [apply _|by apply write_talk|done].
Qed.

Lemma bubble_talk text : respects same_talk (write_all (user_bubble text)).
Proof. apply write_all_talk. by repeat constructor. Qed.

Lemma press_talk k c : same_talk c (press k c).
Proof.
  assert (∀ t c', ch_history c' = ch_history c → ch_streaming c' = ch_streaming c → ch_log c' = ch_log c →
    same_talk c (_write_system (System t) c')) as Hw.
  { intros t c' H1 H2 H3. destruct (write_talk (System t) eq_refl c') as (Hh & Hs & Hl).
    unfold same_talk, _write_system. by rewrite Hh, Hs, Hl, H1, H2, H3. }
  destruct k as [|[[|n names]|]]; cbn [press _cycle_role _cycle_model]; [by apply Hw|done|by apply Hw|done].
Qed.

Lemma redraw_talk : respects same_talk _redraw_history.
Proof.
  unfold _redraw_history. apply respects_bind; [apply _|intros c; by apply (write_talk Hint)|]. intros [].
  apply respects_bind; [apply _|by intros c|]. intros c. apply respects_bind; [apply _| |].
  - induction (removelast (ch_history c)) as [|m l IH]; [apply respects_ret, _|]. cbn [mfor].
    apply respects_bind; [apply _| |done]. apply write_all_talk. unfold drawn. repeat case_bool_decide; by repeat constructor.
  - intros []. destruct (last (ch_history c)) as [[role text]|]; [|apply respects_ret, _].
    case_bool_decide; [apply bubble_talk|apply respects_ret, _].
Qed.

(** The first token: the tokens of the answers before leave the log. *)
Lemma start_talk c :
  let c' := (mtry start_answer (λ _, mret tt) c).1 in
  mtry start_answer (λ _, mret tt) c = (c', Ok tt) ∧
  ch_history c' = ch_history c ∧ ch_streaming c' = ch_streaming c ∧ log_tokens (ch_log c') = [].
Proof.
  cbv zeta. split. { unfold mtry. by destruct (start_answer c) as [c' [[]|e]]. }
  assert (respects same_talk (do! _redraw_history in let! role := mgets ch_role in write (AgentLabel role))) as Hr.
  { apply respects_bind; [apply _|apply redraw_talk|intros []]. apply respects_bind; [apply _|by intros ?|].
    intros role. by apply write_talk. }
  destruct (Hr (with_log [] c)) as (Hh & Hs & Hl).
  set (rest := mbind _ _) in *. assert ((mtry start_answer (λ _, mret tt) c).1 = (rest (with_log [] c)).1) as ->; [|by split_and!].
  unfold mtry. change (start_answer c) with (rest (with_log [] c)). by destruct (rest (with_log [] c)) as [c' [[]|e]].
Qed.

(** What is received of an answer: the text up to its end, or to a token that
    cannot be written, that token included, and the exception that ends it. *)
Fixpoint heard (items : list stream_item) (failure : option exn) : string * option exn :=
  match items with
  | [] => ("", failure)
  | Pressed _ :: items' => heard items' failure
  | Token t :: items' =>
      if renders (TokenLine t) then let (full, e) := heard items' failure in (t +:+ full, e)
      else (t, Some (OtherError (markup_error (TokenLine t))))
  end.

Fixpoint written (items : list stream_item) : list string :=
  match items with
  | [] => []
  | Pressed _ :: items' => written items'
  | Token t :: items' => if renders (TokenLine t) then t :: written items' else []
  end.

Definition tokens_of (items : list stream_item) : list string :=
  omap (λ i, match i with Token t => Some t | Pressed _ => None end) items.

Lemma heard_all items failure : Forall (λ t, renders (TokenLine t) = true) (tokens_of items) →
  heard items failure = (sconcat (tokens_of items), failure) ∧ written items = tokens_of items.
Proof.
  induction items as [|[t|k] items IH]; [done| |done]. cbn. intros [Ht Hts]%Forall_cons.
  rewrite Ht. destruct (IH Hts) as [-> ->]. done.
Qed.

Lemma receive_spec first full items failure c :
  ∃ c', receive first full items failure c = (c', Ok (full +:+ (heard items failure).1, (heard items failure).2)) ∧
    ch_history c' = ch_history c ∧ ch_streaming c' = ch_streaming c ∧
    log_tokens (ch_log c') = (if first && negb (bool_decide (tokens_of items = [])) then [] else log_tokens (ch_log c)) ++ written items.
Proof.
  revert first full c. induction items as [|[t|k] items IH]; intros first full c.
  - exists c. cbn. rewrite sapp_nil_r, app_nil_r. by destruct first.
  - cbn [receive heard written]. assert (∃ c1, (if first then mtry start_answer (λ _, mret tt) else mret tt) c = (c1, Ok tt) ∧
      ch_history c1 = ch_history c ∧ ch_streaming c1 = ch_streaming c ∧
      log_tokens (ch_log c1) = if first then [] else log_tokens (ch_log c)) as (c1 & E1 & Hh & Hs & Hl).
    { destruct first; [|by exists c]. destruct (start_talk c) as (E & H). eexists. split; [exact E|exact H]. }
    unfold mbind at 1. rewrite E1. unfold mbind at 1, mmodify at 1. unfold mbind at 1, mtry at 1, mbind at 1, write at 1.
    change (tokens_of (Token t :: items)) with (t :: tokens_of items). rewrite (bool_decide_eq_false_2 (t :: _ = [])), andb_true_r by done.
    destruct (renders (TokenLine t)).
    + unfold mret. edestruct (IH false) as (c' & E & Hh' & Hs' & Hl'). rewrite E. exists c'.
      split; [|split; [by rewrite Hh'|split; [by rewrite Hs'|]]].
      * destruct (heard items failure). cbn. by rewrite sapp_assoc.
      * rewrite Hl'. cbn [negb andb]. cbn [count_token with_log ch_log]. rewrite log_tokens_app, Hl, <-app_assoc. done.
    + unfold mret. eexists. split; [reflexivity|]. by rewrite app_nil_r.
  - cbn [receive heard written]. unfold mbind, mmodify. destruct (IH first full (press k c)) as (c' & -> & Hh & Hs & Hl).
    destruct (press_talk k c) as (Hh1 & Hs1 & Hl1). exists c'. rewrite Hh, Hs, Hl, Hh1, Hs1, Hl1. done.
Qed.

(** What a message adds to the history: nothing if it cannot be written itself,
    else the message and the text received, but for an error that cannot be
    written. *)
Definition reported (e : option exn) : bool := match e with Some e => renders (error_entry e) | None => true end.
Definition exchange (text : string) (items : list stream_item) (failure : option exn) : list (string * string) :=
  if renders (UserText text) then
    let (full, e) := heard items failure in
    ("user", text) :: (if reported e && truthy full then [("assistant", full)] else [])
  else [].

Lemma write_fixed e c : fixed e = true → write e c = (with_log (ch_log c ++ [e]) c, Ok tt).
Proof. intros He. unfold write. by rewrite fixed_renders. Qed.

Lemma write_fixed_all l c : Forall (λ e, fixed e = true) l → write_all l c = (with_log (ch_log c ++ l) c, Ok tt).
Proof.
  intros Hl. revert c. unfold write_all. induction Hl as [|e l He _ IH]; intros c; cbn [mfor].
  - rewrite app_nil_r. by destruct c.
  - unfold mbind. rewrite write_fixed by done. rewrite IH. cbn. by rewrite <-app_assoc.
Qed.

Lemma bubble_spec text c :
  write_all (user_bubble text) c =
    if renders (UserText text) then (with_log (ch_log c ++ user_bubble text) c, Ok tt)
    else (with_log (ch_log c ++ [Blank; YouLabel]) c, Raise (OtherError (markup_error (UserText text)))).
Proof.
  unfold write_all, user_bubble. cbn [mfor]. unfold mbind at 1. rewrite write_fixed by done.
  unfold mbind at 1. rewrite write_fixed by done. unfold mbind at 1, write at 1. cbn [with_log ch_log].
  destruct (renders (UserText text)).
  - unfold mbind. rewrite write_fixed by done. cbn. by rewrite <-!app_assoc.
  - by rewrite <-app_assoc.
Qed.

(** The screen while it waits for the first token. *)
Definition waiting (text : string) (c : C) : C :=
  ChatScreen (ch_role c) (ch_model c) (ch_history c ++ [("user", text)]) true (ch_token_count c)
    (ch_log c ++ user_bubble text ++ [AgentLabel (ch_role c); Thinking]).

Lemma send_waiting text items failure c :
  renders (UserText text) = true →
  _send text items failure c =
    (let! full_response :=
       mfinally (let! r := receive true "" items failure in do! report r.2 in mret r.1) close_answer in
     if truthy full_response then mmodify (add_message ("assistant", full_response)) else mret tt) (waiting text c).
Proof.
  intros Ht. unfold _send. unfold mbind at 1. rewrite bubble_spec, Ht. unfold mbind at 1, mmodify at 1.
  unfold mbind at 1, mgets at 1. unfold mbind at 1. rewrite write_fixed_all by (by repeat constructor).
  unfold mbind at 1, mmodify at 1. do 2 f_equal. unfold waiting. cbn. by rewrite <-app_assoc.
Qed.

Lemma send_spec text items failure c :
  ∃ c' r, _send text items failure c = (c', r) ∧
    ch_history c' = ch_history c ++ exchange text items failure ∧
    (ch_streaming c = false → ch_streaming c' = false) ∧
    (renders (UserText text) = true →
       ch_streaming c' = false ∧
       (tokens_of items ≠ [] → log_tokens (ch_log c') = written items) ∧
       (reported (heard items failure).2 = true → r = Ok tt ∧
          ∀ e, (heard items failure).2 = Some e → ∃ l, ch_log c' = l ++ [error_entry e; Blank])).
Proof.
  unfold exchange. destruct (renders (UserText text)) eqn:Ht.
  2: { eexists _, _. split; [unfold _send, mbind; by rewrite bubble_spec, Ht|]. cbn. by rewrite app_nil_r. }
  rewrite send_waiting by done. destruct (receive_spec true "" items failure (waiting text c)) as (c1 & E & Hh & Hs & Hl).
  destruct (heard items failure) as [full e]. cbn [fst snd] in *. unfold mbind at 1, mfinally, mbind at 1. rewrite E.
  cbn [waiting ch_history] in Hh. change ("" +:+ full) with full. cbn [fst snd].
  assert (tokens_of items ≠ [] → ∀ k, log_tokens k = [] → log_tokens (ch_log c1 ++ k) = written items) as Htok.
  { intros Hne k Hk. rewrite log_tokens_app, Hk, app_nil_r, Hl. by rewrite bool_decide_eq_false_2. }
  destruct e as [e|]; cbn [report reported].
  - assert (∀ k, log_tokens ([error_entry e] ++ k) = log_tokens k) as He by (by destruct e).
    unfold mbind, write. destruct (renders (error_entry e)); cbn [andb].
    + unfold mret, mmodify. cbv beta iota. destruct (truthy full); eexists _, _; (split; [reflexivity|]); cbn;
        rewrite Hh, <-?app_assoc; (split_and!; [done..|]); intros _; (split_and!; [done|intros Hne; by apply Htok|]); intros _;
        (split; [done|]); intros e' [= <-]; by eexists.
    + eexists _, _. split; [reflexivity|]. cbn. rewrite Hh. split_and!; [done..|]. intros _. split_and!; [done| |done].
      intros Hne. by apply Htok.
  - cbn [andb]. unfold mbind, mret, mmodify. cbv beta iota. destruct (truthy full); eexists _, _; (split; [reflexivity|]); cbn;
      rewrite Hh, <-?app_assoc; (split_and!; [done..|]); intros _; (split_and!; [done|intros Hne; by apply Htok|]); by intros _.
Qed.

(** ** Conversations *)

(** What a user does, with what the orchestrator makes of it. *)
Inductive chat_act :=
  | Opened (model : string)
  | Submitted (value : string) (items : list stream_item) (failure : option exn)
  | KeyPressed (k : pressed).

Definition act (c : C) (a : chat_act) : C :=
  match a with
  | Opened model =>
      _write_system (System ("Connected · " +:+ ch_role c +:+ " · " +:+ py_or model "default")) (with_model model c)
  | Submitted value items failure => (on_input_submitted value items failure c).1
  | KeyPressed k => press k c
  end.

(** What is said in an action. *)
Definition said (a : chat_act) : list (string * string) :=
  match a with
  | Submitted value items failure => if truthy (strip value) then exchange (strip value) items failure else []
  | _ => []
  end.

(** C26: Whatever is opened, submitted, answered, cut short or switched, also
    while an answer comes, the history that goes out with the next message has
    what was said in each exchange, in order and nothing else: the message, and
    as its answer the text received, all of it up to the end of the stream, to
    the exception that cut it, or to the token Rich cannot parse.  A message Rich
    cannot parse itself is lost, and so is an answer whose error message Rich
    cannot parse.  The screen then takes the next message. *)
Theorem chat_history_is_what_was_said role acts :
  let c := foldl act (new_chat role) acts in
  ch_streaming c = false ∧ ch_history c = concat (map said acts).
Proof.
  cbv zeta. induction acts as [|a acts IH] using rev_ind; [done|]. rewrite foldl_app, map_app, concat_app.
  destruct IH as [Hs Hh]. cbn [foldl map concat]. rewrite app_nil_r, <-Hh. set (c := foldl act _ acts) in *.
  destruct a as [model|value items failure|k]; cbn [act said].
  - destruct (write_talk (System ("Connected · " +:+ ch_role c +:+ " · " +:+ py_or model "default")) eq_refl (with_model model c))
      as (H1 & H2 & _). unfold _write_system. rewrite H1, H2, app_nil_r. done.
  - unfold on_input_submitted, mbind, mgets. rewrite Hs, orb_false_r. destruct (truthy (strip value)); [|by rewrite app_nil_r].
    cbn [negb]. destruct (send_spec (strip value) items failure c) as (c' & r & E & Hh' & Hs' & _).
    rewrite E. cbn [fst]. rewrite Hh'. split; [by apply Hs'|done].
  - destruct (press_talk k c) as (H1 & H2 & _). rewrite H1, H2, app_nil_r. done.
Qed.
End facts.

(** ** Behind the chat endpoint *)

(** The lines the transport makes of the events of a stream: an event whose data
    is on one line is that line and a blank one. *)
Definition event_lines (j : string) : list string := ["data: " +:+ j; ""].
Definition one_line (j : string) : Prop := contains nl j = false.

(** A line that comes at once. *)
Abbreviation prompt := (map (StreamLine 0)).
Definition in_time (l : stream_line) : Prop := (ln_silence l ≤ READ_TIMEOUT)%Z.

Section timing.
Context (loads : string → option (res (list (option string)))) (timeout_text : string).

(** A line that comes too late cuts the stream. *)
Lemma chat_stream_timed failure lines :
  let r := chat_stream loads timeout_text failure lines in
  let r0 := chat_stream loads timeout_text failure (prompt (map ln_text lines)) in
  r = r0 ∨ (r.2 = Some (AicafConnectionError timeout_text) ∧ r.1 `prefix_of` r0.1 ∧ ∃ l, l ∈ lines ∧ ¬ in_time l).
Proof.
  cbv zeta. induction lines as [|[t l] lines IH]; [by left|].
  cbn [map chat_stream ln_text ln_silence]. change (READ_TIMEOUT <? 0)%Z with false.
  destruct (Z.ltb_spec READ_TIMEOUT t) as [Hlate|Hin].
  { right. split; [done|]. split; [apply prefix_nil|]. exists (StreamLine t l). split; [by left|]. unfold in_time. cbn. lia. }
  destruct IH as [IH|(He & Hp & (l' & Hl' & Ht))].
  - left. cbn [map] in *. repeat case_match; congruence.
  - destruct (chat_stream loads timeout_text failure lines) as [ts e] eqn:E.
    destruct (chat_stream loads timeout_text failure (prompt (map ln_text lines))) as [ts0 e0]. cbn [fst snd] in *. subst e.
    assert (∃ l0, l0 ∈ StreamLine t l :: lines ∧ ¬ in_time l0) as Hlate by (exists l'; split; [by right|done]).
    repeat case_match; simplify_eq; cbn [fst snd]; try (by left); right; (split_and!; [done| |done]); try done; by apply prefix_cons.
Qed.
End timing.

Section wire.
Context (wire_lines : list string → list string).
Context (Hwire : ∀ js, Forall one_line js → wire_lines (map sse js) = concat (map event_lines js)).
Context (json_error : string → string) (json_chunk : string → bool → string).
Context (parse_ollama : string → option (res (string * bool))).
Context (loads : string → option (res (list (option string)))) (timeout_text : string).
Context (Hce : ∀ c d, is_object (json_chunk c d)) (Hee : ∀ m, is_object (json_error m)).
Context (Hcl : ∀ c d, one_line (json_chunk c d)) (Hel : ∀ m, one_line (json_error m)).
Context (Hc : ∀ c d, loads (json_chunk c d) = Some (Ok [Some c])) (He : ∀ m, loads (json_error m) = Some (Ok [])).

Local Abbreviation stream l := (chat_stream loads timeout_text None (prompt l)).

Lemma object_line j : is_object j →
  strip ("data: " +:+ j) = "data: " +:+ j ∧ strip (sdrop 5 ("data: " +:+ j)) = j ∧ j ≠ "[DONE]".
Proof.
  intros [t ->]. split_and!; [| |by intros [=]].
  - unfold strip. change (lstrip ("data: " +:+ ?x)) with ("data: " +:+ x).
    change ("data: " +:+ "{" +:+ ?x) with ("data: {" +:+ x). rewrite <-sapp_assoc. by rewrite rstrip_app.
  - change (sdrop 5 ("data: " +:+ "{" +:+ ?x)) with (" {" +:+ x). unfold strip.
    change (lstrip (" {" +:+ ?x)) with ("{" +:+ x). rewrite <-sapp_assoc. by rewrite rstrip_app.
Qed.

(** The tokens of an event, before those of the rest. *)
Lemma stream_event j choices l :
  is_object j → loads j = Some (Ok choices) →
  stream (event_lines j ++ l) =
    ((match choices with
      | choice :: _ => if truthy (default "" choice) then [default "" choice] else []
      | [] => []
      end) ++ (stream l).1, (stream l).2).
Proof.
  intros Hj Hl. destruct (object_line j Hj) as (H1 & H2 & H3). unfold event_lines. cbn [map Datatypes.app chat_stream ln_silence ln_text].
  change (READ_TIMEOUT <? 0)%Z with false. cbv iota. rewrite H1, H2, (bool_decide_eq_false_2 (j = "[DONE]")), Hl by done.
  change (startswith "data:" ("data: " +:+ j)) with true. change (truthy ("data: " +:+ j)) with true. cbn [negb orb].
  change (truthy (strip "")) with false. cbn [negb orb].
  destruct choices as [|choice cs]; destruct (stream l) as [ts e]; [done|]. by destruct (truthy _).
Qed.

Lemma stream_done l : stream (event_lines "[DONE]" ++ l) = ([], None).
Proof. done. Qed.

Lemma join_one x l : join "" ((if truthy x then [x] else []) ++ l) = x +:+ join "" l.
Proof. destruct (truthy x) eqn:E; cbn [Datatypes.app]; [apply join_nil_cons|]. by destruct x. Qed.

(** The data of events, and what is read of them: this text, no exception. *)
Definition events_read (out : list string) (text : string) : Prop :=
  ∃ js, out = map sse js ∧ Forall one_line js ∧
    join "" (stream (concat (map event_lines js))).1 = text ∧ (stream (concat (map event_lines js))).2 = None.

Lemma errors_read m : events_read (error_events json_error m) "".
Proof.
  exists [json_error m; "[DONE]"]. split; [done|]. split; [constructor; [done|by repeat constructor]|].
  cbn [map concat]. rewrite (stream_event (json_error m) []) by done. done.
Qed.

(** The data of the events the router makes of the lines of Ollama. *)
Lemma ollama_events lines after :
  events_read after "" →
  events_read (ollama_lines json_error json_chunk parse_ollama lines after) (sconcat (ollama_contents parse_ollama lines)).
Proof.
  intros Ha. induction lines as [|line lines IH]; cbn [ollama_lines ollama_contents]; [done|].
  destruct (truthy line); cbn [negb]; [|apply IH]. destruct (parse_ollama line) as [[[c [|]]|e]|]; [| |apply errors_read|apply IH].
  - exists [json_chunk c true; "[DONE]"]. split; [done|]. split; [by repeat constructor|].
    cbn [map concat]. rewrite (stream_event (json_chunk c true) [Some c]) by done. rewrite stream_done.
    cbn [default from_option id fst snd]. by rewrite join_one.
  - destruct IH as (js & -> & Hjs & Ht & Hn). exists (json_chunk c false :: js). split; [done|]. split; [by constructor|].
    cbn [map concat sconcat]. rewrite (stream_event (json_chunk c false) [Some c]) by done.
    cbn [default from_option id fst snd]. by rewrite join_one, Ht.
Qed.

(** The tokens of the screen put together are what Ollama sent. *)
Lemma chat_tokens_ollama o :
  let r := stream (wire_lines (_stream_ollama json_error json_chunk parse_ollama o)) in
  join "" r.1 = sconcat (received parse_ollama o) ∧ r.2 = None.
Proof.
  assert (events_read (_stream_ollama json_error json_chunk parse_ollama o) (sconcat (received parse_ollama o)))
    as (js & -> & Hjs & Ht & Hn); [|cbv zeta; by rewrite Hwire].
  unfold _stream_ollama, received. destruct o as [resp|e]; [|apply errors_read].
  destruct (sr_status resp =? 200)%Z; cbn [negb]; [|apply errors_read].
  apply ollama_events. destruct (sr_failure resp); [apply errors_read|]. by exists [].
Qed.

Lemma join_prefix (l k : list string) : l `prefix_of` k → ∃ rest, join "" k = join "" l +:+ rest.
Proof.
  intros [m ->]. exists (join "" m). induction l as [|x l IH]; [done|]. cbn [Datatypes.app].
  by rewrite !join_nil_cons, IH, sapp_assoc.
Qed.

Lemma join_sconcat (l : list string) : join "" l = sconcat l.
Proof. induction l as [|x l IH]; [done|]. by rewrite join_nil_cons, IH. Qed.

(** C25: A message sent while Ollama serves the chat, with the lines of the
    stream arriving at any pace and the role and the model switched meanwhile:
    when every line comes within the client's 30 seconds, the answer kept in the
    history is the text Ollama sent up to its [done] line, and no error is shown;
    otherwise it is what came before, and the log ends with the connection
    error.  The token lines of the log are the tokens of the answer.  (The texts
    are such that Rich can parse them; C26 has the others.) *)
Theorem chat_keeps_what_ollama_sent `{!Markup chat_entry} text o timed items c :
  let full := sconcat (received parse_ollama o) in
  let '(tokens, failure) := chat_stream loads timeout_text None timed in
  map ln_text timed = wire_lines (_stream_ollama json_error json_chunk parse_ollama o) →
  tokens_of items = tokens →
  (∀ e, fixed e = true → renders e = true) → renders (UserText text) = true →
  Forall (λ t, renders (TokenLine t) = true) tokens → renders (ConnectionLost timeout_text) = true →
  ∃ c' kept, _send text items failure c = (c', Ok tt) ∧ ch_streaming c' = false ∧
    ch_history c' = ch_history c ++ ("user", text) :: (if truthy kept then [("assistant", kept)] else []) ∧
    (tokens ≠ [] → log_tokens (ch_log c') = tokens) ∧ kept = join "" tokens ∧
    ((kept = full ∧ failure = None) ∨
     (∃ rest l, full = kept +:+ rest ∧ ch_log c' = l ++ [ConnectionLost timeout_text; Blank] ∧
        ∃ late, late ∈ timed ∧ ¬ in_time late)).
Proof.
  cbv zeta. pose proof (chat_stream_timed loads timeout_text None timed) as Ht. cbv zeta in Ht.
  destruct (chat_stream loads timeout_text None timed) as [tokens failure].
  intros Hw Hi Hf Hu Hts Hto. rewrite Hw in Ht. destruct (chat_tokens_ollama o) as [Hfull Hnone]. rewrite <-Hi in Hts.
  destruct (send_spec Hf text items failure c) as (c' & r & Hs & Hh & _ & Hok). destruct (Hok Hu) as (Hst & Hlog & Hrep).
  unfold exchange in Hh. rewrite Hu in Hh. destruct (heard_all items failure Hts) as [Hheard Hwr].
  rewrite Hheard in Hh, Hrep. rewrite Hi, <-join_sconcat in Hh. rewrite Hwr, Hi in Hlog. cbn [fst snd] in *.
  assert (reported failure = true) as Hreported.
  { destruct Ht as [Ht|[-> _]]; [|exact Hto]. rewrite <-Ht in Hnone. cbn in Hnone. by subst failure. }
  destruct (Hrep Hreported) as [-> Hend]. rewrite Hreported in Hh. cbn [andb] in Hh.
  exists c', (join "" tokens). split_and!; [done|done|done|exact Hlog|done|].
  destruct Ht as [Ht|(-> & Hp & l & Hl & Hlate)].
  - left. rewrite <-Ht in Hfull, Hnone. done.
  - right. destruct (join_prefix _ _ Hp) as [rest Hrest]. rewrite Hfull in Hrest. destruct (Hend _ eq_refl) as [k Hk].
    exists rest, k. split; [done|]. split; [exact Hk|]. by exists l.
Qed.
End wire.

(** *** Slash commands *)
Section commands.
Context {R A : Type} `{!Redis R} `{!AgentRunner R A} `{!PatchSink R A} `{!ChatServices (R * A)} `{!Markup chat_entry}.
Context (loads : string → option (res (list (option string)))) (timeout_text : string) (json_response : string → string).

(** The request of a message: the history with it, as a stream. *)
Definition request_of (text : string) (c : chat_screen) : chat_request :=
  ChatRequest (ch_model c) (map (λ m, Message m.1 (CText m.2)) (ch_history c ++ [("user", text)])) true None None None.

(** The lines of the body of an answer that is no stream: one line of JSON. *)
Definition body_lines (reply : chat_reply) : option (list string) :=
  match reply with CommandReply text => Some [json_response text] | ModelReply _ => None end.

(** A slash command typed in the chat screen runs, but its answer is a JSON
    body and no stream: nothing of it is kept, whatever the command answers. *)
Theorem command_in_chat_is_not_answered ttl par rounds worker profile depth cache slots show fuel sid text cmd c (w w' : R * A) reply :
  (∀ t, is_object (json_response t)) → (∀ e, fixed e = true → renders e = true) → renders (UserText text) = true →
  CommandParser.parse (flatten_message <$> cr_messages (request_of text c)) = Some cmd →
  chat_completions ttl par rounds worker profile depth cache slots show fuel sid (request_of text c) w = (w', Ok reply) →
  ∃ lines c', body_lines reply = Some lines ∧ chat_stream loads timeout_text None (prompt lines) = ([], None) ∧
    _send text [] None c = (c', Ok tt) ∧ ch_history c' = ch_history c ++ [("user", text)].
Proof.
  intros Hj Hf Hu Hp. unfold chat_completions. rewrite Hp. unfold mbind at 1.
  destruct (_handle_command _ _ _ _ _ _ _ _ _ _ _ _ _ w) as [w1 [t|e]]; [|done]. intros [= <- <-].
  destruct (send_spec Hf text [] None c) as (c' & r & Hs & Hh & _ & Hok). destruct (Hok Hu) as (_ & _ & Hr).
  destruct (Hr eq_refl) as [-> _]. exists [json_response t], c'. split_and!; [done| |done|].
  - destruct (Hj t) as [j ->]. cbn [map chat_stream ln_text ln_silence]. change (READ_TIMEOUT <? 0)%Z with false.
    assert (startswith "data:" (strip ("{" +:+ j +:+ "}")) = false) as ->.
    { unfold strip. change (lstrip ("{" +:+ ?x)) with ("{" +:+ x). rewrite <-sapp_assoc. by rewrite rstrip_app. }
    by rewrite orb_true_r.
  - rewrite Hh. unfold exchange. by rewrite Hu.
Qed.
End commands.

(** ** Concrete runs *)
Module Concrete.
Import TuiStore.Concrete.

(** Everything renders but a closing tag without its opening one, which the text
    of the exception has, too. *)
Definition text_of (e : chat_entry) : string :=
  match e with
  | UserText t | TokenLine t | ReplyText t | ConnectionLost t | ChatError t | System t => t
  | _ => ""
  end.
#[local] Instance rich : Markup chat_entry :=
  {| renders e := negb (contains "[/" (text_of e)); markup_error e := "closing tag " +:+ text_of e |}.

Definition json_chunk (c : string) (d : bool) : string := "{" +:+ dumps (inl (c, d) : (string * bool) + string) +:+ "}".
Definition json_error (m : string) : string := "{" +:+ dumps (inr m : (string * bool) + string) +:+ "}".
Definition loads_chunk (s : string) : option (res (list (option string))) :=
  match loads (A := (string * bool) + string) (stake (String.length s - 2) (sdrop 1 s)) with
  | Some (inl (c, _)) => Some (Ok [Some c])
  | Some (inr _) => Some (Ok [])
  | None => None
  end.
Definition parse_ollama (s : string) : option (res (string * bool)) := Some (Ok (s, bool_decide (s = "c"))).
Definition wire_lines (events : list string) : list string :=
  concat (map (λ e, [stake (String.length e - 2) e; ""]) events).

Lemma braces_one_line p : one_line ("{" +:+ digits p +:+ "}").
Proof.
  unfold one_line. change (contains nl ("{" +:+ ?x)) with (contains nl x).
  induction p; [change (contains nl (digits p~1 +:+ "}")) with (contains nl (digits p +:+ "}"))
               |change (contains nl (digits p~0 +:+ "}")) with (contains nl (digits p +:+ "}"))|]; done.
Qed.

Lemma wire_lines_sse js : Forall one_line js → wire_lines (map sse js) = concat (map event_lines js).
Proof.
  intros _. induction js as [|j js IH]; [done|]. unfold wire_lines in *. cbn [map concat]. rewrite IH. f_equal.
  unfold sse, event_lines. rewrite <-!(sapp_assoc _ _ (nl +:+ nl)).
  by rewrite <-(Router.Concrete.stake_app ("data: " +:+ j) (nl +:+ nl)) at 3.
Qed.

Lemma loads_braces a : loads (A := (string * bool) + string) (stake (String.length ("{" +:+ dumps a +:+ "}") - 2) (sdrop 1 ("{" +:+ dumps a +:+ "}"))) = Some a.
Proof.
  change (sdrop 1 ("{" +:+ ?x)) with x. pose proof (Router.Concrete.stake_app (dumps a) "}") as Hs.
  change (String.length ("{" +:+ ?x) - 2) with (String.length x - 1). change (String.length "}") with 1 in Hs. rewrite Hs.
  apply loads_dumps.
Qed.

Lemma loads_json_chunk c d : loads_chunk (json_chunk c d) = Some (Ok [Some c]).
Proof. unfold loads_chunk, json_chunk. by rewrite loads_braces. Qed.
Lemma loads_json_error m : loads_chunk (json_error m) = Some (Ok []).
Proof. unfold loads_chunk, json_error. by rewrite loads_braces. Qed.

Lemma fixed_renders e : fixed e = true → renders e = true.
Proof. by destruct e. Qed.

Definition asked : chat_screen := (_send "hi" [Token "hello"] None (new_chat "coder")).1.

(** The answer of Ollama in time, with [r] pressed meanwhile; and cut after its
    first token. *)
Definition the_lines : list string := wire_lines (_stream_ollama json_error json_chunk parse_ollama Router.Concrete.good).
Definition slow : list stream_line :=
  match the_lines with a :: b :: ls => StreamLine 1 a :: StreamLine 0 b :: map (StreamLine 31) ls | _ => [] end.

Lemma chat_keeps_witness :
  (∃ c', _send "go" [Token "a"; Pressed RoleKey; Token "b"; Token "c"] None asked = (c', Ok tt) ∧
     ch_history c' = [("user", "hi"); ("assistant", "hello"); ("user", "go"); ("assistant", "abc")]) ∧
  (∃ c' l, _send "go" [Token "a"] (Some (AicafConnectionError "")) asked = (c', Ok tt) ∧
     ch_history c' = [("user", "hi"); ("assistant", "hello"); ("user", "go"); ("assistant", "a")] ∧
     ch_log c' = l ++ [ConnectionLost ""; Blank]).
Proof.
  assert (chat_stream loads_chunk "" None (prompt the_lines) = (["a"; "b"; "c"], None)) as E1 by by vm_compute.
  assert (chat_stream loads_chunk "" None slow = (["a"], Some (AicafConnectionError ""))) as E2 by by vm_compute.
  assert (map ln_text slow = the_lines) as Hslow by by vm_compute.
  split.
  - pose proof (chat_keeps_what_ollama_sent wire_lines wire_lines_sse json_error json_chunk parse_ollama loads_chunk ""
      (λ c d, ex_intro _ _ eq_refl) (λ m, ex_intro _ _ eq_refl) (λ c d, braces_one_line _) (λ m, braces_one_line _)
      loads_json_chunk loads_json_error "go" Router.Concrete.good (prompt the_lines)
      [Token "a"; Pressed RoleKey; Token "b"; Token "c"] asked) as H. rewrite E1 in H.
    destruct H as (c' & kept & Hs & _ & Hh & _ & -> & _);
      [by rewrite map_map, map_id|done|exact fixed_renders|done|by repeat constructor|done|]. exists c'. split; [exact Hs|exact Hh].
  - pose proof (chat_keeps_what_ollama_sent wire_lines wire_lines_sse json_error json_chunk parse_ollama loads_chunk ""
      (λ c d, ex_intro _ _ eq_refl) (λ m, ex_intro _ _ eq_refl) (λ c d, braces_one_line _) (λ m, braces_one_line _)
      loads_json_chunk loads_json_error "go" Router.Concrete.good slow [Token "a"] asked) as H. rewrite E2 in H.
    destruct H as (c' & kept & Hs & _ & Hh & _ & -> & [[_ [=]]|(rest & l & _ & Hl & _)]);
      [exact Hslow|done|exact fixed_renders|done|by repeat constructor|done|]. exists c', l. split; [exact Hs|split; [exact Hh|exact Hl]].
Defined.

(** When Ollama is down the message stays unanswered with the spinner below it,
    and no error is shown. *)
Example no_answer_no_error :
  chat_stream loads_chunk "" None (prompt (wire_lines (_stream_ollama json_error json_chunk parse_ollama (Raise TimeoutError)))) = ([], None) ∧
  ch_log (_send "go" [] None (new_chat "coder")).1 = user_bubble "go" ++ [AgentLabel "coder"; Thinking; Blank].
Proof. split; by vm_compute. Qed.

(** A token that closes a tag which is not open: neither its error message can
    be written, so that nothing of the answer is kept. *)
Example unmatched_tag_loses_the_answer :
  let (c, r) := _send "why" [Token "since "; Token "a[/b]"; Token "c"] None (new_chat "coder") in
  r = Raise (OtherError "closing tag closing tag a[/b]") ∧ ch_history c = [("user", "why")] ∧
  log_tokens (ch_log c) = ["since "].
Proof. vm_compute. split_and!; reflexivity. Qed.

Lemma history_witness :
  let c := foldl act (new_chat "coder")
    [Opened "m"; Submitted " hi " [Token "hel"; Pressed (ModelKey None); Token "lo"] None; KeyPressed RoleKey;
     Submitted "and" [Token "ye"] (Some (AicafConnectionError "cut")); Submitted "" [] None; Submitted "so?" [] None] in
  ch_streaming c = false ∧
  ch_history c = [("user", "hi"); ("assistant", "hello"); ("user", "and"); ("assistant", "ye"); ("user", "so?")].
Proof. apply (chat_history_is_what_was_said fixed_renders "coder"). Defined.

Import Api.Concrete.
#[local] Existing Instances runner sink services.

Lemma command_witness :
  ∃ w' reply lines c',
    chat_completions 60 2 3 (λ x, x) "laptop" 50 1000 2 (λ _, "0") 5 "fresh" (request_of "/execute" (new_chat "coder")) loaded
      = (w', Ok reply) ∧
    body_lines (λ t, "{" +:+ t +:+ "}") reply = Some lines ∧
    _send "/execute" [] None (new_chat "coder") = (c', Ok tt) ∧ ch_history c' = [("user", "/execute")].
Proof.
  destruct (chat_completions 60 2 3 (λ x, x) "laptop" 50 1000 2 (λ _, "0") 5 "fresh" (request_of "/execute" (new_chat "coder")) loaded)
    as [w' [reply|e]] eqn:E; [|by vm_compute in E].
  destruct (command_in_chat_is_not_answered loads_chunk "" (λ t, "{" +:+ t +:+ "}") 60 2 3 (λ x, x) "laptop" 50 1000 2 (λ _, "0") 5
    "fresh" "/execute" (ParsedCommand "execute" "") (new_chat "coder") loaded w' reply (λ t, ex_intro _ t eq_refl) fixed_renders
    eq_refl ltac:(by vm_compute) E) as (lines & c' & H1 & _ & H2 & H3).
  by exists w', reply, lines, c'.
Defined.

(** The answer of the coder, drawn again after [r], stands under the next role. *)
Example redrawn_under_the_next_role :
  ch_log asked = Hint :: user_bubble "hi" ++ [AgentLabel "coder"; TokenLine "hello"; Blank] ∧
  ch_log (_send "and" [Token "yes"] None (_cycle_role asked)).1 =
    Hint :: user_bubble "hi" ++ [AgentLabel "reviewer"; ReplyText "hello"; Blank] ++ user_bubble "and" ++
    [AgentLabel "reviewer"; TokenLine "yes"; Blank].
Proof. split; reflexivity. Qed.

(** Of the keys the footer announces for the chat, "/" and "p" do nothing. *)
Example announced_keys X J `{!Orchestrator X} k (w : chat_screen * app X J) :
  k = "/" ∨ k = "p" → chat_key k false w = (w, Ok tt).
Proof. by intros [->| ->]. Qed.
End Concrete.
