(* ===== verification/TuiSystem.v ===== *)
(** * The interface in front of the orchestrator

    The client's requests answered by the endpoints of the orchestrator that
    deal with agents (orchestrator/main.py: [agent_list], [agent_message]) on
    the registry of the agent manager: what becomes of a message typed for
    nobody in particular (one typed for a role is in TuiRefresh.v).  The other
    requests are not served here. *)

From S2P Require Import Prelude PyStr Models AgentManager Api TuiState TuiStore TuiClient TuiServices.
Local Open Scope string_scope.
Local Open Scope list_scope.
Local Open Scope nat_scope.
Local Open Scope py_scope.

(** [Agent.to_dict], as far as the interface reads it. *)
Definition to_dict (a : agent) : agent_dict :=
  AgentDict (a_agent_id a) (Some (a_session_id a)) (Some (a_role a)) (Some (Endpoints.status_name (a_status a)))
    (a_model a) (a_task a) (Some (a_started_at a)) (a_ended_at a).

Definition http_answer {A} (r : res A) : http_result unit :=
  match r with
  | Ok _ => HttpOk tt
  | Raise (HTTPException code detail) => HttpStatus code (Some detail)
  | Raise _ => HttpStatus 500 None
  end.

#[export] Instance AgentEndpoints : Orchestrator registry := {|
  send A r g :=
    match r in request A return registry * http_result A with
    | GetAgents => (g, HttpOk (Some (map to_dict (AgentManager.list_agents g))))
    | PostMessage aid message _ =>
        let (g', answer) := Endpoints.agent_message aid message g in (g', http_answer answer)
    | _ => (g, HttpStatus 404 (Some "Not Found"))
    end;
  silence _ _ _ := 0%Z;
  timeout_text := ""
|}.

Section system.
Context {J : Type}.
Context (now : Z).
Local Abbreviation W := (tui registry J).

Definition reg (w : W) : registry := cl_ext (tu_client w).

Definition own_agents (sid : string) (g : list agent) : list agent :=
  List.filter (λ a, bool_decide (a_session_id a = sid)) g.

Lemma own_agents_NoDup sid l : NoDup (map a_agent_id l) → NoDup (map a_agent_id (own_agents sid l)).
Proof.
  intros Hnd. refine (sublist_NoDup _ (map a_agent_id l) Hnd _).
  unfold own_agents. induction l as [|a l IH]; [constructor|]. cbn in Hnd |- *. apply NoDup_cons in Hnd as [_ Hnd].
  case_bool_decide; cbn; constructor; auto.
Qed.

(** A message to nobody in particular goes to the architect the session knows,
    also when that one has ended: the orchestrator refuses it, and the message
    is lost without a trace, whoever else is running. *)
Theorem bare_message_to_ended_architect_is_lost raw aid b (w : W) s :
  as_session (tu_state w) = Some s → cl_http (tu_client w) = true →
  _AT_PATTERN (strip raw) = None → _resolve_agent s "architect" = Some aid →
  dict_get aid (reg w) = Some b → is_terminal b = true →
  send_message now raw w = (w, Ok tt).
Proof.
  intros Hs Hc Hat Hr Hb Ht. unfold send_message, session, mbind, mgets. rewrite Hs, Hat. unfold bare_target. rewrite Hr.
  pose proof (deliver_spec now aid (strip raw) (strip raw) w Hc) as Hd.
  assert (answer (PostMessage aid (strip raw) "user") (reg w) =
            (reg w, HttpStatus 409 (Some ("Agent " +:+ Endpoints.quote aid +:+ " is in terminal state (" +:+
               Endpoints.status_name (a_status b) +:+ ") and cannot receive messages")))) as Hsend.
  { rewrite answer_in_time by done. cbn [send AgentEndpoints]. unfold Endpoints.agent_message, AgentManager.send_message. rewrite Hb, Ht.
    unfold get_agent. by rewrite Hb. }
  unfold reg in Hsend. rewrite Hsend in Hd. rewrite Hd. destruct w as [[u h g] st ss]. cbn in Hc. by rewrite Hc.
Qed.
End system.

Module Concrete.

Definition agent_of (id role : string) (st : agent_status) : string * agent :=
  (id, Agent id role "s" st None 0 (Some 1%Z) None None None None [] [] []).
Definition reg0 : registry := [agent_of "a1" "architect" Done; agent_of "c1" "coder" ARunning].
Definition s0 : tui_session := SessionState "s" "active" "" [] [] [] 0 0 0 [] [].
Definition w0 : tui registry string :=
  Tui (Client "http://h" true reg0) (ProjectStore [] [] "" default_ui (StoreFiles None None))
    (AppState initial_ui None (Some s0)).

Lemma s0_ok : session_ok s0.
Proof.
  constructor; try apply keyed_nil; try (vm_compute; lia); try done. intros t H. by apply elem_of_nil in H.
Qed.

Lemma reg0_keyed : keyed a_agent_id reg0.
Proof.
  split; [apply (bool_decide_unpack _); vm_compute; exact I|]. intros k v H. unfold reg0 in H.
  rewrite !elem_of_cons in H. destruct H as [H|[H|H]]; [..|by apply elem_of_nil in H]; injection H as -> ->; reflexivity.
Qed.

Definition loaded : tui registry string := (refresh_agents 5 "s" w0).1.

Lemma lost_witness :
  (∃ b, dict_get "c1" (reg loaded) = Some b ∧ a_status b = ARunning) ∧
  send_message 5 "please stop" loaded = (loaded, Ok tt).
Proof.
  split; [by eexists|].
  apply (bare_message_to_ended_architect_is_lost 5 "please stop" "a1" (agent_of "a1" "architect" Done).2 loaded
           (default s0 (as_session (tu_state loaded)))); reflexivity.
Defined.

End Concrete.
