(* ===== verification/TuiRefresh.v ===== *)
(** * Opening a session and keeping it up to date
    (tui/tui/screens/session.py: [_init], [_refresh_loop])

    What the session screen does when it is opened and every two seconds from
    then on, and what it shows afterwards of the tasks and agents of the
    orchestrator (orchestrator/main.py: [task_status], [agent_list]); and what
    becomes of a message typed for a role then ([agent_message]). *)

From S2P Require Import Prelude PyStr Models Redis Dag TaskQueue TaskQueueFacts AgentManager Api.
From S2P Require Import TaskQueueProps TuiState TuiStore TuiClient TuiServices TuiUtils TuiWidgets TuiSystem.
Local Open Scope string_scope.
Local Open Scope list_scope.
Local Open Scope nat_scope.
Local Open Scope py_scope.

(** ** SessionScreen *)
Section screen.
Context {X J : Type} `{!Orchestrator X}.
Context (dumps_ui : raw_ui → string).
Context (now : Z).
Local Abbreviation W := (tui X J).

(** Whether the sidebar is shown; the loops of the socket and of the refresh
    start before the state of the interface is saved. *)
Definition _init (session_id : string) : M W bool :=
  do! load_session now session_id in
  let! visible := mgets (λ w : W, ui_dag_sidebar_open (as_ui (tu_state w))) in
  do! on_store (save_ui_state dumps_ui None (Some session_id) (Some "session") None) in
  mret visible.

(** The body of the loop after the sleep. *)
Definition refresh_round (session_id : string) : M W unit :=
  mtry (do! refresh_tasks session_id in refresh_agents now session_id) (λ _, mret tt).

(** The loop until it is cancelled: what the orchestrator does during each
    sleep. *)
Fixpoint _refresh_loop (session_id : string) (sleeps : list (X → X)) : M W unit :=
  match sleeps with
  | [] => mret tt
  | f :: sleeps' =>
      do! on_client (mmodify (λ c : client X, Client (cl_base_url c) (cl_http c) (f (cl_ext c)))) in
      do! refresh_round session_id in
      _refresh_loop session_id sleeps'
  end.
End screen.

(** The same interface in front of a server in another state. *)
Definition in_front {X J} (x : X) (w : tui X J) : tui X J :=
  Tui (Client (cl_base_url (tu_client w)) (cl_http (tu_client w)) x) (tu_store w) (tu_state w).

(** ** The endpoints *)

Definition task_status_name (s : task_status) : string :=
  match s with
  | Pending => "pending" | Running => "running" | Complete => "complete" | Failed => "failed" | Blocked => "blocked"
  end.

(** A task as its dict, as far as the interface reads it. *)
Definition task_view (t : task) : task_dict :=
  TaskDict (t_id t) (t_role t) (t_desc t) (Some (task_status_name (t_status t))) (deps_of t) (t_result t).

#[export] Instance SessionEndpoints {R} `{!Redis R} : Orchestrator (R * registry) := {|
  send A r x :=
    match r in request A return (R * registry) * http_result A with
    | GetTaskStatus sid => (x, HttpOk (Some (map task_view (sc_tasks (get_session_status sid x.1)))))
    | GetAgents => (x, HttpOk (Some (map to_dict (AgentManager.list_agents x.2))))
    | PostMessage aid message _ =>
        let (g, answer) := Endpoints.agent_message aid message x.2 in ((x.1, g), http_answer answer)
    | _ => (x, HttpStatus 404 (Some "Not Found"))
    end;
  silence _ _ _ := 0%Z;
  timeout_text := ""
|}.

(** ** Facts *)

(** *** Updates of a dict, one after the other *)
Section upserts.
Context {D V : Type} (key : D → string) (upd : D → V → V) (new : D → V).

Definition upserted (d : D) (m : list (string * V)) : V :=
  match dict_get (key d) m with Some v => upd d v | None => new d end.
Fixpoint upsert_all (ds : list D) (m : list (string * V)) : list (string * V) :=
  match ds with [] => m | d :: ds' => upsert_all ds' (dict_set (key d) (upserted d m) m) end.

Lemma upsert_all_other ds m k : k ∉ map key ds → dict_get k (upsert_all ds m) = dict_get k m.
Proof.
  revert m. induction ds as [|d ds IH]; intros m Hk; [done|]. apply not_elem_of_cons in Hk as [Hne Hk].
  cbn [upsert_all]. rewrite (IH _ Hk), dict_get_set. by rewrite decide_False.
Qed.

(** Each entry is what its only update makes of the old one. *)
Lemma upsert_all_get ds m d :
  NoDup (map key ds) → d ∈ ds → dict_get (key d) (upsert_all ds m) = Some (upserted d m).
Proof.
  revert m. induction ds as [|d' ds IH]; intros m Hnd Hd; [by apply not_elem_of_nil in Hd|].
  apply NoDup_cons in Hnd as [Hn Hnd]. cbn [upsert_all]. apply elem_of_cons in Hd as [<-|Hd].
  - rewrite upsert_all_other by done. by rewrite dict_get_set, decide_True.
  - assert (key d' ≠ key d) as Hne.
    { intros He. apply Hn. rewrite He. apply list_elem_of_fmap. by exists d. }
    rewrite (IH _ Hnd Hd). unfold upserted at 1 3. by rewrite dict_get_set, decide_False.
Qed.
End upserts.

(** *** A refresh, of any orchestrator that lists tasks and agents *)
Section refresh.
Context {X J : Type} `{!Orchestrator X}.
Context (now : Z).
Local Abbreviation W := (tui X J).

Definition with_session (f : tui_session → tui_session) (w : W) : W :=
  Tui (tu_client w) (tu_store w) (on_session f (tu_state w)).

Definition new_tasks (ds : list task_dict) (s : tui_session) : tui_session :=
  TuiState.with_tasks (upsert_all td_id update_task new_task ds (us_tasks s)) s.
Definition new_agents (ds : list agent_dict) (s : tui_session) : tui_session :=
  TuiState.with_agents (upsert_all ad_agent_id TuiState.update_agent (TuiState.new_agent now) ds (us_agents s)) s.

Lemma upsert_tasks ds (w : W) :
  mfor ds (λ t, on_state (upsert_task t)) w = (with_session (new_tasks ds) w, Ok tt).
Proof.
  revert w. induction ds as [|d ds IH]; intros w; cbn [mfor].
  - destruct w as [c st [ui p [[]|]]]; done.
  - unfold mbind, on_state at 1, mmodify at 1. rewrite IH. destruct w as [c st [ui p [[]|]]]; done.
Qed.

Definition listed (sid : string) (agents : list agent_dict) : list agent_dict :=
  List.filter (λ a, bool_decide (ad_session_id a = Some sid)) agents.

Lemma upsert_agents sid ds (w : W) :
  upsert_own_agents now sid ds w = (with_session (new_agents (listed sid ds)) w, Ok tt).
Proof.
  unfold upsert_own_agents. revert w. induction ds as [|d ds IH]; intros w; cbn [mfor listed List.filter].
  - destruct w as [c st [ui p [[]|]]]; done.
  - unfold mbind. destruct (bool_decide _); [|apply IH]. unfold on_state at 1, mmodify at 1. rewrite IH. destruct w as [c st [ui p [[]|]]]; done.
Qed.

Lemma list_served {A} (q : request (option (list A))) (l : list A) (w : W) :
  cl_http (tu_client w) = true → answer q (cl_ext (tu_client w)) = (cl_ext (tu_client w), HttpOk (Some l)) →
  on_client (list_of q) w = (w, Ok l).
Proof.
  destruct w as [[url http x] st s]. cbn [tu_client cl_http cl_ext]. intros -> Hs.
  unfold on_client, list_of, call, mbind, _check. cbn [tu_client cl_http cl_ext tu_store tu_state cl_base_url]. by rewrite Hs.
Qed.

Lemma refresh_served sid tasks agents (w : W) :
  let x := cl_ext (tu_client w) in
  cl_http (tu_client w) = true → answer (GetTaskStatus sid) x = (x, HttpOk (Some tasks)) →
  answer GetAgents x = (x, HttpOk (Some agents)) →
  refresh_round now sid w = (with_session (λ s, new_agents (listed sid agents) (new_tasks tasks s)) w, Ok tt).
Proof.
  cbv zeta. intros Hc Ht Ha. unfold refresh_round, mtry, mbind at 1.
  assert (refresh_tasks sid w = (with_session (new_tasks tasks) w, Ok tt)) as ->.
  { unfold refresh_tasks, catching, mtry, mbind. erewrite list_served by done. by rewrite upsert_tasks. }
  unfold refresh_agents, catching, mtry, mbind, TuiClient.list_agents. erewrite list_served by done.
  rewrite upsert_agents. by destruct w as [c st [ui p [s|]]].
Qed.

Lemma status_of_view t old : ti_status (match old with Some i => update_task (task_view t) i | None => new_task (task_view t) end) = task_status_name (t_status t).
Proof. by destruct old. Qed.

Lemma task_row_shown ellipsis k i s : dict_get k (us_tasks s) = Some i → task_row ellipsis i ∈ sidebar_lines ellipsis s.
Proof.
  intros Hi%dict_get_elem. unfold sidebar_lines. apply elem_of_app. left.
  assert (task_row ellipsis i ∈ map (task_row ellipsis) (tasks_list s)) as Hin.
  { apply list_elem_of_fmap. exists i. split; [done|]. apply list_elem_of_fmap. by exists (k, i). }
  unfold part. destruct (map _ (tasks_list s)); [by apply not_elem_of_nil in Hin|].
  apply elem_of_app. left. by right; right.
Qed.

(** Every task of a plan that was listed has its status, and a row. *)
Lemma listed_tasks_shown {R} `{RedisLaws R} ellipsis sid (r : R) ds s t :
  plan_wf sid r → t ∈ _all_tasks r sid →
  let s' := new_agents ds (new_tasks (map task_view (_all_tasks r sid)) s) in
  ∃ i, dict_get (t_id t) (us_tasks s') = Some i ∧ ti_status i = task_status_name (t_status t) ∧
    task_row ellipsis i ∈ sidebar_lines ellipsis s'.
Proof.
  intros Hwf Ht. cbv zeta. cbn [new_agents new_tasks TuiState.with_agents TuiState.with_tasks us_tasks].
  assert (dict_get (t_id t) (upsert_all td_id update_task new_task (map task_view (_all_tasks r sid)) (us_tasks s)) =
    Some (upserted td_id update_task new_task (task_view t) (us_tasks s))) as Hi.
  { apply (upsert_all_get td_id update_task new_task _ _ (task_view t)).
    - rewrite map_map. by apply all_tasks_ids_NoDup.
    - apply list_elem_of_fmap. by exists t. }
  eexists. split; [exact Hi|]. split; [apply status_of_view|]. by eapply task_row_shown.
Qed.

Lemma other_tasks_kept {R} `{Redis R} sid (r : R) ds s tid :
  tid ∉ task_ids (_all_tasks r sid) →
  dict_get tid (us_tasks (new_agents ds (new_tasks (map task_view (_all_tasks r sid)) s))) = dict_get tid (us_tasks s).
Proof. intros Ht. apply upsert_all_other. by rewrite map_map. Qed.
End refresh.

Section facts.
Context {R J : Type} `{RedisLaws R}.
Context (now : Z).
Local Abbreviation W := (tui (R * registry) J).

Lemma listed_own sid l : listed sid (map to_dict l) = map to_dict (own_agents sid l).
Proof.
  unfold listed, own_agents. induction l as [|a l IH]; [done|]. cbn [map List.filter to_dict ad_session_id].
  destruct (decide (a_session_id a = sid)) as [->|Hne].
  - rewrite !bool_decide_eq_true_2 by done. cbn [map]. by rewrite IH.
  - rewrite !bool_decide_eq_false_2 by congruence. apply IH.
Qed.

(** C23: A refresh of an open session brings the interface up to date with
    the orchestrator, whatever it showed before: every task of the plan has the
    status the queue gives it, and a row in the sidebar with that status; every
    agent of the session has the status the agent manager gives it; the tasks
    the queue does not know are left alone. *)
Theorem refresh_shows_the_plan ellipsis sid (w : W) s :
  let r := (cl_ext (tu_client w)).1 in
  as_session (tu_state w) = Some s → cl_http (tu_client w) = true → plan_wf sid r → keyed a_agent_id (cl_ext (tu_client w)).2 →
  ∃ w' s', refresh_round now sid w = (w', Ok tt) ∧ as_session (tu_state w') = Some s' ∧
    (∀ t, t ∈ _all_tasks r sid → ∃ i, dict_get (t_id t) (us_tasks s') = Some i ∧
       ti_status i = task_status_name (t_status t) ∧ task_row ellipsis i ∈ sidebar_lines ellipsis s') ∧
    (∀ a, a ∈ (cl_ext (tu_client w)).2.*2 → a_session_id a = sid → ∃ i, dict_get (a_agent_id a) (us_agents s') = Some i ∧
       ai_status i = Endpoints.status_name (a_status a)) ∧
    (∀ tid, tid ∉ task_ids (_all_tasks r sid) → dict_get tid (us_tasks s') = dict_get tid (us_tasks s)).
Proof.
  cbv zeta. intros Hs Hc Hwf Hk. set (r := (cl_ext (tu_client w)).1) in *. set (g := (cl_ext (tu_client w)).2) in *.
  eexists _, _. split; [exact (refresh_served now sid _ _ w Hc eq_refl eq_refl)|]. fold r g. cbn [with_session tu_state on_session as_session]. rewrite Hs.
  split; [reflexivity|]. split_and!.
  - intros t Ht. by apply listed_tasks_shown.
  - intros a Ha He. rewrite listed_own. eexists. split.
    + apply (upsert_all_get ad_agent_id TuiState.update_agent (TuiState.new_agent now) _ _ (to_dict a)).
      * rewrite map_map. apply own_agents_NoDup. rewrite (keyed_keys a_agent_id) by done. by destruct Hk.
      * apply list_elem_of_fmap. exists a. split; [done|]. apply filter_In_elem. split; [done|]. by apply bool_decide_eq_true_2.
    + unfold upserted. by destruct (dict_get _ _).
  - intros tid. apply other_tasks_kept.
Qed.

(** What the interface shows of a session, known to the agent manager: so it is
    for a session just opened, and a refresh keeps it so, as long as the manager
    does not lose its agents. *)
Definition shows_known (sid : string) (g : registry) (s : tui_session) : Prop :=
  ∀ k i, dict_get k (us_agents s) = Some i →
    ∃ b, dict_get k g = Some b ∧ a_session_id b = sid ∧ ai_role i = a_role b.

Lemma refreshed_agents_known sid g s ts k i :
  keyed a_agent_id g → shows_known sid g s →
  dict_get k (us_agents (new_agents now (listed sid (map to_dict g.*2)) (new_tasks ts s))) = Some i →
  ∃ b, dict_get k g = Some b ∧ a_session_id b = sid ∧ ai_role i = a_role b ∧ ai_status i = Endpoints.status_name (a_status b).
Proof.
  intros Hk Hs. rewrite listed_own. cbn [new_agents new_tasks TuiState.with_agents TuiState.with_tasks us_agents].
  set (own := own_agents sid g.*2). intros Hi.
  assert (NoDup (map a_agent_id own)) as Hnd by (apply own_agents_NoDup; rewrite (keyed_keys a_agent_id) by done; by destruct Hk).
  assert (∀ b, b ∈ own ↔ dict_get (a_agent_id b) g = Some b ∧ a_session_id b = sid) as Hown.
  { intros b. unfold own, own_agents. rewrite filter_In_elem, bool_decide_eq_true. split; intros [Hb Hbs]; (split; [|done]).
    - apply list_elem_of_fmap in Hb as ([k' b'] & -> & Hb). destruct Hk as [Hkn Hkk]. cbn. rewrite (Hkk _ _ Hb). by apply dict_get_NoDup.
    - apply dict_get_elem in Hb. apply list_elem_of_fmap. by exists (a_agent_id b, b). }
  destruct (decide (k ∈ map a_agent_id own)) as [Hin|Hni].
  - apply list_elem_of_fmap in Hin as (b & -> & Hb). exists b. pose proof Hb as [Hg Hsid]%Hown. split; [done|]. split; [done|].
    change (a_agent_id b) with (ad_agent_id (to_dict b)) in Hi. rewrite upsert_all_get in Hi;
      [|by rewrite map_map|by apply list_elem_of_fmap; exists b].
    injection Hi as <-. unfold upserted. destruct (dict_get _ (us_agents s)) as [i0|] eqn:E0; [|done].
    apply Hs in E0 as (b0 & Hg0 & _ & Hr). cbn in Hg0. rewrite Hg in Hg0. injection Hg0 as <-. done.
  - rewrite upsert_all_other in Hi by (by rewrite map_map). apply Hs in Hi as (b & Hg & Hsid & _). exfalso. apply Hni.
    apply list_elem_of_fmap. exists b. rewrite <-(keyed_get a_agent_id _ _ _ Hk Hg). split; [done|].
    apply Hown. by rewrite (keyed_get a_agent_id _ _ _ Hk Hg).
Qed.

Lemma refreshed_session_ok sid ds ts s : session_ok s → session_ok (new_agents now (listed sid ds) (new_tasks ts s)).
Proof.
  intros Hok. assert (session_ok (new_tasks ts s)) as Hts.
  { unfold new_tasks. revert s Hok. induction ts as [|d ts IH]; intros s Hok; [by destruct s|].
    exact (IH _ (upsert_task_ok d s Hok)). }
  apply with_agents_ok; [|done]. revert Hts. generalize (new_tasks ts s). intros s1 [Hk _ _ _ _ _]. revert Hk.
  generalize (us_agents s1). induction (listed sid ds) as [|d l IH]; intros m Hm; [done|]. apply IH, keyed_set; [done|].
  unfold upserted. destruct (dict_get _ m) as [i|] eqn:E; [|done]. exact (keyed_get ai_agent_id _ _ _ Hm E).
Qed.

(** What the agent manager does with a message: the last one of the inbox of a
    known agent that has not ended, if there is room. *)
Definition delivered (aid m : string) (g : registry) : option registry :=
  match dict_get aid g with
  | Some b => if negb (is_terminal b) && (length (a_inbox b) <? _INBOX_MAXSIZE)
              then Some (dict_set aid (set_inbox (a_inbox b ++ [m]) b) g) else None
  | None => None
  end.

Lemma post_message_spec aid m (x : R * registry) :
  match delivered aid m x.2 with
  | Some g => answer (PostMessage aid m "user") x = ((x.1, g), HttpOk tt)
  | None => ∃ code detail, answer (PostMessage aid m "user") x = (x, HttpStatus code detail)
  end.
Proof.
  rewrite answer_in_time by done. cbn [send SessionEndpoints]. unfold delivered, Endpoints.agent_message, AgentManager.send_message.
  destruct x as [r g]. cbn [fst snd]. destruct (dict_get aid g) as [b|] eqn:Hb.
  - destruct (is_terminal b); cbn [negb andb]; [|destruct (_ <? _); [done|]]; unfold get_agent; rewrite Hb; eauto.
  - unfold get_agent. rewrite Hb. eauto.
Qed.


(** Every status the orchestrator gives a task, an agent or a patch has an
    indicator of its own in the theme. *)
Lemma statuses_have_indicators :
  (∀ s, is_Some (dict_get (task_status_name s) Theme.TASK_STATUS)) ∧
  (∀ s, is_Some (dict_get (Endpoints.status_name s) Theme.INDICATOR)).
Proof. split; intros []; by eexists. Qed.
End facts.

(** Opening a session that cannot be loaded ends as if it could: the state stays
    that of the session opened before, if any, and the session that was not
    loaded is the one to be opened next time. *)
Theorem failed_load_keeps_the_old_session {X J} `{!Orchestrator X} dumps_ui now sid (w : tui X J) c e :
  get_session sid (tu_client w) = (c, Raise (AicafConnectionError e)) →
  ∃ w', _init dumps_ui now sid w = (w', Ok (ui_dag_sidebar_open (as_ui (tu_state w)))) ∧ tu_state w' = tu_state w ∧
    up_last_session_id (st_ui (tu_store w')) = sid.
Proof.
  intros Hg. eexists. split; [|split; [|]]; [| |].
  - unfold _init, load_session, catching, mtry, on_client. unfold mbind at 1 2. unfold mbind at 1. rewrite Hg. reflexivity.
  - done.
  - done.
Qed.

Lemma refresh_loop_total {X J} `{!Orchestrator X} now sid sleeps (w : tui X J) :
  ∃ w', _refresh_loop now sid sleeps w = (w', Ok tt).
Proof.
  revert w. induction sleeps as [|f sleeps IH]; intros w; [by eexists|]. cbn [_refresh_loop].
  unfold mbind at 1, on_client, mmodify. unfold mbind at 1, refresh_round, mtry.
  destruct (mbind _ _ _) as [w1 [[]|e]]; apply IH.
Qed.

(** ** Concrete runs *)
Module Concrete.
Import TuiSystem.Concrete.

Definition on_server {J} (r : store) (w : tui registry J) : tui (store * registry) J :=
  Tui (Client (cl_base_url (tu_client w)) (cl_http (tu_client w)) (r, cl_ext (tu_client w))) (tu_store w) (tu_state w).
Definition screen : tui (store * registry) string := on_server TaskQueueProps.Concrete.loaded w0.

Lemma refresh_witness :
  ∃ w' s', refresh_round 5 "s" screen = (w', Ok tt) ∧ as_session (tu_state w') = Some s' ∧
    (∃ i, dict_get "b" (us_tasks s') = Some i ∧ ti_status i = "pending" ∧ task_row "." i ∈ sidebar_lines "." s') ∧
    (∃ i, dict_get "c1" (us_agents s') = Some i ∧ ai_status i = "running").
Proof.
  destruct (refresh_shows_the_plan 5 "." "s" screen s0) as (w' & s' & H1 & H2 & Ht & Ha & _).
  - reflexivity.
  - reflexivity.
  - apply TaskQueueProps.Concrete.loaded_wf.
  - apply reg0_keyed.
  - exists w', s'. split; [done|]. split; [done|]. split.
    + apply (Ht (TaskQueueProps.Concrete.tk "b" ["a"])).
      assert (_all_tasks (cl_ext (tu_client screen)).1 "s" = TaskQueueProps.Concrete.plan) as -> by by vm_compute. by left.
    + apply (Ha (agent_of "c1" "coder" ARunning).2); [by right; left|done].
Defined.


(** The screen of a session the orchestrator does not know, opened after that
    of "s": the message typed on it goes to the coder of "s". *)
Example message_of_an_unknown_session :
  let (w1, visible) := _init (λ _, "") 5 "other" screen in
  let (w2, _) := refresh_round 5 "s" w1 in
  let (w3, sent) := send_message 6 "@coder stop" w2 in
  visible = Ok true ∧ us_session_id <$> as_session (tu_state w1) = Some "s" ∧ sent = Ok tt ∧
  a_inbox <$> dict_get "c1" (cl_ext (tu_client w3)).2 = Some ["stop"].
Proof. vm_compute. split_and!; reflexivity. Qed.

Lemma failed_load_witness :
  ∃ w', _init (λ _, "") 5 "other" screen = (w', Ok true) ∧ tu_state w' = tu_state screen ∧
    up_last_session_id (st_ui (tu_store w')) = "other".
Proof. by eapply (failed_load_keeps_the_old_session (λ _, "") 5 "other" screen). Defined.
End Concrete.
