(* ===== verification/TuiExecute.v ===== *)
(** * A plan run from the terminal

    The command [/execute] of the session screen in front of the endpoints it
    and the refresh use (orchestrator/main.py: [execute_tasks], [task_status],
    [agent_list]), on the task queue over any agents: what the command answers,
    and what the sidebar shows once the screen was refreshed.  The plan takes a
    time that is a parameter, against the read timeout of the client. *)

From S2P Require Import Prelude PyStr Models Redis Interfaces Dag TaskQueue TaskQueueFacts TaskQueueProps AgentManager Api.
From S2P Require Import TuiState TuiStore TuiClient TuiServices TuiWidgets TuiSystem TuiRefresh.
Local Open Scope string_scope.
Local Open Scope list_scope.
Local Open Scope nat_scope.
Local Open Scope py_scope.

(** ** The endpoints *)
Section endpoints.
Context {R A : Type} `{!Redis R} `{!AgentRunner R A} `{!PatchSink R A}.
Context (TASK_LEASE_TTL : Z) (MAX_PARALLEL_AGENTS : nat) (worker_id : string → string) (fuel : nat).
(** What the agents are listed as. *)
Context (agents_listed : A → list agent_dict).
(** The seconds the plan of a session takes: /v1/tasks/execute answers when it is
    over.  The other endpoints answer at once. *)
Context (duration : string → R * A → Z) (read_timeout : string).

Definition execute_reply_of (p : plan_result) : execute_reply :=
  ExecuteReply (Some (Z.of_nat (pr_executed p))) (Some (Z.of_nat (pr_complete p))) (Some (Z.of_nat (pr_failed p))).

Definition PlanEndpoints : Orchestrator (R * A) := {|
  send B q x :=
    match q in request B return (R * A) * http_result B with
    | PostExecute sid =>
        let (x', answer) := Endpoints.execute_tasks TASK_LEASE_TTL MAX_PARALLEL_AGENTS worker_id fuel (Some sid) x in
        (x', match answer with Ok p => HttpOk (execute_reply_of p) | Raise _ => HttpStatus 500 None end)
    | GetTaskStatus sid => (x, HttpOk (Some (map task_view (sc_tasks (get_session_status sid x.1)))))
    | GetAgents => (x, HttpOk (Some (agents_listed x.2)))
    | _ => (x, HttpStatus 404 (Some "Not Found"))
    end;
  silence B q x := match q with PostExecute sid => duration sid x | _ => 0%Z end;
  timeout_text := read_timeout
|}.
End endpoints.

Section facts.
Context {R A J : Type} `{RedisLaws R} `{!AgentRunner R A} `{!PatchSink R A}
        `{!AgentRunnerLaws R A} `{!PatchSinkLaws R A}.
Context (TTL : Z) (MAXP : nat) (worker_id : string → string) (agents_listed : A → list agent_dict).
Context (duration : string → R * A → Z) (read_timeout : string).
Context (now : Z).
Local Abbreviation W := (tui (R * A) J).

(** C22: The command /execute typed in a session whose plan was loaded, with
    agents that succeed: it answers that every task is complete and none failed
    when the plan takes no more than the 30 seconds the client waits for an
    answer, else that there is a connection error, although the plan goes on.
    In both cases the next refresh after the end of the plan shows a row for
    each of its tasks, with the mark of a complete one.  (The tasks have a role
    and a description, their leases are free, and at least one may run.) *)
Theorem executed_plan_is_shown ellipsis ts r r1 (w : W) s :
  let _ := PlanEndpoints TTL MAXP worker_id (length ts) agents_listed duration read_timeout in
  let sid := us_session_id s in
  as_session (tu_state w) = Some s → cl_http (tu_client w) = true → (cl_ext (tu_client w)).1 = r1 →
  1 ≤ MAXP → agents_succeed (R:=R) (A:=A) → stored_under_id sid r →
  load_plan sid ts r = (r1, Ok (length ts)) →
  (∀ t, t ∈ ts → runnable t ∧ r_key r (_lease_key sid (t_id t)) = None) →
  ∃ w1 w2 n s2,
    handle_inline_command "execute" w =
      (w1, Ok (if (duration sid (cl_ext (tu_client w)) <=? 30)%Z
               then "Execution complete — " +:+ number (Some n) +:+ " tasks run, " +:+
                    number (Some (Z.of_nat (length ts))) +:+ " complete, " +:+ number (Some 0%Z) +:+ " failed"
               else "Connection error: " +:+ read_timeout)) ∧
    refresh_round now sid w1 = (w2, Ok tt) ∧ as_session (tu_state w2) = Some s2 ∧
    ∀ t, t ∈ ts → ∃ i, dict_get (t_id t) (us_tasks s2) = Some i ∧ ti_status i = "complete" ∧
      Theme.task_indicator (ti_status i) = ("✓", Theme.GREEN) ∧ task_row ellipsis i ∈ sidebar_lines ellipsis s2.
Proof.
  intros Hi sid Hs Hc Hr1 HM Hd Hst Hload Hts. destruct w as [[url http [r0 a]] st [ui pr ss]].
  cbn in Hs, Hc, Hr1. subst ss http r0.
  destruct (loaded_plan_completes TTL MAXP worker_id sid ts r r1 a HM Hd Hst Hload Hts)
    as (x & p & He & (Hpc & Hpf & _ & _ & Hall) & Hwf & Hin).
  set (w0 := Tui (Client url true (r1, a)) st (AppState ui pr (Some s))).
  assert (on_client (execute_tasks sid) w0 =
    (in_front x w0, if (duration sid (r1, a) <=? 30)%Z then Ok (execute_reply_of p)
                    else Raise (AicafConnectionError read_timeout))) as Hx.
  { unfold on_client, execute_tasks, call, mbind, _check, answer.
    cbn [w0 tu_client cl_http cl_ext send silence timeout_text Hi PlanEndpoints].
    unfold Endpoints.execute_tasks. cbn [default from_option id]. rewrite He. unfold READ_TIMEOUT.
    by destruct (Z.leb_spec (duration sid (r1, a)) 30), (Z.ltb_spec 30 (duration sid (r1, a))); try lia. }
  exists (in_front x w0). do 3 eexists. split; [|split; [|split]].
  - unfold handle_inline_command, session, mbind, mgets. cbn [w0 tu_state as_session].
    change (split_command "execute") with ("execute", ""). cbv iota beta. unfold mtry, run_inline.
    repeat (rewrite bool_decide_eq_false_2 by done). rewrite bool_decide_eq_true_2 by done.
    unfold execute_command, mbind. fold sid w0. rewrite Hx. destruct (_ <=? 30)%Z; [|reflexivity].
    unfold execute_reply_of, mret. cbn [er_executed er_complete er_failed]. rewrite Hpc, Hpf. reflexivity.
  - exact (refresh_served now sid _ _ (in_front x w0) eq_refl eq_refl eq_refl).
  - reflexivity.
  - intros t Ht. destruct (Hin t Ht) as (t' & Ht' & <-).
    destruct (listed_tasks_shown now ellipsis sid x.1 (listed sid (agents_listed x.2)) s t' Hwf Ht') as (i & Hg & Hst' & Hrow).
    exists i. rewrite (Hall t' Ht') in Hst'. cbn in Hst'. split; [exact Hg|]. split; [done|]. split; [by rewrite Hst'|exact Hrow].
Qed.
End facts.

Module Concrete.
Import TaskQueueProps.Concrete.
#[local] Existing Instances runner sink runner_laws sink_laws.

(** The session screen of "s" in front of a server where a plan was loaded. *)
Definition screen : tui (store * nat) unit :=
  Tui (Client "http://h" true (loaded, 0)) (ProjectStore [] [] "" default_ui (StoreFiles None None))
    (AppState initial_ui None (Some (SessionState "s" "active" "" [] [] [] 0 0 0 [] []))).

(** What is answered and shown for a plan of so many seconds. *)
Definition shown_after (seconds : Z) (answered : Z → string) : Prop :=
  ∃ (w1 w2 : tui (store * nat) unit) n s2 i,
    let _ := PlanEndpoints 600 2 wid 3 (λ _ : nat, []) (λ _ _, seconds) "" in
    handle_inline_command "execute" screen = (w1, Ok (answered n)) ∧
    refresh_round 5 "s" w1 = (w2, Ok tt) ∧ as_session (tu_state w2) = Some s2 ∧
    dict_get "c" (us_tasks s2) = Some i ∧ ti_status i = "complete" ∧ task_row "." i ∈ sidebar_lines "." s2.

Lemma plan_can_run t : t ∈ plan → runnable t ∧ r_key (∅ : store) (_lease_key "s" (t_id t)) = None.
Proof.
  unfold plan. rewrite !elem_of_cons.
  intros [->|[->|[->|Ht]]]; [..|by apply not_elem_of_nil in Ht]; (split; [split; eexists; reflexivity|reflexivity]).
Qed.

(** A short plan, and one longer than the client waits. *)
Lemma executed_witness :
  shown_after 12 (λ n, "Execution complete — " +:+ number (Some n) +:+ " tasks run, 3 complete, 0 failed") ∧
  shown_after 90 (λ _, "Connection error: ").
Proof.
  split.
  - destruct (executed_plan_is_shown 600 2 wid (λ _ : nat, []) (λ _ _, 12%Z) "" 5 "." plan ∅ loaded screen
      (SessionState "s" "active" "" [] [] [] 0 0 0 [] [])) as (w1 & w2 & n & s2 & Hx & Hr & Hs & Hall);
      [done|done|done|lia|intros ????; eauto|apply empty_stored|apply loaded_eq|exact plan_can_run|].
    destruct (Hall (tk "c" ["b"])) as (i & Hg & Hst & _ & Hrow); [apply (bool_decide_unpack _); by vm_compute|].
    exists w1, w2, n, s2, i. split; [exact Hx|]. by split_and!.
  - destruct (executed_plan_is_shown 600 2 wid (λ _ : nat, []) (λ _ _, 90%Z) "" 5 "." plan ∅ loaded screen
      (SessionState "s" "active" "" [] [] [] 0 0 0 [] [])) as (w1 & w2 & n & s2 & Hx & Hr & Hs & Hall);
      [done|done|done|lia|intros ????; eauto|apply empty_stored|apply loaded_eq|exact plan_can_run|].
    destruct (Hall (tk "c" ["b"])) as (i & Hg & Hst & _ & Hrow); [apply (bool_decide_unpack _); by vm_compute|].
    exists w1, w2, n, s2, i. split; [exact Hx|]. by split_and!.
Defined.
End Concrete.
