(* ===== verification/TuiModels.v ===== *)
(** * Choosing the models of a session
    (tui/tui/widgets/model_panel.py, tui/tui/screens/model_config.py)

    The panel with a selector for each role, the overlay around it, and both in
    front of the endpoints of the orchestrator they use (orchestrator/main.py:
    [models_for_role], [session_configure]): a choice made in the panel is
    accepted, and it is what the routing policy resolves afterwards.  An option
    is its value; the label adds whether the model is on disk and the length of
    its context. *)

From S2P Require Import Prelude PyStr Models Redis SessionManager ModelRegistry RoutingPolicy Api.
From S2P Require Import TuiState TuiStore TuiClient TuiServices TuiScreens TuiApp TuiSystem.
Local Open Scope string_scope.
Local Open Scope list_scope.
Local Open Scope nat_scope.
Local Open Scope py_scope.

(** ** ModelPanel *)

Definition PANEL_ROLES : list string := ["architect"; "coder"; "reviewer"; "tester"; "documenter"].

(** The selectors that were mounted, with their options and their value, which
    is [None] when it is blank. *)
Record selector := Selector { se_options : list string; se_value : option string }.
Record model_panel := ModelPanel {
  mp_current : list (string * string); mp_selectors : list (string * selector); mp_loaded : bool
}.
Definition new_panel (initial_models : list (string * string)) : model_panel := ModelPanel initial_models [] false.

Section panel.
Context {X : Type} `{!Orchestrator X}.

Definition role_options (role : string) : M (client X) (string * list string) :=
  mtry (let! models := TuiClient.get_models_for_role role in mret (role, models)) (λ _, mret (role, [])).

(** A role without options gets a label instead of a selector. *)
Definition mount_selector (current : list (string * string)) (ro : string * list string) : option (string * selector) :=
  match ro.2 with
  | [] => None
  | first :: _ =>
      let cur := default "" (dict_get ro.1 current) in
      Some (ro.1, Selector ro.2 (Some (if bool_decide (cur ∈ ro.2) then cur else first)))
  end.

Definition _load_models (p : model_panel) : M (client X) model_panel :=
  let! options := mmap role_options PANEL_ROLES in
  mret (ModelPanel (mp_current p) (omap (mount_selector (mp_current p)) options) true).
End panel.

(** The user picks an option of a selector, or none. *)
Definition pick (role : string) (v : option string) (p : model_panel) : model_panel :=
  ModelPanel (mp_current p)
    (map (λ rs, if bool_decide (rs.1 = role) && match v with Some v => bool_decide (v ∈ se_options rs.2) | None => true end
                then (rs.1, Selector (se_options rs.2) v) else rs) (mp_selectors p))
    (mp_loaded p).

Definition picks (l : list (string * option string)) (p : model_panel) : model_panel :=
  foldl (λ p rv, pick rv.1 rv.2 p) p l.

(** What a role contributes to the message. *)
Definition configured (p : model_panel) (role : string) : option (string * string) :=
  match dict_get role (mp_selectors p) with
  | Some s => match se_value s with
              | Some v => if truthy v then Some (role, v) else None
              | None => None
              end
  | None => match dict_get role (mp_current p) with Some m => Some (role, m) | None => None end
  end.

(** The models of the message that is posted, if one is. *)
Definition apply_pressed (p : model_panel) : option (list (string * string)) :=
  if mp_loaded p then Some (omap (configured p) PANEL_ROLES) else None.

(** ** ModelConfigScreen *)
Section config_screen.
Context {X J : Type} `{!Orchestrator X}.
Local Abbreviation W := (app X J).

Definition open_config (st : app_state) : model_panel :=
  new_panel match as_session st with Some s => us_models s | None => [] end.

(** [on_model_panel_models_configured] up to the pause, with whether the screen
    will be left then. *)
Definition models_posted (applying : bool) (session_id : string) (models : list (string * string)) : M W bool :=
  if applying then mret false else on_tui (_apply session_id models).

(** After the pause. *)
Definition applied : M W unit := pop_screen.

Definition config_key (key : string) : M W unit :=
  if bool_decide (key = "escape") then pop_screen else mret tt.
End config_screen.

(** ** The endpoints *)
Record models_server (R : Type) := ModelsServer { ms_registry : model_registry; ms_redis : R }.
Arguments ModelsServer {R}.
Arguments ms_registry {R}.
Arguments ms_redis {R}.

Section facts.
Context {R J : Type} `{RedisLaws R} (cfg : config) (TTL now : Z).
Local Abbreviation V := (models_server R).

Local Instance ModelEndpoints : Orchestrator V := {|
  send A r x :=
    match r in request A return V * http_result A with
    | GetModelsForRole role => (x, HttpOk (Some (mi_name <$> ModelRegistry.get_models_for_role role (ms_registry x))))
    | PostConfigure sid models =>
        let (r', answer) := Endpoints.session_configure TTL (ms_registry x) now "" (Some sid) models (ms_redis x) in
        (ModelsServer (ms_registry x) r', http_answer answer)
    | _ => (x, HttpStatus 404 (Some "Not Found"))
    end;
  silence _ _ _ := 0%Z;
  timeout_text := ""
|}.
Local Abbreviation W := (tui V J).

Definition offered (role : string) (g : model_registry) : list string := mi_name <$> ModelRegistry.get_models_for_role role g.

(** *** The panel *)

Lemma offered_sound role g v : v ∈ offered role g → v ∈ MODEL_CATALOG.*1.
Proof.
  intros (i & -> & (e & He & _ & _)%elem_of_roles_model)%list_elem_of_fmap. apply list_elem_of_fmap. by exists (mi_name i, e).
Qed.

Lemma catalog_truthy v : v ∈ MODEL_CATALOG.*1 → truthy v = true.
Proof.
  assert (Forall (λ v, truthy v = true) MODEL_CATALOG.*1) as Hc by (apply (bool_decide_unpack _); by vm_compute).
  rewrite Forall_forall in Hc. apply Hc.
Qed.

(** Each role of the panel has a model in the catalog. *)
Lemma offered_some role g : role ∈ PANEL_ROLES → ∃ first l, offered role g = first :: l.
Proof.
  intros Hr. assert (∃ m e, (m, e) ∈ MODEL_CATALOG ∧ ∃ t, t ∈ ce_tags e ∧ t ∈ default [] (dict_get role ROLE_TAG_MAP))
    as (m & e & He & t & Ht).
  { set (entry := List.find (λ p, existsb (λ t, bool_decide (t ∈ default [] (dict_get role ROLE_TAG_MAP))) (ce_tags p.2)) MODEL_CATALOG).
    destruct entry as [[m e]|] eqn:E.
    - apply find_some in E as [Hin (t & Ht & Hd)%existsb_exists]. exists m, e. split; [by apply list_elem_of_In|].
      exists t. split; [by apply list_elem_of_In|by apply bool_decide_eq_true in Hd].
    - exfalso. unfold entry in E. unfold PANEL_ROLES in Hr.
      repeat (apply elem_of_cons in Hr as [->|Hr]; [by vm_compute in E|]). by apply not_elem_of_nil in Hr. }
  assert (m ∈ offered role g) as Hm.
  { apply list_elem_of_fmap. exists (model_info_of g (m, e)). split; [done|]. apply elem_of_roles_model.
    exists e. split_and!; [done|done|by exists t]. }
  destruct (offered role g); [by apply not_elem_of_nil in Hm|by eexists _, _].
Qed.

Definition loaded (current : list (string * string)) (g : model_registry) : model_panel :=
  ModelPanel current (omap (mount_selector current) (map (λ role, (role, offered role g)) PANEL_ROLES)) true.

Lemma load_models_spec current (c : client V) :
  cl_http c = true → _load_models (new_panel current) c = (c, Ok (loaded current (ms_registry (cl_ext c)))).
Proof.
  intros Hc. assert (∀ role, role_options role c = (c, Ok (role, offered role (ms_registry (cl_ext c))))) as Ho.
  { intros role. destruct c as [url http x]. cbn in Hc. by subst http. }
  assert (∀ roles, mmap role_options roles c = (c, Ok (map (λ role, (role, offered role (ms_registry (cl_ext c)))) roles)))
    as Hm.
  { induction roles as [|r roles IH]; [done|]. cbn [mmap map]. unfold mbind at 1. rewrite Ho. unfold mbind. by rewrite IH. }
  unfold _load_models, mbind. by rewrite Hm.
Qed.

(** A selector belongs to a role of the panel, offers its models and shows one
    of them or none. *)
Definition selector_ok (g : model_registry) (rs : string * selector) : Prop :=
  rs.1 ∈ PANEL_ROLES ∧ se_options rs.2 = offered rs.1 g ∧ ∀ v, se_value rs.2 = Some v → v ∈ offered rs.1 g.

Definition panel_ok (g : model_registry) (p : model_panel) : Prop :=
  mp_loaded p = true ∧ (mp_selectors p).*1 = PANEL_ROLES ∧ Forall (selector_ok g) (mp_selectors p).

Lemma mount_ok current role g : role ∈ PANEL_ROLES →
  ∃ s, mount_selector current (role, offered role g) = Some (role, s) ∧ selector_ok g (role, s).
Proof.
  intros Hr. destruct (offered_some role g Hr) as (first & l & Ho). unfold mount_selector. cbn [fst snd].
  rewrite Ho. eexists. split; [done|]. unfold selector_ok. cbn [fst snd se_options se_value]. rewrite Ho.
  split; [done|]. split; [done|]. intros v [= <-]. case_bool_decide as Hd; [done|by left].
Qed.

Lemma loaded_ok current g : panel_ok g (loaded current g).
Proof.
  split; [done|]. cbn [mp_selectors loaded].
  assert (∀ roles, (∀ r, r ∈ roles → r ∈ PANEL_ROLES) →
    let l := omap (mount_selector current) (map (λ role, (role, offered role g)) roles) in
    l.*1 = roles ∧ Forall (selector_ok g) l) as Hall; [|by apply Hall].
  induction roles as [|r roles IH]; intros Hin; [done|]. cbn [map omap list_omap].
  destruct (mount_ok current r g) as (s & -> & Hs); [apply Hin; by left|].
  destruct IH as [IH1 IH2]; [intros; apply Hin; by right|]. cbn. by rewrite IH1; split; [|constructor].
Qed.

Lemma map_fmap_fst {A B C} (f : A * B → A * C) l : (∀ x, (f x).1 = x.1) → (map f l).*1 = l.*1.
Proof. intros Hf. induction l as [|x l IH]; [done|]. cbn. by rewrite Hf, IH. Qed.

Lemma pick_ok g role v p : panel_ok g p → panel_ok g (pick role v p).
Proof.
  intros (Hl & Hk & Hs). split; [done|]. cbn [pick mp_selectors]. split.
  - rewrite <-Hk. rewrite map_fmap_fst; [done|]. intros [r s]. by destruct (_ && _).
  - apply Forall_map. eapply Forall_impl; [exact Hs|]. intros [r s] (Hr & Ho & Hv). cbn [fst snd] in *.
    destruct (bool_decide (r = role)); cbn [andb]; [|done]. destruct v as [v|]; cbn.
    + case_bool_decide as Hin; [|done]. split; [done|]. split; [done|]. intros v' [= <-]. cbn. by rewrite <-Ho.
    + done.
Qed.

Lemma picks_ok g l p : panel_ok g p → panel_ok g (picks l p).
Proof. revert p. induction l as [|[r v] l IH]; intros p Hp; [done|]. apply IH. by apply pick_ok. Qed.

(** What the message holds: a model the panel offered for each role that is not
    left blank. *)
Lemma configured_sound g p role rv :
  panel_ok g p → configured p role = Some rv → role ∈ PANEL_ROLES → rv.1 = role ∧ rv.2 ∈ offered role g.
Proof.
  intros (_ & Hk & Hs) Hc Hr. unfold configured in Hc. destruct (dict_get role (mp_selectors p)) as [s|] eqn:E.
  - apply dict_get_elem in E. rewrite Forall_forall in Hs. destruct (Hs _ E) as (_ & _ & Hv). cbn in Hv.
    destruct (se_value s) as [v|]; [|done]. destruct (truthy v); [|done]. injection Hc as <-. split; [done|]. by apply Hv.
  - apply dict_get_None in E. by rewrite Hk in E.
Qed.

Definition posted (p : model_panel) : list (string * string) := omap (configured p) PANEL_ROLES.

Lemma posted_sound g p role v : panel_ok g p → (role, v) ∈ posted p → role ∈ PANEL_ROLES ∧ v ∈ offered role g.
Proof.
  intros Hp (r & Hr & Hc)%list_elem_of_omap. destruct (configured_sound g p r (role, v) Hp Hc Hr) as [He Hv].
  cbn in He, Hv. by subst r.
Qed.

Lemma posted_NoDup g p : panel_ok g p → NoDup (posted p).*1.
Proof.
  intros Hp. apply (sublist_NoDup _ PANEL_ROLES); [by apply (bool_decide_unpack _); vm_compute|].
  unfold posted. assert (∀ roles, (∀ r, r ∈ roles → r ∈ PANEL_ROLES) → (omap (configured p) roles).*1 `sublist_of` roles) as Hs;
    [|by apply Hs].
  induction roles as [|r roles IH]; intros Hin; [done|]. cbn.
  destruct (configured p r) as [rv|] eqn:E; cbn.
  - destruct (configured_sound g p r rv Hp E) as [-> _]; [apply Hin; by left|].
    apply sublist_skip, IH. intros; apply Hin; by right.
  - apply sublist_cons, IH. intros; apply Hin; by right.
Qed.

(** *** The endpoints *)

Lemma elem_of_catalog v g : v ∈ MODEL_CATALOG.*1 → v ∈ mi_name <$> catalog_with_status g.
Proof.
  intros ([m e] & -> & He)%list_elem_of_fmap. apply list_elem_of_fmap. exists (model_info_of g (m, e)).
  split; [done|]. unfold catalog_with_status. rewrite (merge_sort_Permutation info_le).
  apply list_elem_of_fmap. by exists (m, e).
Qed.

Lemma posted_not_bad g p : panel_ok g p → Endpoints.bad_models g (posted p) = [].
Proof.
  intros Hp. unfold Endpoints.bad_models. destruct (List.filter _ _) as [|v l] eqn:E; [done|].
  assert (v ∈ v :: l) as Hv by by left. rewrite <-E in Hv. apply filter_In_elem in Hv as [Hin Hb].
  exfalso. apply list_elem_of_fmap in Hin as ([role v'] & -> & Hin). cbn [snd] in Hb.
  destruct (posted_sound g p role v' Hp Hin) as [_ Hv%offered_sound].
  by rewrite bool_decide_eq_true_2 in Hb by by apply elem_of_catalog.
Qed.

Lemma configure_models_ok sid m (r : R) :
  m ≠ ∅ → ∃ r' st, SessionManager.configure_models TTL now sid m r = (r', Ok st).
Proof.
  intros Hm. unfold SessionManager.configure_models, mbind, hset_models, mget. rewrite bool_decide_eq_false_2 by done.
  destruct (_read_state _ _); [|by eexists _, _]. unfold write_state. destruct (_write_state _ _ _ _). by eexists _, _.
Qed.

Lemma lookup_list_to_map (d : list (string * string)) k : (list_to_map d : gmap string string) !! k = dict_get k d.
Proof.
  induction d as [|[k' v] d IH]; [done|]. cbn [list_to_map foldr uncurry dict_get]. destruct (decide (k' = k)) as [->|Hne].
  - by rewrite lookup_insert_eq.
  - by rewrite lookup_insert_ne.
Qed.

Definition server (w : W) : V := cl_ext (tu_client w).

(** The overlay after its models were posted. *)
Definition models_taken (sid : string) (models : list (string * string)) (r : R) (w : W) : W :=
  Tui (Client (cl_base_url (tu_client w)) (cl_http (tu_client w)) (ModelsServer (ms_registry (server w)) r)) (tu_store w)
    (on_session (update_models models) (tu_state w)).

Lemma apply_spec sid models (w : W) :
  cl_http (tu_client w) = true → Endpoints.bad_models (ms_registry (server w)) models = [] →
  (models = [] ∧ _apply sid models w = (w, Ok false)) ∨
  ∃ r st, SessionManager.configure_models TTL now sid (list_to_map models) (ms_redis (server w)) = (r, Ok st) ∧
    _apply sid models w = (models_taken sid models r w, Ok true).
Proof.
  destruct w as [[url http [g r]] store st]. unfold server. cbn [tu_client cl_http cl_ext ms_registry ms_redis].
  intros -> Hb. destruct models as [|[role v] models]; [by left|right].
  destruct (configure_models_ok sid (list_to_map ((role, v) :: models)) r) as (r' & ss & Hc).
  { cbn. apply insert_non_empty. }
  exists r', ss. split; [done|].
  unfold _apply, catching, mtry, mbind, on_client, TuiClient.configure_models, call, _check, answer, send, ModelEndpoints.
  cbn [cl_http cl_ext tu_client cl_base_url]. unfold mbind. cbn [ms_registry ms_redis].
  unfold Endpoints.session_configure. cbn [cl_http cl_ext cl_base_url ms_registry ms_redis]. rewrite Hb.
  cbn [default from_option id]. unfold mbind. by rewrite Hc.
Qed.

(** The model a panel nobody touched shows for a role. *)
Definition shown (current : list (string * string)) (g : model_registry) (role : string) : string :=
  let cur := default "" (dict_get role current) in
  if bool_decide (cur ∈ offered role g) then cur else default "" (head (offered role g)).

Lemma shown_offered current g role : role ∈ PANEL_ROLES → shown current g role ∈ offered role g.
Proof.
  intros Hr. unfold shown. case_bool_decide; [done|]. destruct (offered_some role g Hr) as (first & l & ->). by left.
Qed.

Lemma loaded_selector current g role :
  role ∈ PANEL_ROLES →
  dict_get role (mp_selectors (loaded current g)) = Some (Selector (offered role g) (Some (shown current g role))).
Proof.
  intros Hr. pose proof (loaded_ok current g) as (_ & Hk & _). unfold shown.
  destruct (offered_some role g Hr) as (first & l & Ho). rewrite Ho. cbn [head default from_option id].
  set (v := if bool_decide (_ ∈ _) then _ else _).
  assert ((role, Selector (offered role g) (Some v)) ∈ mp_selectors (loaded current g)) as Hin.
  { apply list_elem_of_omap. exists (role, offered role g). split; [apply list_elem_of_fmap; by exists role|].
    unfold mount_selector. cbn [fst snd]. by rewrite Ho. }
  rewrite Ho in Hin. apply dict_get_NoDup; [|done]. rewrite Hk. by apply (bool_decide_unpack _); vm_compute.
Qed.

Lemma loaded_configured current g role :
  role ∈ PANEL_ROLES → configured (loaded current g) role = Some (role, shown current g role).
Proof.
  intros Hr. unfold configured. rewrite loaded_selector by done. cbn [se_value].
  by rewrite (catalog_truthy _ (offered_sound role g _ (shown_offered current g role Hr))).
Qed.

(** What the user chose for a role: the last of the picks that picks one of its
    options or none, and what the panel shows when there is no such pick. *)
Definition valid_pick (g : model_registry) (role : string) (rv : string * option string) : bool :=
  bool_decide (rv.1 = role) && match rv.2 with Some v => bool_decide (v ∈ offered role g) | None => true end.
Definition chosen (current : list (string * string)) (g : model_registry) (l : list (string * option string))
    (role : string) : option string :=
  match last (List.filter (valid_pick g role) l) with
  | Some (_, v) => v
  | None => Some (shown current g role)
  end.

Lemma pick_selector g role opts v rv p :
  dict_get role (mp_selectors p) = Some (Selector opts v) → opts = offered role g →
  dict_get role (mp_selectors (pick rv.1 rv.2 p)) = Some (Selector opts (if valid_pick g role rv then rv.2 else v)).
Proof.
  unfold pick, valid_pick. intros Hg ->. cbn [mp_selectors]. revert Hg.
  induction (mp_selectors p) as [|[r sel] d IH]; cbn [map dict_get fst]; [done|].
  destruct (decide (r = role)) as [->|Hne].
  - intros [= ->]. rewrite (bool_decide_ext (role = rv.1) (rv.1 = role)) by done. cbn [snd se_options].
    destruct (_ && _); cbn [dict_get]; by rewrite decide_True.
  - intros Hd. destruct (bool_decide (r = rv.1) && _); simpl; (destruct (decide (r = role)); [done|by apply IH]).
Qed.

Lemma chosen_selector current g l role :
  role ∈ PANEL_ROLES →
  dict_get role (mp_selectors (picks l (loaded current g))) = Some (Selector (offered role g) (chosen current g l role)).
Proof.
  intros Hr. unfold picks. induction l as [|rv l IH] using rev_ind; [by apply loaded_selector|].
  rewrite foldl_app. cbn [foldl]. rewrite (pick_selector g role _ _ rv _ IH eq_refl). unfold chosen.
  rewrite List.filter_app. cbn [List.filter]. destruct (valid_pick g role rv); [|by rewrite app_nil_r].
  rewrite last_snoc. by destruct rv.
Qed.

Lemma chosen_offered current g l role v : role ∈ PANEL_ROLES → chosen current g l role = Some v → v ∈ offered role g.
Proof.
  intros Hr. unfold chosen. destruct (last _) as [[r v']|] eqn:E; [|intros [= <-]; by apply shown_offered].
  intros ->. apply last_Some_elem_of, filter_In_elem in E as [_ Hv]. unfold valid_pick in Hv. cbn in Hv.
  apply andb_true_iff in Hv as [_ Hv]. by apply bool_decide_eq_true_1 in Hv.
Qed.

(** What Apply posts: the choices, in the order of the roles. *)
Definition choices (current : list (string * string)) (g : model_registry) (l : list (string * option string)) :
    list (string * string) :=
  omap (λ role, pair role <$> chosen current g l role) PANEL_ROLES.

Lemma posted_choices current g l : posted (picks l (loaded current g)) = choices current g l.
Proof.
  unfold posted, choices. assert (∀ roles : list string, (∀ r, r ∈ roles → r ∈ PANEL_ROLES) →
    omap (configured (picks l (loaded current g))) roles = omap (λ role, pair role <$> chosen current g l role) roles)
    as Hall; [|by apply Hall].
  induction roles as [|r roles IH]; intros Hin; [done|]. cbn [omap list_omap].
  rewrite IH by (intros; apply Hin; by right). unfold configured. rewrite chosen_selector by (apply Hin; by left).
  cbn [se_value]. destruct (chosen current g l r) as [v|] eqn:E; [|done].
  rewrite (catalog_truthy v); [done|]. apply (offered_sound r g). eapply chosen_offered; [|exact E]. apply Hin. by left.
Qed.

(** C24: A choice made in the panel is accepted, and routed: what Apply posts
    is, for each role, the last valid pick of the user, or what the panel showed
    when there is none (the model the session has, if its role is offered it).
    With every selector blank the overlay stays, with an error, and nothing
    changes; otherwise the session shows the models posted, and they are what
    the policy resolves for their roles from then on, the other roles resolving
    as before.  (The session has a name of its own and a hash of models in
    Redis, or nothing yet.) *)
Theorem panel_choices_are_routed sid current l (w : W) :
  cl_http (tu_client w) = true → (0 < TTL)%Z → sid ≠ "" → sid ≠ "default" →
  is_Some (as_hash (r_key (ms_redis (server w)) (_models_key sid))) →
  let models := choices current (ms_registry (server w)) l in
  ∃ p, _load_models (new_panel current) (tu_client w) = (tu_client w, Ok p) ∧
    apply_pressed (picks l p) = Some models ∧
    ((models = [] ∧ _apply sid models w = (w, Ok false)) ∨
     ∃ w', _apply sid models w = (w', Ok true) ∧ tu_state w' = on_session (update_models models) (tu_state w) ∧
       ∀ role, resolve cfg true true role sid (ms_redis (server w')) =
         match dict_get role models with
         | Some m => Route (_endpoint_for_model cfg m) m (_backend_type (_endpoint_for_model cfg m))
         | None => resolve cfg true true role sid (ms_redis (server w))
         end).
Proof.
  intros Hc HTTL Hs Hd [h Hh]. cbv zeta. set (g := ms_registry (server w)).
  assert (panel_ok g (picks l (loaded current g))) as Hp by apply picks_ok, loaded_ok.
  exists (loaded current g). split; [by apply load_models_spec|]. rewrite <-posted_choices.
  split. { unfold apply_pressed. by rewrite (proj1 Hp). }
  destruct (apply_spec sid _ w Hc (posted_not_bad g _ Hp)) as [?|(r & st & Hm & Ha)]; [by left|right].
  eexists. split; [exact Ha|]. split; [done|]. intros role. cbn [server models_taken tu_client cl_ext ms_redis].
  unfold resolve, hget. change ("session:models:" +:+ sid) with (_models_key sid).
  rewrite (proj2 (truthy_true sid)) by done. rewrite bool_decide_eq_false_2 by done. cbn [negb andb].
  rewrite (configure_hash TTL now sid _ _ _ _ h HTTL Hh Hm), Hh. cbn [as_hash]. rewrite lookup_union, lookup_list_to_map.
  destruct (dict_get role (posted _)) as [v|] eqn:E; [|by destruct (h !! role)].
  apply dict_get_elem, (posted_sound g _ _ _ Hp) in E as [_ Hv%offered_sound%catalog_truthy].
  destruct (h !! role); cbn; by rewrite Hv.
Qed.

(** Apply on a panel nobody touched posts a model for every role: the one
    the session has when the role is still offered it, and the first one
    offered otherwise. *)
Theorem untouched_panel_pins_every_role current g :
  apply_pressed (loaded current g) = Some (map (λ role, (role, shown current g role)) PANEL_ROLES).
Proof.
  unfold apply_pressed. cbn [loaded mp_loaded]. f_equal.
  assert (∀ roles, (∀ r, r ∈ roles → r ∈ PANEL_ROLES) →
    omap (configured (loaded current g)) roles = map (λ role, (role, shown current g role)) roles) as Hall; [|by apply Hall].
  induction roles as [|r roles IH]; intros Hin; [done|]. cbn [omap list_omap map].
  rewrite loaded_configured by (apply Hin; by left). f_equal. apply IH. intros; apply Hin; by right.
Qed.
End facts.

(** ** Concrete runs *)
Module Concrete.
Import RoutingPolicy.Concrete.

Definition registry : model_registry := ModelRegistry.ModelRegistry {["qwen3:14b"; "qwen3:8b"]} [].
#[local] Instance endpoints : Orchestrator (models_server store) := ModelEndpoints 60 0.
Definition w0 : tui (models_server store) string :=
  Tui (Client "http://h" true (ModelsServer registry ∅)) (TuiStore.Concrete.opened 0 TuiStore.Concrete.fresh) initial_state.

(** The coder's model is picked, the architect's is left blank. *)
Definition picked : list (string * option string) := [("coder", Some "qwen3:8b"); ("architect", None)].
Lemma panel_witness :
  ∃ p w', _load_models (new_panel []) (tu_client w0) = (tu_client w0, Ok p) ∧
    apply_pressed (picks picked p) =
      Some [("coder", "qwen3:8b"); ("reviewer", "qwen3:14b"); ("tester", "qwen3:8b"); ("documenter", "qwen3:14b")] ∧
    _apply "s" (choices [] registry picked) w0 = (w', Ok true) ∧
    rt_model (resolve cfg true true "coder" "s" (ms_redis (server w'))) = "qwen3:8b".
Proof.
  destruct (panel_choices_are_routed cfg 60 0 "s" [] picked w0) as (p & Hl & Hp & Hr); [done|done|done|done|by eexists|].
  change (ms_registry (server w0)) with registry in *.
  assert (choices [] registry picked = [("coder", "qwen3:8b"); ("reviewer", "qwen3:14b"); ("tester", "qwen3:8b");
            ("documenter", "qwen3:14b")]) as Hch by (by vm_compute).
  destruct Hr as [[Hr _]|(w' & Ha & _ & Hr)]; [by rewrite Hch in Hr|]. exists p, w'. rewrite Hp, Hch.
  split; [done|]. split; [done|]. rewrite Hch in Ha. split; [done|]. rewrite Hr, Hch. reflexivity.
Defined.

(** A session whose architect has a model its role is not offered: Apply
    replaces it, and gives a model to the roles that had none. *)
Example applied_models :
  apply_pressed (loaded [("architect", "qwen2.5-coder:7b"); ("coder", "qwen2.5-coder:7b")] registry) =
  Some [("architect", "qwen3:14b"); ("coder", "qwen2.5-coder:7b"); ("reviewer", "qwen3:14b");
        ("tester", "qwen3:8b"); ("documenter", "qwen3:14b")].
Proof. vm_compute. reflexivity. Qed.

(** Escape in the pause after the models were taken: the overlay is left, and
    the session screen with it when the pause ends. *)
Example escape_in_the_pause :
  let w := App w0 [ModelConfigScreen "s"; SessionScreen "p" "s"; LauncherScreen] true false in
  let (w1, r) := models_posted false "s" [("coder", "qwen3:8b")] w in
  r = Ok true ∧ ap_stack (applied (config_key "escape" w1).1).1 = [LauncherScreen].
Proof. vm_compute. split; reflexivity. Qed.
End Concrete.
