(* ===== verification/TuiEvents.v ===== *)
(** * From the bus to the screen

    The way of an event: [AgentBus.publish], the Redis channel of the session,
    [_session_event_loop] and [ws_session] of orchestrator/main.py, the socket of
    the client, [SessionService.handle_ws_event]; the reconnecting loop of
    the session screen; and the way of a token, from the stream of a model
    through the outbox of its agent and the stream endpoint to the log of the
    session screen. *)

From S2P Require Import Prelude PyStr Models AgentBus AgentManager AgentManagerProps ServiceApi.
From S2P Require Import TuiState TuiClient TuiServices TuiScreens.
Local Open Scope string_scope.
Local Open Scope list_scope.
Local Open Scope nat_scope.
Local Open Scope py_scope.

(** ** The socket of a session *)

(** What Redis delivers to a subscriber of the session, of the messages
    published since it subscribed: the confirmation of the subscription, then
    those of its channel, in order. *)
Definition redis_delivers (sid : string) (published : list (string * ws_event)) (msgs : list raw_msg) : Prop :=
  msgs = RawMsg "subscribe" None ::
         omap (λ '(c, ev), if decide (c = "bus:session:" +:+ sid) then Some (RawMsg "message" (Some ev)) else None)
           published.

(** [event.model_dump()] as the interface reads it: the keys a payload of the
    program has. *)
Definition model_dump (ev : ws_event) : session_event :=
  let p := ev_payload ev in
  SessionEvent (Some (ws_event_value (ev_type ev))) (ev_agent_id ev)
    (WsPayload (pl_result_preview p) (Some (pl_tokens_in p)) (Some (pl_tokens_out p)) (pl_error p) (pl_patch_id p)
       None (pl_description p) (Some (pl_files p)) None (pl_lifecycle p)).

(** [_session_event_loop] yields what the bus yields, and ends without an
    exception when the bus raises. *)
Definition _session_event_loop (msgs : list raw_msg) : list ws_event := subscribe_session msgs.

(** [_ws_heartbeat]: what one round of it sends. *)
Definition _ws_heartbeat : session_event :=
  SessionEvent (Some "heartbeat") None (WsPayload None None None None None None None None None None).

(** [ws_session]: the frames it sends are the events in order, with a heartbeat
    wherever the task of the heartbeat gets to run. *)
Inductive ws_session : list ws_event → list session_event → Prop :=
  | ws_end : ws_session [] []
  | ws_event_sent ev evs es : ws_session evs es → ws_session (ev :: evs) (model_dump ev :: es)
  | ws_heartbeat_sent evs es : ws_session evs es → ws_session evs (_ws_heartbeat :: es).

(** One connection of the client: the frames, [None] one that is not JSON, and
    how it ended. *)
Inductive ws_ending := ConnectionClosed | StreamFailed (e : exn).
Record ws_connection := WsConnection { wc_frames : list (option session_event); wc_ending : ws_ending }.

(** [stream_session_events]: it ends, without an exception, however the
    connection did, a connection refused included. *)
Definition stream_session_events (c : ws_connection) : list session_event * res unit :=
  (omap id (wc_frames c),
   match wc_ending c with ConnectionClosed => Ok tt | StreamFailed _ => Ok tt end).

(** [_ws_loop] along the connections it makes: what it does between the
    events. *)
Inductive ws_act := Opened | Slept (seconds : Z).

Section loop.
Context {W : Type} (handle : session_event → M W unit).

Definition ws_round (c : ws_connection) : M W (list ws_act) :=
  let (events, ending) := stream_session_events c in
  mtry (do! mfor events handle in
        do! (λ w, (w, ending)) in
        mret [Opened])
       (λ _, mret [Opened; Slept 3]).

Fixpoint _ws_loop (conns : list ws_connection) : M W (list ws_act) :=
  match conns with
  | [] => mret []
  | c :: conns' =>
      let! acts := ws_round c in
      let! rest := _ws_loop conns' in
      mret (acts ++ rest)
  end.
End loop.

(** The interface takes the events of its socket in order. *)
Definition receive (now : Z) (es : list session_event) (st : app_state) : app_state :=
  foldl (λ st e, (handle_ws_event now e st).1) st es.

(** Events of any sessions published one after the other. *)
Definition publish_all (evs : list (string * ws_event)) (b : agent_bus) : agent_bus :=
  foldl (λ b '(sid, ev), AgentBus.publish true sid ev b) b evs.

(** ** What is expected on the screen *)
Fixpoint until_ended (evs : list ws_event) : list ws_event :=
  match evs with
  | [] => []
  | ev :: evs' => ev :: (if is_ended_event ev then [] else until_ended evs')
  end.

Definition of_session (sid : string) (evs : list (string * ws_event)) : list ws_event :=
  omap (λ '(sid', ev), if decide (sid' = sid) then if decide (ev_type ev = TOKEN) then None else Some ev else None) evs.

Definition tokens_reported (ev : ws_event) : Z :=
  if bool_decide (ev_type ev = WORK_COMPLETE) then (pl_tokens_in (ev_payload ev) + pl_tokens_out (ev_payload ev))%Z else 0%Z.
Definition total_tokens (evs : list ws_event) : Z := foldr (λ ev n, (tokens_reported ev + n)%Z) 0%Z evs.

(** The status an event gives an agent. *)
Definition status_by (aid : string) (v : string) (ev : ws_event) : string :=
  if decide (ev_agent_id ev = Some aid) then
    match ev_type ev with WORK_COMPLETE => "done" | WORK_FAILED => "failed" | _ => v end
  else v.

(** ** Facts *)

Lemma get_queue_channel sid b : ab_channel (_get_queue sid b).1 = ab_channel b.
Proof. unfold _get_queue. by destruct (_queues b !! sid). Qed.

Lemma publish_channel sid ev b :
  ab_channel (AgentBus.publish true sid ev b) =
    ab_channel b ++ (if decide (ev_type ev = TOKEN) then [] else [("bus:session:" +:+ sid, ev)]).
Proof.
  unfold AgentBus.publish. destruct (decide (ev_type ev = TOKEN)).
  { rewrite bool_decide_true by done. by rewrite app_nil_r. }
  rewrite bool_decide_false by done.
  pose proof (get_queue_channel sid b) as Hc. destruct (_get_queue sid b) as [b1 a]. cbn in Hc |- *. f_equal.
  rewrite <- Hc. unfold put_nowait. by case_match.
Qed.

Definition channel_entries (evs : list (string * ws_event)) : list (string * ws_event) :=
  omap (λ '(sid, ev), if decide (ev_type ev = TOKEN) then None else Some ("bus:session:" +:+ sid, ev)) evs.

Lemma publish_all_channel evs b : ab_channel (publish_all evs b) = ab_channel b ++ channel_entries evs.
Proof.
  revert b. induction evs as [|[sid ev] evs IH]; intros b; [by rewrite app_nil_r|].
  cbn [publish_all foldl]. unfold publish_all in IH. rewrite IH, publish_channel, <- app_assoc. f_equal.
  unfold channel_entries at 2. cbn [omap list_omap]. by case_decide.
Qed.

Lemma channel_name_inj (a b : string) : "bus:session:" +:+ a = "bus:session:" +:+ b → a = b.
Proof. by intros [=]. Qed.

Lemma messages_of_session sid evs b msgs :
  redis_delivers sid (drop (length (ab_channel b)) (ab_channel (publish_all evs b))) msgs →
  msgs = RawMsg "subscribe" None :: map (λ ev, RawMsg "message" (Some ev)) (of_session sid evs).
Proof.
  intros ->. rewrite publish_all_channel, drop_app_length. f_equal.
  unfold channel_entries, of_session. induction evs as [|[sid' ev] evs IH]; [done|]. cbn [omap list_omap].
  destruct (decide (ev_type ev = TOKEN)).
  - destruct (decide (sid' = sid)); apply IH.
  - cbn [omap list_omap].
    destruct (decide (sid' = sid)) as [->|Hne].
    + rewrite decide_True by done. cbn [map]. f_equal. apply IH.
    + rewrite decide_False by (intros H%channel_name_inj; done). apply IH.
Qed.

Lemma subscribe_until_ended evs :
  subscribe_session (RawMsg "subscribe" None :: map (λ ev, RawMsg "message" (Some ev)) evs) = until_ended evs.
Proof.
  cbn [subscribe_session rm_type]. rewrite bool_decide_false by discriminate. cbn [negb].
  induction evs as [|ev evs IH]; [done|]. cbn [map subscribe_session rm_type rm_data until_ended].
  rewrite bool_decide_true by done. cbn [negb]. f_equal. destruct (is_ended_event ev); [done|apply IH].
Qed.

(** *** The state along the events *)
Definition tokens_in_state (st : app_state) : option Z := us_token_count <$> as_session st.
Definition status_in_state (aid : string) (st : app_state) : option string :=
  s ← as_session st; ai_status <$> dict_get aid (us_agents s).

Lemma log_event_same now a b c st :
  tokens_in_state (log_event now a b c st) = tokens_in_state st ∧
  ∀ aid, status_in_state aid (log_event now a b c st) = status_in_state aid st.
Proof. destruct st as [ui pr [s|]]; done. Qed.

Lemma set_agent_status_other aid aid' v st :
  aid ≠ aid' → status_in_state aid (set_agent_status aid' v st) = status_in_state aid st.
Proof.
  intros Hne. destruct st as [ui pr [s|]]; [|done]. unfold status_in_state, set_agent_status, on_session. cbn.
  destruct (dict_get aid' (us_agents s)) eqn:E; [|done]. cbn. rewrite dict_get_set. by rewrite decide_False.
Qed.

Lemma set_agent_status_self aid v st :
  is_Some (status_in_state aid st) → status_in_state aid (set_agent_status aid v st) = Some v.
Proof.
  destruct st as [ui pr [s|]]; unfold status_in_state, set_agent_status, on_session; cbn; [|by intros []].
  destruct (dict_get aid (us_agents s)) as [a|] eqn:E; [|by intros []]. intros _. cbn.
  rewrite dict_get_set, decide_True by done. done.
Qed.

Lemma mark_agent_spec v agent_id aid st w :
  aid ≠ "" → status_in_state aid st = Some w →
  tokens_in_state (mark_agent v agent_id st).1 = tokens_in_state st ∧
  status_in_state aid (mark_agent v agent_id st).1 = Some (if decide (agent_id = Some aid) then v else w).
Proof.
  intros Ha Hw. unfold mark_agent. destruct (known_agent st agent_id) as [aid'|] eqn:Hk.
  - assert (agent_id = Some aid') as ->.
    { unfold known_agent in Hk. destruct (as_session st), agent_id; try done. case_match; congruence. }
    cbn [fst]. split; [apply set_agent_status_tokens|]. destruct (decide (aid' = aid)) as [->|Hne].
    + rewrite decide_True by done. by apply set_agent_status_self.
    + rewrite decide_False by congruence. by rewrite set_agent_status_other.
  - split; [done|]. cbn [fst]. rewrite decide_False; [done|]. intros ->. unfold known_agent in Hk.
    unfold status_in_state in Hw. destruct (as_session st) as [s|]; [|done]. cbn in Hw.
    destruct (dict_get aid (us_agents s)) eqn:E; [|done]. rewrite (proj2 (truthy_true aid)) in Hk by done. discriminate.
Qed.

Definition status_of (st : app_state) : option string := us_status <$> as_session st.

(** What the interface keeps of the events: tokens, the status of an agent and
    the status of the session. *)
Definition shows (aid : string) (n : Z) (v w : string) (st : app_state) : Prop :=
  tokens_in_state st = Some n ∧ status_in_state aid st = Some v ∧ status_of st = Some w.

Lemma log_event_shows aid now a b c st n v w :
  shows aid n v w st → shows aid n v w (log_event now a b c st).
Proof. by destruct st as [ui pr [s|]]. Qed.

Lemma upsert_patch_shows aid now d st n v w : shows aid n v w st → shows aid n v w (upsert_patch now d st).
Proof. by destruct st as [ui pr [s|]]. Qed.

Lemma add_tokens_shows aid k st n v w : shows aid n v w st → shows aid (n + k) v w (add_tokens k st).
Proof. destruct st as [ui pr [s|]]; [|by intros [[=] _]]. by intros ([= <-] & Hv & Hw). Qed.

Lemma mark_agent_shows aid u agent_id st n v w :
  aid ≠ "" → shows aid n v w st →
  shows aid n (if decide (agent_id = Some aid) then u else v) w (mark_agent u agent_id st).1.
Proof.
  intros Ha (Hn & Hv & Hw). destruct (mark_agent_spec u agent_id aid st v Ha Hv) as [Ht Hs].
  unfold shows. rewrite Ht, Hs. split_and!; [done|done|].
  unfold mark_agent. destruct (known_agent st agent_id) as [aid'|]; [|done]. cbn [fst].
  destruct st as [ui pr [s|]]; [|done]. unfold status_of in *. cbn in Hw |- *.
  by destruct (dict_get aid' (us_agents s)).
Qed.

Lemma work_complete_shows aid now agent_id p st n v w :
  aid ≠ "" → shows aid n v w st →
  shows aid (n + event_tokens p) (if decide (agent_id = Some aid) then "done" else v) w
    (on_work_complete now agent_id p st).1.
Proof.
  intros Ha H. unfold on_work_complete. apply (mark_agent_shows aid "done" agent_id _ _ _ _ Ha) in H.
  destruct (mark_agent "done" agent_id st) as [st' r]. cbn [fst] in H.
  destruct (has_tokens p) eqn:Ep; cbn [fst]; [by apply add_tokens_shows, log_event_shows|].
  assert (event_tokens p = 0%Z) as ->; [|rewrite Z.add_0_r; by apply log_event_shows].
  unfold has_tokens in Ep. breflect. unfold event_tokens. lia.
Qed.

Lemma work_failed_shows aid now agent_id p st n v w :
  aid ≠ "" → shows aid n v w st →
  shows aid n (if decide (agent_id = Some aid) then "failed" else v) w (on_work_failed now agent_id p st).1.
Proof.
  intros Ha H. unfold on_work_failed. apply (mark_agent_shows aid "failed" agent_id _ _ _ _ Ha) in H.
  destruct (mark_agent "failed" agent_id st) as [st' r]. by apply log_event_shows.
Qed.

Lemma on_status_shows aid p st n v w :
  shows aid n v w st →
  shows aid n v (if bool_decide (wp_lifecycle p = Some "ended") then "ended" else w) (on_status p st).1.
Proof.
  intros H. unfold on_status. case_bool_decide; [|done].
  destruct st as [ui pr [s|]]; [by destruct H as (? & ? & _)|by destruct H as [[=] _]].
Qed.

Definition session_status_by (w : string) (ev : ws_event) : string := if is_ended_event ev then "ended" else w.

Ltac closed_bool_decide :=
  repeat match goal with
  | |- context [bool_decide (?x = ?y)] =>
      first [rewrite (bool_decide_false (x = y)) by discriminate | rewrite (bool_decide_true (x = y)) by reflexivity]
  end.

Lemma event_shows aid now ev st n v w :
  aid ≠ "" → shows aid n v w st →
  shows aid (n + tokens_reported ev) (status_by aid v ev) (session_status_by w ev)
    (handle_ws_event now (model_dump ev) st).1.
Proof.
  intros Ha H. unfold handle_ws_event. destruct (as_session st) as [s|] eqn:Es.
  2: { destruct H as [H _]. unfold tokens_in_state in H. by rewrite Es in H. }
  unfold tokens_reported, status_by, session_status_by, is_ended_event.
  destruct ev as [ty sid' agent p]. cbn [ev_type ev_agent_id ev_payload model_dump sv_type sv_payload sv_agent_id].
  destruct ty; cbn [ws_event_value default from_option id]; closed_bool_decide;
    rewrite ?Z.add_0_r; cbn [andb]; try by case_decide.
  - exact (work_complete_shows aid now agent (sv_payload (model_dump (WSEvent WORK_COMPLETE sid' agent p))) st n v w Ha H).
  - by apply work_failed_shows.
  - case_decide; by apply log_event_shows, upsert_patch_shows.
  - case_decide; by apply log_event_shows.
  - case_decide; exact (on_status_shows aid (sv_payload (model_dump (WSEvent STATUS sid' agent p))) st n v w H).
Qed.

Lemma heartbeat_ignored now st : (handle_ws_event now _ws_heartbeat st).1 = st.
Proof. unfold handle_ws_event. by destruct (as_session st). Qed.

Lemma frames_show aid now evs es st n v w :
  ws_session evs es → aid ≠ "" → shows aid n v w st →
  shows aid (n + total_tokens evs) (foldl (status_by aid) v evs) (foldl session_status_by w evs) (receive now es st).
Proof.
  intros Hs Ha. revert st n v w. induction Hs as [|ev evs es _ IH|evs es _ IH]; intros st n v w H;
    cbn [receive foldl total_tokens foldr].
  - by rewrite Z.add_0_r.
  - rewrite Z.add_assoc. by apply IH, event_shows.
  - rewrite heartbeat_ignored. by apply IH.
Qed.

Lemma ended_status w evs : foldl session_status_by w evs = if existsb is_ended_event evs then "ended" else w.
Proof.
  revert w. induction evs as [|ev evs IH]; intros w; [done|]. cbn [foldl existsb]. rewrite IH.
  unfold session_status_by. by destruct (is_ended_event ev); [destruct (existsb _ _)|].
Qed.

Lemma until_ended_exists l : existsb is_ended_event (until_ended l) = existsb is_ended_event l.
Proof.
  induction l as [|ev l IH]; [done|]. cbn [until_ended existsb]. by destruct (is_ended_event ev).
Qed.


Section loop_facts.
Context {W : Type} (handle : session_event → M W unit).

Lemma mfor_handles (f : session_event → W → W) es :
  (∀ e w, handle e w = (f e w, Ok tt)) → ∀ w, mfor es handle w = (foldl (λ w e, f e w) w es, Ok tt).
Proof.
  intros Hf. induction es as [|e es IH]; intros w; [done|]. cbn [mfor foldl]. unfold mbind. by rewrite Hf, IH.
Qed.

(** The loop does not wait between the connections it makes: the generator of
    the client ends without an exception also when the connection is refused,
    so that the three seconds of the handler are never slept. *)
Theorem the_loop_reconnects_at_once (f : session_event → W → W) conns w :
  (∀ e w, handle e w = (f e w, Ok tt)) →
  _ws_loop handle conns w =
    (foldl (λ w e, f e w) w (concat (map (λ c, omap id (wc_frames c)) conns)), Ok (replicate (length conns) Opened)).
Proof.
  intros Hf. revert w. induction conns as [|c conns IH]; intros w; [done|].
  cbn [_ws_loop map concat]. unfold mbind at 1, ws_round, mtry, stream_session_events, mbind at 1.
  rewrite (mfor_handles f) by done. destruct (wc_ending c); unfold mbind, mret; rewrite IH; by rewrite foldl_app.
Qed.
End loop_facts.

(** ** Tokens *)
Section tokens.
Context {X J : Type} `{!Orchestrator X} `{!Markup conv_entry}.
Context (parse_chunk : string → option chunk) (sse_event event_lines : string → list string).

(** The outbox of an agent whose run ended with the stream [lines]. *)
Definition finished_outbox (lines : list string) : list (option string) :=
  put_outbox None (ss_outbox (stream_loop parse_chunk lines (StreamState "" 0 0 []))).

Lemma empty_outbox : length (ss_outbox (StreamState "" 0 0 [])) ≤ _OUTBOX_MAXSIZE.
Proof. cbn. lia. Qed.

Lemma finished_chunks lines :
  (stream_chunks (finished_outbox lines)).1.1 = take _OUTBOX_MAXSIZE (tokens parse_chunk lines).
Proof.
  unfold finished_outbox. rewrite (proj2 (stream_loop_spec parse_chunk lines _ empty_outbox)).
  cbn [ss_outbox app]. rewrite <- fmap_take. unfold put_outbox. destruct (_ <? _).
  - by rewrite (proj2 (stream_chunks_tokens _)).
  - by rewrite (proj1 (stream_chunks_tokens _)).
Qed.

Lemma finished_generate aid g a lines :
  dict_get aid g = Some a → a_outbox a = finished_outbox lines → is_terminal a = true →
  generate aid g = (take _OUTBOX_MAXSIZE (tokens parse_chunk lines) ++ ["[DONE]"], true).
Proof.
  intros Ha Ho Ht. unfold generate, subscribe_stream. rewrite Ha, Ho. pose proof (finished_chunks lines) as Hc.
  destruct (stream_chunks (finished_outbox lines)) as [[out rest] ended]. cbn in Hc. subst out.
  by rewrite Ht, orb_true_r.
Qed.

(** C21: An agent that was registered within the two seconds of polling and whose
    run ended: its stream, as the session screen reads it, writes the lines of
    its tokens to the log of the conversation, in order, each without the spaces
    around it and up to the size of the outbox, then that the agent is done, and
    counts one token for each; a line that is no Rich markup is counted but not
    written, and ends the stream.  The text the run returned has all the tokens,
    spaces and line breaks included.  (The events are framed as the server frames
    them; no line of a token reads [DONE].) *)
Theorem streamed_answer_is_logged aid role at_poll j g a lines (w : screen X J) n :
  let sent := take _OUTBOX_MAXSIZE (tokens parse_chunk lines) in
  let words := stripped event_lines sent in
  j < 20 → has_agent aid (at_poll j) = true →
  dict_get aid g = Some a → a_outbox a = finished_outbox lines → is_terminal a = true →
  Forall (event_sent sse_event event_lines) sent → sse_event "[DONE]" = ["data: [DONE]"; ""] →
  Forall (λ l, strip l ≠ "[DONE]") (concat (map event_lines sent)) →
  tokens_of w = Some n → (∀ k, renders (CDone role k) = true) →
  ∃ data w', agent_stream aid at_poll g = Ok (data, true) ∧
    _stream_agent aid role (stream_agent_tokens (concat (map sse_event data))) w = (w', Ok tt) ∧
    sc_log w' = sc_log w ++ map CToken (written_tokens words) ++ [CDone role (Z.of_nat (counted_tokens words))] ∧
    tokens_of w' = Some (n + Z.of_nat (counted_tokens words))%Z ∧
    ss_content (stream_loop parse_chunk lines (StreamState "" 0 0 [])) = sconcat (tokens parse_chunk lines).
Proof.
  intros sent words Hj Hr Ha Ho Ht Hs He Hd Hn Hdone.
  destruct (stream_agent_spec aid role words w n Hn Hdone) as (w' & Hw & Hc & Hl & _).
  exists (sent ++ ["[DONE]"]), w'. split_and!; [| |exact Hl|exact Hc|].
  - unfold agent_stream. rewrite (proj2 (poll_agent_true aid at_poll 0 20)) by (exists j; by split; [lia|]).
    by rewrite (finished_generate _ _ _ _ Ha Ho Ht).
  - rewrite <-Hw. f_equal. exact (agent_tokens_are_stripped sse_event event_lines sent Hs He Hd).
  - by rewrite (proj1 (stream_loop_spec parse_chunk lines _ empty_outbox)).
Qed.
End tokens.

Module Concrete.
Definition finished (aid : string) (n m : Z) : ws_event :=
  WSEvent WORK_COMPLETE "s" (Some aid) (Payload None None None [] None None (Some "ok") n m).
Definition failed (aid : string) : ws_event :=
  WSEvent WORK_FAILED "s" (Some aid) (Payload None None None [] (Some "boom") None None 0 0).
Definition ended : ws_event :=
  WSEvent STATUS "s" None (Payload (Some "ended") None None [] None None None 0 0).
Definition log : list (string * ws_event) :=
  [("s", finished "a" 7 5); ("t", finished "a" 100 100); ("s", failed "b"); ("s", ended); ("s", failed "a")].
Definition screen : app_state :=
  upsert_agent 0 (AgentDict "b" None (Some "tester") None None None None None)
    (upsert_agent 0 (AgentDict "a" None (Some "coder") (Some "running") None None None None)
      (init_session 0 "s" "task" None initial_state)).
Definition delivered : list raw_msg :=
  RawMsg "subscribe" None ::
  map (λ ev, RawMsg "message" (Some ev)) [finished "a" 7 5; failed "b"; ended; failed "a"].
Definition frames : list session_event :=
  [model_dump (finished "a" 7 5); _ws_heartbeat; model_dump (failed "b"); model_dump ended].


Definition parse (s : string) : option chunk := Some (Chunk [StreamChoice (Some (nl +:+ " " +:+ s)) None] None).
Definition one_event (t : string) : list string := map (λ l, "data: " +:+ l) (splitlines t) ++ [""].
Definition model_lines : list string := ["data: Hello"; ": ping"; "data: world"; "data: [DONE]"].
Definition coder : agent :=
  _drain_outbox_sentinel
    (Agent "a" "coder" "s" Done None 0 None None None None None [] []
       (ss_outbox (stream_loop parse model_lines (StreamState "" 0 0 [])))).
#[local] Existing Instances TuiServices.Concrete.inbox TuiScreens.Concrete.rich.

Lemma streamed_answer_is_logged_witness :
  ∃ data w', agent_stream "a" (λ i, if i <? 3 then [] else [("a", coder)]) [("a", coder)] = Ok (data, true) ∧
    _stream_agent "a" "coder" (stream_agent_tokens (concat (map one_event data))) TuiScreens.Concrete.scr = (w', Ok tt) ∧
    sc_log w' = [CToken "Hello"; CToken "world"; CDone "coder" 2] ∧
    ss_content (stream_loop parse model_lines (StreamState "" 0 0 [])) = nl +:+ " Hello" +:+ nl +:+ " world".
Proof.
  destruct (streamed_answer_is_logged parse one_event splitlines "a" "coder" (λ i, if i <? 3 then [] else [("a", coder)]) 3
    [("a", coder)] coder model_lines TuiScreens.Concrete.scr 0) as (data & w' & H1 & H2 & H3 & _ & H5);
    try reflexivity; try lia.
  - by repeat constructor.
  - repeat constructor; discriminate.
  - exists data, w'. split_and!; [exact H1|exact H2|exact H3|exact H5].
Defined.

(** Three refused connections: three attempts, no wait. *)
Example refused_connections :
  _ws_loop (λ e, mmodify (receive 1 [e])) (replicate 3 (WsConnection [] (StreamFailed (OtherError "refused")))) screen =
    (screen, Ok [Opened; Opened; Opened]).
Proof. vm_compute. reflexivity. Qed.
End Concrete.
